(* ===== verification/_CoqProject ===== *)
-Q . S2P
Prelude.v
JsNumber.v
Buffers.v
Web3.v
Sample.v
Program.v
Chain.v
Processor.v
StakeChain.v
StakeProcessor.v
Effects.v
SampleChain.v
Pool.v
SampleStakes.v
StakeEffects.v
Instructions.v
SamplePool.v
Wire.v
Readers.v
Operations.v
Accounts.v
Delegation.v
Stakes.v
Creditors.v
OnChain.v
Cli.v
Scripts.v
Ledger.v
Layouts.v
Lending.v
Actions.v
Cache.v
Tokens.v
UserAccounts.v
Market.v
Utils.v
Forms.v
Formats.v
Storage.v
Wallets.v
Contexts.v
Subscriptions.v
ServiceWorker.v
Session.v
