(* ===== verification/Prelude.v ===== *)
(** * Verification of the Marinade / Tenderize staking pool

    The repository is a liquid staking pool on Solana: an on-chain program in Rust
    (program/src) and its clients in TypeScript.  This development models both and
    proves what they do, alone and together:

    - the class [TenderizeProgram] of experiment/tenderize.ts, which derives the pool's
      addresses, builds every instruction, reads the pool's accounts, delegates the
      reserve, merges and stops stakes and pays creditors; the command line
      (experiment/cli.ts) and the driver (experiment/main.ts, experiment/tester.ts)
      that call it;
    - the web client (src): its binary layouts (utils/layout.ts), its view of the pool
      and its messages (models/lending), its actions (actions, models/account.ts and
      [sendTransaction] of contexts/connection.tsx), its caches and the user's accounts
      (contexts/accounts.tsx, hooks), the markets it observes (contexts/market.tsx,
      models/dex), its networks and the pool's state (contexts/connection.tsx and
      tenderize.tsx), its wallets (contexts/wallet.tsx, wallet-adapters), and its forms
      and the amounts they compute (components, hooks, utils/utils.ts).

    - the program: its instructions and accounts in bytes (instruction.rs, state.rs), its
      errors (error.rs), every handler of processor.rs and the dispatcher, with every
      guard and every call of the system, token and stake programs.

    ** How the code is modelled

    A computation that may throw is a [result]; asynchronous code is a state monad over
    the cluster and a log of what was submitted ([M (Client W)] in Web3.v, [M (Browser W)]
    in Actions.v, [M (Ledger D)] and [M Wallet] in Ledger.v, [M CacheState] in Cache.v): an
    error does not undo what was submitted before it.  Loops are [for_of] (with [break] and [continue]),
    [for_each], [map_async] and [for_result] of this file.  A [number] is an IEEE double
    ([spec_float], JsNumber.v) with the operations the sources use, and theorems say
    where the arithmetic is exact; a [bigint] is an integer.  A buffer is a list of
    bytes and its writes are range-checked (Buffers.v).  JavaScript's equality of
    objects is equality of references (Web3.v).  A React provider is its state and one
    operation per callback, effect and reply; where the order of replies matters it is a
    step relation (the caches, the subscriptions to markets, the wallet provider) and the
    theorems are about every reachable state.

    The program runs in a state and error monad [P] over a bank of accounts (Chain.v): an
    error undoes everything, as it does on the chain.  Its u64 additions and subtractions
    wrap around, as they do in the release build the cluster runs; where the code uses
    checked operations they fail.

    Code outside the repository is a class: keys and address derivation ([Keys]), the
    RPC connection ([Connection]), lodash, the shell and key files, the Ledger's
    transport, buffer-layout, bn.js, the token library and the wallet; for the program the
    runtime with the system and token programs ([Runtime]) and the stake program
    ([StakeRuntime]).  What the sources rely on is a law class beside it; Sample.v,
    SamplePool.v, SampleChain.v, SampleStakes.v and the ends of the other files give
    concrete instances in which all laws hold, on which every theorem with hypotheses is
    instantiated.

    ** Files

    - Prelude: errors, results, the monad, loops, lists, automation.
    - JsNumber: doubles; exactness of sums, products and quotients of safe integers.
    - Buffers: Node.js buffers.
    - Web3: keys, transactions, the connection, what "submits nothing" means.
    - Sample, SamplePool: a concrete cluster and pool.
    - Program: the program's errors, instructions, account lists and account layouts.
    - Chain: the runtime the program runs on, and what the system and token programs do.
    - Processor: the program's handling of money: prices, the credit list, and the handlers
      of initialisation, validators, deposits, withdrawals, credits and payments.
    - StakeChain, StakeProcessor: the stake program; the handlers of updates, delegations,
      merges and unstakes, the dispatcher, and the specification of the stake counts.
    - Effects: what a successful handler did to balances, tokens and accounts.
    - SampleChain, SampleStakes: a concrete runtime and stake program.
    - Pool: solvency of the pool through any sequence of steps, the price of a token, what
      depositors and creditors can rely on, and what missing checks allow.
    - StakeEffects: totals after an update, refinement of the stake counts by merges and
      unstakes, the reserve under delegations, and a balance that is not written back.
    - Instructions: addresses and instruction builders of [TenderizeProgram].
    - Wire: every message is decoded by the program as it was meant.
    - Readers: [parseState], [readState], [readValidators], [readCreditors]; what the
      program serialises is what they read.
    - Operations: the operations that submit one transaction each, and [updatePool].
    - Accounts: every message has the accounts the processor takes, with their
      privileges, and every transaction carries the signatures it needs.
    - Delegation: [delegateReserveBatch] on doubles against an integer plan.
    - Stakes: [mergeAllStakes] and [unstake] against the index checks of the processor; what
      OnChain takes to the handlers.
    - Creditors: [payCreditors] and [payAllCreditors] against the processor's loop.
    - OnChain: client and program composed: the messages of deposits, withdrawals, merges and
      unstakes from their bytes through the dispatcher to what the handlers do.
    - Cli: [run] of the command line from the parsed arguments on.
    - Scripts: the driver and its tester.
    - Ledger: the chunked protocol, derivation paths, and the adapter as a state machine.
    - Layouts: public keys and unsigned integers in accounts and messages.
    - Lending: the web client's layout and messages, compared with the experiment's.
    - Actions: the transactions the web client asks the wallet to sign.
    - Cache: the web client's account cache as a state machine, and the request for many
      accounts at once.
    - Tokens: the parsers of token accounts, mints, order books and markets, which give the
      cache the types of its accounts.
    - UserAccounts: the typed cache, the user's accounts selected from it, loaded into it and
      followed by subscriptions; the hooks; the mint and transaction caches.
    - Market: markets of mints, what is queried for them, reference counts of observed
      accounts against a multiset, prices.
    - Utils: lamports and units on doubles, texts of numbers, names of tokens.
    - Forms: the numeric field, the sliders, the user's balance, and the buttons of
      deposits and withdrawals down to the transactions offered to the wallet.
    - Storage: state kept in [localStorage] as JSON.
    - Wallets: the interface of wallet adapters with its laws, which the Solong and the
      Ledger adapter are shown to satisfy, and the wallet provider against that interface.
    - Contexts: networks, known tokens, changing the network; the pool's state and price
      from the program's bytes on; small views.
    - Formats: texts of amounts with a given number of decimals, abbreviations, icons.
    - Subscriptions: what the nested providers have open on the sockets, through changes of
      the network, the wallet and the cache; the slippage setting.
    - ServiceWorker: which pages count as local, and the registration of a worker as a state
      machine.
    - Session: the components composed, from a reachable cache and the slider to the
      transaction the wallet is asked to sign.

    ** Fuel

    Four loops of the sources have no structural bound.  [pay_loop] (of [payAllCreditors])
    needs one unit of fuel per creditor, shown by [payAllCreditors_ends] as long as
    paying does not lengthen the list; [send_more] (of [ledgerSend]) needs one unit per
    255 bytes, shown by [signBytes_delivers].  Both return [None] only when the fuel is
    used up.  [update_validators] (of [process_update_list_balance]) is given as much fuel
    as there are accounts; more changes nothing, shown by [update_validators_fuel].
    [airdrops] (of [ensureFunds]) needs one unit per 10 SOL that are missing, shown by
    [ensureFunds_ends] for a faucet that pays.

    ** Not modelled

    Rendering (views/home, views/discover and the markup of the other components), which
    React effect runs again when, except where a state machine says so, the Intl
    formatters of utils/utils.ts, [rustString] of utils/layout.ts, which nothing uses,
    console output, commitment options, the argument parser, interleavings inside one call
    of the Ledger adapter; of the program, log messages, the compute budget, the warmup and
    cooldown formulas copied into stake.rs, which nothing uses, and the serialisation of
    instructions in Rust, which only its tests use. *)

(** Prelude: JavaScript errors and results, the monad of asynchronous client
    code, loops with [break] and [continue], lists and automation. *)

From Stdlib Require Import ZArith Lia SpecFloat.
From stdpp Require Import base list strings sets.

Open Scope Z_scope.

(** ** Errors and results *)

(** A value interpolated into an error message. *)
Inductive msg_arg :=
  | ANum (x : spec_float)
  | AStr (s : string).

(** What JavaScript code can throw: an [Error] built by the sources, the
    [RangeError]s and [TypeError]s of the language, and whatever a promise of
    a library was rejected with. *)
Inductive js_error :=
  | JsError (msg : string) (args : list msg_arg)
  | RangeError
  | TypeError
  | Rejected (code : Z).

Inductive result (A : Type) :=
  | Ok (a : A)
  | Err (e : js_error).
Arguments Ok {A} a.
Arguments Err {A} e.

Definition is_ok {A} (r : result A) : bool :=
  match r with Ok _ => true | Err _ => false end.

#[global] Instance result_ret : MRet result := @Ok.
#[global] Instance result_bind : MBind result :=
  λ A B f m, match m with Ok a => f a | Err e => Err e end.

(** ** Asynchronous client code

    A computation reads and changes an environment [S] (the network and what
    was sent to it) and ends with a value or a thrown error; the changes made
    before the error stay. *)
Definition M (S A : Type) : Type := S → result A * S.

#[global] Instance M_ret {S} : MRet (M S) := λ A a s, (Ok a, s).
#[global] Instance M_bind {S} : MBind (M S) :=
  λ A B f m s, match m s with
               | (Ok a, s') => f a s'
               | (Err e, s') => (Err e, s')
               end.

Definition throw {S A} (e : js_error) : M S A := λ s, (Err e, s).

(** Synchronous code inside asynchronous code. *)
Definition lift {S A} (r : result A) : M S A := λ s, (r, s).

(** [try { m } catch (e) { h e }]: the environment is not rolled back. *)
Definition catch {S A} (m : M S A) (h : js_error → M S A) : M S A :=
  λ s, match m s with
       | (Ok a, s') => (Ok a, s')
       | (Err e, s') => h e s'
       end.

(** ** Loops

    [for (const x of xs)]: the body gets the loop's variables and says whether
    the loop goes on (falling through or [continue]) or stops ([break]). *)
Inductive step (B : Type) :=
  | Continue (b : B)
  | Break (b : B).
Arguments Continue {B} b.
Arguments Break {B} b.

Fixpoint for_of {S A B} (xs : list A) (b : B) (body : B → A → M S (step B)) : M S B :=
  match xs with
  | [] => mret b
  | x :: xs' =>
      r ← body b x;
      match r with
      | Continue b' => for_of xs' b' body
      | Break b' => mret b'
      end
  end.

(** A loop without [break] and without variables of its own. *)
Fixpoint for_each {S A} (xs : list A) (body : A → M S unit) : M S unit :=
  match xs with
  | [] => mret tt
  | x :: xs' => _ ← body x; for_each xs' body
  end.

(** A loop that pushes one value per element, in order. *)
Fixpoint map_async {S A B} (f : A → M S B) (xs : list A) : M S (list B) :=
  match xs with
  | [] => mret []
  | x :: xs' => y ← f x; ys ← map_async f xs'; mret (y :: ys)
  end.

Fixpoint map_result {A B} (f : A → result B) (xs : list A) : result (list B) :=
  match xs with
  | [] => mret []
  | x :: xs' => y ← f x; ys ← map_result f xs'; mret (y :: ys)
  end.

(** A loop of synchronous code that may throw. *)
Fixpoint for_result {A B} (xs : list A) (b : B) (body : B → A → result B) : result B :=
  match xs with
  | [] => mret b
  | x :: xs' => b' ← body b x; for_result xs' b' body
  end.

(** ** Inversion and execution of binds *)

Lemma result_bind_Ok {A B} (m : result A) (f : A → result B) b :
  m ≫= f = Ok b ↔ ∃ a, m = Ok a ∧ f a = Ok b.
Proof. unfold mbind, result_bind. destruct m; split; [eauto|by intros (? & [= ->] & ?)|done|by intros (? & ? & ?)]. Qed.

Lemma bind_run {S A B} (m : M S A) (f : A → M S B) s a s' :
  m s = (Ok a, s') → (m ≫= f) s = f a s'.
Proof. intros H. unfold mbind, M_bind. by rewrite H. Qed.

Lemma bind_err {S A B} (m : M S A) (f : A → M S B) s e s' :
  m s = (Err e, s') → (m ≫= f) s = (Err e, s').
Proof. intros H. unfold mbind, M_bind. by rewrite H. Qed.

Lemma bind_inv {S A B} (m : M S A) (f : A → M S B) s b s'' :
  (m ≫= f) s = (Ok b, s'') →
  ∃ a s', m s = (Ok a, s') ∧ f a s' = (Ok b, s'').
Proof. unfold mbind, M_bind. destruct (m s) as [[a|e] s'] eqn:E; naive_solver. Qed.

Lemma lift_bind {S A B} (r : result A) (f : A → M S B) s :
  (lift r ≫= f) s = match r with Ok a => f a s | Err e => (Err e, s) end.
Proof. by destruct r. Qed.

Lemma ret_bind {S A B} (a : A) (f : A → M S B) s : (mret a ≫= f) s = f a s.
Proof. done. Qed.

Create Rewrite HintDb run.
Create Rewrite HintDb len.
#[export] Hint Rewrite @lift_bind @ret_bind : run.

(** Inverts a successful run of a sequence of binds. *)
Ltac inv_bind H :=
  let a := fresh "a" in let s := fresh "s" in let E := fresh "E" in
  apply bind_inv in H as (a & s & E & H).

(** ** Lists *)

Definition sum_list_Z (l : list Z) : Z := foldr Z.add 0 l.

Lemma sum_list_Z_app l k : sum_list_Z (l ++ k) = sum_list_Z l + sum_list_Z k.
Proof. induction l; simpl; lia. Qed.

Lemma foldl_add_sum l a : foldl Z.add a l = a + sum_list_Z l.
Proof. revert a; induction l as [|x l IH]; intros a; simpl; [lia|]. rewrite IH. lia. Qed.

Lemma map_result_Ok {A B} (f : A → result B) (g : A → B) xs :
  (∀ x, x ∈ xs → f x = Ok (g x)) → map_result f xs = Ok (g <$> xs).
Proof.
  induction xs as [|x xs IH]; intros H; [done|]. simpl.
  rewrite H by set_solver. simpl. rewrite IH by set_solver. done.
Qed.

Lemma map_async_lift {S A B} (f : A → M S B) (g : A → B) xs s :
  (∀ x, x ∈ xs → f x s = (Ok (g x), s)) → map_async f xs s = (Ok (g <$> xs), s).
Proof.
  induction xs as [|x xs IH]; intros H; [done|]. simpl.
  erewrite bind_run by (apply H; set_solver).
  erewrite bind_run by (apply IH; set_solver). done.
Qed.

(** A loop over indices that reads back a list. *)
Lemma map_result_seq {A} (f : nat → result A) xs :
  (∀ i x, xs !! i = Some x → f i = Ok x) → map_result f (seq 0 (length xs)) = Ok xs.
Proof.
  intros Hf. assert (Hk : ∀ k ys, drop k xs = ys → map_result f (seq k (length ys)) = Ok ys).
  { intros k ys. revert k; induction ys as [|y ys IH]; intros k Hd; [done|]. simpl.
    assert (Hy : xs !! k = Some y).
    { rewrite <- (Nat.add_0_r k), <- lookup_drop, Hd. done. }
    rewrite (Hf k y Hy). simpl. rewrite IH; [done|].
    by rewrite <- (Nat.add_1_r k), <- drop_drop, Hd. }
  by apply (Hk 0%nat).
Qed.

(** The record at an index of a concatenation of records of one size. *)
Lemma concat_lookup {A} (rs : list (list A)) size i r :
  rs !! i = Some r → (∀ x, x ∈ rs → length x = size) →
  ∃ before after, concat rs = before ++ r ++ after ∧ length before = (size * i)%nat.
Proof.
  intros Hi Hs. exists (concat (take i rs)), (concat (drop (S i) rs)). split.
  - rewrite <- (take_drop_middle rs i r Hi) at 1. by rewrite concat_app.
  - apply lookup_lt_Some in Hi as Hlt.
    assert (Hlen : ∀ l : list (list A), (∀ x, x ∈ l → length x = size) → length (concat l) = (size * length l)%nat).
    { induction l as [|x l IHl]; intros Hx; [simpl; lia|]. cbn [concat length]. rewrite length_app, IHl by set_solver.
      rewrite (Hx x) by set_solver. lia. }
    rewrite Hlen, length_take by (intros x (j & Hj & _)%elem_of_take; eapply Hs, list_elem_of_lookup_2, Hj).
    lia.
Qed.

(** Every turn of a loop that ended normally ended normally. *)
Lemma for_result_turn {A B} (xs : list A) (b b' : B) f x :
  for_result xs b f = Ok b' → x ∈ xs → ∃ b1 b2, f b1 x = Ok b2.
Proof.
  revert b; induction xs as [|y xs IH]; intros b Hf Hx; [set_solver|].
  apply result_bind_Ok in Hf as (b1 & Hy & Hf).
  apply elem_of_cons in Hx as [->|Hx]; eauto.
Qed.

(** Inverts a successful run of a sequence of binds of synchronous code. *)
Ltac inv_result H :=
  repeat (let a := fresh "a" in let E := fresh "E" in
          apply result_bind_Ok in H as (a & E & H); try first [destruct a as [[? ?] ?] | destruct a as [? ?]]).

(** An invariant of a loop. *)
Lemma for_result_inv {A B} (P : B → Prop) (xs : list A) b b' f :
  P b → (∀ b1 x b2, P b1 → f b1 x = Ok b2 → P b2) → for_result xs b f = Ok b' → P b'.
Proof.
  intros Hb Hf. revert b Hb; induction xs as [|x xs IH]; intros b Hb Hr.
  { by injection Hr as <-. }
  apply result_bind_Ok in Hr as (b1 & Hx & Hr). eauto.
Qed.

(** A loop whose turns all end normally ends normally.  [I] holds while it goes on,
    [J] after a [break] and at the end. *)
Lemma for_of_run_break {S A B} (I J : B → S → Prop) (xs : list A) b s body :
  I b s → (∀ b s, I b s → J b s) →
  (∀ b s x, x ∈ xs → I b s → ∃ r s', body b x s = (Ok r, s') ∧
     match r with Continue b' => I b' s' | Break b' => J b' s' end) →
  ∃ b' s', for_of xs b body s = (Ok b', s') ∧ J b' s'.
Proof.
  intros HI HJ. revert b s HI; induction xs as [|x xs IH]; intros b s HI Hbody; [eexists _, _; by auto|].
  simpl. destruct (Hbody b s x) as (r & s1 & Hr & HI1); [set_solver|done|].
  erewrite bind_run by done. destruct r as [b1|b1].
  - apply IH; [done|]. intros. apply Hbody; [set_solver|done].
  - by eexists _, _.
Qed.

Lemma for_of_run {S A B} (I : B → S → Prop) (xs : list A) b s body :
  I b s →
  (∀ b s x, x ∈ xs → I b s → ∃ r s', body b x s = (Ok r, s') ∧
     match r with Continue b' | Break b' => I b' s' end) →
  ∃ b' s', for_of xs b body s = (Ok b', s') ∧ I b' s'.
Proof.
  intros HI Hbody. apply (for_of_run_break I I); [done|done|].
  intros b1 s1 x Hx H1. destruct (Hbody b1 s1 x Hx H1) as ([]&?&?&?); by eexists _, _.
Qed.

Lemma map_result_inv {A B} (f : A → result B) xs ys :
  map_result f xs = Ok ys → Forall2 (λ x y, f x = Ok y) xs ys.
Proof.
  revert ys; induction xs as [|x xs IH]; intros ys Hr.
  { injection Hr as <-. constructor. }
  apply result_bind_Ok in Hr as (y & Hy & Hr). apply result_bind_Ok in Hr as (ys' & Hys & Hr).
  injection Hr as <-. constructor; auto.
Qed.

Lemma elem_of_concat {A} (ls : list (list A)) l x : l ∈ ls → x ∈ l → x ∈ concat ls.
Proof.
  intros Hl Hx. induction ls as [|k ls IH]; [set_solver|]. simpl. apply elem_of_app.
  apply elem_of_cons in Hl as [->|Hl]; auto.
Qed.

Lemma Forall2_fmap_each {A B} (P : A → B → Prop) (f : A → B) l :
  (∀ x, P x (f x)) → Forall2 P l (f <$> l).
Proof. intros Hf. induction l; constructor; auto. Qed.

Lemma Forall2_impl_in {A B} (P Q : A → B → Prop) l k :
  Forall2 P l k → (∀ x y, x ∈ l → P x y → Q x y) → Forall2 Q l k.
Proof.
  induction 1 as [|x y l k Hxy _ IH]; intros Hpq; constructor; [apply Hpq; set_solver|].
  apply IH. intros. apply Hpq; set_solver.
Qed.

Lemma for_each_ext {S A} (xs : list A) (f g : A → M S unit) s :
  (∀ x s, x ∈ xs → f x s = g x s) → for_each xs f s = for_each xs g s.
Proof.
  revert s; induction xs as [|x xs IH]; intros s Hfg; [done|]. simpl.
  unfold mbind, M_bind. rewrite Hfg by set_solver. destruct (g x s) as [[]?]; [|done].
  apply IH. intros. apply Hfg. set_solver.
Qed.
