(* ===== verification/JsNumber.v ===== *)
(** * JavaScript numbers

    A JavaScript [number] is an IEEE 754 binary64 value: the Standard Library's
    [spec_float] with 53 bits of precision.  This file gives the operations the
    sources use and shows where they agree with integer arithmetic: on safe
    integers ([Number.MAX_SAFE_INTEGER] and below) addition, subtraction,
    comparison, [Math.min] and [Math.max] are exact, and [Math.ceil] of a
    quotient is the exact ceiling for dividends below [2^52]. *)

From Stdlib Require Import ZArith Lia SpecFloat.
From stdpp Require Import base list strings sets.
From S2P Require Import Prelude.

Open Scope Z_scope.

Abbreviation num := spec_float.

Abbreviation prec := 53%Z.
Abbreviation emax := 1024%Z.

(** ** Operations *)

(** The number with an integer value, rounded to nearest even: an integer
    literal, or [Number(z)] of a [bigint]. *)
Definition num_of_Z (z : Z) : num := binary_normalize prec emax z 0 false.

Definition num_add : num → num → num := SFadd prec emax.
Definition num_sub : num → num → num := SFsub prec emax.
Definition num_mul : num → num → num := SFmul prec emax.
Definition num_div : num → num → num := SFdiv prec emax.
Definition num_opp : num → num := SFopp.
Definition num_ltb (x y : num) : bool := SFltb x y.
Definition num_leb (x y : num) : bool := SFleb x y.
Definition num_eqb (x y : num) : bool := SFeqb x y.

(** A number in a condition: zeros and [NaN] are falsy. *)
Definition truthy (x : num) : bool :=
  match x with S754_zero _ | S754_nan => false | _ => true end.

Definition signed (s : bool) (m : positive) : Z := if s then Zneg m else Zpos m.

(** The integers next to [± m * 2^e]. *)
Definition floor_Z (s : bool) (m : positive) (e : Z) : Z :=
  if 0 <=? e then signed s m * 2 ^ e else signed s m / 2 ^ (- e).
Definition ceil_Z (s : bool) (m : positive) (e : Z) : Z :=
  if 0 <=? e then signed s m * 2 ^ e else - (signed (negb s) m / 2 ^ (- e)).
(** Ties go up, as [Math.round] does. *)
Definition round_Z (s : bool) (m : positive) (e : Z) : Z :=
  if 0 <=? e then signed s m * 2 ^ e
  else (2 * signed s m + 2 ^ (- e)) / (2 * 2 ^ (- e)).

(** The integer [z] as the result of rounding a number of sign [s]: a zero
    keeps the sign. *)
Definition rounded (s : bool) (z : Z) : num := binary_normalize prec emax z 0 s.

Definition Math_floor (x : num) : num :=
  match x with S754_finite s m e => rounded s (floor_Z s m e) | _ => x end.
Definition Math_ceil (x : num) : num :=
  match x with S754_finite s m e => rounded s (ceil_Z s m e) | _ => x end.
Definition Math_round (x : num) : num :=
  match x with S754_finite s m e => rounded s (round_Z s m e) | _ => x end.
Definition Math_abs : num → num := SFabs.

Definition Math_min (x y : num) : num :=
  match SFcompare x y with
  | None => S754_nan
  | Some Lt => x
  | Some Gt => y
  | Some Eq => match x with S754_zero true => x | _ => y end
  end.
Definition Math_max (x y : num) : num :=
  match SFcompare x y with
  | None => S754_nan
  | Some Lt => y
  | Some Gt => x
  | Some Eq => match x with S754_zero false => x | _ => y end
  end.

(** [BigInt(x)]: only integers convert. *)
Definition BigInt (x : num) : result Z :=
  match x with
  | S754_zero _ => Ok 0
  | S754_finite s m e =>
      let z := floor_Z s m e in
      if z =? ceil_Z s m e then Ok z else Err RangeError
  | _ => Err RangeError
  end.

(** Integers below [2^53]: the ones a number holds exactly, and the next too. *)
Definition safe (z : Z) : Prop := - 2 ^ 53 < z < 2 ^ 53.

(** ** Exactness on safe integers *)

(** The representation of a positive safe integer. *)
Definition canon (s : bool) (z : Z) : num :=
  S754_finite s (Z.to_pos (z * 2 ^ (52 - Z.log2 z))) (Z.log2 z - 52).

Lemma digits2_log2 p : Zpos (digits2_pos p) = Z.log2 (Zpos p) + 1.
Proof.
  induction p as [p IH|p IH|]; simpl digits2_pos; [| |done].
  - rewrite Pos2Z.inj_succ, IH, Pos2Z.inj_xI, Z.log2_succ_double by lia. lia.
  - rewrite Pos2Z.inj_succ, IH, Pos2Z.inj_xO, Z.log2_double by lia. lia.
Qed.

Lemma iter_xO p d : Zpos (Pos.iter xO p d) = Zpos p * 2 ^ Zpos d.
Proof.
  induction d as [|d IH] using Pos.peano_ind.
  - simpl. lia.
  - rewrite Pos.iter_succ, Pos2Z.inj_xO, IH, Pos2Z.inj_succ, Z.pow_succ_r by lia. lia.
Qed.

Lemma iter_pos_iter (A : Type) (f : A → A) n x : SpecFloat.iter_pos f n x = Nat.iter (Pos.to_nat n) f x.
Proof.
  revert x; induction n as [n IH|n IH|]; intros x; [| |done]; cbn [SpecFloat.iter_pos];
    rewrite !IH, ?Pos2Nat.inj_xI, ?Pos2Nat.inj_xO, <- Nat.iter_add.
  - rewrite <- Nat.iter_succ_r. f_equal. lia.
  - f_equal. lia.
Qed.

(** Shifting out zero bits is exact. *)
Lemma shr_1_even p :
  shr_1 (Build_shr_record (Zpos (xO p)) false false) = Build_shr_record (Zpos p) false false.
Proof. done. Qed.

Lemma shr_exact k n :
  Nat.iter n shr_1 (Build_shr_record (Zpos k * 2 ^ Z.of_nat n) false false)
  = Build_shr_record (Zpos k) false false.
Proof.
  induction n as [|n IH]; [simpl; by rewrite Z.mul_1_r|].
  rewrite Nat.iter_succ_r, Nat2Z.inj_succ, Z.pow_succ_r by lia.
  replace (Zpos k * (2 * 2 ^ Z.of_nat n)) with (2 * (Zpos k * 2 ^ Z.of_nat n)) by lia.
  destruct (Zpos k * 2 ^ Z.of_nat n) as [|q|q] eqn:E; [nia| |nia].
  change (2 * Zpos q) with (Zpos (xO q)). by rewrite shr_1_even, IH.
Qed.

Lemma shr_exact_Z k n e m :
  0 <= n → m = Zpos k * 2 ^ n →
  shr (Build_shr_record m false false) e n = (Build_shr_record (Zpos k) false false, e + n).
Proof.
  intros Hn ->. destruct n as [|n|n]; [|simpl|lia].
  - simpl. by rewrite Z.mul_1_r, Z.add_0_r.
  - rewrite iter_pos_iter.
    pose proof (shr_exact k (Pos.to_nat n)) as H. rewrite positive_nat_Z in H. by rewrite H.
Qed.

Lemma log2_shift z n : 0 < z → 0 <= n → Z.log2 (z * 2 ^ n) = Z.log2 z + n.
Proof. intros. rewrite Z.log2_mul_pow2 by lia. lia. Qed.

Lemma fexp_normal d : -1021 <= d → fexp prec emax d = d - 53.
Proof. intros. unfold fexp, emin. lia. Qed.

(** The rounding of a 53-bit mantissa at its own exponent changes nothing. *)
Lemma round_aux_canon s k e :
  Z.log2 (Zpos k) = 52 → -1074 <= e <= 971 →
  binary_round_aux prec emax s (Zpos k) e loc_Exact = S754_finite s k e.
Proof.
  intros Hk He. unfold binary_round_aux, shr_fexp.
  simpl Zdigits2. rewrite digits2_log2, Hk, fexp_normal by lia.
  replace (52 + 1 + e - 53 - e) with 0 by lia. simpl.
  rewrite digits2_log2, Hk, fexp_normal by lia.
  replace (52 + 1 + e - 53 - e) with 0 by lia. simpl.
  destruct (Z.leb_spec e (emax - prec)); [done|lia].
Qed.

Lemma round_aux_shift s k n e m :
  Z.log2 (Zpos k) = 52 → 0 <= n → m = Zpos k * 2 ^ n → -1074 <= e + n <= 971 →
  binary_round_aux prec emax s m e loc_Exact = S754_finite s k (e + n).
Proof.
  intros Hk Hn Hm He. rewrite <- (round_aux_canon s k (e + n)) by lia.
  unfold binary_round_aux at 1. unfold shr_fexp at 1.
  assert (Zdigits2 m = 53 + n) as ->.
  { destruct m as [|q|q]; [lia| |lia]. simpl.
    rewrite digits2_log2, Hm, log2_shift by lia. lia. }
  rewrite fexp_normal by lia. replace (53 + n + e - 53 - e) with n by lia.
  simpl shr_record_of_loc. rewrite (shr_exact_Z k n) by done. simpl.
  unfold binary_round_aux. unfold shr_fexp at 2. simpl Zdigits2.
  rewrite digits2_log2, Hk, fexp_normal by lia.
  replace (52 + 1 + (e + n) - 53 - (e + n)) with 0 by lia. done.
Qed.

(** Every way to write a positive safe integer as [p * 2^e] rounds to the same
    number. *)
Lemma binary_round_exact s p e z :
  0 < z < 2 ^ 53 → -1074 <= e <= 0 → Zpos p = z * 2 ^ (- e) →
  binary_round prec emax s p e = canon s z.
Proof.
  intros Hz He Hp. unfold binary_round, canon.
  assert (Hl : 0 <= Z.log2 z <= 52).
  { split; [apply Z.log2_nonneg|]. apply Z.lt_succ_r, Z.log2_lt_pow2; simpl; lia. }
  rewrite digits2_log2, Hp, log2_shift by lia. rewrite fexp_normal by lia.
  set (k := Z.to_pos (z * 2 ^ (52 - Z.log2 z))).
  assert (Hk : Zpos k = z * 2 ^ (52 - Z.log2 z)) by (unfold k; rewrite Z2Pos.id; nia).
  assert (Hk52 : Z.log2 (Zpos k) = 52) by (rewrite Hk, log2_shift by lia; lia).
  unfold shl_align. replace (Z.log2 z + - e + 1 + e - 53 - e) with (Z.log2 z - 52 - e) by lia.
  destruct (Z.log2 z - 52 - e) as [|n|n] eqn:En.
  - assert (p = k) as ->.
    { apply Pos2Z.inj. rewrite Hp, Hk. do 2 f_equal. lia. }
    rewrite round_aux_canon by lia. f_equal. lia.
  - rewrite (round_aux_shift s k (Zpos n)).
    + f_equal. lia.
    + done.
    + lia.
    + rewrite Hp, Hk, <- Z.mul_assoc, <- Z.pow_add_r by lia. f_equal. f_equal. lia.
    + lia.
  - assert (Zpos (Pos.iter xO p n) = Zpos k) as [= ->].
    { rewrite iter_xO, Hp, Hk, <- Z.mul_assoc, <- Z.pow_add_r by lia. f_equal. f_equal. lia. }
    replace (Z.log2 z + - e + 1 + e - 53) with (Z.log2 z - 52) by lia.
    by rewrite round_aux_canon by lia.
Qed.

Lemma normalize_exact m e z :
  safe z → -1074 <= e <= 0 → m = z * 2 ^ (- e) →
  binary_normalize prec emax m e false = num_of_Z z.
Proof.
  intros Hz He ->. assert (0 < 2 ^ (- e)) by (apply Z.pow_pos_nonneg; lia).
  unfold safe in Hz. unfold num_of_Z.
  destruct z as [|z|z].
  - done.
  - destruct (Zpos z * 2 ^ (- e)) as [|q|q] eqn:E; [nia| |nia]. simpl.
    by rewrite (binary_round_exact _ q e (Zpos z)), (binary_round_exact _ z 0 (Zpos z)) by lia.
  - destruct (Zneg z * 2 ^ (- e)) as [|q|q] eqn:E; [nia|nia|]. simpl.
    by rewrite (binary_round_exact _ q e (Zpos z)), (binary_round_exact _ z 0 (Zpos z)) by lia.
Qed.

Lemma num_of_Z_pos z : 0 < z < 2 ^ 53 → num_of_Z z = canon false z.
Proof.
  intros Hz. destruct z as [|z|z]; [lia| |lia]. unfold num_of_Z. simpl.
  by apply binary_round_exact; simpl; lia.
Qed.

Lemma num_of_Z_neg z : 0 < z < 2 ^ 53 → num_of_Z (- z) = canon true z.
Proof.
  intros Hz. destruct z as [|z|z]; [lia| |lia]. unfold num_of_Z. simpl.
  by apply binary_round_exact; simpl; lia.
Qed.

Lemma safe_cases z :
  safe z → z = 0 ∨ 0 < z < 2 ^ 53 ∨ ∃ y, z = - y ∧ 0 < y < 2 ^ 53.
Proof.
  unfold safe. intros. destruct (Z.lt_total z 0) as [|[|]]; [|lia|lia].
  right; right. exists (- z). lia.
Qed.

Lemma log2_safe z : 0 < z < 2 ^ 53 → 0 <= Z.log2 z <= 52.
Proof.
  intros. split; [apply Z.log2_nonneg|]. apply Z.lt_succ_r, Z.log2_lt_pow2; simpl; lia.
Qed.

(** A safe integer is zero or a signed mantissa with a small exponent. *)
Lemma num_of_Z_finite z :
  safe z → z = 0 ∨
  ∃ s m e, num_of_Z z = S754_finite s m e ∧ -52 <= e <= 0 ∧
           cond_Zopp s (Zpos m) = z * 2 ^ (- e).
Proof.
  intros Hz. destruct (safe_cases z Hz) as [->|[H|(y & -> & H)]]; [by left|right..];
    pose proof (log2_safe _ H);
    [rewrite num_of_Z_pos by done; exists false|rewrite num_of_Z_neg by done; exists true];
    do 2 eexists; (split; [reflexivity|split; [lia|]]); simpl;
    rewrite Z2Pos.id by (apply Z.mul_pos_pos; [lia|apply Z.pow_pos_nonneg; lia]);
    rewrite ?Z.mul_opp_l; do 2 f_equal; f_equal; lia.
Qed.

Lemma shl_align_val m e e' :
  e' <= e → Zpos (fst (shl_align m e e')) = Zpos m * 2 ^ (e - e').
Proof.
  intros He. unfold shl_align. destruct (e' - e) as [|n|n] eqn:En; simpl.
  - replace (e - e') with 0 by lia. lia.
  - lia.
  - rewrite iter_xO. f_equal. f_equal. lia.
Qed.

Lemma cond_Zopp_mul s a b : cond_Zopp s (a * b) = cond_Zopp s a * b.
Proof. destruct s; simpl; lia. Qed.

Lemma shl_align_signed s m e e' z :
  e' <= e <= 0 → cond_Zopp s (Zpos m) = z * 2 ^ (- e) →
  cond_Zopp s (Zpos (fst (shl_align m e e'))) = z * 2 ^ (- e').
Proof.
  intros He Hm. rewrite shl_align_val, cond_Zopp_mul, Hm by lia.
  rewrite <- Z.mul_assoc, <- Z.pow_add_r by lia. do 2 f_equal. lia.
Qed.

Theorem num_add_exact a b :
  safe a → safe b → safe (a + b) → num_add (num_of_Z a) (num_of_Z b) = num_of_Z (a + b).
Proof.
  intros Ha Hb Hab. unfold num_add.
  destruct (num_of_Z_finite a Ha) as [->|(sa & ma & ea & Ea & Hea & Va)].
  { destruct (num_of_Z_finite b Hb) as [->|(sb & mb & eb & Eb & _)]; [done|].
    simpl. by rewrite Eb. }
  destruct (num_of_Z_finite b Hb) as [->|(sb & mb & eb & Eb & Heb & Vb)].
  { rewrite Z.add_0_r, Ea. done. }
  rewrite Ea, Eb. simpl. apply normalize_exact; [done|lia|].
  rewrite (shl_align_signed sa ma ea (Z.min ea eb) a), (shl_align_signed sb mb eb (Z.min ea eb) b)
    by (done || lia).
  lia.
Qed.

Theorem num_sub_exact a b :
  safe a → safe b → safe (a - b) → num_sub (num_of_Z a) (num_of_Z b) = num_of_Z (a - b).
Proof.
  intros Ha Hb Hab. unfold num_sub.
  destruct (num_of_Z_finite a Ha) as [->|(sa & ma & ea & Ea & Hea & Va)].
  { destruct (safe_cases b Hb) as [->|[H|(y & -> & H)]]; [done|..].
    - change (0 - b) with (- b). rewrite (num_of_Z_neg b), (num_of_Z_pos b) by done. done.
    - replace (0 - - y) with y by lia. rewrite (num_of_Z_neg y), (num_of_Z_pos y) by done. done. }
  destruct (num_of_Z_finite b Hb) as [->|(sb & mb & eb & Eb & Heb & Vb)].
  { rewrite Z.sub_0_r, Ea. done. }
  rewrite Ea, Eb. simpl. apply normalize_exact; [done|lia|].
  rewrite (shl_align_signed sa ma ea (Z.min ea eb) a), (shl_align_signed sb mb eb (Z.min ea eb) b)
    by (done || lia).
  lia.
Qed.

(** ** Comparison *)

Lemma compare_scaled x y k : 0 <= k → Z.compare (x * 2 ^ k) (y * 2 ^ k) = Z.compare x y.
Proof.
  intros. assert (0 < 2 ^ k) by (apply Z.pow_pos_nonneg; lia).
  destruct (Z.compare_spec x y); [subst; apply Z.compare_refl|..].
  - apply Z.compare_lt_iff. nia.
  - apply Z.compare_gt_iff. nia.
Qed.

(** The order of two canonical positives: exponents first, then mantissas. *)
Lemma canon_compare x y :
  0 < x < 2 ^ 53 → 0 < y < 2 ^ 53 →
  match Z.compare (Z.log2 x - 52) (Z.log2 y - 52) with
  | Lt => Lt
  | Gt => Gt
  | Eq => Pos.compare_cont Eq (Z.to_pos (x * 2 ^ (52 - Z.log2 x)))
                              (Z.to_pos (y * 2 ^ (52 - Z.log2 y)))
  end = Z.compare x y.
Proof.
  intros Hx Hy. pose proof (log2_safe x Hx). pose proof (log2_safe y Hy).
  destruct (Z.compare_spec (Z.log2 x - 52) (Z.log2 y - 52)) as [E|E|E].
  - assert (Z.log2 x = Z.log2 y) as El by lia. rewrite El.
    change (Pos.compare_cont Eq ?a ?b) with (Pos.compare a b).
    rewrite Pos2Z.inj_compare, !Z2Pos.id by
      (apply Z.mul_pos_pos; [lia|apply Z.pow_pos_nonneg; lia]).
    apply compare_scaled. lia.
  - symmetry. apply Z.compare_lt_iff, Z.log2_lt_cancel. lia.
  - symmetry. apply Z.compare_gt_iff, Z.log2_lt_cancel. lia.
Qed.

Theorem num_compare_exact a b :
  safe a → safe b → SFcompare (num_of_Z a) (num_of_Z b) = Some (Z.compare a b).
Proof.
  intros Ha Hb.
  destruct (safe_cases a Ha) as [->|[Pa|(x & -> & Pa)]],
    (safe_cases b Hb) as [->|[Pb|(y & -> & Pb)]];
    try rewrite (num_of_Z_pos a Pa); try rewrite (num_of_Z_pos b Pb);
    try rewrite (num_of_Z_neg x Pa); try rewrite (num_of_Z_neg y Pb);
    cbn [SFcompare canon num_of_Z binary_normalize]; f_equal; rewrite ?canon_compare by done;
    try (symmetry; first [apply Z.compare_lt_iff|apply Z.compare_gt_iff]; lia); [done..|].
  rewrite Z.compare_opp, <- (canon_compare y x) by done.
  rewrite (Z.compare_antisym (Z.log2 y - 52)).
  destruct (Z.log2 y - 52 ?= Z.log2 x - 52); simpl; try done.
  change (Pos.compare_cont Eq ?a ?b) with (Pos.compare a b). symmetry. apply Pos.compare_antisym.
Qed.

Lemma num_ltb_exact a b : safe a → safe b → num_ltb (num_of_Z a) (num_of_Z b) = (a <? b).
Proof. intros. unfold num_ltb, SFltb. rewrite num_compare_exact by done. by destruct (Z.compare_spec a b), (Z.ltb_spec a b); try lia. Qed.

Lemma num_leb_exact a b : safe a → safe b → num_leb (num_of_Z a) (num_of_Z b) = (a <=? b).
Proof. intros. unfold num_leb, SFleb. rewrite num_compare_exact by done. by destruct (Z.compare_spec a b), (Z.leb_spec a b); try lia. Qed.

Lemma num_eqb_exact a b : safe a → safe b → num_eqb (num_of_Z a) (num_of_Z b) = (a =? b).
Proof. intros. unfold num_eqb, SFeqb. rewrite num_compare_exact by done. by destruct (Z.compare_spec a b), (Z.eqb_spec a b); try lia. Qed.

Lemma Math_min_exact a b :
  safe a → safe b → Math_min (num_of_Z a) (num_of_Z b) = num_of_Z (Z.min a b).
Proof.
  intros Ha Hb. unfold Math_min. rewrite num_compare_exact by done.
  destruct (Z.compare_spec a b) as [->|H|H].
  - rewrite Z.min_id. by destruct (num_of_Z b) as [[]| | |].
  - f_equal. lia.
  - f_equal. lia.
Qed.

Lemma Math_max_exact a b :
  safe a → safe b → Math_max (num_of_Z a) (num_of_Z b) = num_of_Z (Z.max a b).
Proof.
  intros Ha Hb. unfold Math_max. rewrite num_compare_exact by done.
  destruct (Z.compare_spec a b) as [->|H|H].
  - rewrite Z.max_id. by destruct (num_of_Z b) as [[]| | |].
  - f_equal. lia.
  - f_equal. lia.
Qed.

(** ** Conversions *)

Lemma floor_of_scaled s m e z :
  e <= 0 → signed s m = z * 2 ^ (- e) → floor_Z s m e = z.
Proof.
  intros He Hm. unfold floor_Z. destruct (Z.leb_spec 0 e).
  - assert (e = 0) as -> by lia. rewrite Hm. simpl. lia.
  - rewrite Hm. apply Z.div_mul. apply Z.pow_nonzero; lia.
Qed.

Lemma ceil_of_scaled s m e z :
  e <= 0 → signed s m = z * 2 ^ (- e) → ceil_Z s m e = z.
Proof.
  intros He Hm. unfold ceil_Z. destruct (Z.leb_spec 0 e).
  - assert (e = 0) as -> by lia. rewrite Hm. simpl. lia.
  - assert (signed (negb s) m = (- z) * 2 ^ (- e)) as ->.
    { destruct s; simpl in *; lia. }
    rewrite Z.div_mul by (apply Z.pow_nonzero; lia). lia.
Qed.

Lemma BigInt_num_of_Z z : safe z → BigInt (num_of_Z z) = Ok z.
Proof.
  intros Hz. destruct (num_of_Z_finite z Hz) as [->|(s & m & e & -> & He & Hm)]; [done|].
  assert (signed s m = z * 2 ^ (- e)) by (destruct s; simpl in *; lia).
  simpl. by rewrite (floor_of_scaled s m e z), (ceil_of_scaled s m e z), Z.eqb_refl by (done || lia).
Qed.

Lemma truthy_num_of_Z z : safe z → truthy (num_of_Z z) = negb (z =? 0).
Proof.
  intros Hz. destruct (safe_cases z Hz) as [->|[H|(y & -> & H)]]; [done|..].
  - rewrite num_of_Z_pos by done. simpl. destruct (Z.eqb_spec z 0); [lia|done].
  - rewrite num_of_Z_neg by done. simpl. destruct (Z.eqb_spec (- y) 0); [lia|done].
Qed.

(** A number that converts is negative or it is not: [NaN] does not convert. *)
Lemma sign_cases x a :
  BigInt (Math_abs x) = Ok a → num_ltb x (num_of_Z 0) = negb (num_leb (num_of_Z 0) x).
Proof. change (num_of_Z 0) with (S754_zero false). by destruct x as [[]|[]| |[] m e]. Qed.

Lemma Math_abs_exact z : safe z → Math_abs (num_of_Z z) = num_of_Z (Z.abs z).
Proof.
  intros Hz. destruct (safe_cases z Hz) as [->|[H|(y & -> & H)]]; [done|..].
  - rewrite Z.abs_eq by lia. by rewrite num_of_Z_pos.
  - rewrite Z.abs_opp, Z.abs_eq by lia. by rewrite num_of_Z_neg, num_of_Z_pos.
Qed.

(** ** Division and ceiling

    Rounding at a coarser exponent picks one of the two neighbours and is exact
    on exact values. *)

Lemma rne_faithful q l :
  q <= round_nearest_even q l <= q + 1 ∧ (l = loc_Exact → round_nearest_even q l = q).
Proof.
  destruct l as [|c]; simpl; [split; [lia|done]|]. split; [|done].
  destruct c; [destruct (Z.even q)|..]; lia.
Qed.

Lemma new_location_exact d r : new_location d r = loc_Exact ↔ r = 0.
Proof.
  unfold new_location, new_location_even, new_location_odd.
  destruct (Z.even d), (Z.eqb_spec r 0); split; intros; try done; congruence.
Qed.

(** The last step of [binary_round_aux]: renormalise the rounded mantissa,
    which has 53 bits or is the carry [2^53]. *)
Lemma finish_carry M e :
  2 ^ 52 <= M <= 2 ^ 53 → -1074 <= e <= 960 →
  ∃ m E, (let '(mrs, e') := shr_fexp prec emax M e loc_Exact in
          match shr_m mrs with
          | Z0 => S754_zero false
          | Zpos m => if e' <=? emax - prec then S754_finite false m e' else S754_infinity false
          | Zneg _ => S754_nan
          end) = S754_finite false m E ∧
         e <= E <= e + 1 ∧ Zpos m * 2 ^ (E - e) = M ∧ 2 ^ 52 <= Zpos m < 2 ^ 53.
Proof.
  intros HM He. destruct (decide (M = 2 ^ 53)) as [->|Hne].
  - exists (2 ^ 52)%positive, (e + 1). split; [|split; [lia|split; [|done]]].
    + unfold shr_fexp. change (Zdigits2 (2 ^ 53)) with 54. rewrite fexp_normal by lia.
      replace (54 + e - 53 - e) with 1 by lia. cbn [shr_record_of_loc].
      rewrite (shr_exact_Z (2 ^ 52)%positive) by done. cbn [shr_m].
      destruct (Z.leb_spec (e + 1) (emax - prec)); [done|lia].
    + by replace (e + 1 - e) with 1 by lia.
  - destruct M as [|m|m]; [lia| |lia]. exists m, e. split; [|split; [lia|split; [|lia]]].
    + assert (Z.log2 (Zpos m) = 52) as Hl by (apply Z.log2_unique; simpl; lia).
      unfold shr_fexp. simpl Zdigits2. rewrite digits2_log2, Hl, fexp_normal by lia.
      replace (52 + 1 + e - 53 - e) with 0 by lia. simpl.
      destruct (Z.leb_spec e (emax - prec)); [done|lia].
    + rewrite Z.sub_diag. lia.
Qed.

(** The first step drops at most one bit. *)
Lemma shr_one q l e :
  0 < q →
  ∃ mrs, shr (shr_record_of_loc q l) e 1 = (mrs, e + 1) ∧ shr_m mrs = q / 2 ∧
         (loc_of_shr_record mrs = loc_Exact ↔ l = loc_Exact ∧ q = 2 * (q / 2)).
Proof.
  intros Hq. rewrite <- Z.div2_div. destruct q as [|q|q]; [lia| |lia].
  eexists; split; [reflexivity|].
  destruct l as [|[]], q as [q|q|]; simpl; (split; [done|]); (split; [intros|intros [??]]);
    try done; try (split; [done|lia]); lia.
Qed.

Lemma round_aux_faithful q e l :
  Z.log2 q = 52 ∨ Z.log2 q = 53 → 0 < q → -1074 <= e <= 900 →
  ∃ m E, binary_round_aux prec emax false q e l = S754_finite false m E ∧
         e <= E <= e + 2 ∧ q - 1 <= Zpos m * 2 ^ (E - e) ∧
         (∀ K, q <= 2 * K → (l ≠ loc_Exact → q < 2 * K) → Zpos m * 2 ^ (E - e) <= 2 * K) ∧
         (∀ K, 2 * K <= q → 2 * K <= Zpos m * 2 ^ (E - e)) ∧ 2 ^ 52 <= Zpos m < 2 ^ 53.
Proof.
  intros Hlog Hq He.
  assert (Hb : 2 ^ Z.log2 q <= q < 2 ^ (Z.log2 q + 1)) by (apply Z.log2_spec; lia).
  assert (Hd : Zdigits2 q = Z.log2 q + 1).
  { destruct q as [|q|q]; [lia| |lia]. apply digits2_log2. }
  unfold binary_round_aux. unfold shr_fexp at 1. rewrite Hd, fexp_normal by lia.
  destruct Hlog as [Hl|Hl]; rewrite Hl in *.
  - replace (52 + 1 + e - 53 - e) with 0 by lia. unfold shr at 1. cbv beta iota.
    assert (shr_m (shr_record_of_loc q l) = q) as -> by (by destruct l as [|[]]).
    assert (loc_of_shr_record (shr_record_of_loc q l) = l) as -> by (by destruct l as [|[]]).
    destruct (rne_faithful q l) as [Hr Hx].
    destruct (finish_carry (round_nearest_even q l) e) as (m & E & -> & HE & HV & Hbits);
      [simpl in *; lia|lia|].
    exists m, E. rewrite HV. split; [done|split; [lia|split; [lia|split; [|split; [intros; lia|done]]]]].
    intros K HK HK'. destruct l; [rewrite Hx by done; lia|]. specialize (HK' ltac:(done)). lia.
  - replace (53 + 1 + e - 53 - e) with 1 by lia.
    destruct (shr_one q l e Hq) as (mrs & -> & Hm & Hloc).
    destruct (rne_faithful (shr_m mrs) (loc_of_shr_record mrs)) as [Hr Hx]. rewrite Hm in *.
    assert (Hdm : q = 2 * (q / 2) + q mod 2) by (apply Z.div_mod; lia).
    pose proof (Z.mod_pos_bound q 2 ltac:(lia)).
    destruct (finish_carry (round_nearest_even (q / 2) (loc_of_shr_record mrs)) (e + 1))
      as (m & E & -> & HE & HV & Hbits); [simpl in *; lia|lia|].
    exists m, E. split; [done|split; [lia|]].
    replace (E - e) with (1 + (E - (e + 1))) by lia.
    rewrite Z.pow_add_r, (Z.mul_comm (2 ^ 1)), Z.mul_assoc, HV by lia. change (2 ^ 1) with 2.
    split; [lia|split; [|split; [intros; lia|done]]]. intros K HK HK'.
    destruct (loc_of_shr_record mrs) eqn:El; [rewrite Hx by done; lia|].
    destruct l as [|c0].
    + destruct (decide (q = 2 * (q / 2))); [|lia].
      assert (loc_Inexact c = loc_Exact) by (by apply Hloc). done.
    + specialize (HK' ltac:(done)). lia.
Qed.

Lemma canon_mantissa z :
  0 < z < 2 ^ 53 →
  Zpos (Z.to_pos (z * 2 ^ (52 - Z.log2 z))) = z * 2 ^ (52 - Z.log2 z) ∧
  2 ^ 52 <= z * 2 ^ (52 - Z.log2 z) < 2 ^ 53.
Proof.
  intros Hz. pose proof (log2_safe z Hz).
  assert (0 < 2 ^ (52 - Z.log2 z)) by (apply Z.pow_pos_nonneg; lia).
  split; [apply Z2Pos.id; nia|].
  assert (Hb : 2 ^ Z.log2 z <= z < 2 ^ (Z.log2 z + 1)) by (apply Z.log2_spec; lia).
  split.
  - replace (2 ^ 52) with (2 ^ Z.log2 z * 2 ^ (52 - Z.log2 z));
      [nia|rewrite <- Z.pow_add_r by lia; f_equal; lia].
  - replace (2 ^ 53) with (2 ^ (Z.log2 z + 1) * 2 ^ (52 - Z.log2 z));
      [nia|rewrite <- Z.pow_add_r by lia; f_equal; lia].
Qed.

(** The quotient the division computes before it rounds. *)
Lemma SFdiv_core_canon a b :
  0 < a < 2 ^ 53 → 0 < b < 2 ^ 53 →
  let n := 53 + Z.log2 b - Z.log2 a in
  let q := a * 2 ^ n / b in
  0 <= n →
  (Z.log2 q = 52 ∨ Z.log2 q = 53) ∧ 0 < q ∧
  ∃ l, (l = loc_Exact ↔ (a * 2 ^ n) mod b = 0) ∧
       num_div (num_of_Z a) (num_of_Z b) = binary_round_aux prec emax false q (- n) l.
Proof.
  intros Ha Hb n q Hn.
  destruct (canon_mantissa a Ha) as [Ema Hma], (canon_mantissa b Hb) as [Emb Hmb].
  pose proof (log2_safe a Ha). pose proof (log2_safe b Hb).
  set (ma := a * 2 ^ (52 - Z.log2 a)) in *. set (mb := b * 2 ^ (52 - Z.log2 b)) in *.
  assert (Hsc : ma * 2 ^ 53 = a * 2 ^ n * 2 ^ (52 - Z.log2 b)).
  { unfold ma, n. rewrite <- !Z.mul_assoc, <- !Z.pow_add_r by lia. do 2 f_equal. lia. }
  assert (0 < 2 ^ (52 - Z.log2 b)) by (apply Z.pow_pos_nonneg; lia).
  assert (Hq : ma * 2 ^ 53 / mb = q).
  { rewrite Hsc. unfold mb, q. apply Z.div_mul_cancel_r; lia. }
  assert (Hr : (ma * 2 ^ 53) mod mb = (a * 2 ^ n) mod b * 2 ^ (52 - Z.log2 b)).
  { rewrite Hsc. unfold mb. apply Zmult_mod_distr_r. }
  assert (Hq52 : 2 ^ 52 <= q) by (rewrite <- Hq; apply Z.div_le_lower_bound; nia).
  assert (Hq54 : q < 2 ^ 54) by (rewrite <- Hq; apply Z.div_lt_upper_bound; nia).
  split; [|split; [lia|]].
  { destruct (Z.lt_ge_cases q (2 ^ 53)); [left|right]; apply Z.log2_unique; simpl in *; lia. }
  exists (new_location mb ((ma * 2 ^ 53) mod mb)). split.
  { rewrite new_location_exact, Hr. nia. }
  rewrite (num_of_Z_pos a Ha), (num_of_Z_pos b Hb). unfold num_div, canon. cbn [SFdiv xorb].
  unfold SFdiv_core_binary. fold ma mb. rewrite Ema, Emb.
  assert (∀ m, 2 ^ 52 <= m < 2 ^ 53 → Zdigits2 m = 53) as Hdig.
  { intros m Hm. destruct m as [|m|m]; [lia| |lia]. simpl. rewrite digits2_log2.
    rewrite (Z.log2_unique _ 52); simpl in *; lia. }
  rewrite !Hdig by done.
  replace (53 + (Z.log2 a - 52) - (53 + (Z.log2 b - 52))) with (Z.log2 a - Z.log2 b) by lia.
  rewrite fexp_normal by lia.
  replace (Z.min (Z.log2 a - Z.log2 b - 53) (Z.log2 a - 52 - (Z.log2 b - 52)))
    with (- n) by (unfold n; lia).
  replace (Z.log2 a - 52 - (Z.log2 b - 52) - - n) with 53 by (unfold n; lia).
  rewrite Z.shiftl_mul_pow2 by lia.
  pose proof (Z.div_eucl_eq (ma * 2 ^ 53) mb ltac:(lia)) as Hde.
  unfold Z.div, Z.modulo in *. destruct (Z.div_eucl (ma * 2 ^ 53) mb) as [q0 r0].
  subst q. unfold Z.div. by rewrite <- Hq.
Qed.

(** The integer ceiling of a quotient. *)
Definition cdiv (a b : Z) : Z := (a + b - 1) / b.

Lemma cdiv_bounds a b : 0 < b → (cdiv a b - 1) * b < a <= cdiv a b * b.
Proof.
  intros Hb. unfold cdiv. pose proof (Z.div_mod (a + b - 1) b ltac:(lia)).
  pose proof (Z.mod_pos_bound (a + b - 1) b Hb). nia.
Qed.

Lemma ceil_between m E k :
  E <= 0 → (k - 1) * 2 ^ (- E) < Zpos m <= k * 2 ^ (- E) → ceil_Z false m E = k.
Proof.
  intros HE Hm. unfold ceil_Z. destruct (Z.leb_spec 0 E).
  - assert (E = 0) as -> by lia. simpl in *. lia.
  - simpl. enough (Zneg m / 2 ^ (- E) = - k) by lia.
    symmetry. apply Z.div_unique with (r := k * 2 ^ (- E) - Zpos m); lia.
Qed.

Theorem ceil_div_exact a b :
  0 <= a < 2 ^ 52 → 0 < b < 2 ^ 53 →
  Math_ceil (num_div (num_of_Z a) (num_of_Z b)) = num_of_Z (cdiv a b).
Proof.
  intros Ha Hb. destruct (decide (a = 0)) as [->|Hne].
  { rewrite (num_of_Z_pos b) by done. unfold cdiv. simpl.
    by rewrite Z.div_small by lia. }
  assert (Hla : Z.log2 a <= 51) by (apply Z.lt_succ_r, Z.log2_lt_pow2; simpl; lia).
  pose proof (Z.log2_nonneg a). pose proof (log2_safe b Hb).
  assert (Ha' : 0 < a < 2 ^ 53) by (simpl in *; lia).
  pose proof (SFdiv_core_canon a b Ha' Hb) as Hc. cbv zeta in Hc.
  set (n := 53 + Z.log2 b - Z.log2 a) in *. set (q := a * 2 ^ n / b) in *.
  destruct Hc as (Hlq & Hq & l & Hl & ->); [lia|].
  destruct (round_aux_faithful q (- n) l) as (m & E & -> & HE & Hlow & Hup & _ & _); [done|done|lia|].
  assert (Hbn : 2 * b <= 2 ^ n).
  { assert (b < 2 ^ (Z.log2 b + 1)) by (apply Z.log2_spec; lia).
    assert (2 ^ (Z.log2 b + 2) <= 2 ^ n) by (apply Z.pow_le_mono_r; lia).
    replace (2 ^ (Z.log2 b + 2)) with (2 * 2 ^ (Z.log2 b + 1)) in *
      by (rewrite <- Z.pow_succ_r by lia; f_equal; lia). lia. }
  destruct (cdiv_bounds a b) as [Hk1 Hk2]; [lia|]. set (k := cdiv a b) in *.
  assert (Hdm : a * 2 ^ n = b * q + (a * 2 ^ n) mod b) by (apply Z.div_mod; lia).
  pose proof (Z.mod_pos_bound (a * 2 ^ n) b ltac:(lia)) as Hmod.
  assert (Hlo : (k - 1) * 2 ^ n + 2 <= q) by (apply Z.div_le_lower_bound; nia).
  assert (Hhi : Zpos m * 2 ^ (E - - n) <= k * 2 ^ n).
  { assert (H2 : 2 ^ n = 2 * 2 ^ (n - 1)) by (rewrite <- Z.pow_succ_r by lia; f_equal; lia).
    replace (k * 2 ^ n) with (2 * (k * 2 ^ (n - 1))) by lia. apply Hup.
    - nia.
    - intros Hnl. assert ((a * 2 ^ n) mod b ≠ 0) by (by rewrite <- Hl). nia. }
  assert (Hsp : 2 ^ n = 2 ^ (- E) * 2 ^ (E - - n))
    by (rewrite <- Z.pow_add_r by lia; f_equal; lia).
  assert (0 < 2 ^ (E - - n)) by (apply Z.pow_pos_nonneg; lia).
  unfold Math_ceil, rounded. rewrite (ceil_between m E k); [done|lia|].
  split; [apply Z.mul_lt_mono_pos_r with (2 ^ (E - - n)); [done|]; nia|].
  apply Z.mul_le_mono_pos_r with (2 ^ (E - - n)); [done|]. nia.
Qed.

(** Products of natural numbers are exact while they are safe. *)
Theorem num_mul_exact a b :
  0 <= a < 2 ^ 53 → 0 <= b < 2 ^ 53 → a * b < 2 ^ 53 → num_mul (num_of_Z a) (num_of_Z b) = num_of_Z (a * b).
Proof.
  intros Ha Hb Hab. destruct (decide (a = 0)) as [->|Hna].
  { destruct (decide (b = 0)) as [->|Hnb]; [done|]. by rewrite (num_of_Z_pos b) by lia. }
  destruct (decide (b = 0)) as [->|Hnb]; [rewrite Z.mul_0_r, (num_of_Z_pos a) by lia; done|].
  assert (Hpa : 0 < a < 2 ^ 53) by lia. assert (Hpb : 0 < b < 2 ^ 53) by lia. assert (Hpab : 0 < a * b < 2 ^ 53) by nia.
  destruct (canon_mantissa a Hpa) as [Ema _], (canon_mantissa b Hpb) as [Emb _], (canon_mantissa (a * b) Hpab) as [Em Hm].
  rewrite !num_of_Z_pos by done. unfold num_mul, canon. cbn [SFmul xorb].
  pose proof (log2_safe a Hpa). pose proof (log2_safe b Hpb). pose proof (log2_safe (a * b) Hpab).
  assert (Hlog : Z.log2 a + Z.log2 b <= Z.log2 (a * b)) by (apply Z.log2_mul_below; lia).
  set (la := Z.log2 a) in *. set (lb := Z.log2 b) in *. set (l := Z.log2 (a * b)) in *.
  rewrite (round_aux_shift false (Z.to_pos (a * b * 2 ^ (52 - l))) (52 + l - la - lb)).
  - f_equal. lia.
  - apply Z.log2_unique; [lia|]. rewrite Em. simpl in *. lia.
  - lia.
  - rewrite Pos2Z.inj_mul, Ema, Emb, Em.
    replace (a * 2 ^ (52 - la) * (b * 2 ^ (52 - lb))) with (a * b * (2 ^ (52 - la) * 2 ^ (52 - lb))) by lia.
    rewrite <- (Z.mul_assoc (a * b)), <- !Z.pow_add_r by lia. do 2 f_equal. lia.
  - lia.
Qed.

Lemma floor_between m E k :
  E <= 0 → k * 2 ^ (- E) <= Zpos m < (k + 1) * 2 ^ (- E) → floor_Z false m E = k.
Proof.
  intros HE Hm. unfold floor_Z. destruct (Z.leb_spec 0 E).
  - assert (E = 0) as -> by lia. simpl in *. lia.
  - simpl. symmetry. apply Z.div_unique with (r := Zpos m - k * 2 ^ (- E)); lia.
Qed.

(** The quotient of a division, as a double: its scaled mantissa lies between the
    even neighbours of the exact quotient. *)
Lemma div_faithful a b :
  0 < a < 2 ^ 52 → 0 < b < 2 ^ 53 →
  let n := 53 + Z.log2 b - Z.log2 a in
  ∃ m E, num_div (num_of_Z a) (num_of_Z b) = S754_finite false m E ∧ E <= 0 ∧ 0 <= E + n ∧
    2 ^ 52 <= Zpos m < 2 ^ 53 ∧
    (a / b) * 2 ^ n <= Zpos m * 2 ^ (E + n) <= cdiv a b * 2 ^ n ∧
    (a mod b ≠ 0 → Zpos m * 2 ^ (E + n) < cdiv a b * 2 ^ n).
Proof.
  intros Ha Hb n.
  assert (Hla : Z.log2 a <= 51) by (apply Z.lt_succ_r, Z.log2_lt_pow2; simpl; lia).
  pose proof (Z.log2_nonneg a). pose proof (log2_safe b Hb).
  pose proof (SFdiv_core_canon a b ltac:(simpl in *; lia) Hb) as Hc. cbv zeta in Hc.
  fold n in Hc. set (q := a * 2 ^ n / b) in *.
  destruct Hc as (Hlq & Hq & l & Hl & ->); [lia|].
  destruct (round_aux_faithful q (- n) l) as (m & E & -> & HE & _ & Hup & Hlow & Hbits); [done|done|lia|].
  replace (E - - n) with (E + n) in * by lia.
  assert (Hbn : 2 * b <= 2 ^ n).
  { assert (b < 2 ^ (Z.log2 b + 1)) by (apply Z.log2_spec; lia).
    assert (2 ^ (Z.log2 b + 2) <= 2 ^ n) by (apply Z.pow_le_mono_r; lia).
    replace (2 ^ (Z.log2 b + 2)) with (2 * 2 ^ (Z.log2 b + 1)) in *
      by (rewrite <- Z.pow_succ_r by lia; f_equal; lia). lia. }
  assert (H2 : 2 ^ n = 2 * 2 ^ (n - 1)) by (rewrite <- Z.pow_succ_r by lia; f_equal; lia).
  destruct (cdiv_bounds a b) as [Hk1 Hk2]; [lia|].
  assert (Hfl : a = b * (a / b) + a mod b) by (apply Z.div_mod; lia).
  pose proof (Z.mod_pos_bound a b ltac:(lia)) as Hr.
  assert (Hdm : a * 2 ^ n = b * q + (a * 2 ^ n) mod b) by (apply Z.div_mod; lia).
  pose proof (Z.mod_pos_bound (a * 2 ^ n) b ltac:(lia)) as Hmod.
  assert (Hgap : a mod b ≠ 0 → a * 2 ^ n <= b * (cdiv a b * 2 ^ n - 2)).
  { intros Hne. assert (a + 1 <= cdiv a b * b) by (destruct (decide (a = cdiv a b * b)) as [Hx|]; [|lia];
      exfalso; apply Hne; rewrite Hx; apply Z.mod_mul; lia). nia. }
  exists m, E. split_and!; try done; try lia.
  - replace (a / b * 2 ^ n) with (2 * (a / b * 2 ^ (n - 1))) by lia. apply Hlow.
    apply Z.div_le_lower_bound; nia.
  - replace (cdiv a b * 2 ^ n) with (2 * (cdiv a b * 2 ^ (n - 1))) by lia. apply Hup; [nia|].
    intros Hnl. assert ((a * 2 ^ n) mod b ≠ 0) by (by rewrite <- Hl). nia.
  - intros Hne. specialize (Hgap Hne).
    assert (Zpos m * 2 ^ (E + n) <= 2 * (cdiv a b * 2 ^ (n - 1) - 1)); [|lia]. apply Hup; [nia|].
    intros Hnl. assert ((a * 2 ^ n) mod b ≠ 0) by (by rewrite <- Hl). nia.
Qed.

(** [Math.floor] of a quotient of whole numbers is the quotient rounded down. *)
Theorem floor_div_exact a b :
  0 <= a < 2 ^ 52 → 0 < b < 2 ^ 53 →
  Math_floor (num_div (num_of_Z a) (num_of_Z b)) = num_of_Z (a / b).
Proof.
  intros Ha Hb. destruct (decide (a = 0)) as [->|Hne].
  { rewrite (num_of_Z_pos b) by done. done. }
  destruct (div_faithful a b ltac:(lia) Hb) as (m & E & -> & HE & Hn & _ & [Hlo Hhi] & Hstrict).
  set (n := 53 + Z.log2 b - Z.log2 a) in *.
  assert (Hsp : 2 ^ n = 2 ^ (- E) * 2 ^ (E + n)) by (rewrite <- Z.pow_add_r by lia; f_equal; lia).
  assert (0 < 2 ^ (E + n)) by (apply Z.pow_pos_nonneg; lia).
  assert (0 < 2 ^ (- E)) by (apply Z.pow_pos_nonneg; lia).
  assert (Hfl : a = b * (a / b) + a mod b) by (apply Z.div_mod; lia).
  pose proof (Z.mod_pos_bound a b ltac:(lia)) as Hr. destruct (cdiv_bounds a b) as [Hk1 Hk2]; [lia|].
  unfold Math_floor, rounded. rewrite (floor_between m E (a / b)); [done|lia|].
  split; [apply Z.mul_le_mono_pos_r with (2 ^ (E + n)); [done|]; nia|].
  apply Z.mul_lt_mono_pos_r with (2 ^ (E + n)); [done|].
  destruct (decide (a mod b = 0)) as [Hz|Hz].
  - assert (cdiv a b = a / b) by nia. nia.
  - assert (cdiv a b = a / b + 1) by nia. specialize (Hstrict Hz). nia.
Qed.

(** A division that leaves no rest is exact. *)
Theorem num_div_exact k b :
  0 <= k → 0 < b < 2 ^ 53 → k * b < 2 ^ 52 →
  num_div (num_of_Z (k * b)) (num_of_Z b) = num_of_Z k.
Proof.
  intros Hk Hb Hkb. destruct (decide (k = 0)) as [->|Hne].
  { rewrite (num_of_Z_pos b) by done. done. }
  destruct (div_faithful (k * b) b ltac:(nia) Hb) as (m & E & -> & HE & Hn & Hbits & [Hlo Hhi] & _).
  set (n := 53 + Z.log2 b - Z.log2 (k * b)) in *.
  assert (Hc : cdiv (k * b) b = k).
  { destruct (cdiv_bounds (k * b) b); [lia|]. nia. }
  rewrite Hc in Hhi. rewrite Z.div_mul in Hlo by lia.
  assert (Hsp : 2 ^ n = 2 ^ (- E) * 2 ^ (E + n)) by (rewrite <- Z.pow_add_r by lia; f_equal; lia).
  assert (0 < 2 ^ (E + n)) by (apply Z.pow_pos_nonneg; lia).
  assert (Hm : Zpos m = k * 2 ^ (- E)) by nia.
  assert (Hk53 : 0 < k < 2 ^ 53) by nia. rewrite num_of_Z_pos by done. unfold canon.
  assert (HlE : Z.log2 k - E = 52).
  { assert (Z.log2 (Zpos m) = 52) by (apply Z.log2_unique; simpl in *; lia).
    rewrite Hm, log2_shift in * by lia. lia. }
  replace (52 - Z.log2 k) with (- E) by lia. replace (Z.log2 k - 52) with E by lia. rewrite <- Hm. done.
Qed.

(** Rewriting with exactness: the side conditions are bounds. *)
Ltac safe_lia := unfold safe in *; simpl (2 ^ 53)%Z in *; simpl (2 ^ 52)%Z in *; lia.
