(* ===== verification/Buffers.v ===== *)
(** * Node.js buffers

    A [Buffer] is a list of bytes.  Writes return the buffer and the offset
    after the bytes written (what the sources assign to [p]); a value outside
    the type's range or an offset outside the buffer throws, as Node's checks
    do.  Integers are in two's complement where they are signed. *)

From Stdlib Require Import ZArith Lia.
From stdpp Require Import base list strings sets.
From coqutil Require Import Byte Word.LittleEndianList.
From S2P Require Import Prelude.

Open Scope Z_scope.

#[global] Arguments le_split : simpl never.
#[global] Arguments le_combine : simpl never.

Abbreviation buffer := (list byte).

#[global] Instance byte_eq_decision : EqDecision byte := Byte.byte_eq_dec.

(** [Buffer.alloc(n)]: zeros. *)
Definition alloc (n : nat) : buffer := replicate n Byte.x00.

(** Bytes [bs] at offset [p]. *)
Definition put_bytes (b : buffer) (bs : list byte) (p : nat) : result (buffer * nat) :=
  if (p + length bs <=? length b)%nat
  then Ok (take p b ++ bs ++ drop (p + length bs) b, (p + length bs)%nat)
  else Err RangeError.

Definition in_range (lo hi v : Z) : bool := (lo <=? v) && (v <? hi).

Definition write_le (n : nat) (lo hi : Z) (b : buffer) (v : Z) (p : nat) : result (buffer * nat) :=
  if in_range lo hi v then put_bytes b (le_split n v) p else Err RangeError.

Definition writeUInt8 := write_le 1 0 (2 ^ 8).
Definition writeUInt32LE := write_le 4 0 (2 ^ 32).
Definition writeBigUInt64LE := write_le 8 0 (2 ^ 64).
Definition writeBigInt64LE := write_le 8 (- 2 ^ 63) (2 ^ 63).

Definition writeUInt32BE (b : buffer) (v : Z) (p : nat) : result (buffer * nat) :=
  if in_range 0 (2 ^ 32) v then put_bytes b (reverse (le_split 4 v)) p else Err RangeError.

(** [src.copy(target, p)]: what fits is copied; the number of bytes copied is
    returned. *)
Definition copy_to (src target : buffer) (p : nat) : buffer * nat :=
  let n := Nat.min (length src) (length target - p) in
  (take p target ++ take n src ++ drop (p + n) target, n).

(** [b.slice(from, to)], for offsets counted from the start. *)
Definition slice (b : buffer) (from to : nat) : buffer := take (to - from) (drop from b).

Definition read_le (n : nat) (b : buffer) (p : nat) : result Z :=
  if (p + n <=? length b)%nat then Ok (le_combine (slice b p (p + n))) else Err RangeError.

Definition readUInt8 := read_le 1.
Definition readUInt16LE := read_le 2.
Definition readUInt32LE := read_le 4.
Definition readBigUInt64LE := read_le 8.

(** ** Lemmas *)

Lemma in_range_true lo hi v : in_range lo hi v = true ↔ lo <= v < hi.
Proof. unfold in_range. rewrite andb_true_iff, Z.leb_le, Z.ltb_lt. done. Qed.

Lemma length_alloc n : length (alloc n) = n.
Proof. apply length_replicate. Qed.

(** Writing after a prefix into the zeros that follow it: the shape of every
    sequence of writes in the sources. *)
Lemma put_bytes_append pre bs n p :
  p = length pre → (length bs <= n)%nat →
  put_bytes (pre ++ alloc n) bs p =
  Ok ((pre ++ bs) ++ alloc (n - length bs), length (pre ++ bs)).
Proof.
  intros -> Hn. unfold put_bytes, alloc.
  rewrite length_app, length_replicate, (proj2 (Nat.leb_le _ _)) by lia.
  rewrite take_app_length, drop_app_add, drop_replicate, <- !app_assoc, !length_app. done.
Qed.

Lemma write_le_append n lo hi pre k v p :
  p = length pre → lo <= v < hi → (n <= k)%nat →
  write_le n lo hi (pre ++ alloc k) v p =
  Ok ((pre ++ le_split n v) ++ alloc (k - n), length (pre ++ le_split n v)).
Proof.
  intros Hp Hv Hk. unfold write_le. rewrite (proj2 (in_range_true _ _ _)) by done.
  rewrite put_bytes_append by (try done; by rewrite length_le_split).
  by rewrite length_le_split.
Qed.

Lemma write_le_range n lo hi b v p r : write_le n lo hi b v p = Ok r → lo <= v < hi.
Proof. unfold write_le. destruct (in_range lo hi v) eqn:E; [|done]. by apply in_range_true in E. Qed.

(** The first write of a message: the tag. *)
Lemma write_tag k t :
  0 <= t < 256 →
  writeUInt8 (alloc (S k)) t 0 = Ok ([byte.of_Z t] ++ alloc k, 1%nat).
Proof.
  intros Ht. unfold writeUInt8. change (alloc (S k)) with ([] ++ alloc (S k)).
  rewrite write_le_append by (done || lia). simpl. by rewrite Nat.sub_0_r.
Qed.

Lemma copy_to_append src pre n p :
  p = length pre → (length src <= n)%nat →
  copy_to src (pre ++ alloc n) p =
  ((pre ++ src) ++ alloc (n - length src), length src).
Proof.
  intros -> Hn. unfold copy_to, alloc.
  rewrite length_app, length_replicate.
  replace (Nat.min (length src) (length pre + n - length pre)) with (length src) by lia.
  rewrite take_app_length, (take_ge src) by lia.
  by rewrite drop_app_add, drop_replicate, <- !app_assoc.
Qed.

Lemma le_combine_split_small n v :
  0 <= v < 2 ^ (Z.of_nat n * 8) → le_combine (le_split n v) = v.
Proof. intros. rewrite le_combine_split. by apply Z.mod_small. Qed.

(** ** Reading concatenations *)

Lemma slice_app pre bs post p q :
  p = length pre → q = (length pre + length bs)%nat → slice (pre ++ bs ++ post) p q = bs.
Proof.
  intros -> ->. unfold slice. rewrite drop_app_length.
  replace (length pre + length bs - length pre)%nat with (length bs) by lia.
  apply take_app_length.
Qed.

Lemma read_le_app n pre bs post p :
  p = length pre → length bs = n → read_le n (pre ++ bs ++ post) p = Ok (le_combine bs).
Proof.
  intros -> <-. unfold read_le.
  rewrite (proj2 (Nat.leb_le _ _)) by (rewrite !length_app; lia).
  by rewrite slice_app.
Qed.

Lemma read_le_split n v pre post p :
  p = length pre → 0 <= v < 2 ^ (Z.of_nat n * 8) →
  read_le n (pre ++ le_split n v ++ post) p = Ok v.
Proof.
  intros Hp Hv. rewrite (read_le_app n pre (le_split n v) post) by (done || apply length_le_split).
  by rewrite le_combine_split_small.
Qed.

(** A read past the first field of a concatenation is a read of the rest. *)
Lemma slice_skip a r p q k :
  length a = k → (k <= p)%nat → slice (a ++ r) p q = slice r (p - k) (q - k).
Proof.
  intros <- Hp. unfold slice. replace p with (length a + (p - length a))%nat at 2 by lia.
  rewrite drop_app_add. f_equal. lia.
Qed.

Lemma slice_here a r q : length a = q → slice (a ++ r) 0 q = a.
Proof. intros <-. by apply (slice_app []). Qed.

Lemma read_le_skip n a r p k :
  length a = k → (k <= p)%nat → read_le n (a ++ r) p = read_le n r (p - k).
Proof.
  intros Ha Hp. unfold read_le. rewrite (slice_skip a r _ _ k) by done.
  replace (p - k + n)%nat with (p + n - k)%nat by lia. rewrite length_app.
  destruct (Nat.leb_spec (p + n) (length a + length r)),
    (Nat.leb_spec (p + n - k) (length r)); (done || lia).
Qed.

Lemma read_le_here n v r :
  0 <= v < 2 ^ (Z.of_nat n * 8) → read_le n (le_split n v ++ r) 0 = Ok v.
Proof. by apply (read_le_split n v []). Qed.

Lemma read_le_bound n b p v : read_le n b p = Ok v → 0 <= v < 2 ^ (8 * Z.of_nat n).
Proof.
  unfold read_le. destruct (Nat.leb_spec (p + n) (length b)) as [H|]; [|done]. intros [= <-].
  pose proof (le_combine_bound (slice b p (p + n))) as Hb. unfold slice in *.
  rewrite length_take, length_drop in Hb.
  replace (Nat.min (p + n - p) (length b - p)) with n in Hb by lia. done.
Qed.

#[export] Hint Rewrite length_le_split length_alloc @length_app @length_reverse @length_cons : len.

(** Decides lengths of concatenations of encoded fields. *)
Ltac len := autorewrite with len; simpl; lia.
