(* ===== verification/Web3.v ===== *)
(** * The Solana web3 interface

    What the sources use of [@solana/web3.js] and of the cluster behind it, as
    interfaces: the code of the library and of the network is not part of the
    repository, so every operation is a parameter, and what the client relies
    on is a named law.  [Client] is the state an asynchronous client
    computation runs in: the cluster as it answers, the transactions submitted
    so far and the accounts the client subscribed to. *)

From Stdlib Require Import ZArith Lia.
From stdpp Require Import base list strings sets.
From coqutil Require Import Byte.
From S2P Require Import Prelude JsNumber Buffers.

Open Scope Z_scope.

(** ** Keys *)

(** A reference to a JavaScript object: [==] compares references. *)
Record obj (A : Type) := { ref : Z; val : A }.
Arguments ref {A} o.
Arguments val {A} o.
Arguments Build_obj {A} ref val.

Definition same_object {A} (x y : obj A) : bool := ref x =? ref y.

Class Keys := {
  PublicKey : Type;
  PublicKey_eq_dec :: EqDecision PublicKey;
  (** A key pair. *)
  Account : Type;
  publicKey : Account → PublicKey;
  (** [new PublicKey(buffer)], [key.toBuffer()], [key.toBase58()]. *)
  new_PublicKey : buffer → result PublicKey;
  toBuffer : PublicKey → buffer;
  toBase58 : PublicKey → string;
  (** [new PublicKey(s)] of a string the user gives. *)
  PublicKey_of_string : string → result PublicKey;
  (** The key a base-58 literal of the sources denotes. *)
  key_literal : string → PublicKey;
  (** The address of [PublicKey.findProgramAddress(seeds, programId)]. *)
  findProgramAddress : list buffer → PublicKey → result PublicKey;
  SystemProgram_programId : obj PublicKey;
  StakeProgram_programId : PublicKey;
  SYSVAR_CLOCK_PUBKEY : PublicKey;
  SYSVAR_RENT_PUBKEY : PublicKey;
  SYSVAR_STAKE_HISTORY_PUBKEY : PublicKey;
}.

(** Keys have 32 bytes and are their bytes. *)
Class KeysLaws `{Keys} : Prop := {
  length_toBuffer : ∀ k, length (toBuffer k) = 32%nat;
  new_PublicKey_toBuffer : ∀ k, new_PublicKey (toBuffer k) = Ok k;
}.

(** A program address can be derived from any seeds. *)
Class AddressesDerive `{Keys} : Prop := {
  derive_ok : ∀ seeds p, ∃ k, findProgramAddress seeds p = Ok k;
}.

Section Transactions.
Context `{Keys}.

Record AccountMeta := {
  pubkey : PublicKey;
  isSigner : bool;
  isWritable : bool;
}.

Record TransactionInstruction := {
  ix_keys : list AccountMeta;
  ix_programId : PublicKey;
  ix_data : buffer;
}.

(** A [Transaction]: the instructions added to it, in order. *)
Definition Transaction : Type := list TransactionInstruction.

Record AccountInfo := {
  lamports : num;
  account_owner : obj PublicKey;
  account_data : buffer;
}.

(** The answer of [getStakeActivation]. *)
Inductive ActivationState := active_ | inactive_ | activating_ | deactivating_.

Record StakeActivationData := {
  activation_state : ActivationState;
  activation_active : num;
  activation_inactive : num;
}.

Record CreateAccountParams := {
  fromPubkey : PublicKey;
  newAccountPubkey : PublicKey;
  create_lamports : num;
  space : Z;
  create_programId : PublicKey;
}.

Inductive Commitment := singleGossip | recent | single | max_.

End Transactions.

#[global] Instance ActivationState_eq_dec : EqDecision ActivationState.
Proof. solve_decision. Defined.

(** Shorthands for the entries of a [keys] array. *)
Definition meta `{Keys} (k : PublicKey) (s w : bool) : AccountMeta :=
  {| pubkey := k; isSigner := s; isWritable := w |}.
Abbreviation readonly k := (meta k false false).
Abbreviation writable k := (meta k false true).
Abbreviation signer k := (meta k true false).
Abbreviation signer_writable k := (meta k true true).

(** ** The connection

    Every call may change the cluster's state [W]: others use it too. *)
Class Connection `{Keys} (W : Type) := {
  rpc_getAccountInfo : PublicKey → option Commitment → W → result (option AccountInfo) * W;
  rpc_getStakeActivation : PublicKey → option Commitment → W → result StakeActivationData * W;
  rpc_getMinimumBalanceForRentExemption : Z → W → result num * W;
  rpc_getBalance : PublicKey → W → result num * W;
  rpc_getVersion : W → result string * W;
  rpc_getEpoch : W → result num * W;
  (** The vote keys of the current validators. *)
  rpc_getVoteAccounts : option Commitment → W → result (list string) * W;
  rpc_sendAndConfirmTransaction : Transaction → list Account → W → result unit * W;
  (** [SystemProgram.createAccount]. *)
  createAccount : CreateAccountParams → TransactionInstruction;
}.

(** Both accounts of a [createAccount] sign it. *)
Class SystemProgramLaws `{Connection W} : Prop := {
  createAccount_keys : ∀ p, ix_keys (createAccount p) =
    [signer_writable (fromPubkey p); signer_writable (newAccountPubkey p)];
}.

(** The cluster answers every query about an account: it may know the account or
    not, but the call does not fail. *)
Class ClusterAnswers `{Connection W} : Prop := {
  account_answered : ∀ k cm w, ∃ a w', rpc_getAccountInfo k cm w = (Ok a, w');
}.

(** The cluster tells the rent of an account of any size. *)
Class RentAnswered `{Connection W} : Prop := {
  rent_answered : ∀ n w, ∃ r w', rpc_getMinimumBalanceForRentExemption n w = (Ok r, w');
}.

(** A reported balance is a whole number of lamports that a [number] holds exactly. *)
Class LamportsExact `{Connection W} : Prop := {
  lamports_exact : ∀ k cm w a w', rpc_getAccountInfo k cm w = (Ok (Some a), w') →
    ∃ l, lamports a = num_of_Z l ∧ 0 <= l < 2 ^ 53;
}.

(** A cluster nobody else changes while the client looks at it: answers are
    functions of its state, and asking does not change it. *)
Class StableCluster `{Connection W} := {
  info_at : W → PublicKey → option AccountInfo;
  activation_at : W → PublicKey → result StakeActivationData;
  stable_info : ∀ k cm w, rpc_getAccountInfo k cm w = (Ok (info_at w k), w);
  stable_activation : ∀ k cm w, rpc_getStakeActivation k cm w = (activation_at w k, w);
}.

(** lodash's [_.chunk(xs, n)]. *)
Class Lodash := { chunk : ∀ A : Type, list A → nat → list (list A) }.
Arguments chunk {_ A} xs n.

(** The array split into groups of [n], the last one the remaining elements. *)
Class LodashLaws `{Lodash} : Prop := {
  concat_chunk : ∀ A (xs : list A) n, (0 < n)%nat → concat (chunk xs n) = xs;
  length_chunk : ∀ A (xs : list A) n c,
    (0 < n)%nat → c ∈ chunk xs n → (0 < length c ≤ n)%nat;
}.

Record submission `{Keys} := {
  submitted : Transaction;
  signers : list Account;
  confirmed : bool;
}.

Record Client `{Keys} (W : Type) := {
  world : W;
  sent : list submission;
  watched : list PublicKey;
}.
Arguments world {_ W} c.
Arguments sent {_ W} c.
Arguments watched {_ W} c.
Arguments Build_Client {_ W} world sent watched.

Section Calls.
Context `{Keys} {W : Type} `{!Connection W}.

(** A query: the client's own records do not change. *)
Definition query {A} (f : W → result A * W) : M (Client W) A :=
  λ c, let '(r, w) := f (world c) in (r, Build_Client w (sent c) (watched c)).

Definition getAccountInfo (k : PublicKey) (cm : option Commitment) :=
  query (rpc_getAccountInfo k cm).
Definition getStakeActivation (k : PublicKey) (cm : option Commitment) :=
  query (rpc_getStakeActivation k cm).
Definition getMinimumBalanceForRentExemption (n : Z) :=
  query (rpc_getMinimumBalanceForRentExemption n).
Definition getBalance (k : PublicKey) := query (rpc_getBalance k).
Definition getVersion := query rpc_getVersion.
Definition getEpoch := query rpc_getEpoch.
Definition getVoteAccounts (cm : option Commitment) := query (rpc_getVoteAccounts cm).

(** Submits a transaction and waits: the submission is recorded whether it was
    confirmed or rejected. *)
Definition sendAndConfirmTransaction (tx : Transaction) (ss : list Account) : M (Client W) unit :=
  λ c, let '(r, w) := rpc_sendAndConfirmTransaction tx ss (world c) in
       (r, Build_Client w (sent c ++ [{| submitted := tx; signers := ss; confirmed := is_ok r |}])
                        (watched c)).

Definition onAccountChange (k : PublicKey) : M (Client W) unit :=
  λ c, (Ok tt, Build_Client (world c) (sent c) (watched c ++ [k])).

(** A computation that only asks: it submits nothing, however it ends. *)
Definition submits_nothing {A} (m : M (Client W) A) : Prop :=
  ∀ c, sent (snd (m c)) = sent c.

Lemma query_submits_nothing {A} (f : W → result A * W) : submits_nothing (query f).
Proof. intros c. unfold query. by destruct (f (world c)). Qed.

Lemma bind_submits_nothing {A B} (m : M (Client W) A) (f : A → M (Client W) B) :
  submits_nothing m → (∀ a, submits_nothing (f a)) → submits_nothing (m ≫= f).
Proof.
  intros Hm Hf c. unfold mbind, M_bind. specialize (Hm c).
  destruct (m c) as [[a|e] c']; simpl in *; [|done]. by rewrite Hf.
Qed.

Lemma lift_submits_nothing {A} (r : result A) : submits_nothing (lift r : M (Client W) A).
Proof. done. Qed.

Lemma ret_submits_nothing {A} (a : A) : submits_nothing (mret a : M (Client W) A).
Proof. done. Qed.

Lemma throw_submits_nothing {A} e : submits_nothing (throw e : M (Client W) A).
Proof. done. Qed.

Lemma catch_submits_nothing {A} (m : M (Client W) A) h :
  submits_nothing m → (∀ e, submits_nothing (h e)) → submits_nothing (catch m h).
Proof.
  intros Hm Hh c. unfold catch. specialize (Hm c).
  destruct (m c) as [[a|e] c']; simpl in *; [done|]. by rewrite Hh.
Qed.

Lemma for_of_submits_nothing {A B} (xs : list A) (b : B) body :
  (∀ b x, submits_nothing (body b x)) → submits_nothing (for_of xs b body).
Proof.
  intros Hb. revert b; induction xs as [|x xs IH]; intros b; [done|]. simpl.
  apply bind_submits_nothing; [done|]. intros [b'|b']; [apply IH|done].
Qed.

End Calls.

Create HintDb quiet.
#[export] Hint Resolve query_submits_nothing bind_submits_nothing lift_submits_nothing
  ret_submits_nothing throw_submits_nothing catch_submits_nothing for_of_submits_nothing : quiet.
