(* ===== verification/Sample.v ===== *)
(** * A concrete key scheme, cluster and lodash

    Instances of the interfaces of Web3.v in which every law holds, so that the
    laws the theorems assume are satisfiable together and the theorems can be
    applied to concrete clients.  A sample key is its first two bytes; a sample
    cluster is a table of accounts that accepts every transaction. *)

From Stdlib Require Import ZArith Lia.
From Stdlib Require Import String.
From stdpp Require Import base list strings sets.
From coqutil Require Import Byte Word.LittleEndianList.
From S2P Require Import Prelude JsNumber Buffers Web3.

Open Scope Z_scope.

Definition SampleKey : Type := byte * byte.

Definition sample_key (z : Z) : SampleKey := (byte.of_Z z, byte.of_Z (Z.shiftr z 8)).

Definition sample_toBuffer (k : SampleKey) : buffer := [fst k; snd k] ++ alloc 30.

Definition sample_new_PublicKey (b : buffer) : result SampleKey :=
  match b with
  | x :: y :: rest => if decide (length rest = 30%nat) then Ok (x, y) else Err (JsError "Invalid public key input" [])
  | _ => Err (JsError "Invalid public key input" [])
  end.

Definition sample_of_string (s : string) : result SampleKey :=
  match list_byte_of_string s with
  | [x; y] => Ok (x, y)
  | _ => Err (JsError "Invalid public key input" [])
  end.

(** Any function of the seeds and the program will do: a polynomial hash. *)
Definition sample_address (seeds : list buffer) (p : SampleKey) : SampleKey :=
  sample_key (foldl (λ h b, (h * 31 + byte.unsigned b) mod 65521) 7 (concat seeds ++ [fst p; snd p])).

Definition literal_key (s : string) : SampleKey := sample_address [list_byte_of_string s] (Byte.x00, Byte.x00).

#[global] Instance SampleKeys : Keys := {|
  PublicKey := SampleKey;
  PublicKey_eq_dec := _;
  Account := SampleKey;
  publicKey := λ a, a;
  new_PublicKey := sample_new_PublicKey;
  toBuffer := sample_toBuffer;
  toBase58 := λ k, string_of_list_byte [fst k; snd k];
  PublicKey_of_string := sample_of_string;
  key_literal := literal_key;
  findProgramAddress := λ seeds p, Ok (sample_address seeds p);
  SystemProgram_programId := Build_obj 0 (literal_key "11111111111111111111111111111111");
  StakeProgram_programId := literal_key "Stake11111111111111111111111111111111111111";
  SYSVAR_CLOCK_PUBKEY := literal_key "SysvarC1ock11111111111111111111111111111111";
  SYSVAR_RENT_PUBKEY := literal_key "SysvarRent111111111111111111111111111111111";
  SYSVAR_STAKE_HISTORY_PUBKEY := literal_key "SysvarStakeHistory1111111111111111111111111";
|}.

#[global] Instance SampleKeysLaws : KeysLaws.
Proof. split; [done|]. by intros [x y]. Qed.

#[global] Instance SampleAddressesDerive : AddressesDerive.
Proof. split. intros seeds p. by eexists. Qed.

(** ** A cluster *)

Record SampleCluster := {
  sc_accounts : list (PublicKey * AccountInfo);
  sc_activations : list (PublicKey * StakeActivationData);
  sc_votes : list string;
  sc_epoch : num;
}.

Definition assoc {A} (k : SampleKey) (l : list (SampleKey * A)) : option A :=
  snd <$> head (filter (λ e, e.1 = k) l).

(** A sample account holds a whole number of lamports below [2^53]. *)
Definition whole_lamports (a : AccountInfo) : AccountInfo :=
  {| lamports := num_of_Z (match BigInt (lamports a) with Ok z => z mod 2 ^ 53 | Err _ => 0 end);
     account_owner := account_owner a; account_data := account_data a |}.

#[global] Instance SampleConnection : Connection SampleCluster := {|
  rpc_getAccountInfo := λ k _ w, (Ok (whole_lamports <$> assoc k (sc_accounts w)), w);
  rpc_getStakeActivation := λ k _ w,
    (match assoc k (sc_activations w) with
     | Some a => Ok a
     | None => Err (Rejected (-32602))
     end, w);
  rpc_getMinimumBalanceForRentExemption := λ n w, (Ok (num_of_Z ((n + 128) * 6960)), w);
  rpc_getBalance := λ k w,
    (Ok (match assoc k (sc_accounts w) with Some a => lamports a | None => num_of_Z 0 end), w);
  rpc_getVersion := λ w, (Ok "1.5.8"%string, w);
  rpc_getEpoch := λ w, (Ok (sc_epoch w), w);
  rpc_getVoteAccounts := λ _ w, (Ok (sc_votes w), w);
  rpc_sendAndConfirmTransaction := λ _ _ w, (Ok tt, w);
  createAccount := λ p,
    {| ix_keys := [signer_writable (fromPubkey p); signer_writable (newAccountPubkey p)];
       ix_programId := val SystemProgram_programId;
       ix_data := le_split 4 0 ++ le_split 8 (space p) |};
|}.

#[global] Instance SampleSystemProgramLaws : SystemProgramLaws.
Proof. done. Qed.

#[global] Instance SampleClusterAnswers : ClusterAnswers.
Proof. split. intros k cm w. by eexists _, _. Qed.

#[global] Instance SampleRentAnswered : RentAnswered.
Proof. split. intros n w. by eexists _, _. Qed.

#[global] Instance SampleLamportsExact : LamportsExact.
Proof.
  split. intros k cm w a w' Hr. simpl in Hr. injection Hr as Hr _.
  apply fmap_Some in Hr as (i & _ & ->). eexists. split; [done|].
  destruct (BigInt (lamports i)); [|lia]. apply Z.mod_pos_bound. lia.
Qed.

#[global] Instance SampleStableCluster : StableCluster := {|
  info_at := λ w k, whole_lamports <$> assoc k (sc_accounts w);
  activation_at := λ w k,
    match assoc k (sc_activations w) with
    | Some a => Ok a
    | None => Err (Rejected (-32602))
    end;
  stable_info := λ k cm w, eq_refl;
  stable_activation := λ k cm w, eq_refl;
|}.

(** ** lodash *)

Fixpoint sample_chunk {A} (fuel : nat) (xs : list A) (n : nat) : list (list A) :=
  match fuel, xs with
  | S fuel', _ :: _ => take n xs :: sample_chunk fuel' (drop n xs) n
  | _, _ => []
  end.

#[global] Instance SampleLodash : Lodash := {| chunk := λ A xs n, sample_chunk (length xs) xs n |}.

Lemma sample_chunk_concat {A} fuel (xs : list A) n :
  (0 < n)%nat → (length xs ≤ fuel)%nat → concat (sample_chunk fuel xs n) = xs.
Proof.
  intros Hn. revert xs; induction fuel as [|fuel IH]; intros [|x xs] Hf; try done; [simpl in Hf; lia|].
  cbn [sample_chunk concat]. rewrite IH, take_drop; [done|]. rewrite length_drop. simpl in *. lia.
Qed.

Lemma sample_chunk_length {A} fuel (xs : list A) n c :
  (0 < n)%nat → c ∈ sample_chunk fuel xs n → (0 < length c ≤ n)%nat.
Proof.
  intros Hn. revert xs; induction fuel as [|fuel IH]; intros [|x xs]; try set_solver.
  cbn [sample_chunk]. intros [->|Hc]%elem_of_cons; [|by eapply IH].
  rewrite length_take. simpl. lia.
Qed.

#[global] Instance SampleLodashLaws : LodashLaws.
Proof.
  split; unfold chunk; simpl; intros.
  - by apply sample_chunk_concat.
  - by eapply sample_chunk_length.
Qed.
