(* ===== verification/Program.v ===== *)
(** * The on-chain program's wire formats

    The Solana program (program/src) is the other side of every message the
    client builds and the writer of every account it parses.  This file models
    what it reads and writes at that boundary: [StakePoolInstruction::deserialize]
    of instruction.rs, and the [repr(C)] layouts of state.rs on the little-endian
    target.  A Rust [Pubkey] is its 32 bytes; padding bytes have no specified
    value and are parameters. *)

From Stdlib Require Import ZArith Lia.
From stdpp Require Import base list strings sets.
From coqutil Require Import Byte Word.LittleEndianList.
From S2P Require Import Prelude Buffers.

Open Scope Z_scope.

(** ** Errors (error.rs) *)

Inductive StakePoolError :=
  | AlreadyInUse | InvalidProgramAddress | InvalidState | CalculationFailure | FeeTooHigh
  | WrongAccountMint | NonZeroBalance | WrongOwner | SignatureMissing | InvalidValidatorStakeList
  | InvalidFeeAccount | WrongPoolMint | WrongStakeState | UserStakeNotActive
  | ValidatorAlreadyAdded | ValidatorNotFound | InvalidStakeAccountAddress | StakeListOutOfDate
  | StakeListAndPoolOutOfDate | UnknownValidatorStakeAccount | WrongMintingAuthority
  | MintHasInitialSupply | AccountNotRentExempt | ValidatorListOverflow | ValidatorHasStakes
  | FirstDepositIsTooSmall | WrongCreditOwner | WrongCreditState | InvalidStakeIndex
  | CreditListOverfow | UnknownCreditor.

(** [Custom]: an error of this program.  [Foreign]: an error of the runtime or of a
    program that was invoked.  [Panicked]: an index out of bounds or a [panic!] aborts
    the program. *)
Inductive ProgramError :=
  | InvalidAccountData | InvalidArgument | InsufficientFunds | IncorrectProgramId
  | MissingRequiredSignature | NotEnoughAccountKeys
  | Custom (e : StakePoolError)
  | Foreign (code : Z)
  | Panicked.

Abbreviation program_result A := (ProgramError + A)%type.

(** ** Instructions (instruction.rs) *)

Record DelegateReserveInstruction := {
  dri_amount : Z;
  dri_stake_index : Z;
}.

Record MergeStakesInstruction := {
  msi_validator_address : buffer;
  msi_main_index : Z;
  msi_additional_index : Z;
}.

Record UnstakeInstruction := {
  ui_validator_address : buffer;
  ui_source_index : Z;
  ui_split_index : Z;
  ui_amount : Z;
}.

Inductive StakePoolInstruction :=
  | Initialize (denominator numerator : Z)
  | AddValidator
  | RemoveValidator
  | UpdateListBalance
  | UpdatePoolBalance
  | Deposit (amount : Z)
  | Withdraw (amount : Z)
  | SetStakingAuthority
  | SetOwner
  | Credit (amount : Z)
  | Uncredit (amount : Z)
  | DelegateReserve (l : list DelegateReserveInstruction)
  | MergeStakes (l : list MergeStakesInstruction)
  | Unstake (l : list UnstakeInstruction)
  | PayCreditors.

(** The little-endian integer at an offset of a packed or [repr(C)] value. *)
Definition u_at (n : nat) (b : buffer) (off : nat) : Z := le_combine (slice b off (off + n)).

(** [unpack::<T>(input)] for a [T] of [size] bytes. *)
Definition unpack {A} (size : nat) (get : buffer → A) (input : buffer) : program_result A :=
  if (length input <? 1 + size)%nat then inl InvalidAccountData
  else inr (get (drop 1 input)).

(** [slice::from_raw_parts]: [count] values of [size] bytes each. *)
Fixpoint raw_parts {A} (size count : nat) (get : buffer → A) (b : buffer) : list A :=
  match count with
  | O => []
  | S n => get (take size b) :: raw_parts size n get (drop size b)
  end.

Definition get_DelegateReserveInstruction (b : buffer) : DelegateReserveInstruction :=
  {| dri_amount := u_at 8 b 0; dri_stake_index := u_at 4 b 8 |}.

Definition get_MergeStakesInstruction (b : buffer) : MergeStakesInstruction :=
  {| msi_validator_address := slice b 0 32; msi_main_index := u_at 4 b 32;
     msi_additional_index := u_at 4 b 36 |}.

Definition get_UnstakeInstruction (b : buffer) : UnstakeInstruction :=
  {| ui_validator_address := slice b 0 32; ui_source_index := u_at 4 b 32;
     ui_split_index := u_at 4 b 36; ui_amount := u_at 8 b 40 |}.

(** A vector of [size]-byte values after a [u32] count; [&input[1 + 4]] is
    bounds-checked even when there is no value to read. *)
Definition unpack_vec {A} (size : nat) (get : buffer → A) (input : buffer) : program_result (list A) :=
  match unpack 4 (λ b, u_at 4 b 0) input with
  | inl e => inl e
  | inr count =>
      if Z.of_nat (length input) <? 1 + 4 + count * Z.of_nat size then inl InvalidArgument
      else if (length input <=? 5)%nat then inl Panicked
      else inr (raw_parts size (Z.to_nat count) get (drop 5 input))
  end.

Definition map_inr {E A B} (f : A → B) (r : E + A) : E + B :=
  match r with inl e => inl e | inr a => inr (f a) end.

(** [StakePoolInstruction::deserialize]. *)
Definition deserialize_instruction (input : buffer) : program_result StakePoolInstruction :=
  match input with
  | [] => inl InvalidAccountData
  | tag :: _ =>
      match byte.unsigned tag with
      | 0 => map_inr (λ '(d, n), Initialize d n) (unpack 16 (λ b, (u_at 8 b 0, u_at 8 b 8)) input)
      | 2 => inr AddValidator
      | 3 => inr RemoveValidator
      | 4 => inr UpdateListBalance
      | 5 => inr UpdatePoolBalance
      | 6 => map_inr Deposit (unpack 8 (λ b, u_at 8 b 0) input)
      | 7 => map_inr Withdraw (unpack 8 (λ b, u_at 8 b 0) input)
      | 8 => inr SetStakingAuthority
      | 9 => inr SetOwner
      | 10 => map_inr Credit (unpack 8 (λ b, u_at 8 b 0) input)
      | 11 => map_inr Uncredit (unpack 8 (λ b, u_at 8 b 0) input)
      | 12 => map_inr DelegateReserve (unpack_vec 12 get_DelegateReserveInstruction input)
      | 13 => map_inr MergeStakes (unpack_vec 40 get_MergeStakesInstruction input)
      | 14 => map_inr Unstake (unpack_vec 48 get_UnstakeInstruction input)
      | 15 => inr PayCreditors
      | _ => inl InvalidAccountData
      end
  end.

(** The accounts an instruction works on, in the order the processor takes them
    from the list ([next_account_info] in processor.rs). *)
Inductive AccountRole :=
  | R_StakePool | R_Owner | R_ValidatorStakeList | R_CreditList | R_PoolMint | R_OwnerFee
  | R_CreditReserve | R_WithdrawAuthority | R_DepositAuthority | R_Reserve
  | R_UserSource | R_UserToken | R_UserSolTarget | R_CancelAuthority | R_ValidatorVote
  | R_NewOwner | R_NewOwnerFee | R_Stake | R_StakingKey
  | R_Clock | R_Rent | R_StakeHistory | R_StakeConfig
  | R_SystemProgram | R_StakeProgram | R_TokenProgram.

(** A role with what instruction.rs asks of it: [[s]] and [[w]]. *)
Record AccountSpec := { role : AccountRole; needs_signer : bool; needs_writable : bool }.

Definition acc (r : AccountRole) : AccountSpec :=
  {| role := r; needs_signer := false; needs_writable := false |}.
Definition acc_w (r : AccountRole) : AccountSpec :=
  {| role := r; needs_signer := false; needs_writable := true |}.
Definition acc_s (r : AccountRole) : AccountSpec :=
  {| role := r; needs_signer := true; needs_writable := false |}.
Definition acc_ws (r : AccountRole) : AccountSpec :=
  {| role := r; needs_signer := true; needs_writable := true |}.

Definition validator_accounts : list AccountSpec :=
  [acc R_StakePool; acc_s R_Owner; acc_w R_ValidatorStakeList; acc R_ValidatorVote; acc R_Clock].

(** The fixed part of the account list of each instruction; the variable part
    (stakes, creditors) follows it. *)
Definition accounts_of (i : StakePoolInstruction) : list AccountSpec :=
  match i with
  | Initialize _ _ =>
      [acc_w R_StakePool; acc_s R_Owner; acc_w R_ValidatorStakeList; acc_w R_CreditList;
       acc R_PoolMint; acc R_OwnerFee; acc_w R_CreditReserve; acc R_Clock; acc R_Rent;
       acc R_TokenProgram]
  | AddValidator | RemoveValidator => validator_accounts
  | UpdateListBalance =>
      [acc R_StakePool; acc_w R_ValidatorStakeList; acc R_WithdrawAuthority; acc_w R_Reserve;
       acc R_SystemProgram; acc R_StakeProgram; acc R_Clock; acc R_StakeHistory]
  | UpdatePoolBalance => [acc_w R_StakePool; acc R_ValidatorStakeList; acc R_Reserve; acc R_Clock]
  | Deposit _ =>
      [acc_w R_StakePool; acc R_WithdrawAuthority; acc_w R_Reserve; acc_ws R_UserSource;
       acc_w R_UserToken; acc_w R_OwnerFee; acc_w R_PoolMint; acc R_Rent; acc R_SystemProgram;
       acc R_TokenProgram]
  | Withdraw _ =>
      [acc_w R_StakePool; acc R_WithdrawAuthority; acc_w R_Reserve; acc_w R_UserToken;
       acc_w R_PoolMint; acc_w R_UserSolTarget; acc R_Rent; acc R_SystemProgram;
       acc R_TokenProgram]
  | Credit _ =>
      [acc R_StakePool; acc_w R_CreditList; acc_w R_CreditReserve; acc R_WithdrawAuthority;
       acc_w R_UserToken; acc R_UserSolTarget; acc R_CancelAuthority; acc R_TokenProgram]
  | Uncredit _ =>
      [acc R_StakePool; acc_w R_CreditList; acc_w R_CreditReserve; acc R_WithdrawAuthority;
       acc_w R_UserToken; acc R_UserSolTarget; acc_s R_CancelAuthority; acc R_TokenProgram]
  | DelegateReserve _ =>
      [acc R_StakePool; acc_s R_Owner; acc_w R_ValidatorStakeList; acc R_WithdrawAuthority;
       acc R_DepositAuthority; acc_w R_Reserve; acc R_SystemProgram; acc R_StakeProgram;
       acc R_Clock; acc R_StakeHistory; acc R_StakeConfig; acc R_Rent]
  | MergeStakes _ =>
      [acc R_StakePool; acc_w R_ValidatorStakeList; acc R_DepositAuthority; acc R_StakeProgram;
       acc R_Clock; acc R_StakeHistory]
  | Unstake _ =>
      [acc R_StakePool; acc_s R_Owner; acc_w R_ValidatorStakeList; acc R_DepositAuthority;
       acc R_SystemProgram; acc R_StakeProgram; acc R_Rent; acc R_Clock; acc R_StakeHistory]
  | PayCreditors =>
      [acc_w R_StakePool; acc_w R_CreditList; acc R_WithdrawAuthority; acc_w R_Reserve;
       acc_w R_CreditReserve; acc_w R_PoolMint; acc R_Rent; acc R_Clock; acc R_SystemProgram;
       acc R_TokenProgram]
  | SetStakingAuthority =>
      [acc_w R_StakePool; acc_s R_Owner; acc R_WithdrawAuthority; acc_w R_Stake; acc R_StakingKey;
       acc R_Clock; acc R_StakeProgram]
  | SetOwner => [acc_w R_StakePool; acc_s R_Owner; acc R_NewOwner; acc R_NewOwnerFee]
  end.

(** The stake accounts [process_unstake] takes for one instruction, by index:
    the source, and the split target unless it is the source. *)
Definition unstake_accounts (u : UnstakeInstruction) : list Z :=
  if ui_split_index u =? ui_source_index u then [ui_source_index u]
  else [ui_source_index u; ui_split_index u].

(** ** Accounts (state.rs) *)

Record StakePool := {
  sp_version : Z;
  sp_owner : buffer;
  sp_deposit_bump_seed : Z;
  sp_withdraw_bump_seed : Z;
  sp_validator_stake_list : buffer;
  sp_credit_list : buffer;
  sp_pool_mint : buffer;
  sp_owner_fee_account : buffer;
  sp_credit_reserve : buffer;
  sp_token_program_id : buffer;
  sp_stake_total : Z;
  sp_pool_total : Z;
  sp_last_update_epoch : Z;
  sp_fee_denominator : Z;
  sp_fee_numerator : Z;
}.

Definition STAKE_POOL_LEN : nat := 272.

(** The bytes of a [StakePool] value: [u8]s and keys are packed, the [u64]s are
    aligned to 8 and so follow five bytes of padding. *)
Definition stake_pool_bytes (padding : buffer) (sp : StakePool) : buffer :=
  le_split 1 (sp_version sp) ++ sp_owner sp ++ le_split 1 (sp_deposit_bump_seed sp)
  ++ le_split 1 (sp_withdraw_bump_seed sp) ++ sp_validator_stake_list sp ++ sp_credit_list sp
  ++ sp_pool_mint sp ++ sp_owner_fee_account sp ++ sp_credit_reserve sp
  ++ sp_token_program_id sp ++ padding ++ le_split 8 (sp_stake_total sp)
  ++ le_split 8 (sp_pool_total sp) ++ le_split 8 (sp_last_update_epoch sp)
  ++ le_split 8 (sp_fee_denominator sp) ++ le_split 8 (sp_fee_numerator sp).

(** [StakePool::serialize]: the value overwrites the start of the account. *)
Definition serialize_stake_pool (padding : buffer) (sp : StakePool) (output : buffer)
  : program_result buffer :=
  if (length output <? STAKE_POOL_LEN)%nat then inl InvalidAccountData
  else inr (stake_pool_bytes padding sp ++ drop STAKE_POOL_LEN output).

Definition MAX_VALIDATORS : nat := 100.

Record ValidatorStakeInfo := {
  vsi_validator_account : buffer;
  vsi_balance : Z;
  vsi_last_update_epoch : Z;
  vsi_stake_count : Z;
}.

Definition VALIDATOR_STAKE_INFO_LEN : nat := 56.

(** A [u32] last: four bytes of padding up to the alignment of the [u64]s. *)
Definition validator_stake_info_bytes (padding : buffer) (v : ValidatorStakeInfo) : buffer :=
  vsi_validator_account v ++ le_split 8 (vsi_balance v) ++ le_split 8 (vsi_last_update_epoch v)
  ++ le_split 4 (vsi_stake_count v) ++ padding.

Record ValidatorStakeList := {
  vsl_version : Z;
  vsl_validators : list ValidatorStakeInfo;
}.

Definition VALIDATOR_STAKE_LIST_LEN : nat := 3 + VALIDATOR_STAKE_INFO_LEN * MAX_VALIDATORS.

(** The header and the records; [padding i] is the padding of record [i]. *)
Definition validator_stake_list_bytes (padding : nat → buffer) (l : ValidatorStakeList) : buffer :=
  le_split 1 (vsl_version l) ++ le_split 2 (Z.of_nat (length (vsl_validators l)))
  ++ concat (imap (λ i v, validator_stake_info_bytes (padding i) v) (vsl_validators l)).

(** [ValidatorStakeList::serialize]. *)
Definition serialize_validator_stake_list (padding : nat → buffer) (l : ValidatorStakeList)
    (output : buffer) : program_result buffer :=
  if (length output <? VALIDATOR_STAKE_LIST_LEN)%nat then inl InvalidAccountData
  else if (MAX_VALIDATORS <? length (vsl_validators l))%nat then inl InvalidAccountData
  else let bytes := validator_stake_list_bytes padding l in
       inr (bytes ++ drop (length bytes) output).

Definition MAX_CREDIT_RECORDS : nat := 1000.

Record CreditRecord := {
  cr_sol_target : buffer;
  cr_cancel_authority : buffer;
  cr_token_amount : Z;
}.

Definition CREDIT_RECORD_LEN : nat := 72.

Definition credit_record_bytes (c : CreditRecord) : buffer :=
  cr_sol_target c ++ cr_cancel_authority c ++ le_split 8 (cr_token_amount c).

Record CreditList := {
  cl_version : Z;
  cl_credits : list CreditRecord;
}.

Definition CREDIT_LIST_LEN : nat := 3 + CREDIT_RECORD_LEN * MAX_CREDIT_RECORDS.

Definition credit_list_bytes (l : CreditList) : buffer :=
  le_split 1 (cl_version l) ++ le_split 2 (Z.of_nat (length (cl_credits l)))
  ++ concat (credit_record_bytes <$> cl_credits l).

(** [CreditList::serialize]. *)
Definition serialize_credit_list (l : CreditList) (output : buffer) : program_result buffer :=
  if (length output <? CREDIT_LIST_LEN)%nat then inl InvalidAccountData
  else if (MAX_CREDIT_RECORDS <? length (cl_credits l))%nat then inl InvalidAccountData
  else let bytes := credit_list_bytes l in inr (bytes ++ drop (length bytes) output).

(** ** Lemmas *)

Lemma u_at_split n v pre post off :
  off = length pre → 0 <= v < 2 ^ (Z.of_nat n * 8) →
  u_at n (pre ++ le_split n v ++ post) off = v.
Proof.
  intros -> Hv. unfold u_at. rewrite slice_app by (by rewrite ?length_le_split).
  by apply le_combine_split_small.
Qed.

Lemma u_at_range n b off : 0 <= u_at n b off < 2 ^ (Z.of_nat n * 8).
Proof.
  unfold u_at. pose proof (le_combine_bound (slice b off (off + n))) as Hb.
  split; [lia|]. eapply Z.lt_le_trans; [apply Hb|]. apply Z.pow_le_mono_r; [lia|].
  unfold slice. rewrite length_take. lia.
Qed.

Lemma u_at_skip n a r off k :
  length a = k → (k <= off)%nat → u_at n (a ++ r) off = u_at n r (off - k).
Proof.
  intros Ha Ho. unfold u_at. rewrite (slice_skip a r _ _ k) by done. do 2 f_equal. lia.
Qed.

Lemma u_at_here n v r : 0 <= v < 2 ^ (Z.of_nat n * 8) → u_at n (le_split n v ++ r) 0 = v.
Proof. by apply (u_at_split n v []). Qed.

(** The length of a field of a concatenation, from its encoding or a hypothesis. *)
Ltac field_length a :=
  match a with
  | le_split ?n _ => constr:(n)
  | _ => match goal with H : length a = ?k |- _ => constr:(k) end
  end.

(** Reads the field at an offset of a concatenation of fields of known lengths. *)
Ltac field_at :=
  repeat match goal with
  | |- context [slice (?a ++ ?r) (S ?p) ?q] =>
      let k := field_length a in
      rewrite (slice_skip a r (S p) q k) by first [apply length_le_split | assumption | lia];
      cbn [Nat.sub]
  | |- context [u_at ?n (?a ++ ?r) (S ?p)] =>
      let k := field_length a in
      rewrite (u_at_skip n a r (S p) k) by first [apply length_le_split | assumption | lia];
      cbn [Nat.sub]
  end;
  first [by apply u_at_here | by apply slice_here].

(** Consecutive encodings are read back one by one. *)
Lemma raw_parts_concat {A B} size (enc : B → buffer) (get : buffer → A) (dec : B → A) xs post :
  (∀ x, x ∈ xs → length (enc x) = size ∧ get (enc x) = dec x) →
  raw_parts size (length xs) get (concat (enc <$> xs) ++ post) = dec <$> xs.
Proof.
  induction xs as [|x xs IH]; intros Hx; [done|]. simpl.
  destruct (Hx x) as [Hl Hg]; [set_solver|]. rewrite <- app_assoc.
  rewrite <- Hl, take_app_length, drop_app_length, Hg. f_equal. rewrite Hl.
  apply IH. intros y Hy. apply Hx. set_solver.
Qed.
