(* ===== verification/Chain.v ===== *)
(** * The runtime the on-chain program runs in

    What the processor (program/src/processor.rs) uses of the Solana runtime, of the
    system program and of the SPL token program, none of which is part of the
    repository: an interface with the documented behaviour as laws.  A bank is the
    store of accounts the program shares with the programs it invokes; a computation
    of the program reads and changes it or ends with an error, which undoes the whole
    transaction.  Rust's [u64] arithmetic is that of a release build: [+], [-] and
    their assigning forms wrap around. *)

From Stdlib Require Import ZArith Lia.
From stdpp Require Import base list strings sets.
From coqutil Require Import Byte.
From S2P Require Import Prelude Buffers Program.

Open Scope Z_scope.

(** ** Accounts *)

(** An account: its balance, its data and the program that owns it. *)
Record ChainAccount := {
  ac_lamports : Z;
  ac_data : buffer;
  ac_owner : buffer;
}.

(** Every address has an account; one nobody funded is empty. *)
Definition Bank : Type := buffer → ChainAccount.

Definition put (k : buffer) (a : ChainAccount) (b : Bank) : Bank :=
  λ k', if decide (k' = k) then a else b k'.

(** [AccountInfo]: a handle to an account of the bank with what is fixed on entry.
    Its balance and data are shared cells, so they are read from the bank. *)
Record AccountInfo := {
  ai_key : buffer;
  ai_is_signer : bool;
  ai_owner : buffer;
}.

(** ** Computations of the program *)

Definition P (A : Type) : Type := Bank → program_result (A * Bank).

#[global] Instance P_ret : MRet P := λ A a b, inr (a, b).
#[global] Instance P_bind : MBind P :=
  λ A B f m b, match m b with
               | inl e => inl e
               | inr (a, b') => f a b'
               end.

Definition fail {A} (e : ProgramError) : P A := λ _, inl e.

(** [return Err(e)] unless the condition holds. *)
Definition ensure (c : bool) (e : ProgramError) : P unit := if c then mret tt else fail e.

(** [o.ok_or(e)?]. *)
Definition ok_or_fail {A} (o : option A) (e : ProgramError) : P A :=
  match o with Some a => mret a | None => fail e end.

(** A computation that does not touch the bank, and its [?]. *)
Definition try_ {A} (r : program_result A) : P A :=
  match r with inl e => fail e | inr a => mret a end.

Definition lamports_of (i : AccountInfo) : P Z := λ b, inr (ac_lamports (b (ai_key i)), b).
Definition data_of (i : AccountInfo) : P buffer := λ b, inr (ac_data (b (ai_key i)), b).

(** [x.serialize(&mut info.data.borrow_mut())?]. *)
Definition write_data (i : AccountInfo) (f : buffer → program_result buffer) : P unit :=
  λ b, let a := b (ai_key i) in
       match f (ac_data a) with
       | inl e => inl e
       | inr d => inr (tt, put (ai_key i) {| ac_lamports := ac_lamports a; ac_data := d;
                                            ac_owner := ac_owner a |} b)
       end.

(** [next_account_info(account_info_iter)?]. *)
Definition next_account_info (it : list AccountInfo) : P (AccountInfo * list AccountInfo) :=
  match it with
  | [] => fail NotEnoughAccountKeys
  | i :: it' => mret (i, it')
  end.

Definition bytes_eqb (x y : buffer) : bool := bool_decide (x = y).

(** ** Wrapping arithmetic *)

Definition u64_max_plus_1 : Z := 2 ^ 64.
Definition wadd (x y : Z) : Z := (x + y) mod u64_max_plus_1.
Definition wsub (x y : Z) : Z := (x - y) mod u64_max_plus_1.

Definition is_u64 (x : Z) : Prop := 0 <= x < u64_max_plus_1.

Lemma wadd_small x y : 0 <= x + y < u64_max_plus_1 → wadd x y = x + y.
Proof. apply Z.mod_small. Qed.

Lemma wsub_small x y : 0 <= x - y < u64_max_plus_1 → wsub x y = x - y.
Proof. apply Z.mod_small. Qed.

Lemma wadd_u64 x y : is_u64 (wadd x y).
Proof. by apply Z.mod_pos_bound. Qed.

Lemma wsub_u64 x y : is_u64 (wsub x y).
Proof. by apply Z.mod_pos_bound. Qed.

(** ** Tokens (spl_token::state) *)

Inductive AccountState := Uninitialized | Initialized | Frozen.

#[global] Instance AccountState_eq_dec : EqDecision AccountState.
Proof. solve_decision. Defined.

Record TokenAccount := {
  ta_mint : buffer;
  ta_owner : buffer;
  ta_amount : Z;
  ta_delegate : option buffer;
  ta_state : AccountState;
  ta_is_native : bool;
  ta_delegated_amount : Z;
  ta_close_authority : option buffer;
}.

Record Mint := {
  mi_authority : option buffer;
  mi_supply : Z;
}.

(** ** Instructions the program issues *)

Inductive TokenInstruction :=
  | Tk_InitializeAccount (account mint owner : buffer)
  | Tk_Transfer (source destination authority : buffer) (amount : Z)
  | Tk_MintTo (mint account authority : buffer) (amount : Z)
  | Tk_Burn (account mint authority : buffer) (amount : Z)
  | Tk_CloseAccount (account destination owner : buffer)
  | Tk_SetOwner (account new_owner owner : buffer).

Inductive Cpi :=
  | Sys_Transfer (from to : buffer) (lamports : Z)
  | Sys_CreateAccount (from to : buffer) (lamports space : Z) (owner : buffer)
  | Token (program : buffer) (i : TokenInstruction).

(** ** The interface *)

Class Runtime := {
  system_program_id : buffer;
  spl_token_id : buffer;
  native_mint_id : buffer;
  (** [Pubkey::create_program_address] and [find_program_address], which also gives
      the bump seed. *)
  create_program_address : list buffer → buffer → option buffer;
  find_program_address : list buffer → buffer → buffer * Z;
  (** The sysvars: [Rent::from_account_info] and [Clock::from_account_info], of which
      the program reads the epoch. *)
  Rent : Type;
  Rent_from_account_info : AccountInfo → Bank → program_result Rent;
  minimum_balance : Rent → Z → Z;
  is_exempt : Rent → Z → Z → bool;
  Clock_from_account_info : AccountInfo → Bank → program_result Z;
  (** [Account::unpack_from_slice] and [Mint::unpack_from_slice]. *)
  unpack_account : buffer → option TokenAccount;
  unpack_mint : buffer → option Mint;
  (** [invoke_signed] by the program [program_id]: the accounts passed on and the
      seeds of the addresses the program signs for. *)
  invoke_signed_by : buffer → list AccountInfo → list (list buffer) → Cpi → Bank →
    program_result Bank;
  (** The bytes of [n] bytes of padding, which have no specified value. *)
  padding_bytes : nat → buffer;
}.

Section Interface.
Context `{Runtime}.

(** The token account and the mint at an address: accounts of the token program. *)
Definition token_at (b : Bank) (k : buffer) : option TokenAccount :=
  if decide (ac_owner (b k) = spl_token_id) then unpack_account (ac_data (b k)) else None.

Definition mint_at (b : Bank) (k : buffer) : option Mint :=
  if decide (ac_owner (b k) = spl_token_id) then unpack_mint (ac_data (b k)) else None.

(** Who signs an invoked instruction: the signers among the accounts passed on, and
    the addresses of the seeds. *)
Definition signs (program_id : buffer) (infos : list AccountInfo) (seeds : list (list buffer))
    (k : buffer) : Prop :=
  (∃ i, i ∈ infos ∧ ai_key i = k ∧ ai_is_signer i = true) ∨
  (∃ s, s ∈ seeds ∧ create_program_address s program_id = Some k).

(** The data and owners of the accounts outside [ks] are left alone. *)
Definition frame (ks : list buffer) (b b' : Bank) : Prop :=
  ∀ k, k ∉ ks → ac_data (b' k) = ac_data (b k) ∧ ac_owner (b' k) = ac_owner (b k).

Definition same_owners (b b' : Bank) : Prop := ∀ k, ac_owner (b' k) = ac_owner (b k).

(** [n] lamports go from one account to another; nothing happens if they are one. *)
Definition moved (from to : buffer) (n : Z) (b b' : Bank) : Prop :=
  ∀ k, ac_lamports (b' k) =
       ac_lamports (b k) - (if decide (k = from) then n else 0) + (if decide (k = to) then n else 0).

(** [authority] may take [n] tokens out of an account: as its delegate, within the
    amount it was allowed, or as its owner. *)
Definition may_spend (authority : buffer) (n : Z) (a : TokenAccount) : Prop :=
  ta_state a = Initialized ∧ n <= ta_amount a ∧
  (if decide (ta_delegate a = Some authority) then n <= ta_delegated_amount a
   else ta_owner a = authority).

(** [a'] is [a] with another amount, its allowance aside. *)
Definition with_amount (n : Z) (a a' : TokenAccount) : Prop :=
  ta_amount a' = n ∧ ta_mint a' = ta_mint a ∧ ta_owner a' = ta_owner a ∧
  ta_state a' = ta_state a ∧ ta_is_native a' = ta_is_native a.

Definition with_supply (n : Z) (m : Mint) : Mint :=
  {| mi_authority := mi_authority m; mi_supply := n |}.

End Interface.

(** ** The documented behaviour of the invoked programs

    For every instruction the program issues: what its success tells of the bank
    before and after it; and, for the instructions whose acceptance a theorem relies
    on, when it succeeds. *)
Class RuntimeLaws `{Runtime} : Prop := {
  (** The address found is the one created from the seeds and the bump, a byte. *)
  find_creates : ∀ seeds p k z, find_program_address seeds p = (k, z) →
    0 <= z < 256 ∧ create_program_address (seeds ++ [[byte.of_Z z]]) p = Some k;
  (** Balances stay within a [u64]. *)
  lamports_kept_u64 : ∀ p infos seeds ix b b',
    invoke_signed_by p infos seeds ix b = inr b' →
    (∀ k, is_u64 (ac_lamports (b k))) → ∀ k, is_u64 (ac_lamports (b' k));
  programs_differ : system_program_id ≠ spl_token_id;
  length_padding : ∀ n, length (padding_bytes n) = n;
  is_exempt_spec : ∀ r l n, is_exempt r l n = (minimum_balance r n <=? l);
  clock_u64 : ∀ i b e, Clock_from_account_info i b = inr e → is_u64 e;
  minimum_balance_nonneg : ∀ r n, 0 <= minimum_balance r n;
  unpack_account_amount : ∀ d a, unpack_account d = Some a → is_u64 (ta_amount a);
  unpack_mint_supply : ∀ d m, unpack_mint d = Some m → is_u64 (mi_supply m);
  (** Token accounts and mints have different sizes. *)
  account_or_mint : ∀ d a m, unpack_account d = Some a → unpack_mint d = Some m → False;

  transfer_effect : ∀ p infos seeds from to n b b',
    invoke_signed_by p infos seeds (Sys_Transfer from to n) b = inr b' →
    signs p infos seeds from ∧ ac_owner (b from) = system_program_id ∧
    n <= ac_lamports (b from) ∧ frame [] b b' ∧ moved from to n b b';
  transfer_accepted : ∀ p infos seeds from to n b,
    signs p infos seeds from → ac_owner (b from) = system_program_id → ac_data (b from) = [] →
    0 <= n <= ac_lamports (b from) → ac_lamports (b to) + n < u64_max_plus_1 →
    ∃ b', invoke_signed_by p infos seeds (Sys_Transfer from to n) b = inr b';

  create_account_effect : ∀ p infos seeds from to n space o b b',
    invoke_signed_by p infos seeds (Sys_CreateAccount from to n space o) b = inr b' →
    signs p infos seeds from ∧ signs p infos seeds to ∧
    ac_lamports (b to) = 0 ∧ ac_owner (b to) = system_program_id ∧ n <= ac_lamports (b from) ∧
    ac_owner (b' to) = o ∧ frame [to] b b' ∧ moved from to n b b';

  initialize_account_effect : ∀ p infos seeds k mint o b b',
    invoke_signed_by p infos seeds (Token spl_token_id (Tk_InitializeAccount k mint o)) b = inr b' →
    ac_owner (b k) = spl_token_id ∧ same_owners b b' ∧ frame [k] b b' ∧ moved k k 0 b b' ∧
    ∃ a, token_at b' k = Some a ∧ ta_mint a = mint ∧ ta_owner a = o ∧
         ta_is_native a = bytes_eqb mint native_mint_id;

  token_transfer_effect : ∀ p infos seeds src dst authority n b b',
    invoke_signed_by p infos seeds (Token spl_token_id (Tk_Transfer src dst authority n)) b = inr b' →
    signs p infos seeds authority ∧ same_owners b b' ∧ frame [src; dst] b b' ∧
    ∃ a d, token_at b src = Some a ∧ token_at b dst = Some d ∧ ta_mint a = ta_mint d ∧
      may_spend authority n a ∧ moved src dst (if ta_is_native a then n else 0) b b' ∧
      (if decide (src = dst) then token_at b' src = Some a
       else ∃ a' d', token_at b' src = Some a' ∧ token_at b' dst = Some d' ∧
              with_amount (ta_amount a - n) a a' ∧ with_amount (ta_amount d + n) d d');
  token_transfer_accepted : ∀ p infos seeds src dst authority n b a d,
    signs p infos seeds authority → token_at b src = Some a → token_at b dst = Some d →
    ta_mint a = ta_mint d → ta_state d = Initialized → ta_is_native a = false →
    0 <= n → may_spend authority n a →
    (src ≠ dst → ta_amount d + n < u64_max_plus_1) →
    ∃ b', invoke_signed_by p infos seeds (Token spl_token_id (Tk_Transfer src dst authority n)) b = inr b';

  mint_to_effect : ∀ p infos seeds mint k authority n b b',
    invoke_signed_by p infos seeds (Token spl_token_id (Tk_MintTo mint k authority n)) b = inr b' →
    signs p infos seeds authority ∧ same_owners b b' ∧ frame [mint; k] b b' ∧ moved k k 0 b b' ∧
    ∃ m a a', mint_at b mint = Some m ∧ token_at b k = Some a ∧ ta_mint a = mint ∧
      mi_authority m = Some authority ∧ mi_supply m + n < u64_max_plus_1 ∧
      mint_at b' mint = Some (with_supply (mi_supply m + n) m) ∧
      token_at b' k = Some a' ∧ with_amount (ta_amount a + n) a a';
  mint_to_accepted : ∀ p infos seeds mint k authority n b m a,
    signs p infos seeds authority → mint_at b mint = Some m → token_at b k = Some a →
    ta_mint a = mint → ta_state a = Initialized → ta_is_native a = false →
    mi_authority m = Some authority → 0 <= n →
    mi_supply m + n < u64_max_plus_1 → ta_amount a + n < u64_max_plus_1 →
    ∃ b', invoke_signed_by p infos seeds (Token spl_token_id (Tk_MintTo mint k authority n)) b = inr b';

  burn_effect : ∀ p infos seeds k mint authority n b b',
    invoke_signed_by p infos seeds (Token spl_token_id (Tk_Burn k mint authority n)) b = inr b' →
    signs p infos seeds authority ∧ same_owners b b' ∧ frame [mint; k] b b' ∧ moved k k 0 b b' ∧
    ∃ m a a', mint_at b mint = Some m ∧ token_at b k = Some a ∧ ta_mint a = mint ∧
      may_spend authority n a ∧ n <= mi_supply m ∧
      mint_at b' mint = Some (with_supply (mi_supply m - n) m) ∧
      token_at b' k = Some a' ∧ with_amount (ta_amount a - n) a a';
  burn_accepted : ∀ p infos seeds k mint authority n b m a,
    signs p infos seeds authority → mint_at b mint = Some m → token_at b k = Some a →
    ta_mint a = mint → ta_is_native a = false → 0 <= n → may_spend authority n a →
    n <= mi_supply m →
    ∃ b', invoke_signed_by p infos seeds (Token spl_token_id (Tk_Burn k mint authority n)) b = inr b';

  close_account_effect : ∀ p infos seeds k dst o b b',
    invoke_signed_by p infos seeds (Token spl_token_id (Tk_CloseAccount k dst o)) b = inr b' →
    signs p infos seeds o ∧ frame [k] b b' ∧ moved k dst (ac_lamports (b k)) b b';

  set_owner_effect : ∀ p infos seeds k new_owner o b b',
    invoke_signed_by p infos seeds (Token spl_token_id (Tk_SetOwner k new_owner o)) b = inr b' →
    signs p infos seeds o ∧ same_owners b b' ∧ frame [k] b b' ∧ moved k k 0 b b' ∧
    ∃ a a', token_at b k = Some a ∧ ta_owner a = o ∧ token_at b' k = Some a' ∧
      ta_owner a' = new_owner ∧ ta_mint a' = ta_mint a ∧ ta_amount a' = ta_amount a;
}.

(** ** Running the program's computations *)

Lemma P_bind_inr {A B} (m : P A) (f : A → P B) b r :
  (m ≫= f) b = inr r ↔ ∃ a b', m b = inr (a, b') ∧ f a b' = inr r.
Proof.
  unfold mbind, P_bind. destruct (m b) as [e|[a b']]; split; [done|by intros (?&?&?&?)|eauto|].
  by intros (?&?&[= <- <-]&?).
Qed.

Lemma P_bind_run {A B} (m : P A) (f : A → P B) b a b' :
  m b = inr (a, b') → (m ≫= f) b = f a b'.
Proof. unfold mbind, P_bind. by intros ->. Qed.

Lemma P_ret_bind {A B} (a : A) (f : A → P B) b : (mret a ≫= f) b = f a b.
Proof. done. Qed.

Lemma ensure_inr c e b r : ensure c e b = inr r ↔ c = true ∧ r = (tt, b).
Proof. destruct c; simpl; split; [by intros [= <-]|by intros [_ ->]|done|by intros [??]]. Qed.

Lemma ok_or_fail_inr {A} (o : option A) e b a b' :
  ok_or_fail o e b = inr (a, b') ↔ o = Some a ∧ b' = b.
Proof. destruct o; simpl; split; [by intros [= <- <-]|by intros [[= <-] ->]|done|by intros [??]]. Qed.

Lemma try_inr {A} (r : program_result A) b a b' :
  try_ r b = inr (a, b') ↔ r = inr a ∧ b' = b.
Proof. destruct r; simpl; split; [done|by intros [??]|by intros [= <- <-]|by intros [[= <-] ->]]. Qed.

Lemma next_inr it b i it' b' :
  next_account_info it b = inr ((i, it'), b') ↔ it = i :: it' ∧ b' = b.
Proof. destruct it; simpl; split; [done|by intros [??]|by intros [= <- <- <-]|by intros [[= <- <-] ->]]. Qed.

Lemma write_data_inr i f b u b' :
  write_data i f b = inr (u, b') ↔
  ∃ d, f (ac_data (b (ai_key i))) = inr d ∧
    b' = put (ai_key i) {| ac_lamports := ac_lamports (b (ai_key i)); ac_data := d;
                           ac_owner := ac_owner (b (ai_key i)) |} b.
Proof.
  destruct u. unfold write_data. destruct (f _) as [e|d]; split; [done|by intros (?&?&?)| |].
  - intros [= <-]. eauto.
  - by intros (? & [= <-] & ->).
Qed.

Lemma bytes_eqb_true x y : bytes_eqb x y = true ↔ x = y.
Proof. apply bool_decide_eq_true. Qed.

Lemma put_eq k a b : put k a b k = a.
Proof. unfold put. by rewrite decide_True. Qed.

Lemma put_ne k k' a b : k' ≠ k → put k a b k' = b k'.
Proof. intros. unfold put. by rewrite decide_False. Qed.

(** Inverts one step of a successful run. *)
Ltac inv_step H :=
  match type of H with
  | (ensure _ _ ≫= _) _ = inr _ =>
      let E := fresh "E" in apply P_bind_inr in H as (? & ? & (E & [= -> ->])%ensure_inr & H)
  | (next_account_info _ ≫= _) _ = inr _ =>
      let i := fresh "i" in let it := fresh "it" in let E := fresh "E" in
      apply P_bind_inr in H as ([i it] & ? & (E & ->)%next_inr & H);
      first [injection E as <- <- | subst]
  | (mret _ ≫= _) _ = inr _ => rewrite P_ret_bind in H
  | (ok_or_fail _ _ ≫= _) _ = inr _ =>
      let E := fresh "E" in let x := fresh "x" in
      apply P_bind_inr in H as (x & ? & (E & ->)%ok_or_fail_inr & H)
  | (try_ _ ≫= _) _ = inr _ =>
      let E := fresh "E" in let x := fresh "x" in
      apply P_bind_inr in H as (x & ? & (E & ->)%try_inr & H)
  | (_ ≫= _) _ = inr _ =>
      let E := fresh "E" in let x := fresh "x" in let b := fresh "b" in
      apply P_bind_inr in H as (x & b & E & H)
  end.
