(* ===== verification/Processor.v ===== *)
(** * The processor's handling of money (program/src/processor.rs, state.rs)

    [StakePool], [ValidatorStakeList] and [CreditList] as the program reads them, the
    conversions between lamports and pool tokens, and the handlers of [Initialize],
    [AddValidator], [RemoveValidator], [UpdatePoolBalance], [Deposit], [Withdraw],
    [Credit], [Uncredit], [SetOwner] and [PayCreditors]: every guard in the order of the
    source and every instruction issued to the system and token programs, against the
    runtime of Chain.v.  Log messages are left out. *)

From Stdlib Require Import ZArith Lia.
From Stdlib Require Import String.
From stdpp Require Import base list strings sets.
From coqutil Require Import Byte Word.LittleEndianList.
From S2P Require Import Prelude Buffers Program Chain.

Open Scope Z_scope.

(** ** Reading the accounts (state.rs) *)

Definition deserialize_stake_pool (input : buffer) : program_result StakePool :=
  if (length input <? STAKE_POOL_LEN)%nat then inl InvalidAccountData
  else inr
    {| sp_version := u_at 1 input 0; sp_owner := slice input 1 33;
       sp_deposit_bump_seed := u_at 1 input 33; sp_withdraw_bump_seed := u_at 1 input 34;
       sp_validator_stake_list := slice input 35 67; sp_credit_list := slice input 67 99;
       sp_pool_mint := slice input 99 131; sp_owner_fee_account := slice input 131 163;
       sp_credit_reserve := slice input 163 195; sp_token_program_id := slice input 195 227;
       sp_stake_total := u_at 8 input 232; sp_pool_total := u_at 8 input 240;
       sp_last_update_epoch := u_at 8 input 248; sp_fee_denominator := u_at 8 input 256;
       sp_fee_numerator := u_at 8 input 264 |}.

Definition get_ValidatorStakeInfo (b : buffer) : ValidatorStakeInfo :=
  {| vsi_validator_account := slice b 0 32; vsi_balance := u_at 8 b 32;
     vsi_last_update_epoch := u_at 8 b 40; vsi_stake_count := u_at 4 b 48 |}.

Definition deserialize_validator_stake_list (input : buffer) : program_result ValidatorStakeList :=
  if (length input <? VALIDATOR_STAKE_LIST_LEN)%nat then inl InvalidAccountData
  else if u_at 1 input 0 =? 0 then inr {| vsl_version := 0; vsl_validators := [] |}
  else let number_of_validators := Z.to_nat (u_at 2 input 1) in
    if (MAX_VALIDATORS <? number_of_validators)%nat then inl InvalidAccountData
    else inr {| vsl_version := u_at 1 input 0;
                vsl_validators := raw_parts VALIDATOR_STAKE_INFO_LEN number_of_validators
                                    get_ValidatorStakeInfo (drop 3 input) |}.

Definition get_CreditRecord (b : buffer) : CreditRecord :=
  {| cr_sol_target := slice b 0 32; cr_cancel_authority := slice b 32 64;
     cr_token_amount := u_at 8 b 64 |}.

Definition deserialize_credit_list (input : buffer) : program_result CreditList :=
  if (length input <? CREDIT_LIST_LEN)%nat then inl InvalidAccountData
  else if u_at 1 input 0 =? 0 then inr {| cl_version := 0; cl_credits := [] |}
  else let number_of_records := Z.to_nat (u_at 2 input 1) in
    if (MAX_CREDIT_RECORDS <? number_of_records)%nat then inl InvalidAccountData
    else inr {| cl_version := u_at 1 input 0;
                cl_credits := raw_parts CREDIT_RECORD_LEN number_of_records
                                get_CreditRecord (drop 3 input) |}.

(** [is_initialized] of the three. *)
Definition is_initialized (version : Z) : bool := 0 <? version.

(** ** Lamports and pool tokens (state.rs) *)

Definition checked_mul_u128 (x y : Z) : option Z := if x * y <? 2 ^ 128 then Some (x * y) else None.
Definition checked_div (x y : Z) : option Z := if y =? 0 then None else Some (x / y).
Definition u64_try_from (x : Z) : option Z := if x <? u64_max_plus_1 then Some x else None.
Definition checked_sub (x y : Z) : option Z := if x <? y then None else Some (x - y).

Definition calc_pool_withdraw_amount (sp : StakePool) (stake_lamports : Z) : option Z :=
  p ← checked_mul_u128 stake_lamports (sp_pool_total sp);
  q ← checked_div p (sp_stake_total sp);
  u64_try_from q.

Definition calc_pool_deposit_amount (sp : StakePool) (stake_lamports : Z) : option Z :=
  if sp_stake_total sp =? 0 then Some stake_lamports
  else calc_pool_withdraw_amount sp stake_lamports.

Definition calc_lamports_amount (sp : StakePool) (pool_tokens : Z) : option Z :=
  p ← checked_mul_u128 pool_tokens (sp_stake_total sp);
  q ← checked_div p (sp_pool_total sp);
  u64_try_from q.

Definition calc_fee_amount (sp : StakePool) (pool_amount : Z) : option Z :=
  if sp_fee_denominator sp =? 0 then Some 0
  else p ← checked_mul_u128 pool_amount (sp_fee_numerator sp);
       q ← checked_div p (sp_fee_denominator sp);
       u64_try_from q.

(** Assignments to the fields of a pool. *)
Definition with_totals (stake_total pool_total : Z) (sp : StakePool) : StakePool :=
  {| sp_version := sp_version sp; sp_owner := sp_owner sp;
     sp_deposit_bump_seed := sp_deposit_bump_seed sp;
     sp_withdraw_bump_seed := sp_withdraw_bump_seed sp;
     sp_validator_stake_list := sp_validator_stake_list sp; sp_credit_list := sp_credit_list sp;
     sp_pool_mint := sp_pool_mint sp; sp_owner_fee_account := sp_owner_fee_account sp;
     sp_credit_reserve := sp_credit_reserve sp; sp_token_program_id := sp_token_program_id sp;
     sp_stake_total := stake_total; sp_pool_total := pool_total;
     sp_last_update_epoch := sp_last_update_epoch sp;
     sp_fee_denominator := sp_fee_denominator sp; sp_fee_numerator := sp_fee_numerator sp |}.

Definition with_update (stake_total epoch : Z) (sp : StakePool) : StakePool :=
  {| sp_version := sp_version sp; sp_owner := sp_owner sp;
     sp_deposit_bump_seed := sp_deposit_bump_seed sp;
     sp_withdraw_bump_seed := sp_withdraw_bump_seed sp;
     sp_validator_stake_list := sp_validator_stake_list sp; sp_credit_list := sp_credit_list sp;
     sp_pool_mint := sp_pool_mint sp; sp_owner_fee_account := sp_owner_fee_account sp;
     sp_credit_reserve := sp_credit_reserve sp; sp_token_program_id := sp_token_program_id sp;
     sp_stake_total := stake_total; sp_pool_total := sp_pool_total sp;
     sp_last_update_epoch := epoch;
     sp_fee_denominator := sp_fee_denominator sp; sp_fee_numerator := sp_fee_numerator sp |}.

Definition with_owner (new_owner new_fee_account : buffer) (sp : StakePool) : StakePool :=
  {| sp_version := sp_version sp; sp_owner := new_owner;
     sp_deposit_bump_seed := sp_deposit_bump_seed sp;
     sp_withdraw_bump_seed := sp_withdraw_bump_seed sp;
     sp_validator_stake_list := sp_validator_stake_list sp; sp_credit_list := sp_credit_list sp;
     sp_pool_mint := sp_pool_mint sp; sp_owner_fee_account := new_fee_account;
     sp_credit_reserve := sp_credit_reserve sp; sp_token_program_id := sp_token_program_id sp;
     sp_stake_total := sp_stake_total sp; sp_pool_total := sp_pool_total sp;
     sp_last_update_epoch := sp_last_update_epoch sp;
     sp_fee_denominator := sp_fee_denominator sp; sp_fee_numerator := sp_fee_numerator sp |}.

(** ** The credit list *)

(** [credits.iter_mut().find(|record| record.sol_target == key)]: the record and its
    position. *)
Fixpoint find_credit (key : buffer) (credits : list CreditRecord) : option (nat * CreditRecord) :=
  match credits with
  | [] => None
  | c :: cs => if bytes_eqb (cr_sol_target c) key then Some (0%nat, c)
               else prod_map S id <$> find_credit key cs
  end.

Definition with_amount_credit (n : Z) (c : CreditRecord) : CreditRecord :=
  {| cr_sol_target := cr_sol_target c; cr_cancel_authority := cr_cancel_authority c;
     cr_token_amount := n |}.

Definition with_credits (credits : list CreditRecord) (l : CreditList) : CreditList :=
  {| cl_version := cl_version l; cl_credits := credits |}.

(** The part of [process_credit] that enters the credit. *)
Definition add_credit (target cancel_authority : buffer) (amount : Z) (credits : list CreditRecord)
  : program_result (list CreditRecord) :=
  match find_credit target credits with
  | Some (i, c) =>
      if bytes_eqb cancel_authority (cr_cancel_authority c)
      then inr (<[i := with_amount_credit (wadd (cr_token_amount c) amount) c]> credits)
      else inl InvalidArgument
  | None =>
      if (MAX_CREDIT_RECORDS <=? length credits)%nat then inl (Custom CreditListOverfow)
      else inr (credits ++ [{| cr_sol_target := target; cr_cancel_authority := cancel_authority;
                               cr_token_amount := amount |}])
  end.

(** The part of [process_uncredit] that cancels it. *)
Definition remove_credit (target : buffer) (cancel_authority : AccountInfo) (amount : Z)
    (credits : list CreditRecord) : program_result (list CreditRecord) :=
  match find_credit target credits with
  | Some (i, c) =>
      if negb (bytes_eqb (ai_key cancel_authority) (cr_cancel_authority c)) then inl InvalidArgument
      else if negb (ai_is_signer cancel_authority) then inl MissingRequiredSignature
      else if cr_token_amount c <? amount then inl InsufficientFunds
      else if amount =? cr_token_amount c
      then inr (filter (λ r, cr_sol_target r ≠ target) credits)
      else inr (<[i := with_amount_credit (wsub (cr_token_amount c) amount) c]> credits)
  | None => inl (Custom UnknownCreditor)
  end.

(** The loop of [process_pay_creditors] without the instructions it issues: the
    accounts given after the fixed ones, each with whether the system program owns
    it, along the credit list.  Both iterators are advanced before the loop's
    condition is looked at, so a record taken when the accounts have run out is not
    put back.  The pool passed on is the one whose [pool_total] was reduced, while
    [stake_total] is reduced only after the loop.  The result is what is paid (the
    target, the tokens burnt and the lamports sent) and the new credit list. *)
Fixpoint pay_credits (sp : StakePool) (available : Z) (users : list (buffer * bool))
    (credits : list CreditRecord) (total : Z) (invalid : list CreditRecord)
  : program_result (list (buffer * Z * Z) * list CreditRecord) :=
  match users, credits with
  | (key, system) :: users', credit :: credits' =>
      if negb (bytes_eqb key (cr_sol_target credit)) then inl InvalidArgument
      else if negb system then
        pay_credits sp available users' credits' total (invalid ++ [credit])
      else let pool_amount := cr_token_amount credit in
      match calc_lamports_amount sp pool_amount with
      | None => inl (Custom CalculationFailure)
      | Some stake_amount =>
          if available <? wadd total stake_amount then inr ([], credit :: credits' ++ invalid)
          else map_inr (λ '(paid, kept), ((key, pool_amount, stake_amount) :: paid, kept))
                 (pay_credits (with_totals (sp_stake_total sp) (wsub (sp_pool_total sp) pool_amount) sp)
                    available users' credits' (wadd total stake_amount) invalid)
      end
  | _ :: _, [] => inr ([], invalid)
  | [], _ :: credits' => inr ([], credits' ++ invalid)
  | [], [] => inr ([], invalid)
  end.

(** ** Handlers *)

Section Processor.
Context `{Runtime}.

Definition AUTHORITY_DEPOSIT : buffer := list_byte_of_string "deposit".
Definition AUTHORITY_WITHDRAW : buffer := list_byte_of_string "withdraw".
Definition AUTHORITY_RESERVE : buffer := list_byte_of_string "reserve".
Definition TEMP_ACCOUNT : buffer := list_byte_of_string "temp".

Definition PROGRAM_VERSION : Z := 1.
Definition VALIDATOR_STAKE_LIST_VERSION : Z := 1.
Definition CREDIT_LIST_VERSION : Z := 1.
(** [spl_token::state::Account::LEN]. *)
Definition TOKEN_ACCOUNT_LEN : Z := 165.

Definition bump (z : Z) : buffer := [byte.of_Z z].

(** [to_bytes()[..32]]. *)
Definition seed (key : buffer) : buffer := take 32 key.

Definition authority_seeds (stake_pool authority_type : buffer) (bump_seed : Z) : list buffer :=
  [seed stake_pool; authority_type; bump bump_seed].

Definition authority_id (program_id stake_pool authority_type : buffer) (bump_seed : Z)
  : program_result buffer :=
  match create_program_address (authority_seeds stake_pool authority_type bump_seed) program_id with
  | Some k => inr k
  | None => inl (Custom InvalidProgramAddress)
  end.

Definition find_authority_bump_seed (program_id stake_pool authority_type : buffer) : buffer * Z :=
  find_program_address [seed stake_pool; authority_type] program_id.

Definition check_authority (authority_to_check program_id stake_pool_key authority_type : buffer)
    (bump_seed : Z) : P unit :=
  id ← try_ (authority_id program_id stake_pool_key authority_type bump_seed);
  ensure (bytes_eqb authority_to_check id) (Custom InvalidProgramAddress).

Definition check_authority_withdraw (sp : StakePool) (key program_id stake_pool_key : buffer) : P unit :=
  check_authority key program_id stake_pool_key AUTHORITY_WITHDRAW (sp_withdraw_bump_seed sp).

Definition get_reserve_adderess (program_id stake_pool : buffer) : buffer * Z :=
  find_program_address [seed stake_pool; AUTHORITY_RESERVE] program_id.

Definition check_owner (sp : StakePool) (owner_info : AccountInfo) : P unit :=
  _ ← ensure (bytes_eqb (ai_key owner_info) (sp_owner sp)) (Custom WrongOwner);
  ensure (ai_is_signer owner_info) (Custom SignatureMissing).

(** [invoke] and [invoke_signed]. *)
Definition invoke_signed (program_id : buffer) (infos : list AccountInfo)
    (seeds : list (list buffer)) (ix : Cpi) : P unit :=
  λ b, map_inr (λ b', (tt, b')) (invoke_signed_by program_id infos seeds ix b).
Definition invoke (program_id : buffer) (infos : list AccountInfo) (ix : Cpi) : P unit :=
  invoke_signed program_id infos [] ix.

Definition token_burn (program_id stake_pool : buffer) (token_program burn_account mint authority : AccountInfo)
    (authority_type : buffer) (bump_seed amount : Z) : P unit :=
  invoke_signed program_id [burn_account; mint; authority; token_program]
    [authority_seeds stake_pool authority_type bump_seed]
    (Token (ai_key token_program) (Tk_Burn (ai_key burn_account) (ai_key mint) (ai_key authority) amount)).

Definition token_mint_to (program_id stake_pool : buffer) (token_program mint destination authority : AccountInfo)
    (authority_type : buffer) (bump_seed amount : Z) : P unit :=
  invoke_signed program_id [mint; destination; authority; token_program]
    [authority_seeds stake_pool authority_type bump_seed]
    (Token (ai_key token_program) (Tk_MintTo (ai_key mint) (ai_key destination) (ai_key authority) amount)).

Definition MIN_RESERVE_BALANCE : Z := 1000000.

Definition min_reserve_balance (rent : Rent) : Z :=
  Z.max MIN_RESERVE_BALANCE (wadd (minimum_balance rent 0) (minimum_balance rent TOKEN_ACCOUNT_LEN)).

Definition rent_from (i : AccountInfo) : P Rent :=
  λ b, map_inr (λ r, (r, b)) (Rent_from_account_info i b).
Definition clock_from (i : AccountInfo) : P Z :=
  λ b, map_inr (λ e, (e, b)) (Clock_from_account_info i b).

(** The pool every handler but [Initialize] begins with: owned by the program and
    initialized. *)
Definition read_pool (program_id : buffer) (stake_pool_info : AccountInfo) : P StakePool :=
  _ ← ensure (bytes_eqb (ai_owner stake_pool_info) program_id) (Custom WrongOwner);
  d ← data_of stake_pool_info;
  sp ← try_ (deserialize_stake_pool d);
  _ ← ensure (is_initialized (sp_version sp)) (Custom InvalidState);
  mret sp.

Definition write_pool (stake_pool_info : AccountInfo) (sp : StakePool) : P unit :=
  write_data stake_pool_info (serialize_stake_pool (padding_bytes 5) sp).

(** The validator list of the pool, and the credit list with the credit reserve. *)
Definition read_validators (sp : StakePool) (info : AccountInfo) : P ValidatorStakeList :=
  _ ← ensure (bytes_eqb (ai_key info) (sp_validator_stake_list sp)) (Custom InvalidValidatorStakeList);
  d ← data_of info;
  l ← try_ (deserialize_validator_stake_list d);
  _ ← ensure (is_initialized (vsl_version l)) (Custom InvalidState);
  mret l.

Definition write_validators (info : AccountInfo) (l : ValidatorStakeList) : P unit :=
  write_data info (serialize_validator_stake_list (λ _, padding_bytes 4) l).

Definition read_credits (sp : StakePool) (credit_list_info credit_reserve_info : AccountInfo)
  : P CreditList :=
  _ ← ensure (bytes_eqb (ai_key credit_list_info) (sp_credit_list sp)) InvalidArgument;
  d ← data_of credit_list_info;
  l ← try_ (deserialize_credit_list d);
  _ ← ensure (is_initialized (cl_version l)) (Custom InvalidState);
  _ ← ensure (bytes_eqb (ai_key credit_reserve_info) (sp_credit_reserve sp)) InvalidArgument;
  mret l.

Definition write_credits (info : AccountInfo) (l : CreditList) : P unit :=
  write_data info (serialize_credit_list l).

(** The address of the reserve: only the pool's reserve is accepted. *)
Definition check_reserve (program_id : buffer) (stake_pool_info reserve_info : AccountInfo)
    (e : ProgramError) : P Z :=
  let '(expected, reserve_bump) := get_reserve_adderess program_id (ai_key stake_pool_info) in
  _ ← ensure (bytes_eqb (ai_key reserve_info) expected) e;
  mret reserve_bump.

(** Wrapped SOL is moved to a temporary token account, which is then closed into the
    reserve. *)
Definition deposit_wrapped (program_id : buffer) (amount : Z) (rent : Rent) (withdraw_bump reserve_bump : Z)
    (stake_pool_info withdraw_info reserve_info source_info rent_info system_info token_info
     temp_info native_info : AccountInfo) : P unit :=
  let withdraw_seeds := authority_seeds (ai_key stake_pool_info) AUTHORITY_WITHDRAW withdraw_bump in
  let '(expected_temp, temp_bump) :=
    find_program_address [seed (ai_key stake_pool_info); TEMP_ACCOUNT] program_id in
  _ ← ensure (bytes_eqb (ai_key temp_info) expected_temp) InvalidArgument;
  _ ← ensure (bytes_eqb (ai_key native_info) native_mint_id) InvalidArgument;
  _ ← invoke_signed program_id [reserve_info; temp_info; system_info]
        [authority_seeds (ai_key stake_pool_info) TEMP_ACCOUNT temp_bump;
         authority_seeds (ai_key stake_pool_info) AUTHORITY_RESERVE reserve_bump]
        (Sys_CreateAccount (ai_key reserve_info) (ai_key temp_info)
           (minimum_balance rent TOKEN_ACCOUNT_LEN) TOKEN_ACCOUNT_LEN spl_token_id);
  _ ← invoke program_id [token_info; temp_info; native_info; withdraw_info; rent_info]
        (Token (ai_key token_info)
           (Tk_InitializeAccount (ai_key temp_info) native_mint_id (ai_key withdraw_info)));
  _ ← invoke_signed program_id [token_info; source_info; temp_info; withdraw_info] [withdraw_seeds]
        (Token (ai_key token_info)
           (Tk_Transfer (ai_key source_info) (ai_key temp_info) (ai_key withdraw_info) amount));
  invoke_signed program_id [token_info; temp_info; reserve_info; withdraw_info] [withdraw_seeds]
    (Token (ai_key token_info)
       (Tk_CloseAccount (ai_key temp_info) (ai_key reserve_info) (ai_key withdraw_info))).

Definition process_deposit (program_id : buffer) (amount : Z) (accounts : list AccountInfo) : P unit :=
  _ ← ensure (negb (amount =? 0)) InvalidArgument;
  '(stake_pool_info, it) ← next_account_info accounts;
  '(withdraw_info, it) ← next_account_info it;
  '(reserve_info, it) ← next_account_info it;
  '(source_info, it) ← next_account_info it;
  '(dest_info, it) ← next_account_info it;
  '(owner_fee_info, it) ← next_account_info it;
  '(pool_mint_info, it) ← next_account_info it;
  '(rent_info, it) ← next_account_info it;
  rent ← rent_from rent_info;
  '(system_info, it) ← next_account_info it;
  '(token_info, it) ← next_account_info it;
  wrapped ← (if bytes_eqb (ai_owner source_info) system_program_id then mret None
             else '(temp_info, it) ← next_account_info it;
                  '(native_info, _) ← next_account_info it;
                  mret (Some (temp_info, native_info)));
  sp ← read_pool program_id stake_pool_info;
  _ ← check_authority_withdraw sp (ai_key withdraw_info) program_id (ai_key stake_pool_info);
  reserve_bump ← check_reserve program_id stake_pool_info reserve_info IncorrectProgramId;
  _ ← ensure (bytes_eqb (sp_owner_fee_account sp) (ai_key owner_fee_info)) (Custom InvalidFeeAccount);
  _ ← ensure (bytes_eqb (sp_token_program_id sp) (ai_key token_info)) IncorrectProgramId;
  reserve ← lamports_of reserve_info;
  let target_balance := wadd reserve amount in
  _ ← ensure (min_reserve_balance rent <=? target_balance) (Custom FirstDepositIsTooSmall);
  pool_amount ← ok_or_fail (calc_pool_deposit_amount sp amount) (Custom CalculationFailure);
  fee_amount ← ok_or_fail (calc_fee_amount sp pool_amount) (Custom CalculationFailure);
  user_amount ← ok_or_fail (checked_sub pool_amount fee_amount) (Custom CalculationFailure);
  _ ← (match wrapped with
       | Some (temp_info, native_info) =>
           deposit_wrapped program_id amount rent (sp_withdraw_bump_seed sp) reserve_bump
             stake_pool_info withdraw_info reserve_info source_info rent_info system_info token_info
             temp_info native_info
       | None =>
           _ ← ensure (MIN_RESERVE_BALANCE <=? target_balance) (Custom FirstDepositIsTooSmall);
           invoke program_id [source_info; reserve_info; system_info]
             (Sys_Transfer (ai_key source_info) (ai_key reserve_info) amount)
       end);
  _ ← token_mint_to program_id (ai_key stake_pool_info) token_info pool_mint_info dest_info
        withdraw_info AUTHORITY_WITHDRAW (sp_withdraw_bump_seed sp) user_amount;
  _ ← token_mint_to program_id (ai_key stake_pool_info) token_info pool_mint_info owner_fee_info
        withdraw_info AUTHORITY_WITHDRAW (sp_withdraw_bump_seed sp) fee_amount;
  write_pool stake_pool_info
    (with_totals (wadd (sp_stake_total sp) amount) (wadd (sp_pool_total sp) pool_amount) sp).

Definition process_withdraw (program_id : buffer) (pool_amount : Z) (accounts : list AccountInfo) : P unit :=
  _ ← ensure (negb (pool_amount =? 0)) InvalidArgument;
  '(stake_pool_info, it) ← next_account_info accounts;
  '(withdraw_info, it) ← next_account_info it;
  '(reserve_info, it) ← next_account_info it;
  '(burn_from_info, it) ← next_account_info it;
  '(pool_mint_info, it) ← next_account_info it;
  '(target_info, it) ← next_account_info it;
  '(rent_info, it) ← next_account_info it;
  rent ← rent_from rent_info;
  '(system_info, it) ← next_account_info it;
  '(token_info, _) ← next_account_info it;
  sp ← read_pool program_id stake_pool_info;
  _ ← ensure (bytes_eqb (sp_token_program_id sp) (ai_key token_info)) IncorrectProgramId;
  _ ← check_authority_withdraw sp (ai_key withdraw_info) program_id (ai_key stake_pool_info);
  reserve_bump ← check_reserve program_id stake_pool_info reserve_info IncorrectProgramId;
  stake_amount ← ok_or_fail (calc_lamports_amount sp pool_amount) (Custom CalculationFailure);
  reserve_balance ← lamports_of reserve_info;
  _ ← ensure (negb ((reserve_balance <? stake_amount)
                    || (wsub reserve_balance stake_amount <? MIN_RESERVE_BALANCE)
                    || negb (is_exempt rent (wsub reserve_balance stake_amount) 0)))
        InsufficientFunds;
  _ ← token_burn program_id (ai_key stake_pool_info) token_info burn_from_info pool_mint_info
        withdraw_info AUTHORITY_WITHDRAW (sp_withdraw_bump_seed sp) pool_amount;
  _ ← invoke_signed program_id [system_info; reserve_info; target_info]
        [authority_seeds (ai_key stake_pool_info) AUTHORITY_RESERVE reserve_bump]
        (Sys_Transfer (ai_key reserve_info) (ai_key target_info) stake_amount);
  write_pool stake_pool_info
    (with_totals (wsub (sp_stake_total sp) stake_amount) (wsub (sp_pool_total sp) pool_amount) sp).

Definition process_credit (program_id : buffer) (amount : Z) (accounts : list AccountInfo) : P unit :=
  _ ← ensure (negb (amount =? 0)) InvalidArgument;
  '(stake_pool_info, it) ← next_account_info accounts;
  '(credit_list_info, it) ← next_account_info it;
  '(credit_reserve_info, it) ← next_account_info it;
  '(withdraw_info, it) ← next_account_info it;
  '(burn_from_info, it) ← next_account_info it;
  '(target_info, it) ← next_account_info it;
  '(cancel_authority_info, it) ← next_account_info it;
  '(token_info, _) ← next_account_info it;
  sp ← read_pool program_id stake_pool_info;
  _ ← ensure (bytes_eqb (sp_token_program_id sp) (ai_key token_info)) IncorrectProgramId;
  l ← read_credits sp credit_list_info credit_reserve_info;
  _ ← ensure (bytes_eqb (ai_owner target_info) system_program_id) IncorrectProgramId;
  credits ← try_ (add_credit (ai_key target_info) (ai_key cancel_authority_info) amount (cl_credits l));
  _ ← invoke_signed program_id [burn_from_info; credit_reserve_info; withdraw_info]
        [authority_seeds (ai_key stake_pool_info) AUTHORITY_WITHDRAW (sp_withdraw_bump_seed sp)]
        (Token (ai_key token_info)
           (Tk_Transfer (ai_key burn_from_info) (ai_key credit_reserve_info) (ai_key withdraw_info) amount));
  write_credits credit_list_info (with_credits credits l).

Definition process_uncredit (program_id : buffer) (amount : Z) (accounts : list AccountInfo) : P unit :=
  '(stake_pool_info, it) ← next_account_info accounts;
  '(credit_list_info, it) ← next_account_info it;
  '(credit_reserve_info, it) ← next_account_info it;
  '(withdraw_info, it) ← next_account_info it;
  '(burn_from_info, it) ← next_account_info it;
  '(target_info, it) ← next_account_info it;
  '(cancel_authority_info, it) ← next_account_info it;
  '(token_info, _) ← next_account_info it;
  sp ← read_pool program_id stake_pool_info;
  _ ← ensure (bytes_eqb (sp_token_program_id sp) (ai_key token_info)) IncorrectProgramId;
  l ← read_credits sp credit_list_info credit_reserve_info;
  credits ← try_ (remove_credit (ai_key target_info) cancel_authority_info amount (cl_credits l));
  _ ← invoke_signed program_id [burn_from_info; credit_reserve_info; withdraw_info]
        [authority_seeds (ai_key stake_pool_info) AUTHORITY_WITHDRAW (sp_withdraw_bump_seed sp)]
        (Token (ai_key token_info)
           (Tk_Transfer (ai_key credit_reserve_info) (ai_key burn_from_info) (ai_key withdraw_info) amount));
  write_credits credit_list_info (with_credits credits l).

Definition process_set_owner (program_id : buffer) (accounts : list AccountInfo) : P unit :=
  '(stake_pool_info, it) ← next_account_info accounts;
  '(owner_info, it) ← next_account_info it;
  '(new_owner_info, it) ← next_account_info it;
  '(new_owner_fee_info, _) ← next_account_info it;
  sp ← read_pool program_id stake_pool_info;
  _ ← check_owner sp owner_info;
  d ← data_of new_owner_fee_info;
  fee ← ok_or_fail (unpack_account d) InvalidAccountData;
  _ ← ensure (bytes_eqb (sp_pool_mint sp) (ta_mint fee)) (Custom WrongAccountMint);
  write_pool stake_pool_info (with_owner (ai_key new_owner_info) (ai_key new_owner_fee_info) sp).

(** The balances of the validators, which must all be of this epoch. *)
Fixpoint total_of (epoch total : Z) (validators : list ValidatorStakeInfo) : program_result Z :=
  match validators with
  | [] => inr total
  | v :: vs => if vsi_last_update_epoch v <? epoch then inl (Custom StakeListOutOfDate)
               else total_of epoch (wadd total (vsi_balance v)) vs
  end.

Definition process_update_pool_balance (program_id : buffer) (accounts : list AccountInfo) : P unit :=
  '(stake_pool_info, it) ← next_account_info accounts;
  '(validator_stake_list_info, it) ← next_account_info it;
  '(reserve_info, it) ← next_account_info it;
  '(clock_info, _) ← next_account_info it;
  epoch ← clock_from clock_info;
  sp ← read_pool program_id stake_pool_info;
  l ← read_validators sp validator_stake_list_info;
  _ ← check_reserve program_id stake_pool_info reserve_info InvalidArgument;
  reserve ← lamports_of reserve_info;
  total_balance ← try_ (total_of epoch reserve (vsl_validators l));
  write_pool stake_pool_info (with_update total_balance epoch sp).

Definition contains_validator (key : buffer) (l : list ValidatorStakeInfo) : bool :=
  existsb (λ v, bytes_eqb (vsi_validator_account v) key) l.

Definition process_add_validator (program_id : buffer) (accounts : list AccountInfo) : P unit :=
  '(stake_pool_info, it) ← next_account_info accounts;
  '(owner_info, it) ← next_account_info it;
  '(validator_stake_list_info, it) ← next_account_info it;
  '(validator_info, it) ← next_account_info it;
  '(clock_info, _) ← next_account_info it;
  epoch ← clock_from clock_info;
  sp ← read_pool program_id stake_pool_info;
  _ ← check_owner sp owner_info;
  _ ← ensure (epoch <=? sp_last_update_epoch sp) (Custom StakeListAndPoolOutOfDate);
  l ← read_validators sp validator_stake_list_info;
  _ ← ensure (length (vsl_validators l) <? MAX_VALIDATORS)%nat (Custom ValidatorListOverflow);
  _ ← ensure (negb (contains_validator (ai_key validator_info) (vsl_validators l)))
        (Custom ValidatorAlreadyAdded);
  write_validators validator_stake_list_info
    {| vsl_version := vsl_version l;
       vsl_validators := vsl_validators l ++
         [{| vsi_validator_account := ai_key validator_info; vsi_balance := 0;
             vsi_last_update_epoch := epoch; vsi_stake_count := 0 |}] |}.

(** [validators.iter().position(..)] and [remove]. *)
Fixpoint remove_validator (key : buffer) (l : list ValidatorStakeInfo)
  : program_result (list ValidatorStakeInfo) :=
  match l with
  | [] => inl (Custom ValidatorNotFound)
  | v :: l' =>
      if bytes_eqb (vsi_validator_account v) key
      then if 0 <? vsi_stake_count v then inl (Custom ValidatorHasStakes) else inr l'
      else map_inr (cons v) (remove_validator key l')
  end.

Definition process_remove_validator (program_id : buffer) (accounts : list AccountInfo) : P unit :=
  '(stake_pool_info, it) ← next_account_info accounts;
  '(owner_info, it) ← next_account_info it;
  '(validator_stake_list_info, it) ← next_account_info it;
  '(validator_info, it) ← next_account_info it;
  '(clock_info, _) ← next_account_info it;
  epoch ← clock_from clock_info;
  sp ← read_pool program_id stake_pool_info;
  _ ← check_owner sp owner_info;
  _ ← ensure (epoch <=? sp_last_update_epoch sp) (Custom StakeListAndPoolOutOfDate);
  l ← read_validators sp validator_stake_list_info;
  validators ← try_ (remove_validator (ai_key validator_info) (vsl_validators l));
  write_validators validator_stake_list_info
    {| vsl_version := vsl_version l; vsl_validators := validators |}.

(** The loop of [process_pay_creditors]: [pay_credits] with the instructions issued on
    the way.  The result is the new credit list, [pool_total] and [total_amount]. *)
Fixpoint pay_creditors_loop (program_id : buffer) (stake_pool_info withdraw_info reserve_info
    credit_reserve_info pool_mint_info system_info token_info : AccountInfo)
    (reserve_bump available : Z) (users : list AccountInfo) (credits : list CreditRecord)
    (sp : StakePool) (total : Z) (invalid : list CreditRecord)
  : P (list CreditRecord * StakePool * Z) :=
  match users, credits with
  | user_info :: users', credit :: credits' =>
      _ ← ensure (bytes_eqb (ai_key user_info) (cr_sol_target credit)) InvalidArgument;
      if negb (bytes_eqb (ai_owner user_info) system_program_id) then
        pay_creditors_loop program_id stake_pool_info withdraw_info reserve_info
          credit_reserve_info pool_mint_info system_info token_info
          reserve_bump available users' credits' sp total (invalid ++ [credit])
      else
      let pool_amount := cr_token_amount credit in
      stake_amount ← ok_or_fail (calc_lamports_amount sp pool_amount) (Custom CalculationFailure);
      if available <? wadd total stake_amount then
        mret (credit :: credits' ++ invalid, sp, total)
      else
      _ ← token_burn program_id (ai_key stake_pool_info) token_info credit_reserve_info
            pool_mint_info withdraw_info AUTHORITY_WITHDRAW (sp_withdraw_bump_seed sp) pool_amount;
      _ ← invoke_signed program_id [system_info; reserve_info; user_info]
            [authority_seeds (ai_key stake_pool_info) AUTHORITY_RESERVE reserve_bump]
            (Sys_Transfer (ai_key reserve_info) (cr_sol_target credit) stake_amount);
      pay_creditors_loop program_id stake_pool_info withdraw_info reserve_info
        credit_reserve_info pool_mint_info system_info token_info reserve_bump available
        users' credits'
        (with_totals (sp_stake_total sp) (wsub (sp_pool_total sp) pool_amount) sp)
        (wadd total stake_amount) invalid
  | _ :: _, [] => mret (invalid, sp, total)
  | [], _ :: credits' => mret (credits' ++ invalid, sp, total)
  | [], [] => mret (invalid, sp, total)
  end.

Definition process_pay_creditors (program_id : buffer) (accounts : list AccountInfo) : P unit :=
  '(stake_pool_info, it) ← next_account_info accounts;
  '(credit_list_info, it) ← next_account_info it;
  '(withdraw_info, it) ← next_account_info it;
  '(reserve_info, it) ← next_account_info it;
  '(credit_reserve_info, it) ← next_account_info it;
  '(pool_mint_info, it) ← next_account_info it;
  '(rent_info, it) ← next_account_info it;
  rent ← rent_from rent_info;
  '(clock_info, it) ← next_account_info it;
  epoch ← clock_from clock_info;
  '(system_info, it) ← next_account_info it;
  '(token_info, users) ← next_account_info it;
  sp ← read_pool program_id stake_pool_info;
  _ ← ensure (bytes_eqb (sp_token_program_id sp) (ai_key token_info)) IncorrectProgramId;
  l ← read_credits sp credit_list_info credit_reserve_info;
  _ ← check_authority_withdraw sp (ai_key withdraw_info) program_id (ai_key stake_pool_info);
  reserve_bump ← check_reserve program_id stake_pool_info reserve_info IncorrectProgramId;
  _ ← ensure (epoch <=? sp_last_update_epoch sp) (Custom StakeListAndPoolOutOfDate);
  reserve ← lamports_of reserve_info;
  (* saturating_sub *)
  let lamports_available := Z.max 0 (reserve - min_reserve_balance rent) in
  '(credits, sp', total_amount) ←
    pay_creditors_loop program_id stake_pool_info withdraw_info reserve_info credit_reserve_info
      pool_mint_info system_info token_info reserve_bump lamports_available users
      (cl_credits l) sp 0 [];
  _ ← write_credits credit_list_info (with_credits credits l);
  write_pool stake_pool_info
    (with_totals (wsub (sp_stake_total sp') total_amount) (sp_pool_total sp') sp').

Definition process_initialize (program_id : buffer) (fee_denominator fee_numerator : Z)
    (accounts : list AccountInfo) : P unit :=
  '(stake_pool_info, it) ← next_account_info accounts;
  '(owner_info, it) ← next_account_info it;
  '(validator_stake_list_info, it) ← next_account_info it;
  '(credit_list_info, it) ← next_account_info it;
  '(pool_mint_info, it) ← next_account_info it;
  '(owner_fee_info, it) ← next_account_info it;
  '(credit_reserve_info, it) ← next_account_info it;
  '(clock_info, it) ← next_account_info it;
  epoch ← clock_from clock_info;
  '(rent_info, it) ← next_account_info it;
  rent ← rent_from rent_info;
  '(token_info, _) ← next_account_info it;
  _ ← ensure (bytes_eqb (ai_owner stake_pool_info) program_id) (Custom WrongOwner);
  pool_data ← data_of stake_pool_info;
  sp ← try_ (deserialize_stake_pool pool_data);
  _ ← ensure (negb (is_initialized (sp_version sp))) (Custom AlreadyInUse);
  _ ← ensure (ai_is_signer owner_info) (Custom SignatureMissing);
  validators_data ← data_of validator_stake_list_info;
  validators ← try_ (deserialize_validator_stake_list validators_data);
  _ ← ensure (negb (is_initialized (vsl_version validators))) (Custom AlreadyInUse);
  credits_data ← data_of credit_list_info;
  credits ← try_ (deserialize_credit_list credits_data);
  _ ← ensure (negb (is_initialized (cl_version credits))) (Custom AlreadyInUse);
  pool_lamports ← lamports_of stake_pool_info;
  _ ← ensure (is_exempt rent pool_lamports (Z.of_nat (length pool_data))) (Custom AccountNotRentExempt);
  validators_lamports ← lamports_of validator_stake_list_info;
  _ ← ensure (is_exempt rent validators_lamports (Z.of_nat (length validators_data)))
        (Custom AccountNotRentExempt);
  credits_lamports ← lamports_of credit_list_info;
  _ ← ensure (is_exempt rent credits_lamports (Z.of_nat (length credits_data)))
        (Custom AccountNotRentExempt);
  let '(_, deposit_bump_seed) :=
    find_authority_bump_seed program_id (ai_key stake_pool_info) AUTHORITY_DEPOSIT in
  let '(withdraw_authority_key, withdraw_bump_seed) :=
    find_authority_bump_seed program_id (ai_key stake_pool_info) AUTHORITY_WITHDRAW in
  _ ← ensure (fee_numerator <=? fee_denominator) (Custom FeeTooHigh);
  _ ← ensure (bytes_eqb (ai_owner owner_fee_info) (ai_key token_info)) (Custom InvalidFeeAccount);
  _ ← ensure (bytes_eqb (ai_owner credit_reserve_info) (ai_key token_info)) (Custom InvalidFeeAccount);
  _ ← ensure (bytes_eqb (ai_owner pool_mint_info) (ai_key token_info)) IncorrectProgramId;
  fee_data ← data_of owner_fee_info;
  fee_state ← ok_or_fail (unpack_account fee_data) InvalidAccountData;
  _ ← ensure (bytes_eqb (ai_key pool_mint_info) (ta_mint fee_state)) (Custom WrongAccountMint);
  credit_data ← data_of credit_reserve_info;
  credit_state ← ok_or_fail (unpack_account credit_data) InvalidAccountData;
  _ ← ensure (bytes_eqb (ai_key pool_mint_info) (ta_mint credit_state)) (Custom WrongAccountMint);
  _ ← ensure (bool_decide (ta_state credit_state = Initialized)) (Custom WrongCreditState);
  _ ← ensure (bool_decide (ta_delegate credit_state = None)) (Custom WrongCreditState);
  _ ← ensure (bool_decide (ta_close_authority credit_state = None)) (Custom WrongCreditState);
  mint_data ← data_of pool_mint_info;
  pool_mint ← ok_or_fail (unpack_mint mint_data) InvalidAccountData;
  _ ← ensure (bool_decide (mi_authority pool_mint = Some withdraw_authority_key))
        (Custom WrongMintingAuthority);
  _ ← ensure (mi_supply pool_mint <=? 0) (Custom MintHasInitialSupply);
  _ ← invoke program_id [token_info; owner_info; credit_reserve_info]
        (Token (ai_key token_info)
           (Tk_SetOwner (ai_key credit_reserve_info) withdraw_authority_key (ai_key owner_info)));
  _ ← write_validators validator_stake_list_info
        {| vsl_version := VALIDATOR_STAKE_LIST_VERSION; vsl_validators := [] |};
  _ ← write_credits credit_list_info {| cl_version := CREDIT_LIST_VERSION; cl_credits := [] |};
  write_pool stake_pool_info
    {| sp_version := PROGRAM_VERSION; sp_owner := ai_key owner_info;
       sp_deposit_bump_seed := deposit_bump_seed; sp_withdraw_bump_seed := withdraw_bump_seed;
       sp_validator_stake_list := ai_key validator_stake_list_info;
       sp_credit_list := ai_key credit_list_info; sp_pool_mint := ai_key pool_mint_info;
       sp_owner_fee_account := ai_key owner_fee_info; sp_credit_reserve := ai_key credit_reserve_info;
       sp_token_program_id := ai_key token_info; sp_stake_total := sp_stake_total sp;
       sp_pool_total := sp_pool_total sp; sp_last_update_epoch := epoch;
       sp_fee_denominator := fee_denominator; sp_fee_numerator := fee_numerator |}.

End Processor.
