(* ===== verification/StakeChain.v ===== *)
(** * The stake program

    What the processor knows of it: the state of a stake account (program/src/stake.rs),
    the instructions the processor issues to it, and, as a class beside the runtime of
    Chain.v, what they do to balances, data and owners.  The decoding of a stake account
    is bincode's, a parameter. *)

From Stdlib Require Import ZArith Lia SpecFloat.
From stdpp Require Import base list strings sets.
From S2P Require Import Prelude Buffers Program Chain Processor.

Open Scope Z_scope.

(** ** Stake accounts (stake.rs) *)

Record Authorized := { au_staker : buffer; au_withdrawer : buffer }.

Record Lockup := { lo_unix_timestamp : Z; lo_epoch : Z; lo_custodian : buffer }.

Record Meta := { me_rent_exempt_reserve : Z; me_authorized : Authorized; me_lockup : Lockup }.

Record StakeDelegation := {
  de_voter_pubkey : buffer;
  de_stake : Z;
  de_activation_epoch : Z;
  de_deactivation_epoch : Z;
  de_warmup_cooldown_rate : spec_float;
}.

Record StakeData := { st_delegation : StakeDelegation; st_credits_observed : Z }.

Inductive StakeState :=
  | Stake_Uninitialized
  | Stake_Initialized (meta : Meta)
  | Stake_Stake (meta : Meta) (stake : StakeData)
  | Stake_RewardsPool.

(** [size_of::<StakeState>()]. *)
Definition STAKE_STATE_LEN : Z := 200.

(** ** Instructions: [initialize] (with the default lockup), [delegate_stake],
    [split_only], [merge], [withdraw] and [deactivate_stake] of stake.rs *)

Inductive StakeInstruction :=
  | St_Initialize (stake : buffer) (authorized : Authorized)
  | St_DelegateStake (stake authorized vote : buffer)
  | St_Split (stake authorized : buffer) (lamports : Z) (split_stake : buffer)
  | St_Merge (destination source authorized : buffer)
  | St_Withdraw (stake withdrawer to : buffer) (lamports : Z)
  | St_Deactivate (stake authorized : buffer).

Class StakeRuntime := {
  stake_id : buffer;
  (** [bincode::deserialize]. *)
  deserialize_StakeState : buffer → option StakeState;
  invoke_stake_by : buffer → list AccountInfo → list (list buffer) → StakeInstruction → Bank →
    program_result Bank;
}.

(** The balance of every account outside is left alone too. *)
Definition same_lamports (b b' : Bank) : Prop := ∀ k, ac_lamports (b' k) = ac_lamports (b k).

(** What success of an instruction of the stake program tells.  It writes the data of
    the stake accounts named and changes no owner. *)
Class StakeLaws `{Runtime, StakeRuntime} : Prop := {
  stake_not_system : stake_id ≠ system_program_id;
  stake_not_token : stake_id ≠ spl_token_id;
  (** Errors of an invoked program are its own. *)
  invoke_foreign : ∀ p infos seeds ix b e,
    invoke_signed_by p infos seeds ix b = inl e → ∃ c, e = Foreign c;
  (** An account that is not the sysvar. *)
  rent_error : ∀ i b e, Rent_from_account_info i b = inl e → e = InvalidArgument;
  stake_foreign : ∀ p infos seeds ix b e,
    invoke_stake_by p infos seeds ix b = inl e → ∃ c, e = Foreign c;
  stake_lamports_u64 : ∀ p infos seeds ix b b',
    invoke_stake_by p infos seeds ix b = inr b' →
    (∀ k, is_u64 (ac_lamports (b k))) → ∀ k, is_u64 (ac_lamports (b' k));
  stake_initialize_effect : ∀ p infos seeds k a b b',
    invoke_stake_by p infos seeds (St_Initialize k a) b = inr b' →
    ac_owner (b k) = stake_id ∧ same_owners b b' ∧ frame [k] b b' ∧ same_lamports b b';
  stake_delegate_effect : ∀ p infos seeds k a v b b',
    invoke_stake_by p infos seeds (St_DelegateStake k a v) b = inr b' →
    ac_owner (b k) = stake_id ∧ signs p infos seeds a ∧
    same_owners b b' ∧ frame [k] b b' ∧ same_lamports b b';
  stake_split_effect : ∀ p infos seeds k a n k' b b',
    invoke_stake_by p infos seeds (St_Split k a n k') b = inr b' →
    ac_owner (b k) = stake_id ∧ ac_owner (b k') = stake_id ∧ signs p infos seeds a ∧
    n <= ac_lamports (b k) ∧ same_owners b b' ∧ frame [k; k'] b b' ∧ moved k k' n b b';
  stake_merge_effect : ∀ p infos seeds k k' a b b',
    invoke_stake_by p infos seeds (St_Merge k k' a) b = inr b' →
    ac_owner (b k) = stake_id ∧ ac_owner (b k') = stake_id ∧ signs p infos seeds a ∧
    same_owners b b' ∧ frame [k; k'] b b' ∧ moved k' k (ac_lamports (b k')) b b';
  stake_withdraw_effect : ∀ p infos seeds k w to n b b',
    invoke_stake_by p infos seeds (St_Withdraw k w to n) b = inr b' →
    ac_owner (b k) = stake_id ∧ signs p infos seeds w ∧ n <= ac_lamports (b k) ∧
    same_owners b b' ∧ frame [k] b b' ∧ moved k to n b b';
  stake_deactivate_effect : ∀ p infos seeds k a b b',
    invoke_stake_by p infos seeds (St_Deactivate k a) b = inr b' →
    ac_owner (b k) = stake_id ∧ signs p infos seeds a ∧
    same_owners b b' ∧ frame [k] b b' ∧ same_lamports b b';
}.
