(* ===== verification/StakeProcessor.v ===== *)
(** * The processor's handling of stakes (program/src/processor.rs)

    The handlers of [UpdateListBalance], [DelegateReserve], [MergeStakes] and [Unstake]
    and the dispatcher [process], against the runtime of Chain.v and the stake program of
    StakeChain.v.  Log messages are left out.  The last part is the specification of the
    stake counts the handlers of merges and unstakes refine, which the client's batches
    are checked against. *)

From Stdlib Require Import ZArith Lia.
From stdpp Require Import base list strings sets.
From coqutil Require Import Byte Word.LittleEndianList.
From S2P Require Import Prelude Buffers Program Chain Processor StakeChain.

Open Scope Z_scope.

(** ** The validator list *)

(** [validators.iter_mut().find(..)]: the record and its position. *)
Fixpoint find_validator (key : buffer) (l : list ValidatorStakeInfo)
  : option (nat * ValidatorStakeInfo) :=
  match l with
  | [] => None
  | v :: l' => if bytes_eqb (vsi_validator_account v) key then Some (0%nat, v)
               else prod_map S id <$> find_validator key l'
  end.

Definition with_balance (n : Z) (v : ValidatorStakeInfo) : ValidatorStakeInfo :=
  {| vsi_validator_account := vsi_validator_account v; vsi_balance := n;
     vsi_last_update_epoch := vsi_last_update_epoch v; vsi_stake_count := vsi_stake_count v |}.

Definition with_count (n : Z) (v : ValidatorStakeInfo) : ValidatorStakeInfo :=
  {| vsi_validator_account := vsi_validator_account v; vsi_balance := vsi_balance v;
     vsi_last_update_epoch := vsi_last_update_epoch v; vsi_stake_count := n |}.

(** [+ 1] on a [u32]. *)
Definition u32_succ (n : Z) : Z := (n + 1) mod 2 ^ 32.

Definition MIN_STAKE_ACCOUNT_BALANCE : Z := 100000000.

Section Processor.
Context `{Runtime} `{!StakeRuntime}.

Definition owner_of (i : AccountInfo) : P buffer := λ b, inr (ac_owner (b (ai_key i)), b).

Definition invoke_stake (program_id : buffer) (infos : list AccountInfo)
    (seeds : list (list buffer)) (ix : StakeInstruction) : P unit :=
  λ b, map_inr (λ b', (tt, b')) (invoke_stake_by program_id infos seeds ix b).

Definition read_stake_state (i : AccountInfo) : P StakeState :=
  d ← data_of i; ok_or_fail (deserialize_StakeState d) InvalidAccountData.

Definition check_authority_deposit (sp : StakePool) (key program_id stake_pool_key : buffer) : P unit :=
  check_authority key program_id stake_pool_key AUTHORITY_DEPOSIT (sp_deposit_bump_seed sp).

(** The seeds of the stake account [index] of a validator. *)
Definition stake_seeds (validator stake_pool : buffer) (index : Z) : list buffer :=
  [seed validator; seed stake_pool; le_split 4 index].

Definition stake_address (v : ValidatorStakeInfo) (program_id stake_pool : buffer) (index : Z)
  : buffer * Z :=
  find_program_address (stake_seeds (vsi_validator_account v) stake_pool index) program_id.

Definition check_validator_stake_address (v : ValidatorStakeInfo) (program_id stake_pool : buffer)
    (index : Z) (stake_account : buffer) : P Z :=
  let '(expected, bump_seed) := stake_address v program_id stake_pool index in
  _ ← ensure (bytes_eqb stake_account expected) (Custom InvalidStakeAccountAddress);
  mret bump_seed.

Definition get_validator (stake_account_info : AccountInfo) : P buffer :=
  s ← read_stake_state stake_account_info;
  match s with
  | Stake_Stake _ stake => mret (de_voter_pubkey (st_delegation stake))
  | _ => fail (Custom WrongStakeState)
  end.

(** ** [UpdateListBalance] *)

(** What of a stake account can be withdrawn. *)
Definition available_lamports (balance : Z) (s : StakeState) : P Z :=
  match s with
  | Stake_Uninitialized => mret balance
  | Stake_Initialized meta => mret (wsub balance (me_rent_exempt_reserve meta))
  | Stake_Stake meta stake =>
      mret (wsub (wsub balance (me_rent_exempt_reserve meta)) (de_stake (st_delegation stake)))
  | Stake_RewardsPool => fail (Custom WrongStakeState)
  end.

(** Stake [index] of a validator; [acc] is the balance and the number of stakes so far. *)
Definition update_stake (program_id : buffer) (stake_pool_info withdraw_info reserve_info system_info
    stake_program_info clock_info stake_history_info : AccountInfo) (sp : StakePool)
    (validator_vote : buffer) (v : ValidatorStakeInfo) (index : Z)
    (stake_account_info : AccountInfo) (acc : Z * Z) : P (Z * Z) :=
  stake_bump_seed ← check_validator_stake_address v program_id (ai_key stake_pool_info) index
                      (ai_key stake_account_info);
  balance ← lamports_of stake_account_info;
  if 0 <? balance then
    owner ← owner_of stake_account_info;
    if bytes_eqb owner stake_id then
      s ← read_stake_state stake_account_info;
      available ← available_lamports balance s;
      balance' ←
        (if 0 <? available then
           _ ← invoke_stake program_id
                 [stake_account_info; reserve_info; clock_info; stake_history_info; withdraw_info;
                  stake_program_info]
                 [authority_seeds (ai_key stake_pool_info) AUTHORITY_WITHDRAW (sp_withdraw_bump_seed sp)]
                 (St_Withdraw (ai_key stake_account_info) (ai_key withdraw_info)
                    (ai_key reserve_info) available);
           mret (wsub balance available)
         else mret balance);
      mret (wadd acc.1 balance', index + 1)
    else if bytes_eqb owner system_program_id then
      _ ← invoke_signed program_id [system_info; stake_account_info; reserve_info]
            [stake_seeds validator_vote (ai_key stake_pool_info) index ++ [bump stake_bump_seed]]
            (Sys_Transfer (ai_key stake_account_info) (ai_key reserve_info) balance);
      mret acc
    else fail (Custom WrongStakeState)
  else mret acc.

(** [for index in 0..stake_count]: the [n] stakes from [index] on. *)
Fixpoint update_stakes (program_id : buffer) (stake_pool_info withdraw_info reserve_info system_info
    stake_program_info clock_info stake_history_info : AccountInfo) (sp : StakePool)
    (validator_vote : buffer) (v : ValidatorStakeInfo) (n : nat) (index : Z)
    (it : list AccountInfo) (acc : Z * Z) : P (Z * Z * list AccountInfo) :=
  match n with
  | O => mret (acc, it)
  | S n' =>
      '(stake_account_info, it) ← next_account_info it;
      acc ← update_stake program_id stake_pool_info withdraw_info reserve_info system_info
              stake_program_info clock_info stake_history_info sp validator_vote v index
              stake_account_info acc;
      update_stakes program_id stake_pool_info withdraw_info reserve_info system_info
        stake_program_info clock_info stake_history_info sp validator_vote v n' (index + 1) it acc
  end.

(** [while let Some(validator_vote_info) = account_info_iter.next()].  Every turn takes
    at least one account, so as much fuel as there are accounts is enough. *)
Fixpoint update_validators (fuel : nat) (program_id : buffer) (stake_pool_info withdraw_info
    reserve_info system_info stake_program_info clock_info stake_history_info : AccountInfo)
    (sp : StakePool) (epoch : Z) (it : list AccountInfo) (vs : list ValidatorStakeInfo) (changes : bool)
  : P (list ValidatorStakeInfo * bool) :=
  match it, fuel with
  | validator_vote_info :: it, S fuel =>
      match find_validator (ai_key validator_vote_info) vs with
      | Some (i, v) =>
          '(balance, new_stake_count, it) ←
            update_stakes program_id stake_pool_info withdraw_info reserve_info system_info
              stake_program_info clock_info stake_history_info sp (ai_key validator_vote_info) v
              (Z.to_nat (vsi_stake_count v)) 0 it (0, 0);
          update_validators fuel program_id stake_pool_info withdraw_info reserve_info system_info
            stake_program_info clock_info stake_history_info sp epoch it
            (<[i := {| vsi_validator_account := vsi_validator_account v; vsi_balance := balance;
                       vsi_last_update_epoch := epoch; vsi_stake_count := new_stake_count |}]> vs)
            true
      | None => fail (Custom ValidatorNotFound)
      end
  | _, _ => mret (vs, changes)
  end.

(** [if changed { validator_stake_list.serialize(..)? }]. *)
Definition write_changed (info : AccountInfo) (l : ValidatorStakeList)
    (r : list ValidatorStakeInfo * bool) : P unit :=
  if r.2 then write_validators info {| vsl_version := vsl_version l; vsl_validators := r.1 |}
  else mret tt.

Definition process_update_list_balance (program_id : buffer) (accounts : list AccountInfo) : P unit :=
  '(stake_pool_info, it) ← next_account_info accounts;
  '(validator_stake_list_info, it) ← next_account_info it;
  '(withdraw_info, it) ← next_account_info it;
  '(reserve_info, it) ← next_account_info it;
  '(system_info, it) ← next_account_info it;
  '(stake_program_info, it) ← next_account_info it;
  '(clock_info, it) ← next_account_info it;
  epoch ← clock_from clock_info;
  '(stake_history_info, it) ← next_account_info it;
  sp ← read_pool program_id stake_pool_info;
  l ← read_validators sp validator_stake_list_info;
  _ ← check_authority_withdraw sp (ai_key withdraw_info) program_id (ai_key stake_pool_info);
  _ ← check_reserve program_id stake_pool_info reserve_info InvalidArgument;
  r ← update_validators (length it) program_id stake_pool_info withdraw_info reserve_info system_info
        stake_program_info clock_info stake_history_info sp epoch it (vsl_validators l) false;
  write_changed validator_stake_list_info l r.

(** ** [DelegateReserve] *)

Definition init_stake (program_id : buffer) (v : ValidatorStakeInfo)
    (validator_vote_info stake_account_info : AccountInfo) (stake_bump_seed : Z) (stake_pool : buffer)
    (index lamports : Z) (reserve_info deposit_info withdraw_info stake_program_info clock_info
    stake_history_info stake_config_info rent_info : AccountInfo)
    (deposit_signer_seeds reserve_signer_seeds : list buffer) : P ValidatorStakeInfo :=
  _ ← ensure (MIN_STAKE_ACCOUNT_BALANCE <=? lamports) InsufficientFunds;
  _ ← invoke_signed program_id [reserve_info; stake_account_info]
        [stake_seeds (ai_key validator_vote_info) stake_pool index ++ [bump stake_bump_seed];
         reserve_signer_seeds]
        (Sys_CreateAccount (ai_key reserve_info) (ai_key stake_account_info) lamports
           STAKE_STATE_LEN stake_id);
  _ ← invoke_stake program_id [stake_account_info; rent_info; stake_program_info] []
        (St_Initialize (ai_key stake_account_info)
           {| au_staker := ai_key deposit_info; au_withdrawer := ai_key withdraw_info |});
  _ ← invoke_stake program_id
        [stake_account_info; deposit_info; validator_vote_info; clock_info; stake_history_info;
         stake_config_info; stake_program_info]
        [deposit_signer_seeds]
        (St_DelegateStake (ai_key stake_account_info) (ai_key deposit_info)
           (ai_key validator_vote_info));
  mret (with_balance (wadd (vsi_balance v) lamports) v).

Definition redelegate_stake (program_id : buffer) (v : ValidatorStakeInfo)
    (validator_vote_info stake_account_info : AccountInfo) (lamports : Z)
    (reserve_info deposit_info system_info stake_program_info clock_info stake_history_info
     stake_config_info : AccountInfo)
    (deposit_signer_seeds reserve_signer_seeds : list buffer) : P ValidatorStakeInfo :=
  _ ← invoke_signed program_id [reserve_info; stake_account_info; system_info]
        [reserve_signer_seeds]
        (Sys_Transfer (ai_key reserve_info) (ai_key stake_account_info) lamports);
  _ ← invoke_stake program_id
        [stake_account_info; deposit_info; validator_vote_info; clock_info; stake_history_info;
         stake_config_info; stake_program_info]
        [deposit_signer_seeds]
        (St_DelegateStake (ai_key stake_account_info) (ai_key deposit_info)
           (ai_key validator_vote_info));
  mret (with_balance (wadd (vsi_balance v) lamports) v).

Fixpoint delegate_loop (program_id : buffer) (stake_pool_info withdraw_info deposit_info reserve_info
    system_info stake_program_info clock_info stake_history_info stake_config_info rent_info : AccountInfo)
    (deposit_signer_seeds reserve_signer_seeds : list buffer) (lamports_available : Z)
    (instructions : list DelegateReserveInstruction) (it : list AccountInfo)
    (vs : list ValidatorStakeInfo) (total_amount : Z) (changed : bool)
  : P (list ValidatorStakeInfo * bool) :=
  match instructions with
  | [] => mret (vs, changed)
  | instruction :: instructions' =>
      '(validator_vote_info, it) ← next_account_info it;
      '(stake_account_info, it) ← next_account_info it;
      match find_validator (ai_key validator_vote_info) vs with
      | Some (i, v) =>
          _ ← ensure (wadd total_amount (dri_amount instruction) <=? lamports_available)
                InsufficientFunds;
          _ ← ensure (dri_stake_index instruction <=? vsi_stake_count v) (Custom InvalidStakeIndex);
          stake_bump_seed ← check_validator_stake_address v program_id (ai_key stake_pool_info)
                              (dri_stake_index instruction) (ai_key stake_account_info);
          owner ← owner_of stake_account_info;
          v' ← (if bytes_eqb owner system_program_id
                then init_stake program_id v validator_vote_info stake_account_info stake_bump_seed
                       (ai_key stake_pool_info) (dri_stake_index instruction) (dri_amount instruction)
                       reserve_info deposit_info withdraw_info stake_program_info clock_info
                       stake_history_info stake_config_info rent_info
                       deposit_signer_seeds reserve_signer_seeds
                else redelegate_stake program_id v validator_vote_info stake_account_info
                       (dri_amount instruction) reserve_info deposit_info system_info
                       stake_program_info clock_info stake_history_info stake_config_info
                       deposit_signer_seeds reserve_signer_seeds);
          let grows := vsi_stake_count v' <=? dri_stake_index instruction in
          delegate_loop program_id stake_pool_info withdraw_info deposit_info reserve_info
            system_info stake_program_info clock_info stake_history_info stake_config_info rent_info
            deposit_signer_seeds reserve_signer_seeds lamports_available instructions' it
            (<[i := if grows then with_count (u32_succ (dri_stake_index instruction)) v' else v']> vs)
            (wadd total_amount (dri_amount instruction)) (changed || grows)
      | None => fail (Custom ValidatorNotFound)
      end
  end.

Definition process_delegate_reserve (program_id : buffer) (accounts : list AccountInfo)
    (instructions : list DelegateReserveInstruction) : P unit :=
  '(stake_pool_info, it) ← next_account_info accounts;
  '(owner_info, it) ← next_account_info it;
  '(validator_stake_list_info, it) ← next_account_info it;
  '(withdraw_info, it) ← next_account_info it;
  '(deposit_info, it) ← next_account_info it;
  '(reserve_info, it) ← next_account_info it;
  '(system_info, it) ← next_account_info it;
  '(stake_program_info, it) ← next_account_info it;
  '(clock_info, it) ← next_account_info it;
  '(stake_history_info, it) ← next_account_info it;
  '(stake_config_info, it) ← next_account_info it;
  '(rent_info, it) ← next_account_info it;
  rent ← rent_from rent_info;
  sp ← read_pool program_id stake_pool_info;
  _ ← check_owner sp owner_info;
  l ← read_validators sp validator_stake_list_info;
  _ ← check_authority_deposit sp (ai_key deposit_info) program_id (ai_key stake_pool_info);
  _ ← check_authority_withdraw sp (ai_key withdraw_info) program_id (ai_key stake_pool_info);
  reserve_bump ← check_reserve program_id stake_pool_info reserve_info InvalidArgument;
  reserve ← lamports_of reserve_info;
  (* saturating_sub *)
  let lamports_available := Z.max 0 (reserve - min_reserve_balance rent) in
  r ← delegate_loop program_id stake_pool_info withdraw_info deposit_info reserve_info
        system_info stake_program_info clock_info stake_history_info stake_config_info rent_info
        (authority_seeds (ai_key stake_pool_info) AUTHORITY_DEPOSIT (sp_deposit_bump_seed sp))
        (authority_seeds (ai_key stake_pool_info) AUTHORITY_RESERVE reserve_bump)
        lamports_available instructions it (vsl_validators l) 0 false;
  write_changed validator_stake_list_info l r.

(** ** [MergeStakes] *)

(** Stakes that observed different credits are left as they are. *)
Definition different_credits (s s' : StakeState) : bool :=
  match s, s' with
  | Stake_Stake _ st, Stake_Stake _ st' =>
      negb (st_credits_observed st =? st_credits_observed st')
  | _, _ => false
  end.

Fixpoint merge_loop (program_id : buffer) (stake_pool_info deposit_info stake_program_info clock_info
    stake_history_info : AccountInfo) (deposit_signer_seeds : list buffer)
    (instructions : list MergeStakesInstruction) (it : list AccountInfo)
    (vs : list ValidatorStakeInfo) (changed : bool) : P (list ValidatorStakeInfo * bool) :=
  match instructions with
  | [] => mret (vs, changed)
  | instruction :: instructions' =>
      '(main_info, it) ← next_account_info it;
      '(additional_info, it) ← next_account_info it;
      match find_validator (msi_validator_address instruction) vs with
      | Some (i, v) =>
          _ ← ensure (negb ((vsi_stake_count v <=? msi_main_index instruction)
                            || (vsi_stake_count v <=? msi_additional_index instruction)
                            || (msi_additional_index instruction <=? msi_main_index instruction)))
                (Custom InvalidStakeIndex);
          _ ← check_validator_stake_address v program_id (ai_key stake_pool_info)
                (msi_main_index instruction) (ai_key main_info);
          _ ← check_validator_stake_address v program_id (ai_key stake_pool_info)
                (msi_additional_index instruction) (ai_key additional_info);
          main_state ← read_stake_state main_info;
          additional_state ← read_stake_state additional_info;
          if different_credits main_state additional_state then
            merge_loop program_id stake_pool_info deposit_info stake_program_info clock_info
              stake_history_info deposit_signer_seeds instructions' it vs changed
          else
          _ ← invoke_stake program_id
                [stake_program_info; main_info; additional_info; clock_info; stake_history_info;
                 deposit_info]
                [deposit_signer_seeds]
                (St_Merge (ai_key main_info) (ai_key additional_info) (ai_key deposit_info));
          let last := msi_additional_index instruction + 1 =? vsi_stake_count v in
          merge_loop program_id stake_pool_info deposit_info stake_program_info clock_info
            stake_history_info deposit_signer_seeds instructions' it
            (if last then <[i := with_count (vsi_stake_count v - 1) v]> vs else vs)
            (changed || last)
      | None => fail (Custom ValidatorNotFound)
      end
  end.

Definition process_merge_stakes (program_id : buffer) (accounts : list AccountInfo)
    (instructions : list MergeStakesInstruction) : P unit :=
  '(stake_pool_info, it) ← next_account_info accounts;
  '(validator_stake_list_info, it) ← next_account_info it;
  '(deposit_info, it) ← next_account_info it;
  '(stake_program_info, it) ← next_account_info it;
  '(clock_info, it) ← next_account_info it;
  '(stake_history_info, it) ← next_account_info it;
  sp ← read_pool program_id stake_pool_info;
  l ← read_validators sp validator_stake_list_info;
  _ ← check_authority_deposit sp (ai_key deposit_info) program_id (ai_key stake_pool_info);
  r ← merge_loop program_id stake_pool_info deposit_info stake_program_info clock_info
        stake_history_info
        (authority_seeds (ai_key stake_pool_info) AUTHORITY_DEPOSIT (sp_deposit_bump_seed sp))
        instructions it (vsl_validators l) false;
  write_changed validator_stake_list_info l r.

(** ** [Unstake] *)

(** A new account for [amount] lamports of the stake, which are deactivated. *)
Definition split_and_deactivate (program_id : buffer) (stake_pool_info owner_info deposit_info
    system_info stake_program_info clock_info stake_history_info source_info split_info : AccountInfo)
    (rent : Rent) (instruction : UnstakeInstruction) (split_bump_seed : Z)
    (deposit_signer_seeds : list buffer) : P unit :=
  _ ← invoke_signed program_id [system_info; owner_info; split_info]
        [stake_seeds (ui_validator_address instruction) (ai_key stake_pool_info)
           (ui_split_index instruction) ++ [bump split_bump_seed]]
        (Sys_CreateAccount (ai_key owner_info) (ai_key split_info)
           (minimum_balance rent STAKE_STATE_LEN) STAKE_STATE_LEN stake_id);
  _ ← invoke_stake program_id [stake_program_info; source_info; deposit_info; split_info]
        [deposit_signer_seeds]
        (St_Split (ai_key source_info) (ai_key deposit_info) (ui_amount instruction)
           (ai_key split_info));
  invoke_stake program_id
    [stake_program_info; split_info; deposit_info; clock_info; stake_history_info]
    [deposit_signer_seeds] (St_Deactivate (ai_key split_info) (ai_key deposit_info)).

Fixpoint unstake_loop (program_id : buffer) (stake_pool_info owner_info deposit_info system_info
    stake_program_info clock_info stake_history_info : AccountInfo) (rent : Rent)
    (deposit_signer_seeds : list buffer) (instructions : list UnstakeInstruction)
    (it : list AccountInfo) (vs : list ValidatorStakeInfo) (changed : bool)
  : P (list ValidatorStakeInfo * bool) :=
  match instructions with
  | [] => mret (vs, changed)
  | instruction :: instructions' =>
      match find_validator (ui_validator_address instruction) vs with
      | Some (i, v) =>
          _ ← ensure (negb (vsi_stake_count v <=? ui_source_index instruction))
                (Custom InvalidStakeIndex);
          _ ← ensure (negb (vsi_stake_count v <? ui_split_index instruction))
                (Custom InvalidStakeIndex);
          '(source_info, it) ← next_account_info it;
          _ ← check_validator_stake_address v program_id (ai_key stake_pool_info)
                (ui_source_index instruction) (ai_key source_info);
          if ui_split_index instruction =? ui_source_index instruction then
            _ ← invoke_stake program_id
                  [stake_program_info; source_info; deposit_info; clock_info; stake_history_info]
                  [deposit_signer_seeds] (St_Deactivate (ai_key source_info) (ai_key deposit_info));
            unstake_loop program_id stake_pool_info owner_info deposit_info system_info
              stake_program_info clock_info stake_history_info rent deposit_signer_seeds
              instructions' it vs changed
          else
          let grows := ui_split_index instruction =? vsi_stake_count v in
          let v' := if grows then with_count (u32_succ (vsi_stake_count v)) v else v in
          '(split_info, it) ← next_account_info it;
          split_bump_seed ← check_validator_stake_address v' program_id (ai_key stake_pool_info)
                              (ui_split_index instruction) (ai_key split_info);
          _ ← split_and_deactivate program_id stake_pool_info owner_info deposit_info system_info
                stake_program_info clock_info stake_history_info source_info split_info rent
                instruction split_bump_seed deposit_signer_seeds;
          unstake_loop program_id stake_pool_info owner_info deposit_info system_info
            stake_program_info clock_info stake_history_info rent deposit_signer_seeds
            instructions' it (<[i := v']> vs) (changed || grows)
      | None => fail (Custom ValidatorNotFound)
      end
  end.

Definition process_unstake (program_id : buffer) (accounts : list AccountInfo)
    (instructions : list UnstakeInstruction) : P unit :=
  '(stake_pool_info, it) ← next_account_info accounts;
  '(owner_info, it) ← next_account_info it;
  '(validator_stake_list_info, it) ← next_account_info it;
  '(deposit_info, it) ← next_account_info it;
  '(system_info, it) ← next_account_info it;
  '(stake_program_info, it) ← next_account_info it;
  '(rent_info, it) ← next_account_info it;
  rent ← rent_from rent_info;
  '(clock_info, it) ← next_account_info it;
  '(stake_history_info, it) ← next_account_info it;
  sp ← read_pool program_id stake_pool_info;
  _ ← check_owner sp owner_info;
  l ← read_validators sp validator_stake_list_info;
  _ ← check_authority_deposit sp (ai_key deposit_info) program_id (ai_key stake_pool_info);
  r ← unstake_loop program_id stake_pool_info owner_info deposit_info system_info
        stake_program_info clock_info stake_history_info rent
        (authority_seeds (ai_key stake_pool_info) AUTHORITY_DEPOSIT (sp_deposit_bump_seed sp))
        instructions it (vsl_validators l) false;
  write_changed validator_stake_list_info l r.

(** ** The dispatcher *)

Definition process (program_id : buffer) (accounts : list AccountInfo) (input : buffer) : P unit :=
  instruction ← try_ (deserialize_instruction input);
  match instruction with
  | Initialize fee_denominator fee_numerator =>
      process_initialize program_id fee_denominator fee_numerator accounts
  | AddValidator => process_add_validator program_id accounts
  | RemoveValidator => process_remove_validator program_id accounts
  | UpdateListBalance => process_update_list_balance program_id accounts
  | UpdatePoolBalance => process_update_pool_balance program_id accounts
  | Deposit amount => process_deposit program_id amount accounts
  | Withdraw amount => process_withdraw program_id amount accounts
  | SetStakingAuthority => fail Panicked
  | SetOwner => process_set_owner program_id accounts
  | Credit amount => process_credit program_id amount accounts
  | Uncredit amount => process_uncredit program_id amount accounts
  | DelegateReserve instructions => process_delegate_reserve program_id accounts instructions
  | MergeStakes instructions => process_merge_stakes program_id accounts instructions
  | Unstake instructions => process_unstake program_id accounts instructions
  | PayCreditors => process_pay_creditors program_id accounts
  end.

End Processor.

(** ** The index checks of merges and unstakes

    What [merge_loop] and [unstake_loop] do to the stake counts, without the accounts
    and the stake program. *)

(** The stake counts of the validators, in the order of the list. *)
Abbreviation counts := (list (buffer * Z)).

(** [validators.iter_mut().find(...)], and the count written back. *)
Fixpoint update_count (k : buffer) (f : Z → StakePoolError + Z) (cs : counts)
  : StakePoolError + counts :=
  match cs with
  | [] => inl ValidatorNotFound
  | (k', n) :: cs' =>
      if decide (k = k') then match f n with inl e => inl e | inr n' => inr ((k', n') :: cs') end
      else match update_count k f cs' with inl e => inl e | inr cs'' => inr ((k', n) :: cs'') end
  end.

(** One instruction of [process_merge_stakes]; [merged] is whether the stakes
    could be merged or were skipped. *)
Definition merge_count (instruction : MergeStakesInstruction) (merged : bool) (n : Z)
  : StakePoolError + Z :=
  if (n <=? msi_main_index instruction) || (n <=? msi_additional_index instruction)
     || (msi_additional_index instruction <=? msi_main_index instruction)
  then inl InvalidStakeIndex
  else if merged && (msi_additional_index instruction + 1 =? n) then inr (n - 1) else inr n.

Fixpoint process_merges (l : list (MergeStakesInstruction * bool)) (cs : counts)
  : StakePoolError + counts :=
  match l with
  | [] => inr cs
  | (i, merged) :: l' =>
      match update_count (msi_validator_address i) (merge_count i merged) cs with
      | inl e => inl e
      | inr cs' => process_merges l' cs'
      end
  end.

(** One instruction of [process_unstake]. *)
Definition unstake_count (instruction : UnstakeInstruction) (n : Z) : StakePoolError + Z :=
  if n <=? ui_source_index instruction then inl InvalidStakeIndex
  else if n <? ui_split_index instruction then inl InvalidStakeIndex
  else if ui_split_index instruction =? ui_source_index instruction then inr n
  else if ui_split_index instruction =? n then inr (n + 1) else inr n.

Fixpoint process_unstakes (l : list UnstakeInstruction) (cs : counts) : StakePoolError + counts :=
  match l with
  | [] => inr cs
  | i :: l' =>
      match update_count (ui_validator_address i) (unstake_count i) cs with
      | inl e => inl e
      | inr cs' => process_unstakes l' cs'
      end
  end.
