(* ===== verification/Effects.v ===== *)
(** * What the processor's handlers did when they succeeded

    Round trips of the program's accounts, and for every handler of Processor.v that
    moves money the complete effect of a successful run under the laws of Chain.v:
    which lamports, tokens and supplies changed by how much, that nothing else did,
    and what the pool and the credit list hold afterwards. *)

From Stdlib Require Import ZArith Lia.
From stdpp Require Import base list strings sets.
From coqutil Require Import Byte Word.LittleEndianList.
From S2P Require Import Prelude Buffers Program Chain Processor.

Open Scope Z_scope.

(** ** Round trips of the accounts *)

Definition wf_key (k : buffer) : Prop := length k = 32%nat.

Record wf_pool (sp : StakePool) : Prop := {
  wf_version : 0 <= sp_version sp < 256;
  wf_deposit_bump : 0 <= sp_deposit_bump_seed sp < 256;
  wf_withdraw_bump : 0 <= sp_withdraw_bump_seed sp < 256;
  wf_keys : Forall wf_key [sp_owner sp; sp_validator_stake_list sp; sp_credit_list sp;
    sp_pool_mint sp; sp_owner_fee_account sp; sp_credit_reserve sp; sp_token_program_id sp];
  wf_numbers : Forall is_u64 [sp_stake_total sp; sp_pool_total sp; sp_last_update_epoch sp;
    sp_fee_denominator sp; sp_fee_numerator sp];
}.

Lemma deserialize_wf d sp : deserialize_stake_pool d = inr sp → wf_pool sp.
Proof.
  unfold deserialize_stake_pool. destruct (Nat.ltb_spec (length d) STAKE_POOL_LEN) as [|Hl]; [done|].
  unfold STAKE_POOL_LEN in Hl. intros Hd. apply (inj inr) in Hd as <-.
  assert (Hk : ∀ i j, (i + 32 = j)%nat → (j <= 272)%nat → wf_key (slice d i j)).
  { intros i j Hi Hj. unfold wf_key, slice. rewrite length_take, length_drop. lia. }
  split; simpl.
  - apply (u_at_range 1).
  - apply (u_at_range 1).
  - apply (u_at_range 1).
  - repeat constructor; apply Hk; lia.
  - repeat (apply Forall_cons; split; [apply (u_at_range 8)|]); constructor.
Qed.

Lemma deserialize_serialize pad sp d d' :
  wf_pool sp → length pad = 5%nat → serialize_stake_pool pad sp d = inr d' →
  deserialize_stake_pool d' = inr sp.
Proof.
  intros [Hv Hdb Hwb Hk Hn] Hp. unfold serialize_stake_pool.
  destruct (Nat.ltb_spec (length d) STAKE_POOL_LEN) as [|Hl]; [done|]. intros Hd. apply (inj inr) in Hd as <-.
  repeat (apply Forall_cons in Hk as [? Hk]). repeat (apply Forall_cons in Hn as [? Hn]).
  unfold wf_key, is_u64, u64_max_plus_1 in *.
  unfold deserialize_stake_pool.
  rewrite (proj2 (Nat.ltb_ge _ _)).
  2: { unfold stake_pool_bytes. rewrite !length_app, !length_le_split, length_drop.
       unfold STAKE_POOL_LEN in *. lia. }
  f_equal. destruct sp as [v o db wb vl cl pm oa cr tp st pt lu fd fn];
    cbn -[slice u_at le_split app drop stake_pool_bytes] in *.
  unfold stake_pool_bytes. rewrite <- !app_assoc. cbn -[slice u_at le_split app drop].
  f_equal; field_at.
Qed.

Definition wf_credit (c : CreditRecord) : Prop :=
  wf_key (cr_sol_target c) ∧ wf_key (cr_cancel_authority c) ∧ is_u64 (cr_token_amount c).

(** A credit list that was initialized. *)
Definition wf_credits (l : CreditList) : Prop :=
  0 < cl_version l < 256 ∧ (length (cl_credits l) ≤ MAX_CREDIT_RECORDS)%nat ∧
  Forall wf_credit (cl_credits l).

Lemma length_credit_record c : wf_credit c → length (credit_record_bytes c) = CREDIT_RECORD_LEN.
Proof.
  intros (Ht & Ha & _). unfold credit_record_bytes, wf_key in *.
  by rewrite !length_app, length_le_split, Ht, Ha.
Qed.

Lemma get_credit_record c : wf_credit c → get_CreditRecord (credit_record_bytes c) = c.
Proof.
  intros (Ht & Ha & Hn). unfold wf_key, is_u64, u64_max_plus_1 in *. destruct c as [t a n].
  cbn [cr_sol_target cr_cancel_authority cr_token_amount] in *.
  unfold get_CreditRecord, credit_record_bytes.
  cbn [cr_sol_target cr_cancel_authority cr_token_amount].
  rewrite <- (app_nil_r (le_split 8 n)). f_equal; field_at.
Qed.

Lemma length_concat_records {A} (enc : A → buffer) size xs :
  (∀ x, x ∈ xs → length (enc x) = size) → length (concat (enc <$> xs)) = (size * length xs)%nat.
Proof.
  induction xs as [|x xs IH]; intros Hx; [simpl; lia|]. cbn [fmap list_fmap concat].
  rewrite length_app, Hx, IH by set_solver. simpl. lia.
Qed.

Lemma raw_parts_wf {A} (Q : A → Prop) size n get b :
  (∀ d, (size ≤ length d)%nat → Q (get (take size d))) → (size * n ≤ length b)%nat →
  Forall Q (raw_parts size n get b) ∧ length (raw_parts size n get b) = n.
Proof.
  intros Hq. revert b; induction n as [|n IH]; intros b Hl; [by split|].
  cbn [raw_parts length]. destruct (IH (drop size b)) as [HF HL]; [rewrite length_drop; lia|].
  split; [|by rewrite HL]. constructor; [apply Hq; lia|done].
Qed.

Lemma deserialize_credits_wf d l :
  deserialize_credit_list d = inr l → is_initialized (cl_version l) = true → wf_credits l.
Proof.
  unfold deserialize_credit_list. destruct (Nat.ltb_spec (length d) CREDIT_LIST_LEN) as [|Hl]; [done|].
  destruct (Z.eqb_spec (u_at 1 d 0) 0) as [|Hv]; [by intros [= <-]|].
  destruct (Nat.ltb_spec MAX_CREDIT_RECORDS (Z.to_nat (u_at 2 d 1))) as [|Hm]; [done|].
  intros Hr. apply (inj inr) in Hr as <-. intros _. unfold wf_credits; cbn [cl_version cl_credits].
  destruct (raw_parts_wf wf_credit CREDIT_RECORD_LEN (Z.to_nat (u_at 2 d 1)) get_CreditRecord (drop 3 d))
    as [HF HL].
  - intros e He. unfold wf_credit, get_CreditRecord; cbn [cr_sol_target cr_cancel_authority cr_token_amount].
    unfold CREDIT_RECORD_LEN in *. split_and!; [| |apply (u_at_range 8)];
      unfold wf_key, slice; rewrite length_take, length_drop, length_take; lia.
  - rewrite length_drop. unfold CREDIT_LIST_LEN, CREDIT_RECORD_LEN in *. lia.
  - rewrite HL. pose proof (u_at_range 1 d 0). split_and!; [lia|lia|done|done].
Qed.

Lemma credits_round_trip l d d' :
  wf_credits l → serialize_credit_list l d = inr d' → deserialize_credit_list d' = inr l.
Proof.
  intros (Hv & Hlen & HF) Hs. unfold serialize_credit_list in Hs.
  destruct (Nat.ltb_spec (length d) CREDIT_LIST_LEN) as [|Hl]; [done|].
  destruct (Nat.ltb_spec MAX_CREDIT_RECORDS (length (cl_credits l))) as [|_]; [done|].
  apply (inj inr) in Hs as <-. unfold deserialize_credit_list, credit_list_bytes.
  assert (Hb : ∀ c, c ∈ cl_credits l → wf_credit c) by (by apply Forall_forall).
  assert (Hn : 0 <= Z.of_nat (length (cl_credits l)) < 2 ^ (Z.of_nat 2 * 8))
    by (unfold MAX_CREDIT_RECORDS in *; lia).
  pose proof (length_concat_records credit_record_bytes CREDIT_RECORD_LEN (cl_credits l)
    (λ c Hc, length_credit_record c (Hb c Hc))) as Hc.
  rewrite (proj2 (Nat.ltb_ge _ _)).
  2: { rewrite !length_app, !length_le_split, length_drop, !Hc.
       unfold CREDIT_LIST_LEN, CREDIT_RECORD_LEN in *. lia. }
  rewrite <- !app_assoc, u_at_here by lia. rewrite (proj2 (Z.eqb_neq _ _)) by lia.
  rewrite (u_at_skip 2 _ _ 1 1), u_at_here by (rewrite ?length_le_split; lia).
  rewrite Nat2Z.id, (proj2 (Nat.ltb_ge _ _)) by lia.
  rewrite app_assoc, drop_app_length' by done.
  rewrite (raw_parts_concat _ _ _ id) by (intros c Hin; split; [by apply length_credit_record, Hb|by apply get_credit_record, Hb]).
  rewrite list_fmap_id. by destruct l.
Qed.

(** ** Amounts that move *)

Section Effects.
Context `{RuntimeLaws}.

Definition lam (b : Bank) (k : buffer) : Z := ac_lamports (b k).

(** The tokens in an account and the supply of a mint. *)
Definition tok (b : Bank) (k : buffer) : Z :=
  match token_at b k with Some a => ta_amount a | None => 0 end.
Definition sup (b : Bank) (m : buffer) : Z :=
  match mint_at b m with Some i => mi_supply i | None => 0 end.

(** [n] at one address. *)
Definition at_ (k : buffer) (n : Z) : buffer → Z := λ k', if decide (k' = k) then n else 0.

(** What happens at an address: its owner stays, its tokens and its supply change by
    the amounts given, its kind stays, and the token program changes nothing that it
    does not own. *)
Record stays (dt ds : Z) (b b' : Bank) (k : buffer) : Prop := {
  st_owner : ac_owner (b' k) = ac_owner (b k);
  st_tok : tok b' k = tok b k + dt;
  st_sup : sup b' k = sup b k + ds;
  st_mint : ta_mint <$> token_at b' k = ta_mint <$> token_at b k;
  st_holder : ta_owner <$> token_at b' k = ta_owner <$> token_at b k;
  st_native : ta_is_native <$> token_at b' k = ta_is_native <$> token_at b k;
  st_authority : mi_authority <$> mint_at b' k = mi_authority <$> mint_at b k;
  st_data : ac_owner (b k) ≠ spl_token_id → ac_data (b' k) = ac_data (b k);
}.

(** The lamports change by [dl] everywhere; tokens and supplies change by [dt] and [ds]
    and nothing else happens outside [ks]. *)
Record effect (xs ks : list buffer) (dl dt ds : buffer → Z) (b b' : Bank) : Prop := {
  ef_owner : ∀ k, k ∉ xs → ac_owner (b' k) = ac_owner (b k);
  ef_lam : ∀ k, lam b' k = lam b k + dl k;
  ef_stays : ∀ k, k ∉ ks → stays (dt k) (ds k) b b' k;
}.

Definition none : buffer → Z := λ _, 0.
Definition both (f g : buffer → Z) : buffer → Z := λ k, f k + g k.

Lemma stays_same b b' k :
  ac_data (b' k) = ac_data (b k) → ac_owner (b' k) = ac_owner (b k) → stays 0 0 b b' k.
Proof.
  intros Hd Ho. assert (Ht : token_at b' k = token_at b k) by (unfold token_at; by rewrite Hd, Ho).
  assert (Hm : mint_at b' k = mint_at b k) by (unfold mint_at; by rewrite Hd, Ho).
  split; unfold tok, sup; rewrite ?Ht, ?Hm; try done; lia.
Qed.

Lemma stays_trans t1 s1 t2 s2 b b1 b2 k :
  stays t1 s1 b b1 k → stays t2 s2 b1 b2 k → stays (t1 + t2) (s1 + s2) b b2 k.
Proof.
  intros [O1 T1 S1 M1 H1 N1 A1 D1] [O2 T2 S2 M2 H2 N2 A2 D2].
  split; try congruence; try lia. intros Hk. rewrite D2, D1; congruence.
Qed.

Lemma effect_trans xs1 xs2 ks1 ks2 l1 t1 s1 l2 t2 s2 b b1 b2 :
  effect xs1 ks1 l1 t1 s1 b b1 → effect xs2 ks2 l2 t2 s2 b1 b2 →
  effect (xs1 ++ xs2) (ks1 ++ ks2) (both l1 l2) (both t1 t2) (both s1 s2) b b2.
Proof.
  intros [O1 L1 S1] [O2 L2 S2]. split.
  - intros k [Hk1 Hk2]%not_elem_of_app. by rewrite O2, O1.
  - intros k. rewrite L2, L1. unfold both. lia.
  - intros k Hk. apply not_elem_of_app in Hk as [Hk1 Hk2].
    eapply stays_trans; [by apply S1|by apply S2].
Qed.

Lemma effect_ext xs xs' ks ks' l t s l' t' s' b b' :
  effect xs ks l t s b b' → xs ⊆ xs' → ks ⊆ ks' → (∀ k, l k = l' k) →
  (∀ k, k ∉ ks' → t k = t' k) → (∀ k, k ∉ ks' → s k = s' k) →
  effect xs' ks' l' t' s' b b'.
Proof.
  intros [O L S] Hxs Hks Hl Ht Hs. split.
  - intros k Hk. apply O. set_solver.
  - intros k. by rewrite L, Hl.
  - intros k Hk. rewrite <- Ht, <- Hs by done. apply S. set_solver.
Qed.

Lemma effect_tok xs ks l t s b b' k : effect xs ks l t s b b' → k ∉ ks → tok b' k = tok b k + t k.
Proof. intros [_ _ He] Hk. apply He, Hk. Qed.

Lemma effect_sup xs ks l t s b b' k : effect xs ks l t s b b' → k ∉ ks → sup b' k = sup b k + s k.
Proof. intros [_ _ He] Hk. apply He, Hk. Qed.

(** Nothing is unknown where only data was written. *)
Lemma effect_all ks l t s b b' :
  (∀ k, lam b' k = lam b k + l k) → (∀ k, stays (t k) (s k) b b' k) → effect [] ks l t s b b'.
Proof. intros Hl Hs. split; [intros k _; apply (Hs k)|done|intros k _; apply Hs]. Qed.

Lemma moved_lam from to n b b' :
  moved from to n b b' → ∀ k, lam b' k = lam b k + both (at_ from (- n)) (at_ to n) k.
Proof. intros Hm k. unfold lam, both, at_. rewrite Hm. destruct (decide _), (decide _); lia. Qed.

Lemma moved_0 k0 b b' : moved k0 k0 0 b b' → ∀ k, lam b' k = lam b k + none k.
Proof. intros Hm k. unfold lam, none. rewrite Hm. destruct (decide _); lia. Qed.

Lemma token_not_mint b k a m : token_at b k = Some a → mint_at b k = Some m → False.
Proof. unfold token_at, mint_at. destruct (decide _); [|done]. apply account_or_mint. Qed.

Lemma token_owner b k a : token_at b k = Some a → ac_owner (b k) = spl_token_id.
Proof. unfold token_at. by destruct (decide _). Qed.

Lemma mint_owner b k m : mint_at b k = Some m → ac_owner (b k) = spl_token_id.
Proof. unfold mint_at. by destruct (decide _). Qed.

Lemma token_no_mint b k a : token_at b k = Some a → mint_at b k = None.
Proof. intros Ht. destruct (mint_at b k) eqn:E; [|done]. by destruct (token_not_mint _ _ _ _ Ht E). Qed.

Lemma mint_no_token b k m : mint_at b k = Some m → token_at b k = None.
Proof. intros Ht. destruct (token_at b k) eqn:E; [|done]. by destruct (token_not_mint _ _ _ _ E Ht). Qed.

Lemma tok_range b k : is_u64 (tok b k).
Proof.
  unfold tok, token_at. destruct (decide _); [|done].
  destruct (unpack_account _) eqn:E; [by eapply unpack_account_amount|done].
Qed.

Lemma sup_range b k : is_u64 (sup b k).
Proof.
  unfold sup, mint_at. destruct (decide _); [|done].
  destruct (unpack_mint _) eqn:E; [by eapply unpack_mint_supply|done].
Qed.

(** A token account whose amount changed, and a mint whose supply changed. *)
Lemma stays_token n b b' k a a' :
  same_owners b b' → token_at b k = Some a → token_at b' k = Some a' →
  with_amount (ta_amount a + n) a a' → stays n 0 b b' k.
Proof.
  intros Ho Ha Ha' (Hn & Hm & Hw & _ & Hna).
  split; unfold tok, sup; rewrite ?Ha, ?Ha', ?(token_no_mint _ _ _ Ha), ?(token_no_mint _ _ _ Ha'); cbn.
  - apply Ho.
  - lia.
  - done.
  - by rewrite Hm.
  - by rewrite Hw.
  - by rewrite Hna.
  - done.
  - intros Hne. by destruct Hne; eapply token_owner.
Qed.

Lemma stays_mint n b b' k m :
  same_owners b b' → mint_at b k = Some m → mint_at b' k = Some (with_supply (mi_supply m + n) m) →
  stays 0 n b b' k.
Proof.
  intros Ho Ha Ha'.
  split; unfold tok, sup; rewrite ?Ha, ?Ha', ?(mint_no_token _ _ _ Ha), ?(mint_no_token _ _ _ Ha'); cbn;
    try done.
  intros Hne. by destruct Hne; eapply mint_owner.
Qed.

(** The effect of an instruction of the token program on a mint and an account. *)
Lemma supply_effect n b b' mint k m a a' :
  same_owners b b' → frame [mint; k] b b' → moved k k 0 b b' →
  mint_at b mint = Some m → token_at b k = Some a →
  mint_at b' mint = Some (with_supply (mi_supply m + n) m) → token_at b' k = Some a' →
  with_amount (ta_amount a + n) a a' → effect [] [] none (at_ k n) (at_ mint n) b b'.
Proof.
  intros Ho Hf Hm Hb Ha Hb' Ha' Hw.
  assert (Hne : mint ≠ k) by (intros ->; by eapply token_not_mint).
  apply effect_all; [by apply (moved_0 k)|]. intros x. unfold at_.
  destruct (decide (x = k)) as [->|Hk].
  { rewrite decide_False by done. by eapply stays_token. }
  destruct (decide (x = mint)) as [->|Hx]; [by eapply stays_mint|].
  destruct (Hf x) as [? ?]; [set_solver|]. by apply stays_same.
Qed.

(** ** Steps of the handlers *)

Lemma invoke_inr p infos seeds ix b u b' :
  invoke_signed p infos seeds ix b = inr (u, b') → invoke_signed_by p infos seeds ix b = inr b'.
Proof. unfold invoke_signed. destruct (invoke_signed_by _ _ _ _ _); [done|]. by intros [= _ <-]. Qed.

Lemma transfer_step p infos seeds from to n b u b' :
  invoke_signed p infos seeds (Sys_Transfer from to n) b = inr (u, b') →
  signs p infos seeds from ∧ n <= lam b from ∧
  effect [] [] (both (at_ from (- n)) (at_ to n)) none none b b'.
Proof.
  intros (Hs & _ & Hn & Hf & Hm)%invoke_inr%transfer_effect. split_and!; [done|done|].
  apply effect_all; [by apply moved_lam|]. intros k. destruct (Hf k); [set_solver|]. by apply stays_same.
Qed.

Lemma mint_to_step p pool token mint dst authority ty z n b u b' :
  ai_key token = spl_token_id →
  token_mint_to p pool token mint dst authority ty z n b = inr (u, b') →
  effect [] [] none (at_ (ai_key dst) n) (at_ (ai_key mint) n) b b' ∧
  ta_mint <$> token_at b (ai_key dst) = Some (ai_key mint) ∧
  mi_authority <$> mint_at b (ai_key mint) = Some (Some (ai_key authority)).
Proof.
  intros Ht He. unfold token_mint_to in He. rewrite Ht in He.
  apply invoke_inr, mint_to_effect in He
    as (_ & Ho & Hf & Hm & m & a & a' & Hb & Ha & Hk & Hau & _ & Hb' & Ha' & Hw).
  rewrite Ha, Hb. cbn. rewrite Hk, Hau. split; [|done]. by eapply supply_effect.
Qed.

Lemma burn_step p pool token k mint authority ty z n b u b' :
  ai_key token = spl_token_id →
  token_burn p pool token k mint authority ty z n b = inr (u, b') →
  effect [] [] none (at_ (ai_key k) (- n)) (at_ (ai_key mint) (- n)) b b' ∧
  ta_mint <$> token_at b (ai_key k) = Some (ai_key mint) ∧
  n <= tok b (ai_key k) ∧ n <= sup b (ai_key mint).
Proof.
  intros Ht He. unfold token_burn in He. rewrite Ht in He.
  apply invoke_inr, burn_effect in He
    as (_ & Ho & Hf & Hm & m & a & a' & Hb & Ha & Hk & (_ & Hn & _) & Hs & Hb' & Ha' & Hw).
  unfold tok, sup. rewrite Ha, Hb. cbn. rewrite Hk. split_and!; try done.
  eapply supply_effect; try done; by rewrite Z.add_opp_r.
Qed.

Lemma token_transfer_step p infos seeds src dst authority n b u b' :
  invoke_signed p infos seeds (Token spl_token_id (Tk_Transfer src dst authority n)) b = inr (u, b') →
  ∃ a, token_at b src = Some a ∧ may_spend authority n a ∧ n <= tok b src ∧
    ta_mint <$> token_at b dst = Some (ta_mint a) ∧
    let x := if ta_is_native a then n else 0 in
    effect [] [] (both (at_ src (- x)) (at_ dst x)) (both (at_ src (- n)) (at_ dst n)) none b b'.
Proof.
  intros (_ & Ho & Hf & a & d & Ha & Hd & Hm & Hs & Hl & Hres)%invoke_inr%token_transfer_effect.
  exists a. unfold tok at 1. rewrite Ha, Hd. cbn. rewrite Hm.
  split_and!; [done|done|apply Hs|done|]. apply effect_all; [by apply moved_lam|].
  intros k. unfold both, at_, none.
  assert (Hrest : k ≠ src → k ≠ dst → stays 0 0 b b' k).
  { intros H1 H2. destruct (Hf k); [set_solver|]. by apply stays_same. }
  destruct (decide (src = dst)) as [->|Hne].
  - destruct (decide (k = dst)) as [->|]; [|by apply Hrest].
    replace (- n + n) with 0 by lia. apply (stays_token 0 _ _ _ a a); [done|done|done|].
    unfold with_amount. split_and!; (done || lia).
  - destruct Hres as (a' & d' & Ha' & Hd' & Hwa & Hwd).
    destruct (decide (k = src)) as [->|].
    + rewrite decide_False by done. eapply stays_token; [done|done|done|]. by rewrite Z.add_0_r, Z.add_opp_r.
    + destruct (decide (k = dst)) as [->|]; [|by apply Hrest].
      eapply stays_token; [done|done|done|]. by rewrite Z.add_0_l.
Qed.

Lemma write_effect i f b u b' :
  write_data i f b = inr (u, b') →
  effect [] [ai_key i] none none none b b' ∧ ac_owner (b' (ai_key i)) = ac_owner (b (ai_key i)) ∧
  f (ac_data (b (ai_key i))) = inr (ac_data (b' (ai_key i))) ∧
  (∀ k, k ≠ ai_key i → b' k = b k).
Proof.
  intros (d & Hd & ->)%write_data_inr. rewrite put_eq.
  split_and!; [|done|done|intros k Hk; by apply put_ne]. split.
  - intros k _. unfold put. by destruct (decide _) as [->|].
  - intros k. unfold lam, none, put. destruct (decide _) as [->|]; cbn; lia.
  - intros k Hk. apply stays_same; rewrite put_ne; set_solver.
Qed.

(** The pool an account holds. *)
Definition pool_at (b : Bank) (k : buffer) : option StakePool :=
  match deserialize_stake_pool (ac_data (b k)) with inr sp => Some sp | inl _ => None end.

Definition credits_at (b : Bank) (k : buffer) : option CreditList :=
  match deserialize_credit_list (ac_data (b k)) with inr l => Some l | inl _ => None end.

Lemma pool_at_wf b k sp : pool_at b k = Some sp → wf_pool sp.
Proof. unfold pool_at. destruct (deserialize_stake_pool _) eqn:E; [done|]. intros [= <-]. by eapply deserialize_wf. Qed.

Lemma read_pool_inr p i b sp b' :
  read_pool p i b = inr (sp, b') →
  b' = b ∧ ai_owner i = p ∧ pool_at b (ai_key i) = Some sp ∧ is_initialized (sp_version sp) = true.
Proof.
  intros Hr. unfold read_pool in Hr. inv_step Hr. inv_step Hr. injection E0 as <- <-. inv_step Hr.
  inv_step Hr. injection Hr as <- <-. apply bytes_eqb_true in E. unfold pool_at.
  rewrite E0. done.
Qed.

Lemma write_pool_step i sp b u b' :
  wf_pool sp → write_pool i sp b = inr (u, b') →
  effect [] [ai_key i] none none none b b' ∧ pool_at b' (ai_key i) = Some sp ∧
  ac_owner (b' (ai_key i)) = ac_owner (b (ai_key i)) ∧ (∀ k, k ≠ ai_key i → b' k = b k).
Proof.
  intros Hw Hs. apply write_effect in Hs as (He & Ho & Hd & Hk). split_and!; [done| |done|done].
  unfold pool_at. by rewrite (deserialize_serialize _ sp _ _ Hw (length_padding 5) Hd).
Qed.

Lemma read_credits_inr sp li ri b l b' :
  read_credits sp li ri b = inr (l, b') →
  b' = b ∧ ai_key li = sp_credit_list sp ∧ ai_key ri = sp_credit_reserve sp ∧
  credits_at b (ai_key li) = Some l ∧ wf_credits l.
Proof.
  intros Hr. unfold read_credits in Hr. inv_step Hr. inv_step Hr. injection E0 as <- <-. inv_step Hr.
  inv_step Hr. inv_step Hr. injection Hr as <- <-. apply bytes_eqb_true in E, E2. unfold credits_at.
  rewrite E0. split_and!; try done. by eapply deserialize_credits_wf.
Qed.

Lemma write_credits_step i l b u b' :
  wf_credits l → write_credits i l b = inr (u, b') →
  effect [] [ai_key i] none none none b b' ∧ credits_at b' (ai_key i) = Some l ∧
  ac_owner (b' (ai_key i)) = ac_owner (b (ai_key i)) ∧ (∀ k, k ≠ ai_key i → b' k = b k).
Proof.
  intros Hw Hs. apply write_effect in Hs as (He & Ho & Hd & Hk). split_and!; [done| |done|done].
  unfold credits_at. by rewrite (credits_round_trip l _ _ Hw Hd).
Qed.

Lemma check_withdraw_inr sp k p pool b u b' :
  check_authority_withdraw sp k p pool b = inr (u, b') →
  b' = b ∧ create_program_address (authority_seeds pool AUTHORITY_WITHDRAW (sp_withdraw_bump_seed sp)) p = Some k.
Proof.
  intros Hr. unfold check_authority_withdraw, check_authority in Hr. inv_step Hr.
  apply ensure_inr in Hr as [Hk [= -> ->]]. apply bytes_eqb_true in Hk as ->.
  unfold authority_id in E. destruct (create_program_address _ _); [|done]. by injection E as <-.
Qed.

Lemma check_reserve_inr p pi ri e b z b' :
  check_reserve p pi ri e b = inr (z, b') →
  b' = b ∧ get_reserve_adderess p (ai_key pi) = (ai_key ri, z).
Proof.
  intros Hr. unfold check_reserve in Hr. destruct (get_reserve_adderess _ _) as [k z'] eqn:Hg.
  inv_step Hr. injection Hr as <- <-. apply bytes_eqb_true in E as ->. done.
Qed.

Lemma rent_inr i b r b' : rent_from i b = inr (r, b') → b' = b ∧ Rent_from_account_info i b = inr r.
Proof. unfold rent_from. destruct (Rent_from_account_info _ _); [done|]. by intros [= <- <-]. Qed.

Lemma clock_inr i b e b' : clock_from i b = inr (e, b') → b' = b ∧ Clock_from_account_info i b = inr e.
Proof. unfold clock_from. destruct (Clock_from_account_info _ _); [done|]. by intros [= <- <-]. Qed.

Lemma lamports_inr i b n b' : lamports_of i b = inr (n, b') → b' = b ∧ n = lam b (ai_key i).
Proof. by intros [= <- <-]. Qed.

(** ** Deposits and withdrawals *)

Lemma with_totals_wf st pt sp : wf_pool sp → is_u64 st → is_u64 pt → wf_pool (with_totals st pt sp).
Proof.
  intros [Hv Hd Hw Hk Hn] Hs Hp. split; try done.
  apply Forall_cons in Hn as [_ Hn]. apply Forall_cons in Hn as [_ Hn]. by do 2 (apply Forall_cons; split; [done|]).
Qed.

(** The handles name the owners of the accounts as they are. *)
Definition coherent (b : Bank) (infos : list AccountInfo) : Prop :=
  ∀ i, i ∈ infos → ai_owner i = ac_owner (b (ai_key i)).

(** A token account is native exactly if its mint is the native one. *)
Definition native_ok (b : Bank) : Prop :=
  ∀ k a, token_at b k = Some a → ta_is_native a = bytes_eqb (ta_mint a) native_mint_id.

Definition temp_address (p pool : buffer) : buffer :=
  fst (find_program_address [seed pool; TEMP_ACCOUNT] p).

(** Wrapped SOL: the temporary account comes and goes, and its lamports with it. *)
Lemma deposit_wrapped_step p n r wz rz pool wd res src ri sys token temp native b u b' :
  ai_key token = spl_token_id → native_ok b → ac_owner (b (ai_key src)) ≠ system_program_id →
  deposit_wrapped p n r wz rz pool wd res src ri sys token temp native b = inr (u, b') →
  ac_owner (b (temp_address p (ai_key pool))) = system_program_id ∧
  ta_mint <$> token_at b (ai_key src) = Some native_mint_id ∧
  effect [temp_address p (ai_key pool)] [temp_address p (ai_key pool)] (both (at_ (ai_key src) (- n)) (at_ (ai_key res) n))
    (at_ (ai_key src) (- n)) none b b'.
Proof.
  intros Ht Hnat Hsrc Hr. unfold deposit_wrapped in Hr. rewrite Ht in Hr. unfold temp_address.
  destruct (find_program_address _ _) as [tk tz]. cbn [fst].
  inv_step Hr. inv_step Hr. apply bytes_eqb_true in E as <-. clear E0.
  inv_step Hr. apply invoke_inr, create_account_effect in E
    as (_ & _ & Hz & Hsys & _ & _ & F1 & L1).
  inv_step Hr. apply invoke_inr, initialize_account_effect in E
    as (_ & O2 & F2 & L2 & d & Hd & Hdm & _ & _).
  inv_step Hr. apply token_transfer_step in E as (a & Ha & _ & _ & Hm & [O3 L3 S3]).
  rewrite Hd in Hm. cbn in Hm. injection Hm as Hm.
  assert (Hne : ai_key src ≠ ai_key temp) by congruence.
  assert (Ha0 : token_at b (ai_key src) = Some a).
  { rewrite <- Ha. unfold token_at. destruct (F2 (ai_key src)) as [-> ->]; [set_solver|].
    by destruct (F1 (ai_key src)) as [-> ->]; [set_solver|]. }
  rewrite (Hnat _ _ Ha0), <- Hm, Hdm, (proj2 (bytes_eqb_true _ _) eq_refl) in L3.
  apply invoke_inr, close_account_effect in Hr as (_ & F4 & L4).
  set (rr := minimum_balance r TOKEN_ACCOUNT_LEN) in *.
  pose proof (moved_lam _ _ _ _ _ L1) as L1'. pose proof (moved_0 _ _ _ L2) as L2'.
  pose proof (moved_lam _ _ _ _ _ L4) as L4'. fold (lam b2 (ai_key temp)) in L4'.
  assert (HL : lam b2 (ai_key temp) = (if decide (ai_key temp = ai_key res) then 0 else rr) + n).
  { rewrite L3, L2', L1'. unfold both, at_, none. rewrite (decide_False (P := ai_key temp = ai_key src)) by done.
    rewrite !(decide_True (P := ai_key temp = ai_key temp)) by done.
    unfold lam. rewrite Hz. destruct (decide _); lia. }
  rewrite HL in L4'. split; [done|]. split; [rewrite Ha0; cbn; congruence|].
  split.
  - intros k Hk. destruct (F4 k) as [_ ->]; [done|]. rewrite O3 by set_solver.
    destruct (F2 k) as [_ ->]; [done|]. by apply F1.
  - intros k. rewrite L4', L3, L2', L1'. unfold both, at_, none.
    destruct (decide (k = ai_key res)), (decide (k = ai_key temp)), (decide (k = ai_key src)),
      (decide (ai_key temp = ai_key res)); subst; try congruence; lia.
  - intros k Hk. assert (Hkt : k ≠ ai_key temp) by set_solver.
    replace (at_ (ai_key src) (- n) k) with
      (0 + both (at_ (ai_key src) (- n)) (at_ (ai_key temp) n) k + 0)
      by (unfold both, at_; rewrite (decide_False (P := k = ai_key temp)) by done; lia).
    change (none k) with (0 + none k + 0).
    eapply stays_trans; [eapply stays_trans|].
    + destruct (F1 k) as [D1 W1]; [set_solver|]. destruct (F2 k) as [D2 W2]; [set_solver|].
      apply (stays_same b b1); congruence.
    + apply S3. set_solver.
    + destruct (F4 k) as [D4 W4]; [set_solver|]. by apply stays_same.
Qed.

(** The temporary account of a deposit of wrapped SOL. *)
Definition deposit_temp (p : buffer) (pool src : AccountInfo) : list buffer :=
  if decide (ai_owner src = system_program_id) then [] else [temp_address p (ai_key pool)].

(** What the source pays in tokens: wrapped SOL. *)
Definition deposit_tokens (src : AccountInfo) (amount : Z) : buffer → Z :=
  if decide (ai_owner src = system_program_id) then none else at_ (ai_key src) (- amount).

(** Everything a successful deposit did. *)
Record deposited (p : buffer) (amount : Z) (pool wd res src dst fee mint : AccountInfo)
    (sp : StakePool) (b b' : Bank) (pool_amount fee_amount : Z) : Prop := {
  dp_amount : amount ≠ 0;
  dp_pool_amount : calc_pool_deposit_amount sp amount = Some pool_amount;
  dp_fee_amount : calc_fee_amount sp pool_amount = Some fee_amount;
  dp_fee_part : fee_amount <= pool_amount;
  dp_reserve : fst (get_reserve_adderess p (ai_key pool)) = ai_key res;
  dp_fee : ai_key fee = sp_owner_fee_account sp;
  dp_minimum : MIN_RESERVE_BALANCE <= wadd (lam b (ai_key res)) amount;
  dp_temp : ∀ k, k ∈ deposit_temp p pool src → ac_owner (b k) = system_program_id;
  dp_source : ai_owner src ≠ system_program_id →
    ta_mint <$> token_at b (ai_key src) = Some native_mint_id;
  dp_mint : ai_key mint ∉ deposit_temp p pool src →
    mi_authority <$> mint_at b (ai_key mint) = Some (Some (ai_key wd));
  dp_dest : ai_key dst ∉ deposit_temp p pool src →
    ta_mint <$> token_at b (ai_key dst) = Some (ai_key mint);
  dp_effect :
    effect (deposit_temp p pool src) (ai_key pool :: deposit_temp p pool src)
      (both (at_ (ai_key src) (- amount)) (at_ (ai_key res) amount))
      (both (deposit_tokens src amount)
         (both (at_ (ai_key dst) (pool_amount - fee_amount)) (at_ (ai_key fee) fee_amount)))
      (at_ (ai_key mint) pool_amount) b b';
  dp_pool : pool_at b' (ai_key pool) =
    Some (with_totals (wadd (sp_stake_total sp) amount) (wadd (sp_pool_total sp) pool_amount) sp);
}.

Lemma min_reserve_ge r : MIN_RESERVE_BALANCE <= min_reserve_balance r.
Proof. apply Z.le_max_l. Qed.

(** How the lamports come to the reserve, on both branches. *)
Lemma deposit_funding p n r wz rz pool wd res src ri sys token wrapped it c e b u b0 b' :
  ai_key token = spl_token_id → native_ok b → ai_owner src = ac_owner (b (ai_key src)) →
  (if bytes_eqb (ai_owner src) system_program_id then mret None
   else '(temp_info, it) ← next_account_info it;
        '(native_info, _) ← next_account_info it;
        mret (Some (temp_info, native_info))) b = inr (wrapped, b0) →
  (match wrapped with
   | Some (temp, native) =>
       deposit_wrapped p n r wz rz pool wd res src ri sys token temp native
   | None => _ ← ensure c e;
       invoke p [src; res; sys] (Sys_Transfer (ai_key src) (ai_key res) n)
   end) b = inr (u, b') →
  (∀ k, k ∈ deposit_temp p pool src → ac_owner (b k) = system_program_id) ∧
  (ai_owner src ≠ system_program_id → ta_mint <$> token_at b (ai_key src) = Some native_mint_id) ∧
  effect (deposit_temp p pool src) (deposit_temp p pool src) (both (at_ (ai_key src) (- n)) (at_ (ai_key res) n))
    (deposit_tokens src n) none b b'.
Proof.
  intros Ht Hnat Hsrc Hw Hr. unfold deposit_temp, deposit_tokens.
  destruct (bytes_eqb (ai_owner src) system_program_id) eqn:Hb.
  - apply bytes_eqb_true in Hb. rewrite !decide_True by done. injection Hw as <- _.
    inv_step Hr. apply transfer_step in Hr as (_ & _ & He). split_and!; [set_solver|done|done].
  - assert (Hn : ai_owner src ≠ system_program_id) by (intros Hx; by rewrite (proj2 (bytes_eqb_true _ _) Hx) in Hb).
    rewrite !decide_False by done. do 2 inv_step Hw. injection Hw as <- _.
    apply deposit_wrapped_step in Hr as (Ho & Hm & He); [|done|done|congruence].
    split_and!; [|done|done]. by intros k ->%list_elem_of_singleton.
Qed.

Lemma deposit_inv p amount accounts b u b' sp pool wd res src dst fee mint rest :
  process_deposit p amount accounts b = inr (u, b') →
  accounts = pool :: wd :: res :: src :: dst :: fee :: mint :: rest →
  pool_at b (ai_key pool) = Some sp → sp_token_program_id sp = spl_token_id →
  native_ok b → coherent b accounts →
  ∃ pool_amount fee_amount,
    deposited p amount pool wd res src dst fee mint sp b b' pool_amount fee_amount.
Proof.
  intros Hr Hacc Hpool Htok Hnat Hco. subst accounts.
  unfold process_deposit in Hr. inv_step Hr. apply negb_true_iff, Z.eqb_neq in E.
  do 8 inv_step Hr. inv_step Hr. apply rent_inr in E0 as [-> _]. do 2 inv_step Hr.
  inv_step Hr.
  assert (b0 = b) as ->.
  { destruct (bytes_eqb (ai_owner src) _); [by injection E0 as _ <-|].
    do 2 inv_step E0. by injection E0 as _ <-. }
  inv_step Hr. apply read_pool_inr in E1 as (-> & Howner & Hsp & _).
  rewrite Hpool in Hsp. injection Hsp as <-.
  inv_step Hr. apply check_withdraw_inr in E1 as [-> Hwd].
  inv_step Hr. apply check_reserve_inr in E1 as [-> Hres].
  inv_step Hr. inv_step Hr. apply bytes_eqb_true in E1, E2.
  inv_step Hr. apply lamports_inr in E3 as [-> ->]. cbv zeta in Hr.
  inv_step Hr. apply Z.leb_le in E3.
  inv_step Hr. inv_step Hr. inv_step Hr.
  assert (Hti : ai_key i1 = spl_token_id) by congruence.
  inv_step Hr. eapply deposit_funding in E7 as (Htemp & Hnative & F1); [|done|done|apply Hco; set_solver|done].
  inv_step Hr. apply mint_to_step in E7 as (F2 & Hd & Hm); [|done].
  inv_step Hr. apply mint_to_step in E7 as (F3 & _ & _); [|done].
  apply pool_at_wf in Hpool as Hwf.
  apply write_pool_step in Hr as (F4 & Hpool' & _);
    [|apply with_totals_wf; [done|apply wadd_u64|apply wadd_u64]].
  unfold checked_sub in E6. destruct (Z.ltb_spec x3 x4) as [|Hle]; [done|]. injection E6 as <-.
  exists x3, x4. split; try done.
  - by rewrite Hres.
  - etransitivity; [apply min_reserve_ge|done].
  - intros Hk. rewrite <- Hm. symmetry. by apply (ef_stays _ _ _ _ _ _ _ F1).
  - intros Hk. rewrite <- Hd. symmetry. by apply (ef_stays _ _ _ _ _ _ _ F1).
  - eapply effect_ext.
    + eapply effect_trans; [exact F1|]. eapply effect_trans; [exact F2|].
      eapply effect_trans; [exact F3|exact F4].
    + set_solver.
    + set_solver.
    + intros k. unfold both, none. lia.
    + intros k _. unfold both, none. lia.
    + intros k _. unfold both, none, at_. destruct (decide _); lia.
Qed.

(** Balances are [u64]s. *)
Definition bank_u64 (b : Bank) : Prop := ∀ k, is_u64 (lam b k).

(** What [calc_lamports_amount] computes when it computes something. *)
Lemma calc_lamports_inv sp n x :
  calc_lamports_amount sp n = Some x →
  sp_pool_total sp ≠ 0 ∧ x = n * sp_stake_total sp / sp_pool_total sp ∧ x < u64_max_plus_1.
Proof.
  unfold calc_lamports_amount, checked_mul_u128, checked_div, u64_try_from.
  destruct (n * _ <? _); [|done]. cbn. destruct (Z.eqb_spec (sp_pool_total sp) 0); [done|]. cbn.
  destruct (Z.ltb_spec (n * sp_stake_total sp / sp_pool_total sp) u64_max_plus_1); [|done].
  by intros [= <-].
Qed.

Lemma calc_deposit_inv sp n x :
  calc_pool_deposit_amount sp n = Some x →
  (sp_stake_total sp = 0 ∧ x = n) ∨
  (sp_stake_total sp ≠ 0 ∧ x = n * sp_pool_total sp / sp_stake_total sp ∧ x < u64_max_plus_1).
Proof.
  unfold calc_pool_deposit_amount, calc_pool_withdraw_amount, checked_mul_u128, checked_div, u64_try_from.
  destruct (Z.eqb_spec (sp_stake_total sp) 0) as [|Hne]; [intros [= <-]; by left|].
  destruct (n * _ <? _); [|done]. cbn. destruct (Z.eqb_spec (sp_stake_total sp) 0); [done|]. cbn.
  destruct (Z.ltb_spec (n * sp_pool_total sp / sp_stake_total sp) u64_max_plus_1); [|done].
  intros [= <-]. by right.
Qed.

Lemma pool_totals_u64 sp : wf_pool sp → is_u64 (sp_stake_total sp) ∧ is_u64 (sp_pool_total sp).
Proof.
  intros [_ _ _ _ Hn]. apply Forall_cons in Hn as [Hs Hn]. by apply Forall_cons in Hn as [Hp _].
Qed.

(** Everything a successful withdrawal did. *)
Record withdrawn (p : buffer) (n : Z) (pool res src mint target : AccountInfo)
    (sp : StakePool) (b b' : Bank) (stake_amount : Z) : Prop := {
  wd_amount : n ≠ 0;
  wd_stake_amount : calc_lamports_amount sp n = Some stake_amount;
  wd_reserve : fst (get_reserve_adderess p (ai_key pool)) = ai_key res;
  wd_left : MIN_RESERVE_BALANCE <= lam b (ai_key res) - stake_amount;
  wd_mint : ta_mint <$> token_at b (ai_key src) = Some (ai_key mint);
  wd_held : n <= tok b (ai_key src);
  wd_supply : n <= sup b (ai_key mint);
  wd_effect :
    effect [] [ai_key pool] (both (at_ (ai_key res) (- stake_amount)) (at_ (ai_key target) stake_amount))
      (at_ (ai_key src) (- n)) (at_ (ai_key mint) (- n)) b b';
  wd_pool : pool_at b' (ai_key pool) =
    Some (with_totals (wsub (sp_stake_total sp) stake_amount) (wsub (sp_pool_total sp) n) sp);
}.

Lemma withdraw_inv p n accounts b u b' sp pool wd res src mint target rest :
  process_withdraw p n accounts b = inr (u, b') →
  accounts = pool :: wd :: res :: src :: mint :: target :: rest →
  pool_at b (ai_key pool) = Some sp → sp_token_program_id sp = spl_token_id →
  bank_u64 b → 0 <= n →
  ∃ stake_amount, withdrawn p n pool res src mint target sp b b' stake_amount.
Proof.
  intros Hr Hacc Hpool Htok Hu64 Hn0. subst accounts.
  unfold process_withdraw in Hr. inv_step Hr. apply negb_true_iff, Z.eqb_neq in E.
  do 7 inv_step Hr. inv_step Hr. apply rent_inr in E0 as [-> _]. do 2 inv_step Hr.
  inv_step Hr. apply read_pool_inr in E0 as (-> & Howner & Hsp & _).
  rewrite Hpool in Hsp. injection Hsp as <-.
  inv_step Hr. apply bytes_eqb_true in E0.
  inv_step Hr. apply check_withdraw_inr in E1 as [-> Hwd].
  inv_step Hr. apply check_reserve_inr in E1 as [-> Hres].
  inv_step Hr. inv_step Hr. apply lamports_inr in E2 as [-> ->].
  inv_step Hr. apply negb_true_iff, orb_false_iff in E2 as [E2 _].
  apply orb_false_iff in E2 as [E2 E3]. apply Z.ltb_ge in E2, E3.
  inv_step Hr. apply burn_step in E4 as (F1 & Hm & Hh & Hs); [|congruence].
  inv_step Hr. apply transfer_step in E4 as (_ & _ & F2).
  apply pool_at_wf in Hpool as Hwf. destruct (pool_totals_u64 sp Hwf) as [Hst Hpt].
  apply write_pool_step in Hr as (F3 & Hpool' & _);
    [|apply with_totals_wf; [done|apply wsub_u64|apply wsub_u64]].
  destruct (calc_lamports_inv _ _ _ E1) as (Hp0 & Hx & _).
  pose proof (Hu64 (ai_key res)) as Hru. unfold is_u64 in *.
  assert (0 <= x2) by (subst x2; apply Z.div_pos; lia).
  rewrite wsub_small in E3 by lia.
  exists x2. split; try done.
  - by rewrite Hres.
  - eapply effect_ext.
    + eapply effect_trans; [exact F1|]. eapply effect_trans; [exact F2|exact F3].
    + set_solver.
    + set_solver.
    + intros k. unfold both, none. lia.
    + intros k _. unfold both, none. lia.
    + intros k _. unfold both, none. lia.
Qed.

(** ** Credits *)

(** [n] tokens went from one account to another, wrapped SOL with its lamports, and
    the credit list is [l']. *)
Record credited (n : Z) (li src dst : AccountInfo) (l' : CreditList) (native : bool) (b b' : Bank)
  : Prop := {
  ce_held : n <= tok b (ai_key src);
  ce_native : ∃ a, token_at b (ai_key src) = Some a ∧ ta_is_native a = native;
  ce_mint : ta_mint <$> token_at b (ai_key src) = ta_mint <$> token_at b (ai_key dst);
  ce_effect : let x := if native then n else 0 in
    effect [] [ai_key li] (both (at_ (ai_key src) (- x)) (at_ (ai_key dst) x))
      (both (at_ (ai_key src) (- n)) (at_ (ai_key dst) n)) none b b';
  ce_list : credits_at b' (ai_key li) = Some l';
}.

Lemma find_credit_lookup k cs i c :
  find_credit k cs = Some (i, c) → cs !! i = Some c ∧ cr_sol_target c = k.
Proof.
  revert i; induction cs as [|d cs IH]; intros i; [done|]. cbn.
  destruct (bytes_eqb _ _) eqn:E; [intros [= <- <-]; by apply bytes_eqb_true in E|].
  destruct (find_credit k cs) as [[j e]|]; [|done]. cbn. intros [= <- <-]. by apply IH.
Qed.

Lemma find_credit_none k cs : find_credit k cs = None → ∀ c, c ∈ cs → cr_sol_target c ≠ k.
Proof.
  induction cs as [|d cs IH]; intros Hf c Hc; [set_solver|]. cbn in Hf.
  destruct (bytes_eqb _ _) eqn:E; [done|].
  destruct (find_credit k cs) eqn:E'; [done|].
  apply elem_of_cons in Hc as [->|Hc]; [|by apply IH].
  intros Hk. by rewrite (proj2 (bytes_eqb_true _ _) Hk) in E.
Qed.

Lemma add_credit_wf k a n cs cs' :
  wf_key k → wf_key a → is_u64 n → Forall wf_credit cs → (length cs ≤ MAX_CREDIT_RECORDS)%nat →
  add_credit k a n cs = inr cs' → Forall wf_credit cs' ∧ (length cs' ≤ MAX_CREDIT_RECORDS)%nat.
Proof.
  intros Hk Ha Hn HF Hl. unfold add_credit. destruct (find_credit k cs) as [[i c]|] eqn:Hf.
  - destruct (bytes_eqb _ _); [|done]. intros [= <-]. rewrite length_insert. split; [|done].
    apply find_credit_lookup in Hf as [Hi _]. apply Forall_insert; [done|].
    eapply Forall_lookup_1 in HF as (? & ? & _); [|done]. split_and!; [done|done|apply wadd_u64].
  - destruct (Nat.leb_spec MAX_CREDIT_RECORDS (length cs)); [done|]. intros [= <-].
    rewrite length_app. split; [|cbn; lia]. apply Forall_app. split; [done|].
    by apply Forall_singleton.
Qed.

Lemma remove_credit_wf k a n cs cs' :
  Forall wf_credit cs → (length cs ≤ MAX_CREDIT_RECORDS)%nat →
  remove_credit k a n cs = inr cs' → Forall wf_credit cs' ∧ (length cs' ≤ MAX_CREDIT_RECORDS)%nat.
Proof.
  intros HF Hl. unfold remove_credit. destruct (find_credit k cs) as [[i c]|] eqn:Hf; [|done].
  destruct (negb _); [done|]. destruct (negb _); [done|]. destruct (_ <? _); [done|].
  destruct (_ =? _).
  - intros [= <-]. split.
    { apply Forall_forall. intros r [_ Hr]%list_elem_of_filter. by eapply Forall_forall in HF. }
   
    pose proof (length_filter (λ r, cr_sol_target r ≠ k) cs). lia.
  - intros [= <-]. rewrite length_insert. split; [|done].
    apply find_credit_lookup in Hf as [Hi _]. apply Forall_insert; [done|].
    eapply Forall_lookup_1 in HF as (? & ? & _); [|done]. split_and!; [done|done|apply wsub_u64].
Qed.

Lemma credited_intro n li src dst l' b b1 b' a :
  token_at b (ai_key src) = Some a → n <= tok b (ai_key src) →
  ta_mint <$> token_at b (ai_key dst) = Some (ta_mint a) →
  (let x := if ta_is_native a then n else 0 in
   effect [] [] (both (at_ (ai_key src) (- x)) (at_ (ai_key dst) x))
     (both (at_ (ai_key src) (- n)) (at_ (ai_key dst) n)) none b b1) →
  effect [] [ai_key li] none none none b1 b' → credits_at b' (ai_key li) = Some l' →
  credited n li src dst l' (ta_is_native a) b b'.
Proof.
  intros Ha Hh Hm F1 F2 Hl. split; try done; [by eauto|by rewrite Ha, Hm|]. cbv zeta in *.
  eapply effect_ext; [eapply effect_trans; [exact F1|exact F2]|set_solver|set_solver|..];
    intros k; unfold both, none; lia.
Qed.

Lemma credit_inv p n accounts b u b' sp pool li ri wd src target cancel rest :
  process_credit p n accounts b = inr (u, b') →
  accounts = pool :: li :: ri :: wd :: src :: target :: cancel :: rest →
  pool_at b (ai_key pool) = Some sp → sp_token_program_id sp = spl_token_id →
  is_u64 n → wf_key (ai_key target) → wf_key (ai_key cancel) →
  ∃ l cs native, n ≠ 0 ∧ ai_key li = sp_credit_list sp ∧ ai_key ri = sp_credit_reserve sp ∧
    credits_at b (ai_key li) = Some l ∧ wf_credits l ∧ ai_owner target = system_program_id ∧
    add_credit (ai_key target) (ai_key cancel) n (cl_credits l) = inr cs ∧
    credited n li src ri (with_credits cs l) native b b'.
Proof.
  intros Hr Hacc Hpool Htok Hn Hkt Hkc. subst accounts.
  unfold process_credit in Hr. inv_step Hr. apply negb_true_iff, Z.eqb_neq in E.
  do 8 inv_step Hr.
  inv_step Hr. apply read_pool_inr in E0 as (-> & Howner & Hsp & _).
  rewrite Hpool in Hsp. injection Hsp as <-.
  inv_step Hr. apply bytes_eqb_true in E0.
  inv_step Hr. apply read_credits_inr in E1 as (-> & Hli & Hri & Hl & Hv & Hlen & HF).
  inv_step Hr. apply bytes_eqb_true in E1. inv_step Hr. rename x into l, x0 into cs.
  inv_step Hr. rewrite <- E0, Htok in E3. apply token_transfer_step in E3 as (a & Ha & Hs & Hh & Hm & F1).
  destruct (add_credit_wf _ _ _ _ _ Hkt Hkc Hn HF Hlen E2) as [HF' Hlen'].
  apply write_credits_step in Hr as (F2 & Hl' & _); [|done].
  exists l, cs, (ta_is_native a). split_and!; try done.
  apply (credited_intro _ _ _ _ _ _ _ _ _ Ha Hh Hm F1 F2 Hl').
Qed.

Lemma uncredit_inv p n accounts b u b' sp pool li ri wd dst target cancel rest :
  process_uncredit p n accounts b = inr (u, b') →
  accounts = pool :: li :: ri :: wd :: dst :: target :: cancel :: rest →
  pool_at b (ai_key pool) = Some sp → sp_token_program_id sp = spl_token_id →
  ∃ l cs native, ai_key li = sp_credit_list sp ∧ ai_key ri = sp_credit_reserve sp ∧
    credits_at b (ai_key li) = Some l ∧ wf_credits l ∧
    remove_credit (ai_key target) cancel n (cl_credits l) = inr cs ∧
    credited n li ri dst (with_credits cs l) native b b'.
Proof.
  intros Hr Hacc Hpool Htok. subst accounts.
  unfold process_uncredit in Hr. do 8 inv_step Hr.
  inv_step Hr. apply read_pool_inr in E as (-> & Howner & Hsp & _).
  rewrite Hpool in Hsp. injection Hsp as <-.
  inv_step Hr. apply bytes_eqb_true in E.
  inv_step Hr. apply read_credits_inr in E0 as (-> & Hli & Hri & Hl & Hv & Hlen & HF).
  inv_step Hr. rename x into l, x0 into cs.
  inv_step Hr. rewrite <- E, Htok in E1. apply token_transfer_step in E1 as (a & Ha & Hs & Hh & Hm & F1).
  destruct (remove_credit_wf _ _ _ _ _ HF Hlen E0) as [HF' Hlen'].
  apply write_credits_step in Hr as (F2 & Hl' & _); [|done].
  exists l, cs, (ta_is_native a). split_and!; try done.
  apply (credited_intro _ _ _ _ _ _ _ _ _ Ha Hh Hm F1 F2 Hl').
Qed.

(** ** Paying creditors *)

Definition paid_tokens (paid : list (buffer * Z * Z)) : Z := sum_list_Z ((λ x, x.1.2) <$> paid).
Definition paid_lamports (paid : list (buffer * Z * Z)) : Z := sum_list_Z ((λ x, x.2) <$> paid).
Definition paid_to (paid : list (buffer * Z * Z)) : buffer → Z :=
  λ k, sum_list_Z ((λ x, if decide (k = x.1.1) then x.2 else 0) <$> paid).

Definition user_view (i : AccountInfo) : buffer * bool :=
  (ai_key i, bytes_eqb (ai_owner i) system_program_id).

(** What the loop did, given that the reserve held at most [cap] lamports: no sum
    overflows below that. *)
Record loop_paid (available : Z) (users : list AccountInfo) (credits invalid left_ : list CreditRecord)
    (res ri mint : buffer) (sp sp' : StakePool) (total total' : Z) (b b' : Bank)
    (paid : list (buffer * Z * Z)) : Prop := {
  lp_plan : pay_credits sp available (user_view <$> users) credits total invalid = inr (paid, left_);
  lp_pool : sp' = with_totals (sp_stake_total sp) (sp_pool_total sp - paid_tokens paid) sp;
  lp_total : total' = total + paid_lamports paid;
  lp_bound : total' <= available;
  lp_tokens : 0 <= paid_tokens paid <= tok b ri;
  lp_supply : paid_tokens paid <= sup b mint;
  lp_lamports : 0 <= paid_lamports paid;
  lp_mint : paid ≠ [] → ta_mint <$> token_at b ri = Some mint;
  lp_effect : effect [] [] (both (at_ res (- paid_lamports paid)) (paid_to paid))
    (at_ ri (- paid_tokens paid)) (at_ mint (- paid_tokens paid)) b b';
}.

Lemma with_totals_id sp : with_totals (sp_stake_total sp) (sp_pool_total sp) sp = sp.
Proof. by destruct sp. Qed.

Lemma effect_none b : effect [] [] none none none b b.
Proof. apply effect_all; [intros k; unfold none; lia|]. intros k. by apply stays_same. Qed.

Lemma loop_paid_nil available users credits invalid left_ res ri mint sp total b :
  pay_credits sp available (user_view <$> users) credits total invalid = inr ([], left_) →
  total <= available →
  loop_paid available users credits invalid left_ res ri mint sp sp total total b b [].
Proof.
  intros Hp Ht. pose proof (tok_range b ri) as [? _]. pose proof (sup_range b mint) as [? _].
  assert (paid_tokens [] = 0) as Hz by done. assert (paid_lamports [] = 0) as Hz' by done.
  split; try done; rewrite ?Hz, ?Hz'; try lia.
  - by rewrite Z.sub_0_r, with_totals_id.
  - eapply effect_ext; [apply effect_none|done|done|..]; intros k; intros;
      unfold both, none, at_, paid_to; cbn; by repeat destruct (decide _).
Qed.

Lemma pay_loop_inv p pool wd res ri mint sys token z available users credits sp total invalid
    b left_ sp' total' b' cap :
  ai_key token = spl_token_id →
  pay_creditors_loop p pool wd res ri mint sys token z available users credits sp total invalid b
    = inr ((left_, sp', total'), b') →
  wf_pool sp → Forall wf_credit credits → sup b (ai_key mint) <= sp_pool_total sp →
  lam b (ai_key res) <= cap → cap < 2 ^ 63 → 0 <= total <= available → available < 2 ^ 63 →
  ∃ paid, loop_paid available users credits invalid left_ (ai_key res) (ai_key ri) (ai_key mint)
            sp sp' total total' b b' paid.
Proof.
  intros Htok. revert credits sp total invalid b.
  induction users as [|user users IH]; intros [|c cs] sp total invalid b Hr Hwf HF Hsup Hcap Hc63 Htot Ha63;
    try by (injection Hr as <- <- <- <-; exists []; apply loop_paid_nil; [done|lia]).
  apply Forall_cons in HF as [(Hwt & Hwa & Hwn) HF].
  cbn [pay_creditors_loop] in Hr. inv_step Hr.
  destruct (bytes_eqb (ai_owner user) system_program_id) eqn:Hsys; cbn [negb] in Hr.
  2: { destruct (IH _ _ _ _ _ Hr Hwf HF Hsup Hcap Hc63 Htot Ha63) as [paid [Hp]]. exists paid.
       split; try done. cbn [fmap list_fmap pay_credits user_view]. by rewrite E, Hsys. }
  inv_step Hr. rename x into s. destruct (calc_lamports_inv _ _ _ E0) as (Hp0 & Hs & _).
  destruct (pool_totals_u64 _ Hwf) as [Hst Hpt]. unfold is_u64 in *.
  assert (0 <= s) by (subst s; apply Z.div_pos; lia).
  destruct (available <? wadd total s) eqn:Hav.
  { injection Hr as <- <- <- <-. exists []. apply loop_paid_nil; [|lia].
    cbn [fmap list_fmap pay_credits user_view]. by rewrite E, Hsys, E0; cbn [negb]; rewrite Hav. }
  inv_step Hr. apply burn_step in E1 as (F1 & Hm & Hh & Hs1); [|done].
  inv_step Hr. apply transfer_step in E1 as (_ & Hls & F2). rename b1 into b2, b0 into b1.
  assert (Hl1 : lam b1 (ai_key res) = lam b (ai_key res)).
  { rewrite (ef_lam _ _ _ _ _ _ _ F1). unfold none. lia. }
  assert (Hw : wadd total s = total + s) by (apply wadd_small; unfold u64_max_plus_1; lia).
  assert (Hws : wsub (sp_pool_total sp) (cr_token_amount c) = sp_pool_total sp - cr_token_amount c)
    by (apply wsub_small; lia).
  apply Z.ltb_ge in Hav as Hav'. rewrite Hw in Hav', Hr. rewrite Hws in Hr.
  pose proof (effect_trans _ _ _ _ _ _ _ _ _ _ _ _ _ F1 F2) as F12.
  assert (Hsup2 : sup b2 (ai_key mint) = sup b (ai_key mint) - cr_token_amount c).
  { rewrite (effect_sup _ _ _ _ _ _ _ _ F12) by set_solver.
    unfold both, at_, none. rewrite decide_True by done. lia. }
  assert (Htok2 : tok b2 (ai_key ri) = tok b (ai_key ri) - cr_token_amount c).
  { rewrite (effect_tok _ _ _ _ _ _ _ _ F12) by set_solver.
    unfold both, at_, none. rewrite decide_True by done. lia. }
  assert (Hlam2 : lam b2 (ai_key res) <= lam b (ai_key res)).
  { rewrite (ef_lam _ _ _ _ _ _ _ F12). unfold both, at_, none. rewrite decide_True by done.
    destruct (decide _); lia. }
  apply (IH _ (with_totals (sp_stake_total sp) (sp_pool_total sp - cr_token_amount c) sp)) in Hr
    as [paid [Hp Hsp' Ht' Hb' Htk Hsu Hla Hmi He]].
  2: { apply with_totals_wf; [done|done|unfold is_u64, u64_max_plus_1 in *; lia]. }
  2: done. 2: cbn; lia. 2: lia. 2: done. 2: lia. 2: done.
  assert (Hpt' : paid_tokens ((ai_key user, cr_token_amount c, s) :: paid) = cr_token_amount c + paid_tokens paid) by done.
  assert (Hpl' : paid_lamports ((ai_key user, cr_token_amount c, s) :: paid) = s + paid_lamports paid) by done.
  exists ((ai_key user, cr_token_amount c, s) :: paid). split; rewrite ?Hpt', ?Hpl'; try lia.
  - cbn [fmap list_fmap pay_credits user_view]. rewrite E, Hsys; cbn [negb]. rewrite E0, Hav, Hw, Hws, Hp. done.
  - rewrite Hsp'. unfold with_totals; cbn. f_equal; lia.
  - intros _. done.
  - apply bytes_eqb_true in E. eapply effect_ext; [eapply effect_trans; [exact F12|exact He]|set_solver|set_solver|..].
    + intros k. unfold both, at_, none, paid_to, sum_list_Z. cbn. rewrite <- E. repeat destruct (decide _); lia.
    + intros k _. unfold both, at_, none. repeat destruct (decide _); lia.
    + intros k _. unfold both, at_, none. repeat destruct (decide _); lia.
Qed.

Definition owed (cs : list CreditRecord) : Z := sum_list_Z (cr_token_amount <$> cs).

Lemma owed_cons c cs : owed (c :: cs) = cr_token_amount c + owed cs.
Proof. done. Qed.

Lemma owed_app cs ds : owed (cs ++ ds) = owed cs + owed ds.
Proof. unfold owed. by rewrite fmap_app, sum_list_Z_app. Qed.

Lemma owed_nonneg cs : Forall wf_credit cs → 0 <= owed cs.
Proof. induction 1 as [|c cs (_ & _ & Hc & _) _ IH]; [done|]. rewrite owed_cons. lia. Qed.

(** What is left was there before, and what is left and what was paid together do not
    exceed what was owed. *)
Lemma pay_credits_left sp available users credits total invalid paid left_ :
  pay_credits sp available users credits total invalid = inr (paid, left_) →
  Forall wf_credit credits → Forall wf_credit invalid →
  Forall wf_credit left_ ∧ (length left_ ≤ length credits + length invalid)%nat ∧
  owed left_ + paid_tokens paid <= owed credits + owed invalid.
Proof.
  assert (Hpc : ∀ x l, paid_tokens (x :: l) = x.1.2 + paid_tokens l) by done.
  assert (Hpn : paid_tokens [] = 0) by done. assert (Hon : owed [] = 0) by done.
  revert sp credits total invalid paid left_.
  induction users as [|[k sys] users IH]; intros sp [|c cs] total invalid paid left_ Hp HF HI.
  - injection Hp as <- <-. cbn [length]. split_and!; (done || lia).
  - injection Hp as <- <-. apply Forall_cons in HF as [(_ & _ & Hc & _) HF].
    rewrite length_app, owed_app, owed_cons. cbn [length]. split_and!; [by apply Forall_app|lia|lia].
  - injection Hp as <- <-. cbn [length]. split_and!; (done || lia).
  - apply Forall_cons in HF as [Hc HF]. cbn [pay_credits] in Hp.
    assert (0 <= cr_token_amount c) by apply Hc. rewrite owed_cons. cbn [length].
    destruct (negb _); [done|]. destruct (negb sys).
    { apply IH in Hp as (H1' & H2' & H3'); [|done|apply Forall_app; split; [done|by apply Forall_singleton]].
      rewrite owed_app, owed_cons in H3'. rewrite length_app in H2'. cbn [length] in H2'.
      split_and!; (done || lia). }
    destruct (calc_lamports_amount _ _) as [s1|]; [|done]. destruct (_ <? _).
    { injection Hp as <- <-. rewrite owed_cons, owed_app. cbn [length]. rewrite length_app.
      split_and!; [|lia|lia]. apply Forall_cons; split; [done|by apply Forall_app]. }
    destruct (pay_credits _ _ users cs _ _) as [|[paid' left']] eqn:Hp'; [done|]. injection Hp as <- <-.
    apply IH in Hp' as (H1' & H2' & H3'); [|done|done]. rewrite Hpc. cbn [fst snd].
    split_and!; (done || lia).
Qed.

(** Everything a successful payment of creditors did. *)
Record paid_creditors (p : buffer) (pool li res ri mint : AccountInfo) (users : list AccountInfo)
    (sp : StakePool) (l : CreditList) (b b' : Bank) (available : Z)
    (paid : list (buffer * Z * Z)) (left_ : list CreditRecord) : Prop := {
  pc_reserve : fst (get_reserve_adderess p (ai_key pool)) = ai_key res;
  pc_list : ai_key li = sp_credit_list sp;
  pc_tokens_of : ai_key ri = sp_credit_reserve sp;
  pc_credits : credits_at b (ai_key li) = Some l;
  pc_wf : wf_credits l;
  pc_plan : pay_credits sp available (user_view <$> users) (cl_credits l) 0 [] = inr (paid, left_);
  pc_available : available <= Z.max 0 (lam b (ai_key res) - MIN_RESERVE_BALANCE);
  pc_bound : 0 <= paid_lamports paid <= available;
  pc_tokens : 0 <= paid_tokens paid <= tok b (ai_key ri);
  pc_supply : paid_tokens paid <= sup b (ai_key mint);
  pc_mint : paid ≠ [] → ta_mint <$> token_at b (ai_key ri) = Some (ai_key mint);
  pc_effect :
    effect [] [ai_key li; ai_key pool] (both (at_ (ai_key res) (- paid_lamports paid)) (paid_to paid))
      (at_ (ai_key ri) (- paid_tokens paid)) (at_ (ai_key mint) (- paid_tokens paid)) b b';
  pc_list' : credits_at b' (ai_key li) = Some (with_credits left_ l);
  pc_pool' : pool_at b' (ai_key pool) =
    Some (with_totals (wsub (sp_stake_total sp) (paid_lamports paid))
                      (sp_pool_total sp - paid_tokens paid) sp);
}.

Lemma pay_inv p accounts b u b' sp pool li wd res ri mint rent clock sys token users :
  process_pay_creditors p accounts b = inr (u, b') →
  accounts = pool :: li :: wd :: res :: ri :: mint :: rent :: clock :: sys :: token :: users →
  pool_at b (ai_key pool) = Some sp → sp_token_program_id sp = spl_token_id →
  sp_credit_list sp ≠ ai_key pool →
  0 <= lam b (fst (get_reserve_adderess p (ai_key pool))) < 2 ^ 63 →
  sup b (ai_key mint) <= sp_pool_total sp →
  ∃ l available paid left_,
    paid_creditors p pool li res ri mint users sp l b b' available paid left_.
Proof.
  intros Hr Hacc Hpool Htok Hlp Hlam Hsup. subst accounts.
  unfold process_pay_creditors in Hr. do 7 inv_step Hr.
  inv_step Hr. apply rent_inr in E as [-> _]. inv_step Hr.
  inv_step Hr. apply clock_inr in E as [-> _]. do 2 inv_step Hr.
  inv_step Hr. apply read_pool_inr in E as (-> & Howner & Hsp & _).
  rewrite Hpool in Hsp. injection Hsp as <-.
  inv_step Hr. apply bytes_eqb_true in E.
  inv_step Hr. apply read_credits_inr in E0 as (-> & Hli & Hri & Hl & Hv & Hlen & HF).
  inv_step Hr. apply check_withdraw_inr in E0 as [-> Hwd].
  inv_step Hr. apply check_reserve_inr in E0 as [-> Hres]. rewrite Hres in Hlam. cbn [fst] in Hlam.
  inv_step Hr. inv_step Hr. apply lamports_inr in E1 as [-> ->]. cbv zeta in Hr.
  inv_step Hr. destruct x4 as [[left_ sp'] total']. rename x1 into l.
  pose proof (min_reserve_ge x) as Hmin. apply pool_at_wf in Hpool as Hwf.
  assert (Hmr : 0 <= MIN_RESERVE_BALANCE) by done.
  apply (pay_loop_inv _ _ _ _ _ _ _ _ _ _ _ _ _ _ _ _ _ _ _ _ (lam b (ai_key res))) in E1
    as [paid [Hp Hsp' Ht Hb Htk Hsu Hla Hmi He]]; [|congruence|done|done|done|lia|lia|lia|lia].
  destruct (pay_credits_left _ _ _ _ _ _ _ _ Hp HF (Forall_nil_2 _)) as (HF' & Hlen' & _).
  inv_step Hr. apply write_credits_step in E1 as (F1 & Hl' & _);
    [|unfold wf_credits; cbn [cl_version cl_credits with_credits length] in *; split_and!; (done || lia)].
  subst sp'. cbn in Hr.
  apply write_pool_step in Hr as (F2 & Hpool' & _ & Hrest).
  2: { destruct (pool_totals_u64 _ Hwf) as [Hst Hpt]. unfold is_u64 in *.
       apply with_totals_wf; [apply with_totals_wf; [done|done|]|apply wsub_u64|]; unfold is_u64; lia. }
  exists l, (Z.max 0 (lam b (ai_key res) - min_reserve_balance x)), paid, left_.
  split; try done.
  - by rewrite Hres.
  - lia.
  - lia.
  - eapply effect_ext; [eapply effect_trans; [exact He|eapply effect_trans; [exact F1|exact F2]]|set_solver|set_solver|..];
      intros k; intros; unfold both, none; lia.
  - rewrite <- Hl'. unfold credits_at. by rewrite Hrest by congruence.
  - rewrite Hpool'. by subst total'.
Qed.

(** ** The pool's balance and its owner *)

Lemma total_of_inv epoch total vs x :
  is_u64 total → total_of epoch total vs = inr x →
  is_u64 x ∧ (∀ v, v ∈ vs → epoch <= vsi_last_update_epoch v) ∧
  x = (total + sum_list_Z (vsi_balance <$> vs)) mod u64_max_plus_1.
Proof.
  revert total; induction vs as [|v vs IH]; intros total Ht Hx.
  - injection Hx as <-. split_and!; [done|set_solver|]. cbn. rewrite Z.add_0_r, Z.mod_small; done.
  - cbn [total_of] in Hx. destruct (Z.ltb_spec (vsi_last_update_epoch v) epoch) as [|Hv]; [done|].
    apply IH in Hx as (H1 & H2 & ->); [|apply wadd_u64]. split_and!; [done|set_solver|].
    unfold wadd, u64_max_plus_1. rewrite Zplus_mod_idemp_l. f_equal. unfold sum_list_Z. cbn. lia.
Qed.

Lemma update_inv p accounts b u b' sp pool vl res clock rest :
  process_update_pool_balance p accounts b = inr (u, b') →
  accounts = pool :: vl :: res :: clock :: rest →
  pool_at b (ai_key pool) = Some sp → bank_u64 b →
  ∃ l epoch total, ai_key vl = sp_validator_stake_list sp ∧
    deserialize_validator_stake_list (ac_data (b (ai_key vl))) = inr l ∧
    fst (get_reserve_adderess p (ai_key pool)) = ai_key res ∧
    Clock_from_account_info clock b = inr epoch ∧
    (∀ v, v ∈ vsl_validators l → epoch <= vsi_last_update_epoch v) ∧
    total = (lam b (ai_key res) + sum_list_Z (vsi_balance <$> vsl_validators l)) mod u64_max_plus_1 ∧
    effect [] [ai_key pool] none none none b b' ∧ (∀ k, k ≠ ai_key pool → b' k = b k) ∧
    pool_at b' (ai_key pool) = Some (with_update total epoch sp).
Proof.
  intros Hr Hacc Hpool Hu. subst accounts. unfold process_update_pool_balance in Hr.
  do 4 inv_step Hr. inv_step Hr. apply clock_inr in E as [-> Hclock].
  inv_step Hr. apply read_pool_inr in E as (-> & _ & Hsp & _). rewrite Hpool in Hsp. injection Hsp as <-.
  inv_step Hr. unfold read_validators in E. inv_step E. inv_step E. injection E1 as <- <-.
  inv_step E. inv_step E. injection E as <- <-. apply bytes_eqb_true in E0.
  inv_step Hr. apply check_reserve_inr in E as [-> Hres].
  inv_step Hr. apply lamports_inr in E as [-> ->]. inv_step Hr.
  apply total_of_inv in E as (Ht & Hep & Htot); [|apply Hu].
  apply pool_at_wf in Hpool as [Hv Hd Hw Hk Hn].
  apply write_pool_step in Hr as (F & Hpool' & _ & Hrest).
  2: { split; try done. repeat (apply Forall_cons in Hn as [? Hn]).
       do 5 (apply Forall_cons; split; [first [done|by eapply clock_u64]|]). constructor. }
  eexists _, _, _. split_and!; try done. by rewrite Hres.
Qed.

Lemma set_owner_inv p accounts b u b' sp pool oi ni fi rest :
  process_set_owner p accounts b = inr (u, b') →
  accounts = pool :: oi :: ni :: fi :: rest →
  pool_at b (ai_key pool) = Some sp → wf_key (ai_key ni) → wf_key (ai_key fi) →
  ai_key oi = sp_owner sp ∧ ai_is_signer oi = true ∧
  (∃ a, unpack_account (ac_data (b (ai_key fi))) = Some a ∧ ta_mint a = sp_pool_mint sp) ∧
  effect [] [ai_key pool] none none none b b' ∧ (∀ k, k ≠ ai_key pool → b' k = b k) ∧
  pool_at b' (ai_key pool) = Some (with_owner (ai_key ni) (ai_key fi) sp).
Proof.
  intros Hr Hacc Hpool Hni Hfi. subst accounts. unfold process_set_owner in Hr.
  do 4 inv_step Hr. inv_step Hr. apply read_pool_inr in E as (-> & _ & Hsp & _).
  rewrite Hpool in Hsp. injection Hsp as <-.
  inv_step Hr. unfold check_owner in E. inv_step E. apply ensure_inr in E as [Hsig [= _ ->]].
  apply bytes_eqb_true in E0. inv_step Hr. injection E as <- <-. inv_step Hr. inv_step Hr.
  apply bytes_eqb_true in E1. apply pool_at_wf in Hpool as [Hv Hd Hw Hk Hn].
  apply write_pool_step in Hr as (F & Hpool' & _ & Hrest).
  2: { split; try done. repeat (apply Forall_cons in Hk as [? Hk]).
       do 7 (apply Forall_cons; split; [done|]). constructor. }
  split_and!; try done. by eauto.
Qed.

End Effects.
