(* ===== verification/SampleChain.v ===== *)
(** * A concrete runtime

    An instance of the interface of Chain.v in which every law holds: balances and
    tokens are kept in the bank, token accounts and mints have the layout of
    spl_token.  It shows that the laws are satisfiable together, and the theorems
    about the processor are applied to runs of it. *)

From Stdlib Require Import ZArith Lia.
From stdpp Require Import base list strings sets.
From coqutil Require Import Byte Word.LittleEndianList.
From S2P Require Import Prelude Buffers Program Chain.

Open Scope Z_scope.

(** ** Token accounts and mints in bytes *)

Definition flag (c : bool) : Z := if c then 1 else 0.

Definition pack_option (o : option buffer) : buffer :=
  match o with None => le_split 4 0 ++ alloc 32 | Some k => le_split 4 1 ++ k end.

Definition get_option (d : buffer) (off : nat) : option buffer :=
  if u_at 4 d off =? 0 then None else Some (slice d (off + 4) (off + 36)).

Definition state_number (s : AccountState) : Z :=
  match s with Uninitialized => 0 | Initialized => 1 | Frozen => 2 end.

Definition get_state (z : Z) : AccountState :=
  match z with 0 => Uninitialized | 1 => Initialized | _ => Frozen end.

Definition pack_account (a : TokenAccount) : buffer :=
  ta_mint a ++ ta_owner a ++ le_split 8 (ta_amount a) ++ pack_option (ta_delegate a)
  ++ le_split 1 (state_number (ta_state a)) ++ le_split 4 (flag (ta_is_native a)) ++ alloc 8
  ++ le_split 8 (ta_delegated_amount a) ++ pack_option (ta_close_authority a).

Definition sample_unpack_account (d : buffer) : option TokenAccount :=
  if decide (length d = 165%nat) then
    Some {| ta_mint := slice d 0 32; ta_owner := slice d 32 64; ta_amount := u_at 8 d 64;
            ta_delegate := get_option d 72; ta_state := get_state (u_at 1 d 108);
            ta_is_native := negb (u_at 4 d 109 =? 0); ta_delegated_amount := u_at 8 d 121;
            ta_close_authority := get_option d 129 |}
  else None.

Definition pack_mint (m : Mint) : buffer :=
  pack_option (mi_authority m) ++ le_split 8 (mi_supply m) ++ alloc 38.

Definition sample_unpack_mint (d : buffer) : option Mint :=
  if decide (length d = 82%nat) then
    Some {| mi_authority := get_option d 0; mi_supply := u_at 8 d 36 |}
  else None.

Definition ok_key (k : buffer) : Prop := length k = 32%nat.
Definition ok_key_option (o : option buffer) : Prop := match o with Some k => ok_key k | None => True end.

Definition ok_account (a : TokenAccount) : Prop :=
  ok_key (ta_mint a) ∧ ok_key (ta_owner a) ∧ is_u64 (ta_amount a) ∧
  ok_key_option (ta_delegate a) ∧ is_u64 (ta_delegated_amount a) ∧ ok_key_option (ta_close_authority a).

Lemma length_pack_option o : ok_key_option o → length (pack_option o) = 36%nat.
Proof. destruct o as [k|]; cbn; rewrite !length_app, length_le_split; [by intros ->|done]. Qed.

Lemma slice_length d i j : (j <= length d)%nat → length (slice d i j) = (j - i)%nat.
Proof. intros Hj. unfold slice. rewrite length_take, length_drop. lia. Qed.

Lemma get_option_ok d off : (off + 36 <= length d)%nat → ok_key_option (get_option d off).
Proof.
  intros Hl. unfold get_option. destruct (_ =? 0); [done|]. cbn. unfold ok_key.
  rewrite slice_length by lia. lia.
Qed.

Lemma unpack_account_ok d a : sample_unpack_account d = Some a → ok_account a.
Proof.
  unfold sample_unpack_account. destruct (decide _) as [Hl|]; [|done]. intros Hs.
  apply (inj Some) in Hs as <-. unfold ok_account, ok_key; cbn -[slice u_at get_option].
  rewrite !slice_length by lia.
  split_and!; try done; try apply (u_at_range 8); apply get_option_ok; lia.
Qed.

Lemma get_pack_option o r :
  ok_key_option o → get_option (pack_option o ++ r) 0 = o.
Proof.
  intros Ho. unfold get_option. destruct o as [k|]; cbn [pack_option]; rewrite <- !app_assoc.
  - rewrite u_at_here by done. cbn [Z.eqb]. f_equal.
    rewrite (slice_skip (le_split 4 1) _ _ _ 4) by (apply length_le_split || lia).
    by apply slice_here.
  - by rewrite u_at_here.
Qed.

Lemma get_option_skip a r off k :
  length a = k → (k <= off)%nat → get_option (a ++ r) off = get_option r (off - k).
Proof.
  intros Ha Ho. unfold get_option. rewrite (u_at_skip 4 a r off k) by done.
  rewrite (slice_skip a r _ _ k) by lia.
  by replace (off + 4 - k)%nat with (off - k + 4)%nat by lia; replace (off + 36 - k)%nat with (off - k + 36)%nat by lia.
Qed.

Lemma get_state_number s : get_state (state_number s) = s.
Proof. by destruct s. Qed.

Ltac chunk :=
  repeat match goal with
  | |- context [get_option (?a ++ ?r) (S ?p)] =>
      let k := field_length a in
      rewrite (get_option_skip a r (S p) k) by first [apply length_le_split | assumption | lia];
      cbn [Nat.sub]
  | |- context [slice (?a ++ ?r) (S ?p) ?q] =>
      let k := field_length a in
      rewrite (slice_skip a r (S p) q k) by first [apply length_le_split | assumption | lia];
      cbn [Nat.sub]
  | |- context [u_at ?n (?a ++ ?r) (S ?p)] =>
      let k := field_length a in
      rewrite (u_at_skip n a r (S p) k) by first [apply length_le_split | assumption | lia];
      cbn [Nat.sub]
  end.

Lemma unpack_pack_account a : ok_account a → sample_unpack_account (pack_account a) = Some a.
Proof.
  intros (Hm & Ho & Hn & Hd & Hda & Hc). destruct a as [m o n d s i da c].
  cbn [ta_mint ta_owner ta_amount ta_delegate ta_delegated_amount ta_close_authority] in *.
  unfold ok_key, is_u64, u64_max_plus_1 in *.
  pose proof (length_pack_option d Hd) as Hld. pose proof (length_pack_option c Hc) as Hlc.
  pose proof (length_alloc 8) as Ha8.
  assert (Hs : 0 <= state_number s < 2 ^ (Z.of_nat 1 * 8)) by (destruct s; done).
  assert (Hi : 0 <= flag i < 2 ^ (Z.of_nat 4 * 8)) by (destruct i; done).
  unfold sample_unpack_account, pack_account.
  cbn [ta_mint ta_owner ta_amount ta_delegate ta_state ta_is_native ta_delegated_amount ta_close_authority].
  rewrite decide_True by (rewrite !length_app, !length_le_split, Hm, Ho, Hld, Hlc, Ha8; done).
  rewrite <- (app_nil_r (pack_option c)). f_equal. f_equal.
  - by apply slice_here.
  - chunk. by apply slice_here.
  - chunk. by apply u_at_here.
  - chunk. by apply get_pack_option.
  - chunk. rewrite u_at_here by done. apply get_state_number.
  - chunk. rewrite u_at_here by done. by destruct i.
  - chunk. by apply u_at_here.
  - chunk. by apply get_pack_option.
Qed.

Definition ok_mint (m : Mint) : Prop := ok_key_option (mi_authority m) ∧ is_u64 (mi_supply m).

Lemma unpack_mint_ok d m : sample_unpack_mint d = Some m → ok_mint m.
Proof.
  unfold sample_unpack_mint. destruct (decide _) as [Hl|]; [|done]. intros Hs.
  apply (inj Some) in Hs as <-. split; [apply get_option_ok; lia|apply (u_at_range 8)].
Qed.

Lemma unpack_pack_mint m : ok_mint m → sample_unpack_mint (pack_mint m) = Some m.
Proof.
  intros (Ha & Hs). destruct m as [a s]. cbn [mi_authority mi_supply] in *.
  unfold is_u64, u64_max_plus_1 in *. pose proof (length_pack_option a Ha) as Hla.
  unfold sample_unpack_mint, pack_mint. cbn [mi_authority mi_supply].
  rewrite decide_True by (rewrite !length_app, length_le_split, Hla; done).
  f_equal. f_equal; [by apply get_pack_option|]. chunk. by apply u_at_here.
Qed.

(** ** The instructions *)

(** Key number [z]: 32 bytes. *)
Definition ckey (z : Z) : buffer := le_split 32 z.

Definition SYSTEM : buffer := ckey 0.
Definition TOKEN : buffer := ckey 1.
Definition NATIVE : buffer := ckey 2.

(** Any function of the seeds and the program: a polynomial hash, away from the keys of
    the other accounts. *)
Definition sample_create (seeds : list buffer) (p : buffer) : option buffer :=
  Some (ckey (1000000 + foldl (λ h b, (h * 31 + byte.unsigned b) mod 65521) 7 (concat seeds ++ p))).

Definition sample_find (seeds : list buffer) (p : buffer) : buffer * Z :=
  (default SYSTEM (sample_create (seeds ++ [[byte.of_Z 255]]) p), 255).

Definition sample_signs (p : buffer) (infos : list AccountInfo) (seeds : list (list buffer))
    (k : buffer) : bool :=
  existsb (λ i, bytes_eqb (ai_key i) k && ai_is_signer i) infos
  || existsb (λ s, bool_decide (sample_create s p = Some k)) seeds.

Definition set_data (k : buffer) (d : buffer) (b : Bank) : Bank :=
  put k {| ac_lamports := ac_lamports (b k); ac_data := d; ac_owner := ac_owner (b k) |} b.

Definition move_lamports (from to : buffer) (n : Z) (b : Bank) : Bank :=
  λ k, {| ac_lamports := ac_lamports (b k) - (if decide (k = from) then n else 0)
                         + (if decide (k = to) then n else 0);
          ac_data := ac_data (b k); ac_owner := ac_owner (b k) |}.

Definition can_move (from to : buffer) (n : Z) (b : Bank) : bool :=
  (0 <=? n) && (n <=? ac_lamports (b from)) && (ac_lamports (b to) + n <? u64_max_plus_1).

Definition sample_token_at (b : Bank) (k : buffer) : option TokenAccount :=
  if decide (ac_owner (b k) = TOKEN) then sample_unpack_account (ac_data (b k)) else None.

Definition sample_mint_at (b : Bank) (k : buffer) : option Mint :=
  if decide (ac_owner (b k) = TOKEN) then sample_unpack_mint (ac_data (b k)) else None.

Definition can_spend (authority : buffer) (n : Z) (a : TokenAccount) : bool :=
  bool_decide (ta_state a = Initialized) && (0 <=? n) && (n <=? ta_amount a) &&
  (if decide (ta_delegate a = Some authority) then n <=? ta_delegated_amount a
   else bytes_eqb (ta_owner a) authority).

(** [n] tokens less, the delegate's allowance included. *)
Definition spent (authority : buffer) (n : Z) (a : TokenAccount) : TokenAccount :=
  {| ta_mint := ta_mint a; ta_owner := ta_owner a; ta_amount := ta_amount a - n;
     ta_delegate := ta_delegate a; ta_state := ta_state a; ta_is_native := ta_is_native a;
     ta_delegated_amount := if decide (ta_delegate a = Some authority)
                            then ta_delegated_amount a - n else ta_delegated_amount a;
     ta_close_authority := ta_close_authority a |}.

Definition received (n : Z) (a : TokenAccount) : TokenAccount :=
  {| ta_mint := ta_mint a; ta_owner := ta_owner a; ta_amount := ta_amount a + n;
     ta_delegate := ta_delegate a; ta_state := ta_state a; ta_is_native := ta_is_native a;
     ta_delegated_amount := ta_delegated_amount a; ta_close_authority := ta_close_authority a |}.

Definition Rejected_ : ProgramError := Foreign 0.

Definition accept (c : bool) (b : Bank) : program_result Bank := if c then inr b else inl Rejected_.

Definition sample_token (signs : buffer → bool) (i : TokenInstruction) (b : Bank)
  : program_result Bank :=
  match i with
  | Tk_InitializeAccount k mint o =>
      accept (bytes_eqb (ac_owner (b k)) TOKEN && bool_decide (length mint = 32%nat)
              && bool_decide (length o = 32%nat))
        (set_data k (pack_account
           {| ta_mint := mint; ta_owner := o; ta_amount := 0; ta_delegate := None;
              ta_state := Initialized; ta_is_native := bytes_eqb mint NATIVE;
              ta_delegated_amount := 0; ta_close_authority := None |}) b)
  | Tk_Transfer src dst authority n =>
      match sample_token_at b src, sample_token_at b dst with
      | Some a, Some d =>
          let x := if ta_is_native a then n else 0 in
          if signs authority && bytes_eqb (ta_mint a) (ta_mint d) && can_spend authority n a
             && (bytes_eqb src dst || (ta_amount d + n <? u64_max_plus_1))
             && bool_decide (ta_state d = Initialized)
             && (negb (ta_is_native a) || can_move src dst n b)
          then inr (move_lamports src dst x
                 (if decide (src = dst) then b
                  else set_data src (pack_account (spent authority n a))
                         (set_data dst (pack_account (received n d)) b)))
          else inl Rejected_
      | _, _ => inl Rejected_
      end
  | Tk_MintTo mint k authority n =>
      match sample_mint_at b mint, sample_token_at b k with
      | Some m, Some a =>
          accept (signs authority && bytes_eqb (ta_mint a) mint
                  && bool_decide (mi_authority m = Some authority) && (0 <=? n)
                  && (mi_supply m + n <? u64_max_plus_1) && (ta_amount a + n <? u64_max_plus_1))
            (set_data mint (pack_mint (with_supply (mi_supply m + n) m))
               (set_data k (pack_account (received n a)) b))
      | _, _ => inl Rejected_
      end
  | Tk_Burn k mint authority n =>
      match sample_mint_at b mint, sample_token_at b k with
      | Some m, Some a =>
          accept (signs authority && bytes_eqb (ta_mint a) mint && negb (ta_is_native a)
                  && can_spend authority n a && (n <=? mi_supply m))
            (set_data mint (pack_mint (with_supply (mi_supply m - n) m))
               (set_data k (pack_account (spent authority n a)) b))
      | _, _ => inl Rejected_
      end
  | Tk_CloseAccount k dst o =>
      match sample_token_at b k with
      | Some a =>
          accept (signs o && bytes_eqb (ta_owner a) o && can_move k dst (ac_lamports (b k)) b)
            (move_lamports k dst (ac_lamports (b k)) (set_data k [] b))
      | None => inl Rejected_
      end
  | Tk_SetOwner k new_owner o =>
      match sample_token_at b k with
      | Some a =>
          accept (signs o && bytes_eqb (ta_owner a) o && bool_decide (length new_owner = 32%nat))
            (set_data k (pack_account
               {| ta_mint := ta_mint a; ta_owner := new_owner; ta_amount := ta_amount a;
                  ta_delegate := None; ta_state := ta_state a; ta_is_native := ta_is_native a;
                  ta_delegated_amount := 0; ta_close_authority := ta_close_authority a |}) b)
      | None => inl Rejected_
      end
  end.

Definition sample_invoke (p : buffer) (infos : list AccountInfo) (seeds : list (list buffer))
    (ix : Cpi) (b : Bank) : program_result Bank :=
  let signs := sample_signs p infos seeds in
  match ix with
  | Sys_Transfer from to n =>
      accept (signs from && bytes_eqb (ac_owner (b from)) SYSTEM
              && bytes_eqb (ac_data (b from)) [] && can_move from to n b)
        (move_lamports from to n b)
  | Sys_CreateAccount from to n space o =>
      accept (signs from && signs to && (ac_lamports (b to) =? 0)
              && bytes_eqb (ac_owner (b to)) SYSTEM && can_move from to n b)
        (move_lamports from to n
           (put to {| ac_lamports := ac_lamports (b to); ac_data := alloc (Z.to_nat space);
                      ac_owner := o |} b))
  | Token program i =>
      if decide (program = TOKEN) then sample_token signs i b else inl Rejected_
  end.

#[global] Instance SampleRuntime : Runtime := {|
  system_program_id := SYSTEM;
  spl_token_id := TOKEN;
  native_mint_id := NATIVE;
  create_program_address := sample_create;
  find_program_address := sample_find;
  Rent := unit;
  Rent_from_account_info := λ _ _, inr tt;
  minimum_balance := λ _ n, Z.max 0 ((n + 128) * 6960);
  is_exempt := λ _ l n, Z.max 0 ((n + 128) * 6960) <=? l;
  Clock_from_account_info := λ i b, inr (u_at 8 (ac_data (b (ai_key i))) 0);
  unpack_account := sample_unpack_account;
  unpack_mint := sample_unpack_mint;
  invoke_signed_by := sample_invoke;
  padding_bytes := alloc;
|}.

(** ** The laws *)

Lemma sample_signs_true p infos seeds k : sample_signs p infos seeds k = true ↔ signs p infos seeds k.
Proof.
  unfold sample_signs, signs. rewrite orb_true_iff, !existsb_exists. split.
  - intros [(i & Hi & Hk)|(s & Hs & Hk)]; [left|right].
    + apply andb_true_iff in Hk as [Hk%bytes_eqb_true Hb]. exists i. by rewrite list_elem_of_In.
    + apply bool_decide_eq_true in Hk. exists s. by rewrite list_elem_of_In.
  - intros [(i & Hi & Hk & Hb)|(s & Hs & Hk)]; [left|right].
    + exists i. rewrite <- list_elem_of_In. split; [done|].
      apply andb_true_iff. split; [by apply bytes_eqb_true|done].
    + exists s. rewrite <- list_elem_of_In. split; [done|by apply bool_decide_eq_true].
Qed.

Lemma accept_inr c b b' : accept c b = inr b' ↔ c = true ∧ b' = b.
Proof. destruct c; cbn; split; [by intros [= <-]|by intros [_ ->]|done|by intros [??]]. Qed.

Lemma can_move_true f t n b :
  can_move f t n b = true ↔ 0 <= n <= ac_lamports (b f) ∧ ac_lamports (b t) + n < u64_max_plus_1.
Proof. unfold can_move. rewrite !andb_true_iff, !Z.leb_le, Z.ltb_lt. tauto. Qed.

Lemma can_spend_true o n a : can_spend o n a = true ↔ may_spend o n a ∧ 0 <= n.
Proof.
  unfold can_spend, may_spend. rewrite !andb_true_iff, bool_decide_eq_true, !Z.leb_le.
  destruct (decide _); rewrite ?Z.leb_le, ?bytes_eqb_true; tauto.
Qed.

Lemma set_data_eq k d b : ac_data (set_data k d b k) = d.
Proof. unfold set_data. by rewrite put_eq. Qed.

Lemma set_data_ne k d b k' : k' ≠ k → set_data k d b k' = b k'.
Proof. apply put_ne. Qed.

Lemma set_data_owner k d b k' : ac_owner (set_data k d b k') = ac_owner (b k').
Proof. unfold set_data, put. by destruct (decide _) as [->|]. Qed.

Lemma set_data_lamports k d b k' : ac_lamports (set_data k d b k') = ac_lamports (b k').
Proof. unfold set_data, put. by destruct (decide _) as [->|]. Qed.

Lemma token_at_some b k a :
  token_at b k = Some a → ac_owner (b k) = TOKEN ∧ ok_account a.
Proof.
  unfold token_at. destruct (decide _) as [Ho|]; [|done]. intros Ha. split; [done|].
  by eapply unpack_account_ok.
Qed.

Lemma mint_at_some b k m : mint_at b k = Some m → ac_owner (b k) = TOKEN ∧ ok_mint m.
Proof.
  unfold mint_at. destruct (decide _) as [Ho|]; [|done]. intros Ha. split; [done|].
  by eapply unpack_mint_ok.
Qed.

Lemma token_at_set b k a : ac_owner (b k) = TOKEN → ac_data (b k) = pack_account a → ok_account a →
  token_at b k = Some a.
Proof. intros Ho Hd Ha. unfold token_at. rewrite decide_True, Hd by done. by apply unpack_pack_account. Qed.

Lemma mint_at_set b k m : ac_owner (b k) = TOKEN → ac_data (b k) = pack_mint m → ok_mint m →
  mint_at b k = Some m.
Proof. intros Ho Hd Ha. unfold mint_at. rewrite decide_True, Hd by done. by apply unpack_pack_mint. Qed.

Lemma sample_not_both d a m : sample_unpack_account d = Some a → sample_unpack_mint d = Some m → False.
Proof.
  unfold sample_unpack_account, sample_unpack_mint.
  destruct (decide (length d = 165%nat)) as [Hl|]; [|done]. by rewrite decide_False by lia.
Qed.

Lemma ok_spent o n a : ok_account a → may_spend o n a → 0 <= n → ok_account (spent o n a).
Proof.
  intros (Hm & Ho & Hn & Hd & Hda & Hc) (_ & Hle & Hsp) H0.
  unfold ok_account, spent, is_u64 in *; cbn. split_and!; try done; try lia; destruct (decide _); lia.
Qed.

Lemma ok_received n a : ok_account a → 0 <= n → ta_amount a + n < u64_max_plus_1 → ok_account (received n a).
Proof.
  intros (Hm & Ho & Hn & Hd & Hda & Hc) H0 Hle. unfold ok_account, received, is_u64 in *; cbn.
  split_and!; (done || lia).
Qed.

Lemma move_moved f t n b : moved f t n b (move_lamports f t n b).
Proof. by intros k. Qed.

Lemma set_data_moved k0 k d b : moved k0 k0 0 b (set_data k d b).
Proof. intros k'. rewrite set_data_lamports. destruct (decide _); lia. Qed.

(** Splits the conditions of an accepted instruction. *)
Ltac conditions :=
  repeat match goal with
  | H : _ && _ = true |- _ => apply andb_true_iff in H as [? H]
  | H : sample_signs _ _ _ _ = true |- _ => apply sample_signs_true in H
  | H : bytes_eqb _ _ = true |- _ => apply bytes_eqb_true in H
  | H : bool_decide _ = true |- _ => apply bool_decide_eq_true in H
  | H : can_move _ _ _ _ = true |- _ => apply can_move_true in H as [? ?]
  | H : can_spend _ _ _ = true |- _ => apply can_spend_true in H as [? ?]
  | H : (_ <=? _) = true |- _ => apply Z.leb_le in H
  | H : (_ <? _) = true |- _ => apply Z.ltb_lt in H
  | H : (_ =? _) = true |- _ => apply Z.eqb_eq in H
  end.

Lemma u64_moved f t n b :
  0 <= n <= ac_lamports (b f) → ac_lamports (b t) + n < u64_max_plus_1 →
  (∀ k, is_u64 (ac_lamports (b k))) → ∀ k, is_u64 (ac_lamports (move_lamports f t n b k)).
Proof.
  intros Hn Ht Hu k. specialize (Hu k) as Hk. unfold is_u64, move_lamports in *. cbn.
  destruct (decide (k = f)), (decide (k = t)); subst; lia.
Qed.

Lemma sample_token_of b k : sample_token_at b k = token_at b k.
Proof. done. Qed.

Lemma sample_mint_of b k : sample_mint_at b k = mint_at b k.
Proof. done. Qed.

(** Changing a mint and a token account. *)
Lemma sample_supply mint k m a m' a' b :
  mint_at b mint = Some m → token_at b k = Some a → ok_mint m' → ok_account a' →
  let b' := set_data mint (pack_mint m') (set_data k (pack_account a') b) in
  same_owners b b' ∧ frame [mint; k] b b' ∧ moved k k 0 b b' ∧
  mint_at b' mint = Some m' ∧ token_at b' k = Some a'.
Proof.
  intros Hm Ha Hm' Ha' b'. subst b'.
  apply mint_at_some in Hm as Hmo. apply token_at_some in Ha as Hao.
  assert (Hne : mint ≠ k).
  { intros ->. unfold mint_at in Hm. unfold token_at in Ha. destruct (decide _); [|done].
    by eapply sample_not_both. }
  split_and!.
  - intros x. by rewrite !set_data_owner.
  - intros x Hx. rewrite !set_data_ne by set_solver. done.
  - intros x. rewrite !set_data_lamports. destruct (decide _); lia.
  - apply mint_at_set; [rewrite !set_data_owner; by apply Hmo|by rewrite set_data_eq|done].
  - apply token_at_set; [rewrite !set_data_owner; by apply Hao| |done].
    rewrite set_data_ne by done. by rewrite set_data_eq.
Qed.

Lemma sample_mint_to p infos seeds mint k o n b b' :
  sample_invoke p infos seeds (Token TOKEN (Tk_MintTo mint k o n)) b = inr b' →
  signs p infos seeds o ∧ same_owners b b' ∧ frame [mint; k] b b' ∧ moved k k 0 b b' ∧
  ∃ m a a', mint_at b mint = Some m ∧ token_at b k = Some a ∧ ta_mint a = mint ∧
    mi_authority m = Some o ∧ mi_supply m + n < u64_max_plus_1 ∧
    mint_at b' mint = Some (with_supply (mi_supply m + n) m) ∧
    token_at b' k = Some a' ∧ with_amount (ta_amount a + n) a a'.
Proof.
  unfold sample_invoke. rewrite decide_True by done. cbn [sample_token].
  rewrite sample_token_of, sample_mint_of.
  destruct (mint_at b mint) as [m|] eqn:Hm; [|done]. destruct (token_at b k) as [a|] eqn:Ha; [|done].
  intros [Hc ->]%accept_inr. conditions.
  destruct (mint_at_some _ _ _ Hm) as [_ [? Hs]]. destruct (token_at_some _ _ _ Ha) as [_ Hok].
  destruct (sample_supply mint k m a (with_supply (mi_supply m + n) m) (received n a) b Hm Ha)
    as (? & ? & ? & ? & ?).
  { split; [done|]. unfold is_u64 in *. cbn. lia. }
  { by apply ok_received. }
  split_and!; try done. exists m, a, (received n a). by split_and!.
Qed.

Lemma sample_burn p infos seeds k mint o n b b' :
  sample_invoke p infos seeds (Token TOKEN (Tk_Burn k mint o n)) b = inr b' →
  signs p infos seeds o ∧ same_owners b b' ∧ frame [mint; k] b b' ∧ moved k k 0 b b' ∧
  ∃ m a a', mint_at b mint = Some m ∧ token_at b k = Some a ∧ ta_mint a = mint ∧
    may_spend o n a ∧ n <= mi_supply m ∧
    mint_at b' mint = Some (with_supply (mi_supply m - n) m) ∧
    token_at b' k = Some a' ∧ with_amount (ta_amount a - n) a a'.
Proof.
  unfold sample_invoke. rewrite decide_True by done. cbn [sample_token].
  rewrite sample_token_of, sample_mint_of.
  destruct (mint_at b mint) as [m|] eqn:Hm; [|done]. destruct (token_at b k) as [a|] eqn:Ha; [|done].
  intros [Hc ->]%accept_inr. conditions.
  destruct (mint_at_some _ _ _ Hm) as [_ [? Hs]]. destruct (token_at_some _ _ _ Ha) as [_ Hok].
  destruct (sample_supply mint k m a (with_supply (mi_supply m - n) m) (spent o n a) b Hm Ha)
    as (? & ? & ? & ? & ?).
  { split; [done|]. unfold is_u64 in *. cbn. lia. }
  { by apply ok_spent. }
  split_and!; try done. exists m, a, (spent o n a). by split_and!.
Qed.

Lemma sample_token_transfer p infos seeds src dst o n b b' :
  sample_invoke p infos seeds (Token TOKEN (Tk_Transfer src dst o n)) b = inr b' →
  signs p infos seeds o ∧ same_owners b b' ∧ frame [src; dst] b b' ∧
  ∃ a d, token_at b src = Some a ∧ token_at b dst = Some d ∧ ta_mint a = ta_mint d ∧
    may_spend o n a ∧ moved src dst (if ta_is_native a then n else 0) b b' ∧
    (if decide (src = dst) then token_at b' src = Some a
     else ∃ a' d', token_at b' src = Some a' ∧ token_at b' dst = Some d' ∧
            with_amount (ta_amount a - n) a a' ∧ with_amount (ta_amount d + n) d d').
Proof.
  unfold sample_invoke. rewrite decide_True by done. cbn [sample_token].
  rewrite (sample_token_of b src).
  destruct (token_at b src) as [a|] eqn:Ha; [|done]. rewrite (sample_token_of b dst). destruct (token_at b dst) as [d|] eqn:Hd; [|done].
  destruct (_ && _) eqn:Hc; [|done]. intros Hb. apply (inj inr) in Hb as <-.
  conditions. clear Hc.
  destruct (token_at_some _ _ _ Ha) as [Hao Hok]. destruct (token_at_some _ _ _ Hd) as [Hdo Hokd].
  destruct (decide (src = dst)) as [->|Hne].
  - split_and!; [done|by intros x|by intros x|].
    exists a, d. split_and!; try done; try congruence.
  - assert (Hsum : ta_amount d + n < u64_max_plus_1).
    { match goal with Ho : bytes_eqb src dst || _ = true |- _ => apply orb_true_iff in Ho as [Ho|Ho] end;
        conditions; done. }
    split_and!; [done| | |].
    + intros x. cbn. by rewrite !set_data_owner.
    + intros x Hx. cbn. rewrite !set_data_ne by set_solver. done.
    + exists a, d. split_and!; try done.
      * intros x. cbn. by rewrite !set_data_lamports.
      * exists (spent o n a), (received n d). split_and!; try done.
        -- apply token_at_set; cbn; [by rewrite !set_data_owner|by rewrite set_data_eq|by apply ok_spent].
        -- apply token_at_set; cbn; [by rewrite !set_data_owner| |by apply ok_received].
           rewrite set_data_ne by done. by rewrite set_data_eq.
Qed.

Lemma sample_keeps_u64 p infos seeds ix b b' :
  sample_invoke p infos seeds ix b = inr b' →
  (∀ k, is_u64 (ac_lamports (b k))) → ∀ k, is_u64 (ac_lamports (b' k)).
Proof.
  intros Hi Hu k. destruct ix as [f t n|f t n sp o|pr i]; cbn [sample_invoke] in Hi.
  - apply accept_inr in Hi as [Hc ->]. conditions. by apply u64_moved.
  - apply accept_inr in Hi as [Hc ->]. conditions.
    assert (Hl : ∀ x, ac_lamports (put t {| ac_lamports := ac_lamports (b t);
      ac_data := alloc (Z.to_nat sp); ac_owner := o |} b x) = ac_lamports (b x)).
    { intros x. unfold put. by destruct (decide _) as [->|]. }
    apply u64_moved; intros; by rewrite ?Hl.
  - destruct (decide _); [|done]. destruct i; cbn [sample_token] in Hi.
    + apply accept_inr in Hi as [_ ->]. by rewrite set_data_lamports.
    + destruct (sample_token_at b source) as [a|]; [|done].
      destruct (sample_token_at b destination) as [d|]; [|done].
      destruct (_ && _) eqn:Hc; [|done]. apply (inj inr) in Hi as <-. conditions.
      set (b1 := if decide (source = destination) then b else _).
      assert (Hl : ∀ x, ac_lamports (b1 x) = ac_lamports (b x)).
      { intros x. subst b1. destruct (decide _); [done|]. by rewrite !set_data_lamports. }
      destruct (ta_is_native a); cbn [negb orb] in Hc; conditions.
      * apply u64_moved; intros; by rewrite ?Hl.
      * specialize (Hu k). unfold is_u64 in *. unfold move_lamports. cbn. rewrite Hl.
        destruct (decide (k = source)), (decide (k = destination)); lia.
    + destruct (sample_mint_at b mint); [|done]. destruct (sample_token_at b account); [|done].
      apply accept_inr in Hi as [_ ->]. by rewrite !set_data_lamports.
    + destruct (sample_mint_at b mint); [|done]. destruct (sample_token_at b account); [|done].
      apply accept_inr in Hi as [_ ->]. by rewrite !set_data_lamports.
    + destruct (sample_token_at b account); [|done]. apply accept_inr in Hi as [Hc ->]. conditions.
      apply u64_moved; intros; by rewrite ?set_data_lamports.
    + destruct (sample_token_at b account); [|done]. apply accept_inr in Hi as [_ ->].
      by rewrite set_data_lamports.
Qed.

Lemma sample_create_account p infos seeds from to n space o b b' :
  sample_invoke p infos seeds (Sys_CreateAccount from to n space o) b = inr b' →
  signs p infos seeds from ∧ signs p infos seeds to ∧
  ac_lamports (b to) = 0 ∧ ac_owner (b to) = SYSTEM ∧ n <= ac_lamports (b from) ∧
  ac_owner (b' to) = o ∧ frame [to] b b' ∧ moved from to n b b'.
Proof.
  cbn [sample_invoke]. intros [Hc ->]%accept_inr. conditions. split_and!; try done; try lia.
  - cbn. by rewrite put_eq.
  - intros k Hk. cbn. rewrite put_ne by set_solver. done.
  - intros k. cbn. unfold put. by destruct (decide (k = to)) as [->|].
Qed.

Lemma sample_initialize p infos seeds k mint o b b' :
  sample_invoke p infos seeds (Token TOKEN (Tk_InitializeAccount k mint o)) b = inr b' →
  ac_owner (b k) = TOKEN ∧ same_owners b b' ∧ frame [k] b b' ∧ moved k k 0 b b' ∧
  ∃ a, token_at b' k = Some a ∧ ta_mint a = mint ∧ ta_owner a = o ∧
       ta_is_native a = bytes_eqb mint native_mint_id.
Proof.
  cbn [sample_invoke]. rewrite decide_True by done. intros [Hc ->]%accept_inr. conditions. split_and!.
  - done.
  - intros x. apply set_data_owner.
  - intros x Hx. rewrite set_data_ne by set_solver. done.
  - apply set_data_moved.
  - eexists. split_and!; [apply token_at_set; [by rewrite set_data_owner|apply set_data_eq|]|done..].
    by split_and!.
Qed.

Lemma sample_close p infos seeds k dst o b b' :
  sample_invoke p infos seeds (Token TOKEN (Tk_CloseAccount k dst o)) b = inr b' →
  signs p infos seeds o ∧ frame [k] b b' ∧ moved k dst (ac_lamports (b k)) b b'.
Proof.
  cbn [sample_invoke]. rewrite decide_True by done. cbn [sample_token].
  destruct (sample_token_at b k) as [a|]; [|done]. intros [Hc ->]%accept_inr. conditions. split_and!.
  - done.
  - intros x Hx. cbn. rewrite set_data_ne by set_solver. done.
  - intros x. cbn. by rewrite set_data_lamports.
Qed.

Lemma sample_set_owner p infos seeds k new_owner o b b' :
  sample_invoke p infos seeds (Token TOKEN (Tk_SetOwner k new_owner o)) b = inr b' →
  signs p infos seeds o ∧ same_owners b b' ∧ frame [k] b b' ∧ moved k k 0 b b' ∧
  ∃ a a', token_at b k = Some a ∧ ta_owner a = o ∧ token_at b' k = Some a' ∧
    ta_owner a' = new_owner ∧ ta_mint a' = ta_mint a ∧ ta_amount a' = ta_amount a.
Proof.
  cbn [sample_invoke]. rewrite decide_True by done. cbn [sample_token]. rewrite sample_token_of.
  destruct (token_at b k) as [a|] eqn:Ha; [|done]. intros [Hc ->]%accept_inr. conditions.
  destruct (token_at_some _ _ _ Ha) as [Hao (Hm & Ho & Hn & Hd & Hda & Hcl)]. split_and!.
  - done.
  - intros x. apply set_data_owner.
  - intros x Hx. rewrite set_data_ne by set_solver. done.
  - apply set_data_moved.
  - eexists a, _. split_and!; [done|done|apply token_at_set; [by rewrite set_data_owner|apply set_data_eq|]|done..].
    by split_and!.
Qed.

#[global] Instance SampleRuntimeLaws : RuntimeLaws.
Proof.
  split.
  - intros seeds p k z [= <- <-]. split; [lia|done].
  - apply sample_keeps_u64.
  - done.
  - intros n. apply length_alloc.
  - done.
  - intros i b e He. apply (inj inr) in He as <-. apply (u_at_range 8).
  - intros r n. apply Z.le_max_l.
  - intros d a Ha. by apply unpack_account_ok in Ha as (_ & _ & ? & _).
  - intros d m Hm. by apply unpack_mint_ok in Hm as (_ & ?).
  - apply sample_not_both.
  - cbn [invoke_signed_by SampleRuntime sample_invoke]. intros p infos seeds from to n b b' [Hc ->]%accept_inr.
    conditions. split_and!; try done; lia.
  - intros p infos seeds from to n b Hs Ho Hd Hn Ht. eexists. apply accept_inr. split; [|done].
    rewrite !andb_true_iff, sample_signs_true, !bytes_eqb_true, can_move_true. done.
  - intros. by eapply sample_create_account.
  - intros. by eapply sample_initialize.
  - intros. by eapply sample_token_transfer.
  - intros p infos seeds src dst o n b a d Hs Ha Hd Hm Hst Hnat H0 Hsp Hsum.
    cbn [invoke_signed_by SampleRuntime sample_invoke]. rewrite decide_True by done. cbn [sample_token].
    rewrite (sample_token_of b src), Ha, (sample_token_of b dst), Hd.
    eexists. rewrite (proj2 (sample_signs_true _ _ _ _) Hs), (proj2 (bytes_eqb_true _ _) Hm),
      (proj2 (can_spend_true _ _ _) (conj Hsp H0)), Hnat, (bool_decide_eq_true_2 _ Hst). cbn [negb orb andb].
    destruct (bytes_eqb src dst) eqn:He; [done|]. cbn [orb andb].
    rewrite (proj2 (Z.ltb_lt _ _)); [done|]. apply Hsum. intros Hx. by apply bytes_eqb_true in Hx; rewrite Hx in He.
  - intros. by eapply sample_mint_to.
  - intros p infos seeds mint k o n b m a Hs Hm Ha Hk Hst Hnat Hau H0 Hsu Hsum.
    cbn [invoke_signed_by SampleRuntime sample_invoke]. rewrite decide_True by done. cbn [sample_token].
    rewrite sample_mint_of, Hm, sample_token_of, Ha. eexists. apply accept_inr. split; [|done].
    rewrite !andb_true_iff, sample_signs_true, bytes_eqb_true, bool_decide_eq_true, Z.leb_le, !Z.ltb_lt. done.
  - intros. by eapply sample_burn.
  - intros p infos seeds k mint o n b m a Hs Hm Ha Hk Hnat H0 Hsp Hsu.
    cbn [invoke_signed_by SampleRuntime sample_invoke]. rewrite decide_True by done. cbn [sample_token].
    rewrite sample_mint_of, Hm, sample_token_of, Ha. eexists. apply accept_inr. split; [|done].
    rewrite !andb_true_iff, sample_signs_true, bytes_eqb_true, can_spend_true, Hnat, Z.leb_le. done.
  - intros. by eapply sample_close.
  - intros. by eapply sample_set_owner.
Qed.
