(* ===== verification/Pool.v ===== *)
(** * The pool's money

    What the handlers of the processor guarantee together, from the effects of
    Effects.v: the price of a pool token, what depositors and creditors can rely on,
    and what follows from checks the processor does not make, shown on the runtime of
    SampleChain.v. *)

From Stdlib Require Import ZArith Lia.
From stdpp Require Import base list strings sets.
From coqutil Require Import Byte Word.LittleEndianList.
From S2P Require Import Prelude Buffers Program Chain Processor Effects SampleChain.

Open Scope Z_scope.

(** Decides that a key is not in a list of others. *)
Ltac not_in := repeat first [apply not_elem_of_nil | apply not_elem_of_cons; split]; try done.

(** ** The price *)

(** A pool token is worth [stake_total / pool_total] lamports; [price_le sp sp']: it is
    worth at least as much in [sp'] as in [sp]. *)
Definition price_le (sp sp' : StakePool) : Prop :=
  sp_stake_total sp * sp_pool_total sp' <= sp_stake_total sp' * sp_pool_total sp.

Lemma deposit_price sp a x :
  wf_pool sp → 0 <= a → calc_pool_deposit_amount sp a = Some x →
  0 <= x ∧ x * sp_stake_total sp <= a * sp_pool_total sp.
Proof.
  intros Hwf Ha Hx. destruct (pool_totals_u64 sp Hwf) as [Hs Hp]. unfold is_u64 in *.
  destruct (calc_deposit_inv sp a x Hx) as [[Hz ->]|(Hz & -> & _)]; [rewrite Hz; nia|].
  split; [apply Z.div_pos; nia|]. rewrite Z.mul_comm. apply Z.mul_div_le. lia.
Qed.

Lemma withdraw_price sp n x :
  wf_pool sp → 0 <= n → calc_lamports_amount sp n = Some x →
  0 <= x ∧ 0 < sp_pool_total sp ∧ x * sp_pool_total sp <= n * sp_stake_total sp ∧
  (n <= sp_pool_total sp → x <= sp_stake_total sp).
Proof.
  intros Hwf Hn Hx. destruct (pool_totals_u64 sp Hwf) as [Hs Hp]. unfold is_u64 in *.
  destruct (calc_lamports_inv sp n x Hx) as (Hz & -> & _).
  assert (n * sp_stake_total sp / sp_pool_total sp * sp_pool_total sp <= n * sp_stake_total sp)
    by (rewrite Z.mul_comm; apply Z.mul_div_le; lia).
  assert (0 <= n * sp_stake_total sp / sp_pool_total sp) by (apply Z.div_pos; nia).
  split_and!; try lia. intros Hle. apply Z.div_le_upper_bound; nia.
Qed.

(** The fee is at most the amount it is taken of, for a fee the pool was initialized with. *)
Lemma fee_le sp n x :
  0 <= n → 0 <= sp_fee_numerator sp <= sp_fee_denominator sp → calc_fee_amount sp n = Some x →
  0 <= x <= n.
Proof.
  intros Hn Hf. unfold calc_fee_amount, checked_mul_u128, checked_div, u64_try_from.
  destruct (Z.eqb_spec (sp_fee_denominator sp) 0) as [|Hz]; [intros [= <-]; lia|].
  destruct (n * _ <? _); [|done]. cbn. destruct (Z.eqb_spec (sp_fee_denominator sp) 0); [done|]. cbn.
  destruct (_ <? _); [|done]. intros [= <-].
  split; [apply Z.div_pos; nia|apply Z.div_le_upper_bound; nia].
Qed.

(** The pool tokens issued for a deposit, and the part of them that is the owner's fee,
    without the bounds of the machine's integers. *)
Definition issued (sp : StakePool) (n : Z) : Z :=
  if sp_stake_total sp =? 0 then n else n * sp_pool_total sp / sp_stake_total sp.
Definition fee_of (sp : StakePool) (x : Z) : Z :=
  if sp_fee_denominator sp =? 0 then 0 else x * sp_fee_numerator sp / sp_fee_denominator sp.

(** The 128-bit products never overflow: only the result has to fit. *)
Lemma issued_computed sp n :
  wf_pool sp → is_u64 n → issued sp n < u64_max_plus_1 →
  calc_pool_deposit_amount sp n = Some (issued sp n) ∧ 0 <= issued sp n.
Proof.
  intros Hwf Hn. destruct (pool_totals_u64 sp Hwf) as [Hs Hp]. unfold is_u64, u64_max_plus_1 in *.
  unfold issued, calc_pool_deposit_amount, calc_pool_withdraw_amount, checked_mul_u128, checked_div, u64_try_from.
  destruct (Z.eqb_spec (sp_stake_total sp) 0) as [|Hz]; intros Hx; [split; [done|lia]|].
  rewrite (proj2 (Z.ltb_lt (n * _) _)) by nia. cbn.
  rewrite ?(proj2 (Z.eqb_neq _ _) Hz). cbn. unfold u64_max_plus_1. rewrite (proj2 (Z.ltb_lt _ _)) by done.
  split; [done|]. apply Z.div_pos; nia.
Qed.

Lemma fee_computed sp x :
  wf_pool sp → sp_fee_numerator sp <= sp_fee_denominator sp → is_u64 x →
  calc_fee_amount sp x = Some (fee_of sp x) ∧ 0 <= fee_of sp x <= x.
Proof.
  intros [_ _ _ _ Hn] Hle Hx. do 3 apply Forall_cons in Hn as [_ Hn].
  apply Forall_cons in Hn as [Hd Hn]. apply Forall_cons in Hn as [Hf _]. unfold is_u64, u64_max_plus_1 in *.
  assert (Hr : 0 <= fee_of sp x <= x).
  { unfold fee_of. destruct (Z.eqb_spec (sp_fee_denominator sp) 0); [lia|].
    split; [apply Z.div_pos; nia|apply Z.div_le_upper_bound; nia]. }
  split; [|done]. revert Hr. unfold fee_of, calc_fee_amount, checked_mul_u128, checked_div, u64_try_from.
  destruct (Z.eqb_spec (sp_fee_denominator sp) 0) as [|Hz]; intros Hr; [done|].
  rewrite (proj2 (Z.ltb_lt (x * _) _)) by nia. cbn.
  rewrite ?(proj2 (Z.eqb_neq _ _) Hz). cbn. unfold u64_max_plus_1. by rewrite (proj2 (Z.ltb_lt _ _)) by lia.
Qed.

Section Pool.
Context `{RuntimeLaws}.
#[local] Remove Hints SampleRuntime SampleRuntimeLaws : typeclass_instances.

(** What holds of every bank the runtime runs the program on: wrapped SOL is told by its
    mint, and there are fewer than [2^63] lamports. *)
Record bank_ok (b : Bank) : Prop := {
  bo_native : native_ok b;
  bo_range : ∀ k, 0 <= lam b k < 2 ^ 63;
}.

Lemma bo_lamports b : bank_ok b → bank_u64 b.
Proof. intros Hok k. pose proof (bo_range b Hok k). unfold is_u64, u64_max_plus_1. lia. Qed.

(** The program, the pool's account and the mint of wrapped SOL, which is not the
    mint of pool tokens. *)
Context (p pool : buffer).
Hypothesis (p_not_token : p ≠ spl_token_id) (p_not_system : p ≠ system_program_id).

Definition reserve : buffer := fst (get_reserve_adderess p pool).


(** The pool owes no more than it has: there are at most [pool_total] tokens, and the
    credit reserve holds the tokens of the credits. *)
Record solvent (b : Bank) (sp : StakePool) (l : CreditList) : Prop := {
  so_pool : pool_at b pool = Some sp;
  so_credits : credits_at b (sp_credit_list sp) = Some l;
  so_wf : wf_credits l;
  so_token : sp_token_program_id sp = spl_token_id;
  so_pool_owner : ac_owner (b pool) = p;
  so_owner : ac_owner (b (sp_credit_list sp)) = p;
  so_apart : sp_credit_list sp ≠ pool;
  so_not_native : sp_pool_mint sp ≠ native_mint_id;
  so_reserve_mint : ta_mint <$> token_at b (sp_credit_reserve sp) = Some (sp_pool_mint sp);
  so_mint : is_Some (mint_at b (sp_pool_mint sp));
  so_supply : sup b (sp_pool_mint sp) <= sp_pool_total sp;
  so_owed : owed (cl_credits l) <= tok b (sp_credit_reserve sp);
}.

(** The accounts a pool names. *)
Definition same_setup (sp sp' : StakePool) : Prop :=
  sp_credit_list sp' = sp_credit_list sp ∧ sp_token_program_id sp' = sp_token_program_id sp ∧
  sp_pool_mint sp' = sp_pool_mint sp ∧ sp_credit_reserve sp' = sp_credit_reserve sp.

Lemma is_Some_authority b k : is_Some (mint_at b k) ↔ is_Some (mi_authority <$> mint_at b k).
Proof. by rewrite fmap_is_Some. Qed.

Lemma solvent_kept b b' sp sp' l l' xs ks dl dt ds :
  solvent b sp l → effect xs ks dl dt ds b b' → same_setup sp sp' →
  pool_at b' pool = Some sp' → credits_at b' (sp_credit_list sp) = Some l' → wf_credits l' →
  pool ∉ xs → sp_credit_list sp ∉ xs → sp_credit_reserve sp ∉ ks → sp_pool_mint sp ∉ ks →
  sup b (sp_pool_mint sp) + ds (sp_pool_mint sp) <= sp_pool_total sp' →
  owed (cl_credits l') <= tok b (sp_credit_reserve sp) + dt (sp_credit_reserve sp) →
  solvent b' sp' l'.
Proof.
  intros [Hpool Hcr Hwf Htok Hpo Hown Hap Hnn Hrm Hm Hsu How] [O L S] (Hs1 & Hs2 & Hs3 & Hs4)
    Hpool' Hcr' Hwf' Hx1 Hx Hk1 Hk2 Hsup Howed.
  pose proof (S _ Hk1) as [_ T1 _ M1 _ _ _ _]. pose proof (S _ Hk2) as [_ _ T2 _ _ _ A2 _].
  split; rewrite ?Hs1, ?Hs2, ?Hs3, ?Hs4; try done.
  - by rewrite O.
  - by rewrite O.
  - by rewrite M1.
  - apply is_Some_authority. rewrite A2. by apply is_Some_authority.
  - by rewrite T2.
  - by rewrite T1.
Qed.

(** Where the credit list is not written, it stays. *)
Lemma credits_kept b b' sp l xs ks dl dt ds :
  solvent b sp l → effect xs ks dl dt ds b b' → sp_credit_list sp ∉ ks →
  credits_at b' (sp_credit_list sp) = Some l.
Proof.
  intros Hso [_ _ S] Hk. rewrite <- (so_credits _ _ _ Hso). unfold credits_at.
  rewrite (st_data _ _ _ _ _ (S _ Hk)); [done|]. by rewrite (so_owner _ _ _ Hso).
Qed.

Lemma pool_kept b b' sp l xs ks dl dt ds :
  solvent b sp l → effect xs ks dl dt ds b b' → pool ∉ ks → pool_at b' pool = Some sp.
Proof.
  intros Hso [_ _ S] Hk. rewrite <- (so_pool _ _ _ Hso). unfold pool_at.
  rewrite (st_data _ _ _ _ _ (S _ Hk)); [done|]. by rewrite (so_pool_owner _ _ _ Hso).
Qed.

Lemma reserve_account b sp l : solvent b sp l →
  ac_owner (b (sp_credit_reserve sp)) = spl_token_id ∧ ac_owner (b (sp_pool_mint sp)) = spl_token_id ∧
  sp_credit_reserve sp ≠ pool ∧ sp_pool_mint sp ≠ pool ∧
  sp_credit_reserve sp ≠ sp_credit_list sp ∧ sp_pool_mint sp ≠ sp_credit_list sp.
Proof.
  intros Hso. destruct (so_mint _ _ _ Hso) as [m Hm]. pose proof (so_reserve_mint _ _ _ Hso) as Hr.
  destruct (token_at b (sp_credit_reserve sp)) eqn:E; [|done].
  pose proof (token_owner _ _ _ E) as H1. pose proof (mint_owner _ _ _ Hm) as H2.
  pose proof (so_owner _ _ _ Hso) as H3. pose proof (so_pool_owner _ _ _ Hso) as H4.
  split_and!; congruence.
Qed.

(** ** What users and the owner do *)

(** The accounts of the pool are told apart: by the owner the handle names, and its
    handle names the owner it has. *)
Definition entered (b : Bank) (accounts : list AccountInfo) : Prop :=
  coherent b accounts ∧ Forall (λ i, wf_key (ai_key i)) accounts.

(** A transaction of the pool, as a user or the owner makes it who names the pool's
    mint and does not pass off the credit reserve as an account of their own. *)
Inductive pool_step (b : Bank) : Bank → Prop :=
  | step_deposit amount accounts b' i1 i2 i3 src dst fee mint rest sp x :
      accounts = i1 :: i2 :: i3 :: src :: dst :: fee :: mint :: rest → ai_key i1 = pool →
      process_deposit p amount accounts b = inr (tt, b') →
      pool_at b pool = Some sp → ai_key mint = sp_pool_mint sp → 0 <= amount →
      calc_pool_deposit_amount sp amount = Some x → sp_pool_total sp + x < u64_max_plus_1 →
      entered b accounts → pool_step b b'
  | step_withdraw n accounts b' i1 i2 i3 src mint target rest sp :
      accounts = i1 :: i2 :: i3 :: src :: mint :: target :: rest → ai_key i1 = pool →
      process_withdraw p n accounts b = inr (tt, b') →
      pool_at b pool = Some sp → ai_key mint = sp_pool_mint sp → 0 <= n →
      ai_key src ≠ sp_credit_reserve sp →
      entered b accounts → pool_step b b'
  | step_credit n accounts b' i1 li ri wd src target cancel rest sp :
      accounts = i1 :: li :: ri :: wd :: src :: target :: cancel :: rest → ai_key i1 = pool →
      process_credit p n accounts b = inr (tt, b') →
      pool_at b pool = Some sp → is_u64 n → ai_key src ≠ sp_credit_reserve sp →
      entered b accounts → pool_step b b'
  | step_uncredit n accounts b' i1 li ri wd dst target cancel rest :
      accounts = i1 :: li :: ri :: wd :: dst :: target :: cancel :: rest → ai_key i1 = pool →
      process_uncredit p n accounts b = inr (tt, b') → is_u64 n →
      entered b accounts → pool_step b b'
  | step_pay accounts b' i1 li wd res ri mint rent clock sys token users sp :
      accounts = i1 :: li :: wd :: res :: ri :: mint :: rent :: clock :: sys :: token :: users →
      ai_key i1 = pool → process_pay_creditors p accounts b = inr (tt, b') →
      pool_at b pool = Some sp → ai_key mint = sp_pool_mint sp →
      entered b accounts → pool_step b b'
  | step_update accounts b' i1 vl res clock rest :
      accounts = i1 :: vl :: res :: clock :: rest → ai_key i1 = pool →
      process_update_pool_balance p accounts b = inr (tt, b') →
      entered b accounts → pool_step b b'
  | step_set_owner accounts b' i1 oi ni fi rest :
      accounts = i1 :: oi :: ni :: fi :: rest → ai_key i1 = pool →
      process_set_owner p accounts b = inr (tt, b') →
      entered b accounts → pool_step b b'.

(** What everybody else can do: only the program writes its accounts, and only it
    signs for the withdraw authority and the reserve, so nobody else takes tokens from
    the credit reserve, mints pool tokens or takes lamports from the reserve. *)
Record others_step (sp : StakePool) (b b' : Bank) : Prop := {
  ot_pool : ac_data (b' pool) = ac_data (b pool) ∧ ac_owner (b' pool) = ac_owner (b pool);
  ot_credits : ac_data (b' (sp_credit_list sp)) = ac_data (b (sp_credit_list sp)) ∧
               ac_owner (b' (sp_credit_list sp)) = ac_owner (b (sp_credit_list sp));
  ot_tokens : tok b (sp_credit_reserve sp) <= tok b' (sp_credit_reserve sp) ∧
    ta_mint <$> token_at b' (sp_credit_reserve sp) = ta_mint <$> token_at b (sp_credit_reserve sp);
  ot_supply : sup b' (sp_pool_mint sp) <= sup b (sp_pool_mint sp) ∧
    mi_authority <$> mint_at b' (sp_pool_mint sp) = mi_authority <$> mint_at b (sp_pool_mint sp);
  ot_reserve : lam b reserve <= lam b' reserve;
}.

(** What a step keeps: the pool is solvent afterwards, its accounts are the same, and
    the reserve does not fall below its minimum. *)
Definition keeps (b b' : Bank) (sp : StakePool) : Prop :=
  ∃ sp' l', solvent b' sp' l' ∧ same_setup sp sp' ∧
    (MIN_RESERVE_BALANCE <= lam b reserve → MIN_RESERVE_BALANCE <= lam b' reserve).

Lemma calc_fee_nonneg sp n x : wf_pool sp → 0 <= n → calc_fee_amount sp n = Some x → 0 <= x.
Proof.
  intros [_ _ _ _ Hn] Hn0. do 3 apply Forall_cons in Hn as [_ Hn].
  apply Forall_cons in Hn as [Hd Hn]. apply Forall_cons in Hn as [Hnu _]. unfold is_u64 in *.
  unfold calc_fee_amount, checked_mul_u128, checked_div, u64_try_from.
  destruct (Z.eqb_spec (sp_fee_denominator sp) 0) as [|Hz]; [intros [= <-]; lia|].
  destruct (n * _ <? _); [|done]. cbn. destruct (Z.eqb_spec (sp_fee_denominator sp) 0); [done|]. cbn.
  destruct (_ <? _); [|done]. intros [= <-]. apply Z.div_pos; nia.
Qed.

Lemma at_eq k n : at_ k n k = n.
Proof. unfold at_. by rewrite decide_True. Qed.

Lemma at_ne k n k' : k' ≠ k → at_ k n k' = 0.
Proof. intros. unfold at_. by rewrite decide_False. Qed.

Lemma at_nonneg k n k' : 0 <= n → 0 <= at_ k n k'.
Proof. intros. unfold at_. destruct (decide _); lia. Qed.

Lemma keeps_deposit b b' amount i1 wd res src dst fee mint sp l x f :
  solvent b sp l → bank_ok b → ai_key i1 = pool → ai_key mint = sp_pool_mint sp → 0 <= amount →
  sp_pool_total sp + x < u64_max_plus_1 →
  deposited p amount i1 wd res src dst fee mint sp b b' x f → keeps b b' sp.
Proof.
  intros Hso Hok Hi1 Hmint Ha Hfit [Hne Hx Hf Hfx Hres Hfee Hmin Htemp Hsrc Hma Hde He Hp].
  rewrite Hi1 in *. destruct (reserve_account b sp l Hso) as (Ho1 & Ho2 & Hc1 & Hc2 & Hc3 & Hc4).
  pose proof (pool_at_wf _ _ _ (so_pool _ _ _ Hso)) as Hwf.
  destruct (deposit_price sp amount x Hwf Ha Hx) as [Hx0 _].
  pose proof (calc_fee_nonneg sp x f Hwf Hx0 Hf) as Hf0.
  destruct (pool_totals_u64 sp Hwf) as [_ Hpt]. unfold is_u64 in Hpt.
  pose proof programs_differ as Hpd.
  assert (Hnt : ∀ k, ac_owner (b k) ≠ system_program_id → k ∉ deposit_temp p i1 src).
  { intros k Hk Hin. by apply Hk, Htemp. }
  exists (with_totals (wadd (sp_stake_total sp) amount) (wadd (sp_pool_total sp) x) sp), l.
  split_and!; [|done|].
  - eapply (solvent_kept b b'); [done|exact He|done|done| |exact (so_wf _ _ _ Hso)|..].
    + eapply credits_kept; [done|exact He|]. apply not_elem_of_cons.
      split; [exact (so_apart _ _ _ Hso)|]. apply Hnt. by rewrite (so_owner _ _ _ Hso).
    + apply Hnt. by rewrite (so_pool_owner _ _ _ Hso).
    + apply Hnt. by rewrite (so_owner _ _ _ Hso).
    + apply not_elem_of_cons. split; [done|]. apply Hnt. congruence.
    + apply not_elem_of_cons. split; [done|]. apply Hnt. congruence.
    + rewrite <- Hmint, at_eq. cbn. rewrite wadd_small by lia. rewrite Hmint.
      pose proof (so_supply _ _ _ Hso). lia.
    + pose proof (so_owed _ _ _ Hso). unfold both.
      pose proof (at_nonneg (ai_key dst) (x - f) (sp_credit_reserve sp)).
      pose proof (at_nonneg (ai_key fee) f (sp_credit_reserve sp)).
      assert (deposit_tokens src amount (sp_credit_reserve sp) = 0); [|lia].
      unfold deposit_tokens. destruct (decide _) as [|Hs]; [done|]. apply at_ne. intros Hcr.
      specialize (Hsrc Hs). rewrite <- Hcr, (so_reserve_mint _ _ _ Hso) in Hsrc.
      injection Hsrc as Hsrc. by apply (so_not_native _ _ _ Hso).
  - intros Hm. unfold reserve. rewrite (ef_lam _ _ _ _ _ _ _ He). unfold both, reserve in *.
    rewrite Hres in *. rewrite at_eq. unfold at_. destruct (decide _); lia.
Qed.

Lemma keeps_withdraw b b' n i1 res src mint target sp l x :
  solvent b sp l → bank_ok b → ai_key i1 = pool → ai_key mint = sp_pool_mint sp → 0 <= n →
  ai_key src ≠ sp_credit_reserve sp →
  withdrawn p n i1 res src mint target sp b b' x → keeps b b' sp.
Proof.
  intros Hso Hok Hi1 Hmint Hn Hsrc [Hne Hx Hres Hleft Hm Hheld Hsup He Hp].
  rewrite Hi1 in *. destruct (reserve_account b sp l Hso) as (Ho1 & Ho2 & Hc1 & Hc2 & Hc3 & Hc4).
  pose proof (pool_at_wf _ _ _ (so_pool _ _ _ Hso)) as Hwf.
  destruct (withdraw_price sp n x Hwf Hn Hx) as (Hx0 & _).
  destruct (pool_totals_u64 sp Hwf) as [_ Hpt]. unfold is_u64 in Hpt.
  pose proof (so_supply _ _ _ Hso) as Hss. rewrite Hmint in Hsup.
  exists (with_totals (wsub (sp_stake_total sp) x) (wsub (sp_pool_total sp) n) sp), l.
  split_and!; [|done|].
  - eapply (solvent_kept b b'); [done|exact He|done|done| |exact (so_wf _ _ _ Hso)|..].
    + eapply credits_kept; [done|exact He|]. pose proof (so_apart _ _ _ Hso). not_in.
    + not_in.
    + not_in.
    + not_in.
    + not_in.
    + rewrite <- Hmint, at_eq. cbn. rewrite wsub_small by lia. rewrite Hmint. lia.
    + rewrite at_ne by done. pose proof (so_owed _ _ _ Hso). lia.
  - intros _. unfold reserve. rewrite (ef_lam _ _ _ _ _ _ _ He). unfold both.
    rewrite Hres, at_eq. pose proof (at_nonneg (ai_key target) x (ai_key res) Hx0). lia.
Qed.

(** Entering and cancelling a credit in the list. *)
Lemma owed_insert cs i c n :
  cs !! i = Some c → owed (<[i := with_amount_credit n c]> cs) = owed cs - cr_token_amount c + n.
Proof.
  revert i; induction cs as [|d cs IH]; intros [|i] Hi; try done; cbn [insert list_insert].
  - injection Hi as ->. rewrite !owed_cons. cbn. lia.
  - rewrite !owed_cons. change (list_insert i (with_amount_credit n c) cs) with (<[i := with_amount_credit n c]> cs).
    rewrite IH by done. lia.
Qed.

Lemma owed_ge cs i c : Forall wf_credit cs → cs !! i = Some c → cr_token_amount c <= owed cs.
Proof.
  intros HF. revert i; induction HF as [|d cs Hd HF IH]; intros [|i] Hi; try done; rewrite owed_cons.
  - injection Hi as ->. pose proof (owed_nonneg _ HF). lia.
  - destruct Hd as (_ & _ & Hd & _). specialize (IH i Hi). lia.
Qed.

Lemma owed_filter (Q : CreditRecord → Prop) `{!∀ c, Decision (Q c)} cs :
  Forall wf_credit cs → owed (filter Q cs) <= owed cs.
Proof.
  induction 1 as [|d cs (_ & _ & Hd & _) _ IH]; [done|]. rewrite filter_cons.
  destruct (decide _); rewrite !owed_cons; lia.
Qed.

Lemma owed_filter_target cs k i c :
  Forall wf_credit cs → cs !! i = Some c → cr_sol_target c = k →
  owed (filter (λ r, cr_sol_target r ≠ k) cs) + cr_token_amount c <= owed cs.
Proof.
  intros HF. revert i; induction HF as [|d cs (_ & _ & Hd & _) HF IH]; intros [|i] Hi Hk; try done.
  - injection Hi as ->. rewrite filter_cons_False by (by intros Hx). rewrite owed_cons.
    pose proof (owed_filter (λ r, cr_sol_target r ≠ k) cs HF). lia.
  - specialize (IH i Hi Hk). rewrite filter_cons. destruct (decide _); rewrite !owed_cons; lia.
Qed.

Lemma add_credit_owed k a n cs cs' :
  Forall wf_credit cs → 0 <= n → owed cs + n < u64_max_plus_1 →
  add_credit k a n cs = inr cs' → owed cs' = owed cs + n.
Proof.
  intros HF Hn Hfit. unfold add_credit. destruct (find_credit k cs) as [[i c]|] eqn:Hf.
  - destruct (bytes_eqb _ _); [|done]. intros [= <-]. apply find_credit_lookup in Hf as [Hi _].
    rewrite (owed_insert _ _ _ _ Hi). pose proof (owed_ge _ _ _ HF Hi).
    eapply Forall_lookup_1 in HF as (_ & _ & Hc & _); [|done]. rewrite wadd_small by lia. lia.
  - destruct (_ <=? _)%nat; [done|]. intros [= <-]. rewrite owed_app. unfold owed at 2. cbn. lia.
Qed.

Lemma remove_credit_owed k a n cs cs' :
  Forall wf_credit cs → 0 <= n → remove_credit k a n cs = inr cs' → owed cs' + n <= owed cs.
Proof.
  intros HF Hn. unfold remove_credit. destruct (find_credit k cs) as [[i c]|] eqn:Hf; [|done].
  apply find_credit_lookup in Hf as [Hi Hk].
  destruct (negb _); [done|]. destruct (negb _); [done|].
  destruct (Z.ltb_spec (cr_token_amount c) n) as [|Hle]; [done|].
  destruct (Z.eqb_spec n (cr_token_amount c)) as [->|Hne]; intros [= <-].
  - by apply (owed_filter_target cs k i c).
  - rewrite (owed_insert _ _ _ _ Hi). pose proof (Forall_lookup_1 _ _ _ _ HF Hi) as (_ & _ & Hc).
    unfold is_u64 in Hc. rewrite wsub_small by lia. lia.
Qed.

(** Tokens that are not wrapped SOL move without lamports. *)
Lemma credited_lamports n li src dst l' native b b' sp l :
  solvent b sp l → bank_ok b → credited n li src dst l' native b b' →
  ta_mint <$> token_at b (ai_key src) = Some (sp_pool_mint sp) → ∀ k, lam b' k = lam b k.
Proof.
  intros Hso Hok [_ (a & Ha & <-) _ He _] Hm k. rewrite Ha in Hm. injection Hm as Hm.
  rewrite (ef_lam _ _ _ _ _ _ _ He), (bo_native _ Hok _ _ Ha), Hm.
  destruct (bytes_eqb _ _) eqn:E; [by apply bytes_eqb_true in E; destruct (so_not_native _ _ _ Hso)|].
  unfold both, at_. destruct (decide _), (decide _); lia.
Qed.

Lemma keeps_credit b b' n li ri src sp l cs native (target cancel : AccountInfo) :
  solvent b sp l → bank_ok b → ai_key li = sp_credit_list sp → ai_key ri = sp_credit_reserve sp →
  is_u64 n → wf_key (ai_key target) → wf_key (ai_key cancel) →
  ai_key src ≠ sp_credit_reserve sp →
  add_credit (ai_key target) (ai_key cancel) n (cl_credits l) = inr cs →
  credited n li src ri (with_credits cs l) native b b' → keeps b b' sp.
Proof.
  intros Hso Hok Hli Hri Hn Hkt Hkc Hsrc Hadd Hcr.
  destruct (reserve_account b sp l Hso) as (Ho1 & Ho2 & Hc1 & Hc2 & Hc3 & Hc4).
  pose proof (so_wf _ _ _ Hso) as (Hv & Hlen & HF). pose proof (so_apart _ _ _ Hso) as Hap.
  destruct (add_credit_wf _ _ _ _ _ Hkt Hkc Hn HF Hlen Hadd) as [HF' Hlen'].
  pose proof (ce_effect _ _ _ _ _ _ _ _ Hcr) as He. cbv zeta in He. rewrite Hli, Hri in He.
  assert (Hdt : both (at_ (ai_key src) (- n)) (at_ (sp_credit_reserve sp) n) (sp_credit_reserve sp) = n).
  { unfold both. rewrite at_eq, at_ne by done. lia. }
  pose proof (tok_range b' (sp_credit_reserve sp)) as Hr. unfold is_u64 in *.
  rewrite (effect_tok _ _ _ _ _ _ _ _ He), Hdt in Hr by not_in.
  pose proof (so_owed _ _ _ Hso) as Hso'.
  assert (Howed : owed cs = owed (cl_credits l) + n) by (eapply add_credit_owed; [done|lia|lia|done]).
  exists sp, (with_credits cs l). split_and!; [|done|].
  - eapply (solvent_kept b b'); [done|exact He|done| | | |..]; try not_in.
    + eapply pool_kept; [done|exact He|]. not_in.
    + rewrite <- Hli. apply (ce_list _ _ _ _ _ _ _ _ Hcr).
    + pose proof (so_supply _ _ _ Hso). unfold none. lia.
    + rewrite Hdt. cbn [cl_credits with_credits]. lia.
  - rewrite (credited_lamports _ _ _ _ _ _ _ _ _ _ Hso Hok Hcr); [done|].
    rewrite (ce_mint _ _ _ _ _ _ _ _ Hcr), Hri. apply (so_reserve_mint _ _ _ Hso).
Qed.

Lemma keeps_uncredit b b' n li ri dst sp l cs native target cancel :
  solvent b sp l → bank_ok b → ai_key li = sp_credit_list sp → ai_key ri = sp_credit_reserve sp →
  is_u64 n → remove_credit target cancel n (cl_credits l) = inr cs →
  credited n li ri dst (with_credits cs l) native b b' → keeps b b' sp.
Proof.
  intros Hso Hok Hli Hri Hn Hrem Hcr.
  destruct (reserve_account b sp l Hso) as (Ho1 & Ho2 & Hc1 & Hc2 & Hc3 & Hc4).
  pose proof (so_wf _ _ _ Hso) as (Hv & Hlen & HF). pose proof (so_apart _ _ _ Hso) as Hap.
  destruct (remove_credit_wf _ _ _ _ _ HF Hlen Hrem) as [HF' Hlen'].
  pose proof (ce_effect _ _ _ _ _ _ _ _ Hcr) as He. cbv zeta in He. rewrite Hli, Hri in He.
  pose proof (so_owed _ _ _ Hso) as Hso'. unfold is_u64 in Hn.
  assert (Howed : owed cs + n <= owed (cl_credits l)) by (eapply remove_credit_owed; [done|lia|done]).
  exists sp, (with_credits cs l). split_and!; [|done|].
  - eapply (solvent_kept b b'); [done|exact He|done| | | |..]; try not_in.
    + eapply pool_kept; [done|exact He|]. not_in.
    + rewrite <- Hli. apply (ce_list _ _ _ _ _ _ _ _ Hcr).
    + pose proof (so_supply _ _ _ Hso). unfold none. lia.
    + unfold both. rewrite at_eq. cbn [cl_credits with_credits].
      pose proof (at_nonneg (ai_key dst) n (sp_credit_reserve sp)). lia.
  - rewrite (credited_lamports _ _ _ _ _ _ _ _ _ _ Hso Hok Hcr); [done|].
    rewrite Hri. apply (so_reserve_mint _ _ _ Hso).
Qed.

(** No payment is negative. *)
Lemma pay_credits_nonneg sp available users credits total invalid paid left_ :
  wf_pool sp → Forall wf_credit credits →
  pay_credits sp available users credits total invalid = inr (paid, left_) →
  Forall (λ x, 0 <= x.2) paid.
Proof.
  revert sp credits total invalid paid left_.
  induction users as [|[k sys] users IH]; intros sp [|c cs] total invalid paid left_ Hwf HF Hp;
    try by (injection Hp as <- <-).
  apply Forall_cons in HF as [(_ & _ & Hc & _) HF]. cbn [pay_credits] in Hp.
  destruct (negb _); [done|]. destruct (negb sys); [by eapply IH|].
  destruct (calc_lamports_amount _ _) as [s1|] eqn:Hs; [|done]. destruct (_ <? _); [by injection Hp as <- <-|].
  destruct (pay_credits _ _ users cs _ _) as [|[paid' left']] eqn:Hp'; [done|]. injection Hp as <- <-.
  apply Forall_cons. split; [by destruct (withdraw_price _ _ _ Hwf Hc Hs)|].
  eapply IH; [|done|done]. destruct (pool_totals_u64 _ Hwf). apply with_totals_wf; [done|done|apply wsub_u64].
Qed.

Lemma paid_to_nonneg paid k : Forall (λ x, 0 <= x.2) paid → 0 <= paid_to paid k.
Proof.
  unfold paid_to, sum_list_Z. induction 1 as [|x paid Hx _ IH]; cbn; [done|]. destruct (decide _); lia.
Qed.

Lemma keeps_pay b b' i1 li res ri mint users sp l l0 available paid left_ :
  solvent b sp l → bank_ok b → ai_key i1 = pool → ai_key mint = sp_pool_mint sp →
  paid_creditors p i1 li res ri mint users sp l0 b b' available paid left_ → keeps b b' sp.
Proof.
  intros Hso Hok Hi1 Hmint [Hres Hli Hri Hl Hwf Hplan Hav Hb Htk Hsu Hm He Hl' Hp'].
  rewrite Hi1, Hli, ?Hri, ?Hmint in *. rewrite (so_credits _ _ _ Hso) in Hl. injection Hl as <-.
  destruct (reserve_account b sp l Hso) as (Ho1 & Ho2 & Hc1 & Hc2 & Hc3 & Hc4).
  pose proof (so_apart _ _ _ Hso) as Hap. destruct Hwf as (Hv & Hlen & HF).
  pose proof (pool_at_wf _ _ _ (so_pool _ _ _ Hso)) as Hwp.
  destruct (pay_credits_left _ _ _ _ _ _ _ _ Hplan HF (Forall_nil_2 _)) as (HF' & Hlen' & Howed).
  pose proof (pay_credits_nonneg _ _ _ _ _ _ _ _ Hwp HF Hplan) as Hnn.
  pose proof (so_owed _ _ _ Hso) as Hso'. assert (owed [] = 0) by done.
  exists (with_totals (wsub (sp_stake_total sp) (paid_lamports paid)) (sp_pool_total sp - paid_tokens paid) sp),
    (with_credits left_ l). split_and!; [|done|].
  - eapply (solvent_kept b b'); [done|exact He|done|exact Hp'|exact Hl'|..]; try not_in.
    + unfold wf_credits. cbn [cl_version cl_credits with_credits length] in *. split_and!; (done || lia).
    + rewrite at_eq. cbn. pose proof (so_supply _ _ _ Hso). lia.
    + rewrite at_eq. cbn [cl_credits with_credits]. lia.
  - intros Hmin. rewrite (ef_lam _ _ _ _ _ _ _ He). unfold both, reserve in *.
    rewrite Hres in *. rewrite at_eq. pose proof (paid_to_nonneg paid (ai_key res) Hnn). lia.
Qed.

(** Writing the pool's own account changes nothing else. *)
Lemma keeps_write b b' sp sp' l :
  solvent b sp l → effect [] [pool] none none none b b' → (∀ k, k ≠ pool → b' k = b k) →
  same_setup sp sp' → sp_pool_total sp' = sp_pool_total sp → pool_at b' pool = Some sp' → keeps b b' sp.
Proof.
  intros Hso He Hrest Hset Ht Hp'. destruct (reserve_account b sp l Hso) as (_ & _ & Hc1 & Hc2 & Hc3 & Hc4).
  pose proof (so_apart _ _ _ Hso) as Hap. exists sp', l. split_and!; [|done|].
  - eapply (solvent_kept b b'); [done|exact He|done|done| |exact (so_wf _ _ _ Hso)|..]; try not_in.
    + eapply credits_kept; [done|exact He|]. not_in.
    + rewrite Ht. unfold none. pose proof (so_supply _ _ _ Hso). lia.
    + unfold none. pose proof (so_owed _ _ _ Hso). lia.
  - rewrite (ef_lam _ _ _ _ _ _ _ He). unfold none. lia.
Qed.

Lemma keeps_step b b' sp l : solvent b sp l → bank_ok b → pool_step b b' → keeps b b' sp.
Proof.
  intros Hso Hok Hs. pose proof (so_pool _ _ _ Hso) as Hpool. pose proof (so_token _ _ _ Hso) as Htok.
  destruct Hs as
    [amount accounts b' i1 i2 i3 src dst fee mint rest sp' x Hacc Hi1 Hr Hp Hmint Ha Hx Hfit [Hco _]
    |n accounts b' i1 i2 i3 src mint target rest sp' Hacc Hi1 Hr Hp Hmint Hn Hsrc [Hco _]
    |n accounts b' i1 li ri wd src target cancel rest sp' Hacc Hi1 Hr Hp Hn Hsrc [Hco Hkeys]
    |n accounts b' i1 li ri wd dst target cancel rest Hacc Hi1 Hr Hn [Hco Hkeys]
    |accounts b' i1 li wd res ri mint rent clock sys token users sp' Hacc Hi1 Hr Hp Hmint [Hco _]
    |accounts b' i1 vl res clock rest Hacc Hi1 Hr [Hco _]
    |accounts b' i1 oi ni fi rest Hacc Hi1 Hr [Hco Hkeys]];
    try (rewrite Hpool in Hp; injection Hp as <-); rewrite <- Hi1 in Hpool.
  - destruct (deposit_inv _ _ _ _ _ _ _ _ _ _ _ _ _ _ _ Hr Hacc Hpool Htok (bo_native _ Hok) Hco) as (x' & f & Hd).
    pose proof (dp_pool_amount _ _ _ _ _ _ _ _ _ _ _ _ _ _ Hd) as Hx'. rewrite Hx in Hx'. injection Hx' as <-.
    by eapply keeps_deposit.
  - destruct (withdraw_inv _ _ _ _ _ _ _ _ _ _ _ _ _ _ Hr Hacc Hpool Htok (bo_lamports _ Hok) Hn) as (x & Hw).
    by eapply keeps_withdraw.
  - rewrite Hacc in Hkeys. do 5 apply Forall_cons in Hkeys as [_ Hkeys].
    apply Forall_cons in Hkeys as [Hkt Hkeys]. apply Forall_cons in Hkeys as [Hkc _].
    destruct (credit_inv _ _ _ _ _ _ _ _ _ _ _ _ _ _ _ Hr Hacc Hpool Htok Hn Hkt Hkc)
      as (l' & cs & nat & _ & Hli & Hri & Hl & _ & _ & Hadd & Hcr).
    rewrite Hli, (so_credits _ _ _ Hso) in Hl. injection Hl as <-. by apply (keeps_credit b b' n li ri src sp l cs nat target cancel).
  - destruct (uncredit_inv _ _ _ _ _ _ _ _ _ _ _ _ _ _ _ Hr Hacc Hpool Htok)
      as (l' & cs & nat & Hli & Hri & Hl & _ & Hrem & Hcr).
    rewrite Hli, (so_credits _ _ _ Hso) in Hl. injection Hl as <-. by eapply keeps_uncredit.
  - pose proof (bo_range _ Hok reserve) as Hl. unfold reserve in Hl. rewrite <- Hi1 in Hl.
    destruct (pay_inv _ _ _ _ _ _ _ _ _ _ _ _ _ _ _ _ _ Hr Hacc Hpool Htok) as (l0 & av & paid & left_ & Hpc).
    + rewrite Hi1. exact (so_apart _ _ _ Hso).
    + done.
    + rewrite Hmint. exact (so_supply _ _ _ Hso).
    + by eapply keeps_pay.
  - destruct (update_inv _ _ _ _ _ _ _ _ _ _ _ Hr Hacc Hpool (bo_lamports _ Hok))
      as (l0 & epoch & total & _ & _ & _ & _ & _ & _ & He & Hrest & Hp').
    rewrite Hi1 in He, Hrest, Hp'. by apply (keeps_write b b' sp (with_update total epoch sp) l).
  - rewrite Hacc in Hkeys. do 2 apply Forall_cons in Hkeys as [_ Hkeys].
    apply Forall_cons in Hkeys as [Hkn Hkeys]. apply Forall_cons in Hkeys as [Hkf _].
    destruct (set_owner_inv _ _ _ _ _ _ _ _ _ _ _ Hr Hacc Hpool Hkn Hkf) as (_ & _ & _ & He & Hrest & Hp').
    rewrite Hi1 in He, Hrest, Hp'. by apply (keeps_write b b' sp (with_owner (ai_key ni) (ai_key fi) sp) l).
Qed.

Lemma keeps_others b b' sp l : solvent b sp l → others_step sp b b' → keeps b b' sp.
Proof.
  intros [Hpool Hcr Hwf Htok Hpo Hown Hap Hnn Hrm Hm Hsu How] [[Hd Hdo] [Hc Hco] [Ht Htm] [Hs Hsa] Hr].
  exists sp, l. split_and!; [|done|lia]. split; try done.
  - unfold pool_at in *. by rewrite Hd.
  - unfold credits_at in *. by rewrite Hc.
  - by rewrite Hdo.
  - by rewrite Hco.
  - by rewrite Htm.
  - apply is_Some_authority. rewrite Hsa. by apply is_Some_authority.
  - lia.
  - lia.
Qed.

(** The banks that come about from one of them by steps of the pool and of others. *)
Inductive reachable (b0 : Bank) : Bank → Prop :=
  | reach_start : reachable b0 b0
  | reach_pool b b' : reachable b0 b → bank_ok b → pool_step b b' → reachable b0 b'
  | reach_others b b' sp :
      reachable b0 b → pool_at b pool = Some sp → others_step sp b b' → reachable b0 b'.


(** ** What a deposit and a withdrawal do to the price *)

Lemma deposited_price amount i1 wd res src dst fee mint sp b b' x f :
  wf_pool sp → 0 <= amount → sp_stake_total sp + amount < u64_max_plus_1 →
  sp_pool_total sp + x < u64_max_plus_1 →
  deposited p amount i1 wd res src dst fee mint sp b b' x f →
  pool_at b' (ai_key i1) = Some (with_totals (sp_stake_total sp + amount) (sp_pool_total sp + x) sp) ∧
  0 <= x ∧ x * sp_stake_total sp <= amount * sp_pool_total sp.
Proof.
  intros Hwf Ha Hs Hp Hd. destruct (pool_totals_u64 sp Hwf) as [Hst Hpt]. unfold is_u64 in *.
  destruct (deposit_price sp amount x Hwf Ha (dp_pool_amount _ _ _ _ _ _ _ _ _ _ _ _ _ _ Hd)) as [Hx0 Hx].
  split; [|done]. rewrite (dp_pool _ _ _ _ _ _ _ _ _ _ _ _ _ _ Hd). rewrite !wadd_small by lia. done.
Qed.

Lemma withdrawn_price n i1 res src mint target sp b b' x :
  wf_pool sp → 0 <= n → n <= sp_pool_total sp →
  withdrawn p n i1 res src mint target sp b b' x →
  pool_at b' (ai_key i1) = Some (with_totals (sp_stake_total sp - x) (sp_pool_total sp - n) sp) ∧
  0 <= x ∧ x * sp_pool_total sp <= n * sp_stake_total sp.
Proof.
  intros Hwf Hn Hle Hw. destruct (pool_totals_u64 sp Hwf) as [Hst Hpt]. unfold is_u64 in *.
  destruct (withdraw_price sp n x Hwf Hn (wd_stake_amount _ _ _ _ _ _ _ _ _ _ _ Hw)) as (Hx0 & _ & Hx & Hxs).
  specialize (Hxs Hle). split; [|done]. rewrite (wd_pool _ _ _ _ _ _ _ _ _ _ _ Hw).
  rewrite !wsub_small by lia. done.
Qed.

(** C9: a deposit never makes the pool tokens of the others worth less, and neither
    does a withdrawal of pool tokens: the lamports per token do not fall, as long as
    the sums fit into 64 bits. *)
Theorem price_never_falls amount accounts b b' sp l i1 i2 i3 i4 i5 i6 i7 rest :
  solvent b sp l → bank_ok b → entered b accounts → 0 <= amount →
  accounts = i1 :: i2 :: i3 :: i4 :: i5 :: i6 :: i7 :: rest → ai_key i1 = pool →
  (process_deposit p amount accounts b = inr (tt, b') ∧
   sp_stake_total sp + amount < u64_max_plus_1 ∧
   (∀ x, calc_pool_deposit_amount sp amount = Some x → sp_pool_total sp + x < u64_max_plus_1)) ∨
  (process_withdraw p amount accounts b = inr (tt, b') ∧ ai_key i5 = sp_pool_mint sp) →
  ∃ sp', pool_at b' pool = Some sp' ∧ price_le sp sp'.
Proof.
  intros Hso Hok [Hco _] Ha Hacc Hi1 Hor. pose proof (so_pool _ _ _ Hso) as Hpool.
  pose proof (pool_at_wf _ _ _ Hpool) as Hwf. rewrite <- Hi1 in Hpool |- *.
  pose proof (so_token _ _ _ Hso) as Htok. unfold price_le.
  destruct Hor as [(Hr & Hs & Hfit)|(Hr & Hm)].
  - destruct (deposit_inv _ _ _ _ _ _ _ _ _ _ _ _ _ _ _ Hr Hacc Hpool Htok (bo_native _ Hok) Hco) as (x & f & Hd).
    destruct (deposited_price _ _ _ _ _ _ _ _ _ _ _ _ _ Hwf Ha Hs
      (Hfit _ (dp_pool_amount _ _ _ _ _ _ _ _ _ _ _ _ _ _ Hd)) Hd) as (Hp' & Hx0 & Hx).
    eexists. split; [exact Hp'|]. cbn. nia.
  - destruct (withdraw_inv _ _ _ _ _ _ _ _ _ _ _ _ _ _ Hr Hacc Hpool Htok (bo_lamports _ Hok) Ha) as (x & Hw).
    pose proof (wd_supply _ _ _ _ _ _ _ _ _ _ _ Hw) as Hsup. rewrite Hm in Hsup.
    pose proof (so_supply _ _ _ Hso) as Hss.
    destruct (withdrawn_price _ _ _ _ _ _ _ _ _ _ Hwf Ha ltac:(lia) Hw) as (Hp' & Hx0 & Hx).
    eexists. split; [exact Hp'|]. cbn. nia.
Qed.

(** C8: depositing and withdrawing again is no profit: whoever deposits and then
    withdraws at most the pool tokens the deposit made gets at most the lamports of
    the deposit back, whatever the price and the rounding. *)
Theorem depositor_cannot_profit amount n accounts1 accounts2 b b1 b2 sp x
    i1 i2 i3 i4 i5 i6 i7 rest j1 j2 j3 j4 j5 target rest2 :
  pool_at b pool = Some sp → sp_token_program_id sp = spl_token_id → native_ok b → bank_u64 b1 →
  coherent b accounts1 → 0 <= amount → 0 <= n <= x →
  accounts1 = i1 :: i2 :: i3 :: i4 :: i5 :: i6 :: i7 :: rest → ai_key i1 = pool →
  accounts2 = j1 :: j2 :: j3 :: j4 :: j5 :: target :: rest2 → ai_key j1 = pool →
  calc_pool_deposit_amount sp amount = Some x →
  sp_stake_total sp + amount < u64_max_plus_1 → sp_pool_total sp + x < u64_max_plus_1 →
  process_deposit p amount accounts1 b = inr (tt, b1) →
  process_withdraw p n accounts2 b1 = inr (tt, b2) →
  lam b2 (ai_key target) <= lam b1 (ai_key target) + amount.
Proof.
  intros Hpool Htok Hnat Hu Hco Ha Hn Hacc1 Hi1 Hacc2 Hj1 Hx Hs Hp Hr1 Hr2.
  pose proof (pool_at_wf _ _ _ Hpool) as Hwf. rewrite <- Hi1 in Hpool.
  destruct (deposit_inv _ _ _ _ _ _ _ _ _ _ _ _ _ _ _ Hr1 Hacc1 Hpool Htok Hnat Hco) as (x' & f & Hd).
  pose proof (dp_pool_amount _ _ _ _ _ _ _ _ _ _ _ _ _ _ Hd) as Hx'. rewrite Hx in Hx'. injection Hx' as <-.
  destruct (deposited_price _ _ _ _ _ _ _ _ _ _ _ _ _ Hwf Ha Hs Hp Hd) as (Hp1 & Hx0 & Hxs).
  rewrite Hi1, <- Hj1 in Hp1. pose proof (pool_at_wf _ _ _ Hp1) as Hwf1.
  destruct (withdraw_inv _ _ _ _ _ _ _ _ _ _ _ _ _ _ Hr2 Hacc2 Hp1 Htok Hu (proj1 Hn)) as (y & Hw).
  destruct (withdraw_price _ _ _ Hwf1 (proj1 Hn) (wd_stake_amount _ _ _ _ _ _ _ _ _ _ _ Hw)) as (Hy0 & Hpos & Hy & _).
  cbn in Hpos, Hy. destruct (pool_totals_u64 sp Hwf) as [Hst Hpt]. unfold is_u64 in *.
  assert (Hya : y <= amount).
  { apply (Z.mul_le_mono_pos_r _ _ (sp_pool_total sp + x)); [lia|]. nia. }
  rewrite (ef_lam _ _ _ _ _ _ _ (wd_effect _ _ _ _ _ _ _ _ _ _ _ Hw)). unfold both. rewrite at_eq.
  unfold at_. destruct (decide _); lia.
Qed.

(** ** When a withdrawal is accepted *)

(** What the processor asks of a withdrawal.  The mint need not be the pool's and the
    account tokens are burnt from may be anybody's that the withdraw authority can
    spend. *)
Record withdraw_conditions (n : Z) (i1 wd res src mint target ri sys token : AccountInfo)
    (b : Bank) (sp : StakePool) (x : Z) (r : Rent) (a : TokenAccount) (m : Mint) : Prop := {
  wc_amount : 0 < n;
  wc_pool : ai_key i1 = pool ∧ ai_owner i1 = p ∧ ac_owner (b pool) = p ∧ pool_at b pool = Some sp;
  wc_initialized : is_initialized (sp_version sp) = true;
  wc_token : ai_key token = spl_token_id ∧ sp_token_program_id sp = spl_token_id;
  wc_authority : create_program_address
    (authority_seeds pool AUTHORITY_WITHDRAW (sp_withdraw_bump_seed sp)) p = Some (ai_key wd);
  wc_reserve : ai_key res = reserve ∧ ac_owner (b reserve) = system_program_id ∧
    ac_data (b reserve) = [];
  wc_rent : Rent_from_account_info ri b = inr r;
  wc_lamports : calc_lamports_amount sp n = Some x;
  wc_left : MIN_RESERVE_BALANCE <= lam b reserve - x ∧ minimum_balance r 0 <= lam b reserve - x;
  wc_fits : lam b (ai_key target) + x < u64_max_plus_1;
  wc_account : token_at b (ai_key src) = Some a ∧ ta_mint a = ai_key mint ∧ ta_is_native a = false ∧
    may_spend (ai_key wd) n a;
  wc_mint : mint_at b (ai_key mint) = Some m ∧ n <= mi_supply m;
}.

Lemma pool_data_long b k sp : pool_at b k = Some sp → (STAKE_POOL_LEN ≤ length (ac_data (b k)))%nat.
Proof.
  unfold pool_at, deserialize_stake_pool. destruct (Nat.ltb_spec (length (ac_data (b k))) STAKE_POOL_LEN); [done|lia].
Qed.

Lemma ensure_run c e b : c = true → ensure c e b = inr (tt, b).
Proof. by intros ->. Qed.

Lemma read_pool_run i b sp :
  ai_key i = pool → ai_owner i = p → pool_at b pool = Some sp → is_initialized (sp_version sp) = true →
  read_pool p i b = inr (sp, b).
Proof.
  intros Hi Ho Hp Hv. unfold read_pool, pool_at in *. rewrite <- Hi in Hp.
  erewrite P_bind_run by (apply ensure_run, bytes_eqb_true; done).
  erewrite P_bind_run by done.
  destruct (deserialize_stake_pool _) eqn:E; [done|]. injection Hp as ->.
  erewrite P_bind_run by done. by erewrite P_bind_run by (by apply ensure_run).
Qed.

Lemma check_withdraw_run i wd sp b :
  ai_key i = pool →
  create_program_address (authority_seeds pool AUTHORITY_WITHDRAW (sp_withdraw_bump_seed sp)) p = Some (ai_key wd) →
  check_authority_withdraw sp (ai_key wd) p (ai_key i) b = inr (tt, b).
Proof.
  intros Hi Hau. unfold check_authority_withdraw, check_authority, authority_id. rewrite Hi, Hau. cbn.
  by apply ensure_run, bytes_eqb_true.
Qed.

Lemma check_reserve_run i res e z b :
  ai_key i = pool → ai_key res = reserve → get_reserve_adderess p pool = (reserve, z) →
  check_reserve p i res e b = inr (z, b).
Proof.
  intros Hi Hr Hg. unfold check_reserve. rewrite Hi, Hg, Hr. cbn.
  by rewrite (proj2 (bytes_eqb_true _ _) eq_refl).
Qed.

Lemma write_pool_run i sp b :
  (STAKE_POOL_LEN ≤ length (ac_data (b (ai_key i))))%nat → ∃ b', write_pool i sp b = inr (tt, b').
Proof.
  intros Hl. unfold write_pool, write_data, serialize_stake_pool.
  rewrite (proj2 (Nat.ltb_ge _ _)) by done. by eexists.
Qed.

Lemma invoke_run q infos seeds ix b b' :
  invoke_signed_by q infos seeds ix b = inr b' → invoke_signed q infos seeds ix b = inr (tt, b').
Proof. unfold invoke_signed. by intros ->. Qed.

Lemma reserve_signs infos z i1 :
  ai_key i1 = pool → get_reserve_adderess p pool = (reserve, z) →
  signs p infos [authority_seeds (ai_key i1) AUTHORITY_RESERVE z] reserve.
Proof.
  intros Hi Hg. right. eexists. split; [apply list_elem_of_singleton; done|].
  rewrite Hi. apply find_creates in Hg as [_ Hg]. exact Hg.
Qed.

Lemma withdraw_accepted n i1 wd res src mint target ri sys token rest b sp x r a m :
  bank_ok b → withdraw_conditions n i1 wd res src mint target ri sys token b sp x r a m →
  ∃ b', process_withdraw p n (i1 :: wd :: res :: src :: mint :: target :: ri :: sys :: token :: rest) b
        = inr (tt, b').
Proof.
  intros Hok [Hn (Hi & Hio & Hpo & Hp) Hv (Ht & Hst) Hau (Hr & Hro & Hrd) Hrent Hx (Hmin & Hex) Hfit
    (Ha & Ham & Hnat & Hsp) (Hm & Hms)].
  pose proof (pool_at_wf _ _ _ Hp) as Hwf.
  destruct (withdraw_price sp n x Hwf ltac:(lia) Hx) as (Hx0 & _).
  pose proof (bo_lamports _ Hok reserve) as Hu. unfold is_u64 in Hu.
  assert (Hmr : 0 <= MIN_RESERVE_BALANCE) by done.
  destruct (get_reserve_adderess p pool) as [rk z] eqn:Hg.
  assert (rk = reserve) as -> by (unfold reserve; by rewrite Hg).
  unfold process_withdraw.
  erewrite P_bind_run by (apply ensure_run, negb_true_iff, Z.eqb_neq; lia).
  do 7 (erewrite P_bind_run by done; cbv beta iota).
  erewrite P_bind_run by (unfold rent_from; rewrite Hrent; done).
  do 2 (erewrite P_bind_run by done; cbv beta iota).
  erewrite P_bind_run by (by apply read_pool_run).
  erewrite P_bind_run by (apply ensure_run, bytes_eqb_true; congruence).
  erewrite P_bind_run by (by apply check_withdraw_run).
  erewrite P_bind_run by (by apply check_reserve_run).
  erewrite P_bind_run by (rewrite Hx; done).
  erewrite P_bind_run by done. rewrite Hr. fold (lam b reserve).
  erewrite P_bind_run.
  2: { apply ensure_run. rewrite !wsub_small by lia. rewrite is_exempt_spec.
       rewrite (proj2 (Z.ltb_ge _ _)), (proj2 (Z.ltb_ge _ _)), (proj2 (Z.leb_le _ _)) by lia. done. }
  destruct (burn_accepted p [src; mint; wd; token] [authority_seeds (ai_key i1) AUTHORITY_WITHDRAW (sp_withdraw_bump_seed sp)]
    (ai_key src) (ai_key mint) (ai_key wd) n b m a) as [b1 Hb1]; try done; try lia.
  { right. eexists. split; [apply list_elem_of_singleton; done|]. by rewrite Hi. }
  pose proof (burn_effect _ _ _ _ _ _ _ _ _ Hb1) as (_ & Ho1 & Hf1 & Hmv1 & _).
  erewrite P_bind_run by (unfold token_burn; rewrite Ht; by apply invoke_run).
  assert (Hsame : ∀ k, ac_owner (b k) ≠ spl_token_id → ac_data (b1 k) = ac_data (b k)).
  { intros k Hk. apply Hf1. pose proof (token_owner _ _ _ Ha). pose proof (mint_owner _ _ _ Hm). not_in; congruence. }
  assert (Hl1 : ∀ k, ac_lamports (b1 k) = lam b k).
  { intros k. pose proof (moved_0 _ _ _ Hmv1 k) as Hk. unfold none in Hk. unfold lam in *. lia. }
  destruct (transfer_accepted p [sys; res; target] [authority_seeds (ai_key i1) AUTHORITY_RESERVE z]
    reserve (ai_key target) x b1) as [b2 Hb2].
  { by apply reserve_signs. }
  { rewrite Ho1. done. }
  { rewrite Hsame; [done|]. rewrite Hro. apply programs_differ. }
  { rewrite Hl1. lia. }
  { rewrite Hl1. done. }
  pose proof (transfer_effect _ _ _ _ _ _ _ _ Hb2) as (_ & _ & _ & Hf2 & _).
  erewrite P_bind_run by (by apply invoke_run).
  apply write_pool_run. rewrite Hi. destruct (Hf2 pool) as [-> _]; [not_in|].
  rewrite Hsame by congruence. by eapply pool_data_long.
Qed.

(** C37: the processor pays for any token.  It does not compare the mint of the burnt
    tokens with the pool's: whoever makes a mint of their own and lets the withdraw
    authority spend its tokens is paid lamports from the reserve for them as if they
    were pool tokens, while the supply of pool tokens stays what it was. *)
Theorem withdraw_pays_for_any_token n i1 wd res src mint target ri sys token rest b sp x r a m :
  bank_ok b → withdraw_conditions n i1 wd res src mint target ri sys token b sp x r a m →
  ai_key mint ≠ sp_pool_mint sp → ai_key target ≠ reserve → sp_pool_mint sp ≠ pool →
  ∃ b', process_withdraw p n (i1 :: wd :: res :: src :: mint :: target :: ri :: sys :: token :: rest) b
          = inr (tt, b') ∧
    lam b' (ai_key target) = lam b (ai_key target) + x ∧ lam b' reserve = lam b reserve - x ∧
    sup b' (sp_pool_mint sp) = sup b (sp_pool_mint sp).
Proof.
  intros Hok Hc Hmint Htar Hpm. destruct (withdraw_accepted _ _ _ _ _ _ _ _ _ _ rest _ _ _ _ _ _ Hok Hc) as [b' Hr].
  destruct (wc_pool _ _ _ _ _ _ _ _ _ _ _ _ _ _ _ _ Hc) as (Hi & _ & _ & Hp). rewrite <- Hi in Hp.
  pose proof (wc_amount _ _ _ _ _ _ _ _ _ _ _ _ _ _ _ _ Hc) as Hn.
  destruct (withdraw_inv _ _ _ _ _ _ _ _ _ _ _ _ _ _ Hr eq_refl Hp
    (proj2 (wc_token _ _ _ _ _ _ _ _ _ _ _ _ _ _ _ _ Hc)) (bo_lamports _ Hok) ltac:(lia)) as [y Hw].
  pose proof (wd_stake_amount _ _ _ _ _ _ _ _ _ _ _ Hw) as Hy.
  rewrite (wc_lamports _ _ _ _ _ _ _ _ _ _ _ _ _ _ _ _ Hc) in Hy. injection Hy as <-.
  pose proof (wd_effect _ _ _ _ _ _ _ _ _ _ _ Hw) as He.
  destruct (wc_reserve _ _ _ _ _ _ _ _ _ _ _ _ _ _ _ _ Hc) as (Hres & _ & _). rewrite Hres in He.
  exists b'. split; [done|]. rewrite !(ef_lam _ _ _ _ _ _ _ He). unfold both.
  rewrite !at_eq, (at_ne reserve), (at_ne (ai_key target)) by done.
  rewrite (effect_sup _ _ _ _ _ _ _ _ He), (at_ne (ai_key mint)) by (try not_in; congruence).
  split_and!; lia.
Qed.

(** ** When a deposit is accepted *)

(** [n] more tokens of a mint can be minted into an account. *)
Definition mintable (mint authority k : buffer) (n : Z) (b : Bank) : Prop :=
  ∃ m a, mint_at b mint = Some m ∧ mi_authority m = Some authority ∧ mi_supply m + n < u64_max_plus_1 ∧
    token_at b k = Some a ∧ ta_mint a = mint ∧ ta_state a = Initialized ∧ ta_is_native a = false ∧
    ta_amount a + n < u64_max_plus_1.

Lemma mintable_frame mint authority k n b b' :
  frame [] b b' → mintable mint authority k n b → mintable mint authority k n b'.
Proof.
  clear p_not_token p_not_system. intros Hf (m & a & Hm & Hrest). exists m, a. unfold mint_at, token_at in *.
  destruct (Hf mint) as [-> ->]; [set_solver|]. by destruct (Hf k) as [-> ->]; [set_solver|].
Qed.

(** The accounts of other programs than the token program keep their data. *)
Definition untouched (b b' : Bank) : Prop :=
  ∀ k, ac_owner (b k) ≠ spl_token_id → ac_data (b' k) = ac_data (b k) ∧ ac_owner (b' k) = ac_owner (b k).

(** Minting a part into one account leaves room for the rest in another, or the same. *)
Lemma mint_accepted q infos seeds mint authority dst k x y b :
  signs q infos seeds authority → 0 <= x → 0 <= y →
  mintable mint authority dst (x + y) b → mintable mint authority k (x + y) b →
  ∃ b', invoke_signed_by q infos seeds (Token spl_token_id (Tk_MintTo mint dst authority x)) b = inr b' ∧
    mintable mint authority k y b' ∧ untouched b b'.
Proof.
  clear p_not_token p_not_system. intros Hs Hx Hy (m & a & Hm & Hau & Hsu & Ha & Hk & Hst & Hnat & Hsum)
    (m' & d & Hm' & _ & _ & Hd & Hdk & Hdst & Hdnat & Hdsum).
  rewrite Hm in Hm'. injection Hm' as <-.
  destruct (mint_to_accepted q infos seeds mint dst authority x b m a) as [b' Hb']; try done; try lia.
  exists b'. split; [done|].
  pose proof (mint_to_effect _ _ _ _ _ _ _ _ _ Hb')
    as (_ & _ & Hf & _ & m1 & a1 & a' & Hm1 & Ha1 & _ & _ & _ & Hm' & Ha' & (Hn & HM & _ & HS & HN)).
  rewrite Hm in Hm1. injection Hm1 as <-. rewrite Ha in Ha1. injection Ha1 as <-.
  split; cycle 1.
  { intros k' Hk'. apply Hf. pose proof (token_owner _ _ _ Ha). pose proof (mint_owner _ _ _ Hm). not_in; congruence. }
  assert (Hmk : mint ≠ k) by (intros E; rewrite E in Hm; exact (token_not_mint _ _ _ _ Hd Hm)).
  destruct (decide (k = dst)) as [->|Hne].
  - rewrite Ha in Hd. injection Hd as <-.
    exists (with_supply (mi_supply m + x) m), a'. split_and!; (done || congruence || cbn; lia).
  - exists (with_supply (mi_supply m + x) m), d. split_and!; try done; try (cbn; lia).
    unfold token_at in *. by destruct (Hf k) as [-> ->]; [set_solver|].
Qed.

(** The depositor's tokens and the owner's fee. *)
Lemma mint_both x f i1 wd dst fee mint token sp b :
  ai_key i1 = pool → ai_key token = spl_token_id →
  create_program_address (authority_seeds pool AUTHORITY_WITHDRAW (sp_withdraw_bump_seed sp)) p = Some (ai_key wd) →
  0 <= f <= x → mintable (ai_key mint) (ai_key wd) (ai_key dst) x b →
  mintable (ai_key mint) (ai_key wd) (ai_key fee) x b →
  ∃ b1 b2,
    token_mint_to p (ai_key i1) token mint dst wd AUTHORITY_WITHDRAW (sp_withdraw_bump_seed sp) (x - f) b
      = inr (tt, b1) ∧
    token_mint_to p (ai_key i1) token mint fee wd AUTHORITY_WITHDRAW (sp_withdraw_bump_seed sp) f b1
      = inr (tt, b2) ∧ untouched b b2.
Proof.
  clear p_not_token p_not_system. intros Hi Ht Hau Hfx Hd Hfm. unfold token_mint_to. rewrite Ht.
  assert (Hw : ∀ infos, signs p infos [authority_seeds (ai_key i1) AUTHORITY_WITHDRAW (sp_withdraw_bump_seed sp)] (ai_key wd)).
  { intros infos. right. eexists. split; [apply list_elem_of_singleton; done|]. by rewrite Hi. }
  replace x with (x - f + f) in Hd, Hfm by lia.
  destruct (mint_accepted p [mint; dst; wd; token] _ _ _ _ _ (x - f) f b (Hw _)
    ltac:(lia) ltac:(lia) Hd Hfm) as (b1 & Hb1 & Hfm1 & Hu1).
  replace f with (f + 0) in Hfm1 by lia.
  destruct (mint_accepted p [mint; fee; wd; token] _ _ _ _ _ f 0 b1 (Hw _)
    ltac:(lia) ltac:(lia) Hfm1 Hfm1) as (b2 & Hb2 & _ & Hu2).
  exists b1, b2. split_and!; [by apply invoke_run|by apply invoke_run|].
  intros k Hk. destruct (Hu1 k Hk) as [Hd1 Ho1]. destruct (Hu2 k) as [Hd2 Ho2]; [congruence|].
  split; congruence.
Qed.

(** What the processor asks of a deposit from an account of the system program. *)
Record deposit_conditions (n : Z) (i1 wd res src dst fee mint ri sys token : AccountInfo)
    (b : Bank) (sp : StakePool) (x f : Z) (r : Rent) : Prop := {
  dc_amount : 0 < n < 2 ^ 63;
  dc_pool : ai_key i1 = pool ∧ ai_owner i1 = p ∧ ac_owner (b pool) = p ∧ pool_at b pool = Some sp;
  dc_initialized : is_initialized (sp_version sp) = true;
  dc_token : ai_key token = spl_token_id ∧ sp_token_program_id sp = spl_token_id;
  dc_authority : create_program_address
    (authority_seeds pool AUTHORITY_WITHDRAW (sp_withdraw_bump_seed sp)) p = Some (ai_key wd);
  dc_reserve : ai_key res = reserve;
  dc_fee_account : ai_key fee = sp_owner_fee_account sp;
  dc_rent : Rent_from_account_info ri b = inr r;
  dc_minimum : min_reserve_balance r <= lam b reserve + n;
  dc_tokens : calc_pool_deposit_amount sp n = Some x ∧ calc_fee_amount sp x = Some f ∧ 0 <= f <= x;
  dc_source : ai_is_signer src = true ∧ ai_owner src = system_program_id ∧
    ac_owner (b (ai_key src)) = system_program_id ∧ ac_data (b (ai_key src)) = [] ∧
    n <= lam b (ai_key src);
  dc_mintable : mintable (ai_key mint) (ai_key wd) (ai_key dst) x b ∧
    mintable (ai_key mint) (ai_key wd) (ai_key fee) x b;
}.

Lemma deposit_accepted n i1 wd res src dst fee mint ri sys token rest b sp x f r :
  bank_ok b → deposit_conditions n i1 wd res src dst fee mint ri sys token b sp x f r →
  ∃ b', process_deposit p n
          (i1 :: wd :: res :: src :: dst :: fee :: mint :: ri :: sys :: token :: rest) b = inr (tt, b').
Proof.
  clear p_not_system. intros Hok [Hn (Hi & Hio & Hpo & Hp) Hv (Ht & Hst) Hau Hr Hfee Hrent Hmin (Hx & Hf & Hfx)
    (Hsig & Hso & Hsb & Hsd & Hsl) (Hd & Hfm)].
  pose proof (bo_range _ Hok reserve) as Hu.
  assert (Hfits : wadd (lam b reserve) n = lam b reserve + n).
  { apply wadd_small. unfold u64_max_plus_1. lia. }
  destruct (get_reserve_adderess p pool) as [rk z] eqn:Hg.
  assert (rk = reserve) as -> by (unfold reserve; by rewrite Hg).
  unfold process_deposit.
  erewrite P_bind_run by (apply ensure_run, negb_true_iff, Z.eqb_neq; lia).
  do 8 (erewrite P_bind_run by done; cbv beta iota).
  erewrite P_bind_run by (unfold rent_from; rewrite Hrent; done).
  do 2 (erewrite P_bind_run by done; cbv beta iota).
  rewrite (proj2 (bytes_eqb_true _ _) Hso). erewrite P_bind_run by done.
  erewrite P_bind_run by (by apply read_pool_run).
  erewrite P_bind_run by (by apply check_withdraw_run).
  erewrite P_bind_run by (by apply check_reserve_run).
  erewrite P_bind_run by (apply ensure_run, bytes_eqb_true; done).
  erewrite P_bind_run by (apply ensure_run, bytes_eqb_true; congruence).
  erewrite P_bind_run by done. rewrite Hr. fold (lam b reserve). cbv zeta. rewrite Hfits.
  erewrite P_bind_run by (by apply ensure_run, Z.leb_le).
  erewrite P_bind_run by (rewrite Hx; done). erewrite P_bind_run by (rewrite Hf; done).
  erewrite P_bind_run.
  2: { unfold checked_sub. rewrite (proj2 (Z.ltb_ge _ _)) by lia. done. }
  destruct (transfer_accepted p [src; res; sys] [] (ai_key src) reserve n b) as [b1 Hb1]; try done.
  { left. exists src. split_and!; [set_solver|done|done]. }
  { unfold lam in Hsl. lia. }
  { unfold lam in Hu. unfold u64_max_plus_1. lia. }
  pose proof (transfer_effect _ _ _ _ _ _ _ _ Hb1) as (_ & _ & _ & Hf1 & _).
  erewrite P_bind_run.
  2: { erewrite P_bind_run by (apply ensure_run, Z.leb_le; etransitivity; [apply min_reserve_ge|exact Hmin]).
       by apply invoke_run. }
  apply (mintable_frame _ _ _ _ _ _ Hf1) in Hd, Hfm.
  destruct (mint_both x f i1 wd dst fee mint token sp b1 Hi Ht Hau Hfx Hd Hfm) as (b2 & b3 & Hb2 & Hb3 & Hun).
  erewrite P_bind_run by exact Hb2. erewrite P_bind_run by exact Hb3.
  apply write_pool_run. rewrite Hi. destruct (Hf1 pool) as [Hd1 Ho1]; [not_in|].
  destruct (Hun pool) as [-> _]; [by rewrite Ho1, Hpo|]. rewrite Hd1. by eapply pool_data_long.
Qed.

(** ** Credits out of the credit reserve itself *)

Lemma read_credits_run sp li ri b l :
  ai_key li = sp_credit_list sp → ai_key ri = sp_credit_reserve sp →
  credits_at b (sp_credit_list sp) = Some l → wf_credits l → read_credits sp li ri b = inr (l, b).
Proof.
  intros Hli Hri Hl (Hv & _). unfold read_credits, credits_at in *. rewrite <- Hli in Hl.
  erewrite P_bind_run by (apply ensure_run, bytes_eqb_true; done).
  erewrite P_bind_run by done.
  destruct (deserialize_credit_list _) eqn:E; [done|]. injection Hl as ->.
  erewrite P_bind_run by done.
  erewrite P_bind_run by (apply ensure_run, Z.ltb_lt; lia).
  by erewrite P_bind_run by (apply ensure_run, bytes_eqb_true; done).
Qed.

Lemma write_credits_run li l0 l b :
  credits_at b (ai_key li) = Some l0 → (length (cl_credits l) ≤ MAX_CREDIT_RECORDS)%nat →
  ∃ b', write_credits li l b = inr (tt, b').
Proof.
  intros Hl Hlen. unfold write_credits, write_data, serialize_credit_list, credits_at, deserialize_credit_list in *.
  destruct (_ <? CREDIT_LIST_LEN)%nat; [done|]. rewrite (proj2 (Nat.ltb_ge _ _)) by done. by eexists.
Qed.

(** C38: a credit can be had for nothing.  The processor does not ask that the tokens of
    a credit come from another account than the credit reserve, which the withdraw
    authority owns: anybody can name it as the source, without any signature, and is
    entered as a creditor of [n] tokens while no token moves. *)
Theorem credit_from_reserve_is_free n i1 li ri wd target cancel token rest b sp l a :
  solvent b sp l → bank_ok b → is_initialized (sp_version sp) = true → 0 < n → is_u64 n →
  ai_key i1 = pool → ai_owner i1 = p → ai_key li = sp_credit_list sp →
  ai_key ri = sp_credit_reserve sp → ai_key token = spl_token_id →
  wf_key (ai_key target) → wf_key (ai_key cancel) → ai_owner target = system_program_id →
  create_program_address (authority_seeds pool AUTHORITY_WITHDRAW (sp_withdraw_bump_seed sp)) p
    = Some (ai_key wd) →
  token_at b (sp_credit_reserve sp) = Some a → ta_owner a = ai_key wd → ta_delegate a = None →
  ta_state a = Initialized → n <= ta_amount a →
  find_credit (ai_key target) (cl_credits l) = None → (length (cl_credits l) < MAX_CREDIT_RECORDS)%nat →
  ∃ b' cs, process_credit p n (i1 :: li :: ri :: wd :: ri :: target :: cancel :: token :: rest) b
        = inr (tt, b') ∧
    credits_at b' (sp_credit_list sp) = Some (with_credits cs l) ∧
    cs = cl_credits l ++ [{| cr_sol_target := ai_key target; cr_cancel_authority := ai_key cancel;
                             cr_token_amount := n |}] ∧
    (∀ k, k ≠ sp_credit_list sp → tok b' k = tok b k) ∧ (∀ k, lam b' k = lam b k).
Proof.
  intros Hso Hok Hv Hn Hu Hi Hio Hli Hri Ht Hkt Hkc Hto Hau Ha Hao Had Has Han Hfind Hlen.
  pose proof (so_pool _ _ _ Hso) as Hp. pose proof (so_wf _ _ _ Hso) as Hwf.
  set (cs := cl_credits l ++ [{| cr_sol_target := ai_key target; cr_cancel_authority := ai_key cancel;
                                 cr_token_amount := n |}]).
  assert (Hadd : add_credit (ai_key target) (ai_key cancel) n (cl_credits l) = inr cs).
  { unfold add_credit. rewrite Hfind, (proj2 (Nat.leb_gt _ _)) by done. done. }
  assert (Hnat : ta_is_native a = false).
  { rewrite (bo_native _ Hok _ _ Ha). destruct (bytes_eqb _ _) eqn:E; [|done]. apply bytes_eqb_true in E.
    pose proof (so_reserve_mint _ _ _ Hso) as Hm. rewrite Ha in Hm. injection Hm as Hm.
    destruct (so_not_native _ _ _ Hso). congruence. }
  destruct (token_transfer_accepted p [ri; ri; wd]
    [authority_seeds (ai_key i1) AUTHORITY_WITHDRAW (sp_withdraw_bump_seed sp)]
    (sp_credit_reserve sp) (sp_credit_reserve sp) (ai_key wd) n b a a) as [b1 Hb1]; try done; try lia.
  { right. eexists. split; [apply list_elem_of_singleton; done|]. by rewrite Hi. }
  { split_and!; [done|done|]. rewrite decide_False by congruence. done. }
  pose proof (token_transfer_effect _ _ _ _ _ _ _ _ _ Hb1) as (_ & _ & Hf1 & _).
  destruct (reserve_account b sp l Hso) as (_ & _ & _ & _ & Hc3 & _).
  destruct (write_credits_run li l (with_credits cs l) b1) as [b2 Hb2].
  { rewrite Hli. unfold credits_at. destruct (Hf1 (sp_credit_list sp)) as [-> _]; [not_in|].
    exact (so_credits _ _ _ Hso). }
  { unfold cs. cbn [cl_credits with_credits]. rewrite length_app. cbn. lia. }
  assert (Hrun : process_credit p n (i1 :: li :: ri :: wd :: ri :: target :: cancel :: token :: rest) b
    = inr (tt, b2)).
  { unfold process_credit. erewrite P_bind_run by (apply ensure_run, negb_true_iff, Z.eqb_neq; lia).
    do 8 (erewrite P_bind_run by done; cbv beta iota).
    erewrite P_bind_run by (by apply read_pool_run).
    erewrite P_bind_run by (apply ensure_run, bytes_eqb_true; rewrite Ht; exact (so_token _ _ _ Hso)).
    erewrite P_bind_run by (apply read_credits_run; [done|done|exact (so_credits _ _ _ Hso)|done]).
    erewrite P_bind_run by (apply ensure_run, bytes_eqb_true; done).
    erewrite P_bind_run by (rewrite Hadd; done).
    erewrite P_bind_run by (apply invoke_run; rewrite Ht, Hri; exact Hb1). exact Hb2. }
  rewrite <- Hi in Hp.
  destruct (credit_inv _ _ _ _ _ _ _ _ _ _ _ _ _ _ _ Hrun eq_refl Hp (so_token _ _ _ Hso) Hu Hkt Hkc)
    as (l' & cs' & nat & _ & _ & _ & Hl' & _ & _ & Hadd' & Hcr).
  rewrite Hli, (so_credits _ _ _ Hso) in Hl'. injection Hl' as <-. rewrite Hadd in Hadd'. injection Hadd' as <-.
  exists b2, cs. split_and!; [done| |done| |].
  - rewrite <- Hli. exact (ce_list _ _ _ _ _ _ _ _ Hcr).
  - intros k Hk. rewrite (effect_tok _ _ _ _ _ _ _ _ (ce_effect _ _ _ _ _ _ _ _ Hcr)) by (not_in; congruence).
    unfold both, at_. destruct (decide _); lia.
  - apply (credited_lamports _ _ _ _ _ _ _ _ _ _ Hso Hok Hcr). rewrite Hri. exact (so_reserve_mint _ _ _ Hso).
Qed.

(** ** Cancelling a credit *)

Lemma find_credit_app_none k cs c :
  find_credit k cs = None → cr_sol_target c = k → find_credit k (cs ++ [c]) = Some (length cs, c).
Proof.
  intros Hf Hk. induction cs as [|d cs IH]; cbn in *.
  - by rewrite (proj2 (bytes_eqb_true _ _) Hk).
  - destruct (bytes_eqb _ _); [done|]. destruct (find_credit k cs); [done|]. by rewrite IH.
Qed.

Lemma find_credit_insert k cs i c n :
  find_credit k cs = Some (i, c) →
  find_credit k (<[i := with_amount_credit n c]> cs) = Some (i, with_amount_credit n c).
Proof.
  revert i; induction cs as [|d cs IH]; intros i Hf; [done|]. cbn in Hf.
  destruct (bytes_eqb (cr_sol_target d) k) eqn:E.
  - injection Hf as <- <-. cbn. by rewrite E.
  - destruct (find_credit k cs) as [[j e]|]; [|done]. injection Hf as <- ->.
    cbn [insert list_insert find_credit]. rewrite E. change (list_insert j (with_amount_credit n c) cs) with (<[j := with_amount_credit n c]> cs).
    exact (f_equal (λ o, prod_map S id <$> o) (IH j eq_refl)).
Qed.

(** Entering a credit and cancelling it again gives the list back. *)
Lemma remove_add_credit k cancel n cs cs1 cs2 :
  Forall wf_credit cs → Forall (λ c, 0 < cr_token_amount c) cs → 0 < n → owed cs + n < u64_max_plus_1 →
  add_credit k (ai_key cancel) n cs = inr cs1 → remove_credit k cancel n cs1 = inr cs2 → cs2 = cs.
Proof.
  intros HF Hpos Hn Hfit. unfold add_credit, remove_credit.
  destruct (find_credit k cs) as [[i c]|] eqn:Hf.
  - destruct (bytes_eqb _ _); [|done]. intros [= <-].
    rewrite (find_credit_insert _ _ _ _ _ Hf). cbn [with_amount_credit cr_token_amount cr_cancel_authority].
    apply find_credit_lookup in Hf as [Hi Hk].
    pose proof (owed_ge _ _ _ HF Hi). pose proof (Forall_lookup_1 _ _ _ _ Hpos Hi) as Hc. cbn in Hc.
    rewrite wadd_small by lia.
    destruct (negb _); [done|]. destruct (negb _); [done|]. destruct (_ <? n); [done|].
    rewrite (proj2 (Z.eqb_neq _ _)) by lia. intros [= <-]. rewrite list_insert_insert_eq.
    rewrite wsub_small by lia. replace (cr_token_amount c + n - n) with (cr_token_amount c) by lia.
    apply list_insert_id. rewrite Hi. by destruct c.
  - destruct (_ <=? _)%nat; [done|]. intros [= <-].
    rewrite (find_credit_app_none _ _ _ Hf) by done. cbn [cr_token_amount cr_cancel_authority].
    destruct (negb _); [done|]. destruct (negb _); [done|]. destruct (n <? n); [done|].
    rewrite Z.eqb_refl. intros [= <-]. rewrite filter_app.
    pose proof (find_credit_none _ _ Hf) as Hne.
    rewrite (filter_cons_False _ _ []) by (cbn; congruence). rewrite filter_nil, app_nil_r.
    clear -Hne. induction cs as [|d cs IH]; [done|].
    rewrite filter_cons_True by (apply Hne; left). by rewrite IH by (intros e He; apply Hne; by right).
Qed.

(** Moving pool tokens keeps the bank in order. *)
Lemma credited_ok n li src dst l' native b b' sp l :
  solvent b sp l → bank_ok b → ai_key li = sp_credit_list sp →
  credited n li src dst l' native b b' →
  ta_mint <$> token_at b (ai_key src) = Some (sp_pool_mint sp) → bank_ok b'.
Proof.
  intros Hso Hok Hli Hcr Hm. pose proof (credited_lamports _ _ _ _ _ _ _ _ _ _ Hso Hok Hcr Hm) as Hlam.
  destruct (ce_effect _ _ _ _ _ _ _ _ Hcr) as [O _ S]. split.
  - intros k a Ha. destruct (decide (k = ai_key li)) as [->|Hk].
    { apply token_owner in Ha. rewrite O, Hli, (so_owner _ _ _ Hso) in Ha by not_in. done. }
    destruct (S k) as [_ _ _ Hmi _ Hna _ _]; [not_in|]. rewrite Ha in Hmi, Hna.
    destruct (token_at b k) as [a0|] eqn:Ha0; [|done]. cbn in Hmi, Hna. injection Hmi as ->.
    injection Hna as ->. by apply (bo_native _ Hok k).
  - intros k. rewrite Hlam. apply (bo_range _ Hok).
Qed.

(** C21: cancelling undoes a credit.  If a credit was entered and its cancel authority
    cancels the same amount, the credit list is what it was, every token is back where
    it was, and no lamports moved. *)
Theorem uncredit_undoes_credit n i1 li ri wd src target cancel rest accounts b b1 b2 sp l :
  solvent b sp l → bank_ok b → entered b accounts → is_u64 n →
  accounts = i1 :: li :: ri :: wd :: src :: target :: cancel :: rest → ai_key i1 = pool →
  ai_key src ≠ sp_credit_reserve sp →
  Forall (λ c, 0 < cr_token_amount c) (cl_credits l) →
  process_credit p n accounts b = inr (tt, b1) → process_uncredit p n accounts b1 = inr (tt, b2) →
  credits_at b2 (sp_credit_list sp) = Some l ∧
  (∀ k, k ≠ sp_credit_list sp → tok b2 k = tok b k) ∧ (∀ k, lam b2 k = lam b k).
Proof.
  intros Hso Hok Hent Hn Hacc Hi Hsrc Hpos Hr1 Hr2.
  pose proof (so_pool _ _ _ Hso) as Hp. pose proof (so_token _ _ _ Hso) as Htok.
  destruct Hent as [Hco Hkeys]. rewrite Hacc in Hkeys. do 5 apply Forall_cons in Hkeys as [_ Hkeys].
  apply Forall_cons in Hkeys as [Hkt Hkeys]. apply Forall_cons in Hkeys as [Hkc _].
  rewrite <- Hi in Hp.
  destruct (credit_inv _ _ _ _ _ _ _ _ _ _ _ _ _ _ _ Hr1 Hacc Hp Htok Hn Hkt Hkc)
    as (l' & cs & nat & Hn0 & Hli & Hri & Hl & _ & _ & Hadd & Hcr).
  rewrite Hli, (so_credits _ _ _ Hso) in Hl. injection Hl as <-.
  pose proof (ce_effect _ _ _ _ _ _ _ _ Hcr) as He. cbv zeta in He. rewrite Hli, Hri in He.
  pose proof (so_apart _ _ _ Hso) as Hap. destruct (reserve_account b sp l Hso) as (_ & _ & _ & _ & Hc3 & _).
  pose proof (pool_kept b b1 sp l _ _ _ _ _ Hso He ltac:(not_in)) as Hp1. rewrite <- Hi in Hp1.
  destruct (uncredit_inv _ _ _ _ _ _ _ _ _ _ _ _ _ _ _ Hr2 Hacc Hp1 Htok)
    as (l1 & cs2 & nat2 & _ & _ & Hl1 & _ & Hrem & Hcr2).
  rewrite (ce_list _ _ _ _ _ _ _ _ Hcr) in Hl1. injection Hl1 as <-.
  pose proof (so_wf _ _ _ Hso) as (_ & _ & HF).
  assert (Hfit : owed (cl_credits l) + n < u64_max_plus_1).
  { pose proof (tok_range b1 (sp_credit_reserve sp)) as [_ Hr].
    rewrite (effect_tok _ _ _ _ _ _ _ _ He) in Hr by not_in. unfold both in Hr. rewrite at_eq, at_ne in Hr by done.
    pose proof (so_owed _ _ _ Hso). lia. }
  assert (Hn1 : 0 < n) by (unfold is_u64 in Hn; lia).
  pose proof (remove_add_credit _ _ _ _ _ _ HF Hpos Hn1 Hfit Hadd Hrem) as ->.
  pose proof (ce_effect _ _ _ _ _ _ _ _ Hcr2) as He2. cbv zeta in He2. rewrite Hli, Hri in He2.
  destruct (keeps_credit b b1 n li ri src sp l cs nat target cancel Hso Hok Hli Hri Hn Hkt Hkc Hsrc Hadd Hcr)
    as (sp1 & l1 & Hso1 & Hset & _).
  assert (Hms : ta_mint <$> token_at b (ai_key src) = Some (sp_pool_mint sp)).
  { rewrite (ce_mint _ _ _ _ _ _ _ _ Hcr), Hri. exact (so_reserve_mint _ _ _ Hso). }
  pose proof (credited_ok _ _ _ _ _ _ _ _ _ _ Hso Hok Hli Hcr Hms) as Hok1.
  assert (sp1 = sp) as -> by (pose proof (so_pool _ _ _ Hso1) as Hx; rewrite <- Hi, Hp1 in Hx; by injection Hx).
  split_and!.
  - rewrite <- Hli, (ce_list _ _ _ _ _ _ _ _ Hcr2). by destruct l.
  - intros k Hk. rewrite (effect_tok _ _ _ _ _ _ _ _ He2), (effect_tok _ _ _ _ _ _ _ _ He) by not_in.
    unfold both, at_. destruct (decide _), (decide _); lia.
  - intros k. rewrite (credited_lamports _ _ _ _ _ _ _ _ _ _ Hso1 Hok1 Hcr2), (credited_lamports _ _ _ _ _ _ _ _ _ _ Hso Hok Hcr);
      [done|done|].
    + rewrite Hri. exact (so_reserve_mint _ _ _ Hso1).
Qed.

End Pool.

(** ** On a concrete bank *)

Definition bank_of (l : list (buffer * ChainAccount)) : Bank :=
  λ k, match find (λ e, bytes_eqb (fst e) k) l with
       | Some (_, a) => a
       | None => {| ac_lamports := 0; ac_data := []; ac_owner := SYSTEM |}
       end.

Definition PROG : buffer := ckey 10.
Definition POOL : buffer := ckey 11.
Definition WITHDRAW : buffer := default [] (sample_create (authority_seeds POOL AUTHORITY_WITHDRAW 255) PROG).
Definition RESERVE : buffer := reserve PROG POOL.
Definition VALIDATORS : buffer := ckey 12.
Definition CREDITS : buffer := ckey 13.
Definition MINT : buffer := ckey 14.
Definition FEE : buffer := ckey 15.
Definition CREDIT_RESERVE : buffer := ckey 16.
Definition USER_TOKENS : buffer := ckey 17.
Definition USER : buffer := ckey 18.
Definition RENT : buffer := ckey 19.
Definition CLOCK : buffer := ckey 20.
(** A mint, an account of it and a wallet of somebody else. *)
Definition OTHER_MINT : buffer := ckey 30.
Definition OTHER_TOKENS : buffer := ckey 31.
Definition OTHER : buffer := ckey 32.

Definition pool_value (stake_total pool_total : Z) : StakePool :=
  {| sp_version := 1; sp_owner := ckey 21; sp_deposit_bump_seed := 255; sp_withdraw_bump_seed := 255;
     sp_validator_stake_list := VALIDATORS; sp_credit_list := CREDITS; sp_pool_mint := MINT;
     sp_owner_fee_account := FEE; sp_credit_reserve := CREDIT_RESERVE; sp_token_program_id := TOKEN;
     sp_stake_total := stake_total; sp_pool_total := pool_total; sp_last_update_epoch := 7;
     sp_fee_denominator := 100; sp_fee_numerator := 1 |}.

Definition tokens_of (mint owner_ : buffer) (n : Z) (delegate : option buffer) : ChainAccount :=
  {| ac_lamports := 2039280;
     ac_data := pack_account {| ta_mint := mint; ta_owner := owner_; ta_amount := n;
       ta_delegate := delegate; ta_state := Initialized; ta_is_native := bytes_eqb mint NATIVE;
       ta_delegated_amount := n; ta_close_authority := None |};
     ac_owner := TOKEN |}.

Definition mint_of (authority : buffer) (n : Z) : ChainAccount :=
  {| ac_lamports := 1461600; ac_data := pack_mint {| mi_authority := Some authority; mi_supply := n |};
     ac_owner := TOKEN |}.

Definition wallet (n : Z) : ChainAccount := {| ac_lamports := n; ac_data := []; ac_owner := SYSTEM |}.

Definition credit_of (k n : Z) : CreditRecord :=
  {| cr_sol_target := ckey k; cr_cancel_authority := ckey (k + 1); cr_token_amount := n |}.

Definition written (r : program_result buffer) : buffer := match r with inr d => d | inl _ => [] end.

(** A pool with the given totals, credits, tokens of the user and lamports in reserve. *)
Definition sample_bank (stake_total pool_total credit_tokens user_tokens lamports : Z)
    (credits : list CreditRecord) : Bank :=
  bank_of
    [(POOL, {| ac_lamports := 2784000; ac_data := stake_pool_bytes (alloc 5) (pool_value stake_total pool_total);
               ac_owner := PROG |});
     (CREDITS, {| ac_lamports := 502000000;
                  ac_data := written (serialize_credit_list {| cl_version := 1; cl_credits := credits |}
                                        (alloc CREDIT_LIST_LEN));
                  ac_owner := PROG |});
     (MINT, mint_of WITHDRAW pool_total);
     (CREDIT_RESERVE, tokens_of MINT WITHDRAW credit_tokens None);
     (USER_TOKENS, tokens_of MINT USER user_tokens (Some WITHDRAW));
     (FEE, tokens_of MINT (ckey 21) 0 None);
     (RESERVE, wallet lamports); (USER, wallet 5000000000);
     (CLOCK, {| ac_lamports := 1; ac_data := le_split 8 7; ac_owner := ckey 22 |});
     (OTHER_MINT, mint_of OTHER 5000000000); (OTHER_TOKENS, tokens_of OTHER_MINT OTHER 5000000000 (Some WITHDRAW));
     (OTHER, wallet 0)].

(** The handle of an account as the runtime gives it. *)
Definition handle (b : Bank) (k : buffer) (signs : bool) : AccountInfo :=
  {| ai_key := k; ai_is_signer := signs; ai_owner := ac_owner (b k) |}.

Definition result_bank (r : program_result (unit * Bank)) (b : Bank) : Bank :=
  match r with inr (_, b') => b' | inl _ => b end.

Definition succeeds (r : program_result (unit * Bank)) : bool :=
  match r with inr _ => true | inl _ => false end.

Lemma succeeds_inr r b : succeeds r = true → r = inr (tt, result_bank r b).
Proof. by destruct r as [|[[] b']]. Qed.

Definition withdraw_accounts (b : Bank) (src mint target : buffer) : list AccountInfo :=
  [handle b POOL false; handle b WITHDRAW false; handle b RESERVE false; handle b src false;
   handle b mint false; handle b target false; handle b RENT false; handle b SYSTEM false;
   handle b TOKEN false].

Definition bank1 : Bank := sample_bank 4000000000 3900000000 500000000 1000000000 4000000000
  [credit_of 40 200000000; credit_of 42 300000000].

Definition pay_accounts (b : Bank) (users : list buffer) : list AccountInfo :=
  [handle b POOL false; handle b CREDITS false; handle b WITHDRAW false; handle b RESERVE false;
   handle b CREDIT_RESERVE false; handle b MINT false; handle b RENT false; handle b CLOCK false;
   handle b SYSTEM false; handle b TOKEN false] ++ ((λ k, handle b k false) <$> users).

Definition credit_accounts (b : Bank) (src target cancel : buffer) : list AccountInfo :=
  [handle b POOL false; handle b CREDITS false; handle b CREDIT_RESERVE false; handle b WITHDRAW false;
   handle b src false; handle b target false; handle b cancel true; handle b TOKEN false].

Definition deposit_accounts (b : Bank) (src dst : buffer) : list AccountInfo :=
  [handle b POOL false; handle b WITHDRAW false; handle b RESERVE false; handle b src true;
   handle b dst false; handle b FEE false; handle b MINT false; handle b RENT false;
   handle b SYSTEM false; handle b TOKEN false].

Lemma coherent_handles b (l : list (buffer * bool)) : coherent b ((λ '(k, s), handle b k s) <$> l).
Proof. intros i Hi. apply list_elem_of_fmap in Hi as ([k s] & -> & _). done. Qed.

(** Every account of a bank given by a table is in order if those of the table are. *)
Definition account_in_order (a : ChainAccount) : bool :=
  (0 <=? ac_lamports a) && (ac_lamports a <? 2 ^ 63) &&
  match (if decide (ac_owner a = TOKEN) then sample_unpack_account (ac_data a) else None) with
  | Some t => Bool.eqb (ta_is_native t) (bytes_eqb (ta_mint t) NATIVE)
  | None => true
  end.

Lemma bank_of_ok l : forallb (λ e, account_in_order (snd e)) l = true → bank_ok (bank_of l).
Proof.
  intros Hl. assert (Ha : ∀ k, account_in_order (bank_of l k) = true).
  { intros k. unfold bank_of. destruct (find _ l) as [[k' a]|] eqn:E; [|done].
    apply find_some in E as [E _]. by apply forallb_forall with (x := (k', a)) in Hl. }
  unfold account_in_order in Ha. split.
  - intros k a Hk. specialize (Ha k). apply andb_true_iff in Ha as [_ Ha].
    unfold token_at in Hk. destruct (decide _) as [Ho|]; [|done].
    change unpack_account with sample_unpack_account in Hk. rewrite Hk in Ha. by apply eqb_prop in Ha.
  - intros k. specialize (Ha k). rewrite !andb_true_iff, Z.leb_le, Z.ltb_lt in Ha.
    unfold lam. lia.
Qed.

Lemma PROG_not_TOKEN : PROG ≠ spl_token_id.
Proof. intros Hx. vm_compute in Hx. discriminate. Qed.

Lemma PROG_not_SYSTEM : PROG ≠ system_program_id.
Proof. intros Hx. vm_compute in Hx. discriminate. Qed.

Definition credits1 : CreditList :=
  {| cl_version := 1; cl_credits := [credit_of 40 200000000; credit_of 42 300000000] |}.

Definition sp1 : StakePool := pool_value 4000000000 3900000000.

Lemma bank1_ok : bank_ok bank1.
Proof. apply bank_of_ok. vm_compute. reflexivity. Qed.

Lemma bank1_solvent : solvent PROG POOL bank1 sp1 credits1.
Proof.
  split.
  - vm_compute. reflexivity.
  - vm_compute. reflexivity.
  - split; [done|]. split; [apply Nat.leb_le; vm_compute; reflexivity|].
    repeat (apply Forall_cons; split; [split_and!; [reflexivity|reflexivity|split; reflexivity || done]|]).
    constructor.
  - reflexivity.
  - reflexivity.
  - reflexivity.
  - intros Hx. vm_compute in Hx. discriminate.
  - intros Hx. vm_compute in Hx. discriminate.
  - vm_compute. reflexivity.
  - eexists. vm_compute. reflexivity.
  - apply Z.leb_le. vm_compute. reflexivity.
  - apply Z.leb_le. vm_compute. reflexivity.
Qed.

Lemma wf_handles b l : forallb (λ '(k, _), (length k =? 32)%nat) l = true →
  entered b ((λ '(k, s), handle b k s) <$> l).
Proof.
  intros Hl. split; [apply coherent_handles|]. apply Forall_fmap, Forall_forall. intros [k s] Hk. cbn.
  rewrite forallb_forall in Hl. specialize (Hl (k, s)). apply Nat.eqb_eq, Hl. by apply list_elem_of_In.
Qed.

Abbreviation withdraw1 :=
  (process_withdraw PROG 1000000 (withdraw_accounts bank1 USER_TOKENS MINT USER) bank1).

Lemma bank1_step : pool_step PROG POOL bank1 (result_bank withdraw1 bank1).
Proof.
  eapply (step_withdraw PROG POOL bank1 1000000 (withdraw_accounts bank1 USER_TOKENS MINT USER));
    [reflexivity|reflexivity|apply succeeds_inr; vm_compute; reflexivity|exact (so_pool _ _ _ _ _ bank1_solvent)
    |reflexivity|lia|intros Hx; vm_compute in Hx; discriminate|].
  apply (wf_handles bank1 [(POOL, false); (WITHDRAW, false); (RESERVE, false); (USER_TOKENS, false);
    (MINT, false); (USER, false); (RENT, false); (SYSTEM, false); (TOKEN, false)]).
  vm_compute. reflexivity.
Qed.


Abbreviation deposit1 :=
  (process_deposit PROG 1000000000 (deposit_accounts bank1 USER USER_TOKENS) bank1).
Definition bank1' : Bank := result_bank deposit1 bank1.

Lemma deposit1_run : deposit1 = inr (tt, bank1').
Proof. apply succeeds_inr. vm_compute. reflexivity. Qed.

Lemma deposit1_entered : entered bank1 (deposit_accounts bank1 USER USER_TOKENS).
Proof.
  apply (wf_handles bank1 [(POOL, false); (WITHDRAW, false); (RESERVE, false); (USER, true);
    (USER_TOKENS, false); (FEE, false); (MINT, false); (RENT, false); (SYSTEM, false); (TOKEN, false)]).
  vm_compute. reflexivity.
Qed.

Lemma price_never_falls_witness : ∃ sp', pool_at bank1' POOL = Some sp' ∧ price_le sp1 sp'.
Proof.
  eapply (price_never_falls PROG POOL 1000000000 (deposit_accounts bank1 USER USER_TOKENS) bank1 bank1' sp1 credits1);
    [exact bank1_solvent|exact bank1_ok|exact deposit1_entered|lia|reflexivity|reflexivity|].
  left. split; [exact deposit1_run|]. split; [reflexivity|].
  intros x Hx. vm_compute in Hx. injection Hx as <-. reflexivity.
Defined.

Lemma bank1'_u64 : bank_u64 bank1'.
Proof.
  destruct (deposit_inv _ _ _ _ _ _ _ _ _ _ _ _ _ _ _ deposit1_run eq_refl (so_pool _ _ _ _ _ bank1_solvent)
    eq_refl (bo_native _ bank1_ok) (proj1 deposit1_entered)) as (x & f & Hd).
  intros k. rewrite (ef_lam _ _ _ _ _ _ _ (dp_effect _ _ _ _ _ _ _ _ _ _ _ _ _ _ Hd)).
  cbn [ai_key handle]. pose proof (bo_range _ bank1_ok k) as Hk.
  assert (HU : lam bank1 USER = 5000000000) by (vm_compute; reflexivity).
  unfold both, at_, is_u64, u64_max_plus_1. destruct (decide (k = USER)) as [->|], (decide _); lia.
Qed.

Abbreviation withdraw1' :=
  (process_withdraw PROG 965250000 (withdraw_accounts bank1' USER_TOKENS MINT USER) bank1').

Lemma withdraw1'_run : withdraw1' = inr (tt, result_bank withdraw1' bank1').
Proof. apply (succeeds_inr withdraw1'). vm_compute. reflexivity. Qed.

Lemma depositor_cannot_profit_witness :
  lam (result_bank withdraw1' bank1') USER <= lam bank1' USER + 1000000000.
Proof.
  eapply (depositor_cannot_profit PROG POOL 1000000000 965250000
    (deposit_accounts bank1 USER USER_TOKENS) (withdraw_accounts bank1' USER_TOKENS MINT USER)
    bank1 bank1' (result_bank withdraw1' bank1') sp1 975000000
    _ _ _ _ _ _ _ _ _ _ _ _ _ (handle bank1' USER false));
    [exact (so_pool _ _ _ _ _ bank1_solvent)|reflexivity|exact (bo_native _ bank1_ok)|exact bank1'_u64
    |exact (proj1 deposit1_entered)|lia|lia|reflexivity|reflexivity|reflexivity|reflexivity
    |vm_compute; reflexivity|reflexivity|reflexivity|exact deposit1_run
    |exact withdraw1'_run].
Defined.

(** Tokens of somebody's own mint are paid for out of the reserve. *)
Lemma withdraw_pays_for_any_token_witness :
  ∃ b', process_withdraw PROG 3800000000 (withdraw_accounts bank1 OTHER_TOKENS OTHER_MINT OTHER) bank1
          = inr (tt, b') ∧
    lam b' OTHER = lam bank1 OTHER + 3897435897 ∧
    lam b' (reserve PROG POOL) = lam bank1 (reserve PROG POOL) - 3897435897 ∧
    sup b' MINT = sup bank1 MINT.
Proof.
  eapply (withdraw_pays_for_any_token PROG POOL PROG_not_TOKEN 3800000000
    (handle bank1 POOL false) (handle bank1 WITHDRAW false) (handle bank1 RESERVE false)
    (handle bank1 OTHER_TOKENS false) (handle bank1 OTHER_MINT false) (handle bank1 OTHER false)
    (handle bank1 RENT false) (handle bank1 SYSTEM false) (handle bank1 TOKEN false) []
    bank1 sp1 3897435897 tt); [exact bank1_ok| | | |].
  - split.
    + lia.
    + split_and!; [reflexivity|reflexivity|reflexivity|exact (so_pool _ _ _ _ _ bank1_solvent)].
    + reflexivity.
    + split; reflexivity.
    + vm_compute. reflexivity.
    + split_and!; vm_compute; reflexivity.
    + reflexivity.
    + vm_compute. reflexivity.
    + split; apply Z.leb_le; vm_compute; reflexivity.
    + apply Z.ltb_lt. vm_compute. reflexivity.
    + split_and!; [vm_compute; reflexivity|reflexivity|reflexivity|].
      split_and!; [reflexivity|cbn; lia|]. rewrite decide_True by reflexivity. cbn. lia.
    + split; [vm_compute; reflexivity|cbn; lia].
  - intros Hx. vm_compute in Hx. discriminate.
  - intros Hx. vm_compute in Hx. discriminate.
  - intros Hx. vm_compute in Hx. discriminate.
Defined.

(** A stranger becomes a creditor of 500000000 tokens. *)
Lemma credit_from_reserve_is_free_witness :
  ∃ b' cs, process_credit PROG 500000000 (credit_accounts bank1 CREDIT_RESERVE OTHER OTHER) bank1
        = inr (tt, b') ∧
    credits_at b' CREDITS = Some (with_credits cs credits1) ∧
    cs = cl_credits credits1 ++ [{| cr_sol_target := OTHER; cr_cancel_authority := OTHER;
                                    cr_token_amount := 500000000 |}] ∧
    (∀ k, k ≠ CREDITS → tok b' k = tok bank1 k) ∧ (∀ k, lam b' k = lam bank1 k).
Proof.
  eapply (credit_from_reserve_is_free PROG POOL PROG_not_TOKEN 500000000
    (handle bank1 POOL false) (handle bank1 CREDITS false) (handle bank1 CREDIT_RESERVE false)
    (handle bank1 WITHDRAW false) (handle bank1 OTHER false) (handle bank1 OTHER true)
    (handle bank1 TOKEN false) [] bank1 sp1 credits1);
    [exact bank1_solvent|exact bank1_ok|reflexivity|lia|split; [lia|reflexivity]
    |reflexivity|reflexivity|reflexivity|reflexivity|reflexivity|reflexivity|reflexivity|reflexivity
    |vm_compute; reflexivity|vm_compute; reflexivity|reflexivity|reflexivity|reflexivity|cbn; lia
    |vm_compute; reflexivity|apply Nat.ltb_lt; vm_compute; reflexivity].
Defined.

Abbreviation credit1 :=
  (process_credit PROG 7000000 (credit_accounts bank1 USER_TOKENS (ckey 40) (ckey 41)) bank1).
Definition bank1c : Bank := result_bank credit1 bank1.
Abbreviation uncredit1 :=
  (process_uncredit PROG 7000000 (credit_accounts bank1 USER_TOKENS (ckey 40) (ckey 41)) bank1c).

Lemma credit1_run : credit1 = inr (tt, bank1c).
Proof. apply succeeds_inr. vm_compute. reflexivity. Qed.

Lemma uncredit1_run : uncredit1 = inr (tt, result_bank uncredit1 bank1c).
Proof. apply succeeds_inr. vm_compute. reflexivity. Qed.

Lemma uncredit_undoes_credit_witness :
  credits_at (result_bank uncredit1 bank1c) CREDITS = Some credits1 ∧
  (∀ k, k ≠ CREDITS → tok (result_bank uncredit1 bank1c) k = tok bank1 k) ∧
  (∀ k, lam (result_bank uncredit1 bank1c) k = lam bank1 k).
Proof.
  eapply (uncredit_undoes_credit PROG POOL PROG_not_TOKEN 7000000
    (handle bank1 POOL false) (handle bank1 CREDITS false) (handle bank1 CREDIT_RESERVE false)
    (handle bank1 WITHDRAW false) (handle bank1 USER_TOKENS false) (handle bank1 (ckey 40) false)
    (handle bank1 (ckey 41) true) [handle bank1 TOKEN false]
    (credit_accounts bank1 USER_TOKENS (ckey 40) (ckey 41)) bank1 bank1c _ sp1 credits1);
    [exact bank1_solvent|exact bank1_ok| |split; [lia|reflexivity]|reflexivity|reflexivity
    | | |exact credit1_run|exact uncredit1_run].
  - apply (wf_handles bank1 [(POOL, false); (CREDITS, false); (CREDIT_RESERVE, false); (WITHDRAW, false);
      (USER_TOKENS, false); (ckey 40, false); (ckey 41, true); (TOKEN, false)]). vm_compute. reflexivity.
  - intros Hx. vm_compute in Hx. discriminate.
  - repeat (apply Forall_cons; split; [reflexivity|]). constructor.
Defined.

(** ** Paying several creditors at once *)

(** The lamports of a payment are computed with the tokens already paid for taken out of
    [pool_total] but their lamports not yet out of [stake_total]. *)
Lemma paid_prices sp available users credits total invalid paid left_ i t n x :
  wf_pool sp → Forall wf_credit credits → owed credits <= sp_pool_total sp →
  pay_credits sp available users credits total invalid = inr (paid, left_) →
  paid !! i = Some (t, n, x) →
  x = n * sp_stake_total sp / (sp_pool_total sp - paid_tokens (take i paid)).
Proof.
  revert sp credits total invalid paid left_ i.
  induction users as [|[k sys] users IH]; intros sp [|c cs] total invalid paid left_ i Hwf HF Ho Hp Hi;
    try by (injection Hp as <- <-).
  pose proof (owed_nonneg _ (Forall_inv_tail HF)) as Hcs.
  apply Forall_cons in HF as [(_ & _ & Hc & _) HF]. rewrite owed_cons in Ho. cbn [pay_credits] in Hp.
  destruct (pool_totals_u64 sp Hwf) as [Hst Hpt]. unfold is_u64 in Hpt.
  destruct (negb _); [done|].
  destruct (negb sys); [eapply IH in Hp; [exact Hp|done|done|lia|done]|].
  destruct (calc_lamports_amount _ _) as [s1|] eqn:Hs; [|done].
  destruct (_ <? wadd _ _); [by injection Hp as <- <-|].
  rewrite wsub_small in Hp by lia.
  destruct (pay_credits _ _ users cs _ _) as [|[paid' left']] eqn:Hp'; [done|]. injection Hp as <- <-.
  destruct i as [|i]; cbn in Hi.
  - injection Hi as <- <- <-. apply calc_lamports_inv in Hs as (_ & -> & _).
    change (paid_tokens (take 0 _)) with 0. by rewrite Z.sub_0_r.
  - eapply IH in Hp'; [|apply with_totals_wf; [done|done|unfold is_u64; lia]|done|cbn; lia|done].
    rewrite Hp'. cbn [with_totals sp_stake_total sp_pool_total take]. f_equal.
    unfold paid_tokens, sum_list_Z. cbn. lia.
Qed.

(** Two creditors with a third of the tokens each, in a pool whose tokens are worth one
    lamport each. *)
Definition bank2 : Bank := sample_bank 3000000000 3000000000 2000000000 1000000000 3000000000
  [credit_of 40 1000000000; credit_of 42 1000000000].

