(* ===== verification/SampleStakes.v ===== *)
(** * A concrete stake program

    An instance of the stake program of StakeChain.v beside the runtime of SampleChain.v,
    in which its laws hold: stake accounts in the layout of bincode, balances in the
    bank. *)

From Stdlib Require Import ZArith Lia SpecFloat.
From stdpp Require Import base list strings sets.
From coqutil Require Import Byte Word.LittleEndianList.
From S2P Require Import Prelude Buffers Program Chain Processor StakeChain SampleChain.

Open Scope Z_scope.

Definition STAKE : buffer := ckey 3.

Definition unpack_meta (d : buffer) : Meta :=
  {| me_rent_exempt_reserve := u_at 8 d 4;
     me_authorized := {| au_staker := slice d 12 44; au_withdrawer := slice d 44 76 |};
     me_lockup := {| lo_unix_timestamp := u_at 8 d 76; lo_epoch := u_at 8 d 84;
                     lo_custodian := slice d 92 124 |} |}.

Definition unpack_stake (d : buffer) : StakeData :=
  {| st_delegation := {| de_voter_pubkey := slice d 124 156; de_stake := u_at 8 d 156;
       de_activation_epoch := u_at 8 d 164; de_deactivation_epoch := u_at 8 d 172;
       de_warmup_cooldown_rate := S754_zero false |};
     st_credits_observed := u_at 8 d 188 |}.

Definition sample_deserialize (d : buffer) : option StakeState :=
  if (length d <? 196)%nat then None
  else match u_at 4 d 0 with
       | 0 => Some Stake_Uninitialized
       | 1 => Some (Stake_Initialized (unpack_meta d))
       | 2 => Some (Stake_Stake (unpack_meta d) (unpack_stake d))
       | 3 => Some Stake_RewardsPool
       | _ => None
       end.

(** A stake account: its kind, rent reserve, authorities, vote account and stake. *)
Definition pack_stake (tag rent : Z) (a : Authorized) (vote : buffer) (stake credits : Z) : buffer :=
  le_split 4 tag ++ le_split 8 rent ++ au_staker a ++ au_withdrawer a ++ alloc 48
  ++ vote ++ le_split 8 stake ++ alloc 24 ++ le_split 8 credits ++ alloc 4.

Definition STAKE_RENT : Z := 2282880.

Definition sample_stake (p : buffer) (infos : list AccountInfo) (seeds : list (list buffer))
    (ix : StakeInstruction) (b : Bank) : program_result Bank :=
  let signs := sample_signs p infos seeds in
  let is_stake k := bytes_eqb (ac_owner (b k)) STAKE in
  match ix with
  | St_Initialize k a =>
      accept (is_stake k) (set_data k (pack_stake 1 STAKE_RENT a (alloc 32) 0 0) b)
  | St_DelegateStake k a v =>
      accept (is_stake k && signs a)
        (set_data k (pack_stake 2 STAKE_RENT (me_authorized (unpack_meta (ac_data (b k)))) v
                       (ac_lamports (b k) - STAKE_RENT) 0) b)
  | St_Split k a n k' =>
      accept (is_stake k && is_stake k' && signs a && can_move k k' n b) (move_lamports k k' n b)
  | St_Merge k k' a =>
      accept (is_stake k && is_stake k' && signs a && can_move k' k (ac_lamports (b k')) b)
        (move_lamports k' k (ac_lamports (b k')) (set_data k' (alloc 200) b))
  | St_Withdraw k w to n =>
      accept (is_stake k && signs w && can_move k to n b) (move_lamports k to n b)
  | St_Deactivate k a => accept (is_stake k && signs a) b
  end.

#[global] Instance SampleStakeRuntime : StakeRuntime := {|
  stake_id := STAKE;
  deserialize_StakeState := sample_deserialize;
  invoke_stake_by := sample_stake;
|}.

(** ** The laws *)

Lemma accept_inl c b e : accept c b = inl e → e = Foreign 0.
Proof. destruct c; [done|]. by intros [= <-]. Qed.

Lemma sample_foreign p infos seeds ix b e : sample_invoke p infos seeds ix b = inl e → ∃ c, e = Foreign c.
Proof.
  intros Hi. exists 0. destruct ix as [| |program i]; cbn in Hi; try by eapply accept_inl.
  destruct (decide _); [|by injection Hi as <-].
  destruct i; cbn -[accept] in Hi; repeat case_match; first [done|by injection Hi as <-|by eapply accept_inl].
Qed.

Lemma set_data_same_owners k d b : same_owners b (set_data k d b).
Proof. intros x. apply set_data_owner. Qed.

Lemma set_data_frame k d b : frame [k] b (set_data k d b).
Proof. intros x Hx. rewrite set_data_ne by set_solver. done. Qed.

Lemma set_data_same_lamports k d b : same_lamports b (set_data k d b).
Proof. intros x. apply set_data_lamports. Qed.

Lemma move_frame ks from to n b : frame ks b (move_lamports from to n b).
Proof. by intros k _. Qed.

Lemma sample_stake_u64 p infos seeds ix b b' :
  sample_stake p infos seeds ix b = inr b' →
  (∀ k, is_u64 (ac_lamports (b k))) → ∀ k, is_u64 (ac_lamports (b' k)).
Proof.
  intros Hi Hu k. destruct ix; apply accept_inr in Hi as [Hc ->]; conditions;
    try (by rewrite set_data_lamports); try done.
  - by apply u64_moved.
  - apply u64_moved; intros; by rewrite ?set_data_lamports.
  - by apply u64_moved.
Qed.

#[global] Instance SampleStakeLaws : StakeLaws.
Proof.
  split.
  - done.
  - done.
  - apply sample_foreign.
  - done.
  - intros p infos seeds ix b e Hi. exists 0. change (sample_stake p infos seeds ix b = inl e) in Hi. destruct ix; by apply accept_inl in Hi.
  - apply sample_stake_u64.
  - intros p infos seeds k a b b' [Hc ->]%accept_inr. conditions.
    split_and!; [done|apply set_data_same_owners|apply set_data_frame|apply set_data_same_lamports].
  - intros p infos seeds k a v b b' [Hc ->]%accept_inr. conditions.
    split_and!; [done|done|apply set_data_same_owners|apply set_data_frame|apply set_data_same_lamports].
  - intros p infos seeds k a n k' b b' [Hc ->]%accept_inr. conditions. split_and!; try done. lia.
  - intros p infos seeds k k' a b b' [Hc ->]%accept_inr. conditions. split_and!; try done.
    + intros x. cbn. apply set_data_owner.
    + intros x Hx. cbn. rewrite set_data_ne by set_solver. done.
    + intros x. cbn. by rewrite set_data_lamports.
  - intros p infos seeds k w to n b b' [Hc ->]%accept_inr. conditions. split_and!; try done. lia.
  - intros p infos seeds k a b b' [Hc ->]%accept_inr. conditions. done.
Qed.
