(* ===== verification/StakeEffects.v ===== *)
(** * The pool's stakes

    What the handlers of StakeProcessor.v do: merges and unstakes refine the counts of the
    specification, delegating leaves the reserve its minimum, and after an update of the
    list and of the pool [stake_total] is what the accounts of the pool hold; and what
    follows from a balance that is not written back. *)

From Stdlib Require Import ZArith Lia.
From stdpp Require Import base list strings sets.
From coqutil Require Import Byte Word.LittleEndianList.
From S2P Require Import Prelude Buffers Program Chain Processor StakeChain StakeProcessor Effects.
From S2P Require Import SampleChain Pool SampleStakes.

Open Scope Z_scope.

(** ** The validator list in bytes *)

Definition wf_validator (v : ValidatorStakeInfo) : Prop :=
  wf_key (vsi_validator_account v) ∧ is_u64 (vsi_balance v) ∧ is_u64 (vsi_last_update_epoch v) ∧
  0 <= vsi_stake_count v < 2 ^ 32.

Definition wf_validators (l : ValidatorStakeList) : Prop :=
  0 < vsl_version l < 256 ∧ (length (vsl_validators l) ≤ MAX_VALIDATORS)%nat ∧
  Forall wf_validator (vsl_validators l).

Lemma length_validator_info pad v :
  length pad = 4%nat → wf_validator v →
  length (validator_stake_info_bytes pad v) = VALIDATOR_STAKE_INFO_LEN.
Proof.
  intros Hp (Hk & _). unfold validator_stake_info_bytes.
  rewrite !length_app, !length_le_split, Hk, Hp. done.
Qed.

Lemma get_validator_info pad v :
  length pad = 4%nat → wf_validator v →
  get_ValidatorStakeInfo (validator_stake_info_bytes pad v) = v.
Proof.
  intros Hp (Hk & Hb & He & Hc). destruct v as [k bal e n]. cbn in *.
  unfold wf_key, is_u64, u64_max_plus_1 in *.
  unfold get_ValidatorStakeInfo, validator_stake_info_bytes.
  cbn [vsi_validator_account vsi_balance vsi_last_update_epoch vsi_stake_count].
  f_equal; field_at.
Qed.

Lemma deserialize_validators_wf d l :
  deserialize_validator_stake_list d = inr l → is_initialized (vsl_version l) = true → wf_validators l.
Proof.
  unfold deserialize_validator_stake_list.
  destruct (Nat.ltb_spec (length d) VALIDATOR_STAKE_LIST_LEN) as [|Hl]; [done|].
  destruct (Z.eqb_spec (u_at 1 d 0) 0) as [|Hv]; [by intros [= <-]|].
  destruct (Nat.ltb_spec MAX_VALIDATORS (Z.to_nat (u_at 2 d 1))) as [|Hm]; [done|].
  intros Hr. apply (inj inr) in Hr as <-. intros _. unfold wf_validators; cbn [vsl_version vsl_validators].
  destruct (raw_parts_wf wf_validator VALIDATOR_STAKE_INFO_LEN (Z.to_nat (u_at 2 d 1))
    get_ValidatorStakeInfo (drop 3 d)) as [HF HL].
  - intros e He. unfold wf_validator, get_ValidatorStakeInfo;
      cbn [vsi_validator_account vsi_balance vsi_last_update_epoch vsi_stake_count].
    unfold VALIDATOR_STAKE_INFO_LEN in *.
    split_and!; [|apply (u_at_range 8)|apply (u_at_range 8)|apply (u_at_range 4)|apply (u_at_range 4)].
    unfold wf_key, slice. rewrite length_take, length_drop, length_take. lia.
  - rewrite length_drop. unfold VALIDATOR_STAKE_LIST_LEN, VALIDATOR_STAKE_INFO_LEN, MAX_VALIDATORS in *. lia.
  - rewrite HL. pose proof (u_at_range 1 d 0). split_and!; [lia|lia|done|done].
Qed.

Lemma validators_round_trip pad l d d' :
  length pad = 4%nat → wf_validators l →
  serialize_validator_stake_list (λ _, pad) l d = inr d' → deserialize_validator_stake_list d' = inr l.
Proof.
  intros Hpad (Hv & Hlen & HF) Hs. unfold serialize_validator_stake_list in Hs.
  destruct (Nat.ltb_spec (length d) VALIDATOR_STAKE_LIST_LEN) as [|Hl]; [done|].
  destruct (Nat.ltb_spec MAX_VALIDATORS (length (vsl_validators l))) as [|_]; [done|].
  apply (inj inr) in Hs as <-. unfold deserialize_validator_stake_list, validator_stake_list_bytes.
  change (imap _ (vsl_validators l)) with (imap (const (validator_stake_info_bytes pad)) (vsl_validators l)).
  rewrite imap_const.
  assert (Hb : ∀ c, c ∈ vsl_validators l → wf_validator c) by (by apply Forall_forall).
  assert (Hn : 0 <= Z.of_nat (length (vsl_validators l)) < 2 ^ (Z.of_nat 2 * 8))
    by (unfold MAX_VALIDATORS in *; lia).
  pose proof (length_concat_records (validator_stake_info_bytes pad) VALIDATOR_STAKE_INFO_LEN
    (vsl_validators l) (λ c Hc, length_validator_info pad c Hpad (Hb c Hc))) as Hc.
  rewrite (proj2 (Nat.ltb_ge _ _)).
  2: { rewrite !length_app, !length_le_split, length_drop, !Hc.
       unfold VALIDATOR_STAKE_LIST_LEN, VALIDATOR_STAKE_INFO_LEN in *. lia. }
  rewrite <- !app_assoc, u_at_here by lia. rewrite (proj2 (Z.eqb_neq _ _)) by lia.
  rewrite (u_at_skip 2 _ _ 1 1), u_at_here by (rewrite ?length_le_split; lia).
  rewrite Nat2Z.id, (proj2 (Nat.ltb_ge _ _)) by lia.
  rewrite app_assoc, drop_app_length' by done.
  rewrite (raw_parts_concat _ _ _ id)
    by (intros c Hin; split; [by apply length_validator_info, Hb|by apply get_validator_info, Hb]).
  rewrite list_fmap_id. by destruct l.
Qed.

(** ** Records and counts *)

Definition stake_counts (vs : list ValidatorStakeInfo) : counts :=
  (λ v, (vsi_validator_account v, vsi_stake_count v)) <$> vs.

Lemma find_validator_lookup k vs i v :
  find_validator k vs = Some (i, v) → vs !! i = Some v ∧ vsi_validator_account v = k.
Proof.
  revert i; induction vs as [|w vs IH]; intros i; [done|]. cbn.
  destruct (bytes_eqb _ _) eqn:E; [apply bytes_eqb_true in E; by intros [= <- <-]|].
  destruct (find_validator k vs) as [[j u]|]; [|done]. cbn. intros [= <- ->]. by apply IH.
Qed.

(** [update_count] on the counts is [find] and an assignment on the records. *)
Lemma update_count_find k f vs :
  update_count k f (stake_counts vs) =
  match find_validator k vs with
  | None => inl ValidatorNotFound
  | Some (i, v) => map_inr (λ n, stake_counts (<[i := with_count n v]> vs)) (f (vsi_stake_count v))
  end.
Proof.
  unfold stake_counts. induction vs as [|w vs IH]; [done|]. cbn -[decide].
  unfold bytes_eqb. case_bool_decide as E.
  - rewrite decide_True by done. by destruct (f _).
  - rewrite decide_False by done. rewrite IH. destruct (find_validator k vs) as [[j u]|]; [|done].
    cbn. by destruct (f _).
Qed.

Lemma counts_with_count_id vs i v :
  vs !! i = Some v → stake_counts (<[i := with_count (vsi_stake_count v) v]> vs) = stake_counts vs.
Proof.
  intros Hv. unfold stake_counts. rewrite list_fmap_insert. apply list_insert_id.
  by rewrite list_lookup_fmap, Hv.
Qed.

Section StakeEffects.
#[local] Remove Hints SampleRuntime SampleRuntimeLaws SampleStakeRuntime SampleStakeLaws : typeclass_instances.
Context `{RuntimeLaws} `{!StakeRuntime} `{!StakeLaws}.

Lemma invoke_stake_inr p infos seeds ix b u b' :
  invoke_stake p infos seeds ix b = inr (u, b') ↔ invoke_stake_by p infos seeds ix b = inr b'.
Proof.
  destruct u. unfold invoke_stake, map_inr. destruct (invoke_stake_by _ _ _ _ _); [done|].
  split; [by intros [= <-]|by intros [= <-]].
Qed.

(** ** Refinement of the counts *)

(** The errors of the index checks; every other error is not the specification's. *)
Definition index_error (e : ProgramError) : option StakePoolError :=
  match e with
  | Custom InvalidStakeIndex => Some InvalidStakeIndex
  | Custom ValidatorNotFound => Some ValidatorNotFound
  | _ => None
  end.

(** A run whose outcome, as far as the counts go, is the specification's. *)
Definition refines {A} (r : program_result (list ValidatorStakeInfo * A * Bank))
    (spec : StakePoolError + counts) : Prop :=
  match r with
  | inr (vs, _, _) => spec = inr (stake_counts vs)
  | inl e => match index_error e with Some x => spec = inl x | None => True end
  end.

Definition quiet {A} (m : P A) (b : Bank) : Prop := ∀ e, m b = inl e → index_error e = None.

(** A step that fails with none of these errors, in front of the rest. *)
Lemma bind_quiet {A B} (G : program_result (B * Bank) → Prop) (m : P A) (f : A → P B) b :
  (∀ e, index_error e = None → G (inl e)) → quiet m b →
  (∀ a b1, m b = inr (a, b1) → G (f a b1)) → G ((m ≫= f) b).
Proof.
  intros HG Hq Hf. unfold mbind, P_bind. destruct (m b) as [e|[a b1]] eqn:E; [by apply HG, Hq|].
  by apply Hf.
Qed.

Lemma quiet_next it b : quiet (next_account_info it) b.
Proof. intros e. destruct it; [by intros [= <-]|done]. Qed.

Lemma quiet_address v p pool i k b : quiet (check_validator_stake_address v p pool i k) b.
Proof.
  intros e. unfold check_validator_stake_address. destruct (stake_address _ _ _ _) as [x z].
  unfold mbind, P_bind. destruct (bytes_eqb _ _); [done|]. by intros [= <-].
Qed.

Lemma quiet_state i b : quiet (read_stake_state i) b.
Proof.
  intros e. unfold read_stake_state, mbind, P_bind; cbn.
  destruct (deserialize_StakeState _); [done|]. by intros [= <-].
Qed.

Lemma quiet_stake p infos seeds ix b : quiet (invoke_stake p infos seeds ix) b.
Proof.
  intros e. unfold invoke_stake, map_inr. destruct (invoke_stake_by _ _ _ _ _) as [e'|] eqn:E; [|done].
  intros [= <-]. apply stake_foreign in E as [c ->]. done.
Qed.

Lemma quiet_invoke p infos seeds ix b : quiet (invoke_signed p infos seeds ix) b.
Proof.
  intros e. unfold invoke_signed, map_inr. destruct (invoke_signed_by _ _ _ _ _) as [e'|] eqn:E; [|done].
  intros [= <-]. apply invoke_foreign in E as [c ->]. done.
Qed.

Lemma ensure_bind {B} (G : program_result (B * Bank) → Prop) c e (f : unit → P B) b :
  (c = false → G (inl e)) → (c = true → G (f tt b)) → G ((ensure c e ≫= f) b).
Proof. destruct c; auto. Qed.

(** Takes the steps that are quiet. *)
Ltac quietly :=
  first [apply quiet_next | apply quiet_address | apply quiet_state | apply quiet_stake
        | apply quiet_invoke].

Lemma process_merges_cons i flag l cs :
  process_merges ((i, flag) :: l) cs =
  match update_count (msi_validator_address i) (merge_count i flag) cs with
  | inl e => inl e
  | inr cs' => process_merges l cs'
  end.
Proof. done. Qed.

(** The specification with some choice of which pairs are merged. *)
Definition merges_as {A} (instructions : list MergeStakesInstruction) (cs : counts)
    (r : program_result (list ValidatorStakeInfo * A * Bank)) : Prop :=
  ∃ flags, length flags = length instructions ∧
    refines r (process_merges (zip instructions flags) cs).

Lemma merges_as_other {A} instructions cs e :
  index_error e = None → @merges_as A instructions cs (inl e).
Proof.
  intros He. exists (replicate (length instructions) true). rewrite length_replicate.
  split; [done|]. unfold refines. by rewrite He.
Qed.

Lemma merges_as_step {A} i flag l vs vs' (r : program_result (list ValidatorStakeInfo * A * Bank)) :
  update_count (msi_validator_address i) (merge_count i flag) (stake_counts vs) = inr (stake_counts vs') →
  merges_as l (stake_counts vs') r → merges_as (i :: l) (stake_counts vs) r.
Proof.
  intros Hu (flags & Hl & Hr). exists (flag :: flags). cbn [length zip zip_with].
  split; [by rewrite Hl|]. by rewrite process_merges_cons, Hu.
Qed.

Lemma merges_as_error {A} i l vs x e :
  index_error e = Some x → update_count (msi_validator_address i) (merge_count i true) (stake_counts vs) = inl x →
  @merges_as A (i :: l) (stake_counts vs) (inl e).
Proof.
  intros He Hu. exists (replicate (length (i :: l)) true). rewrite length_replicate. split; [done|].
  cbn [replicate length zip zip_with]. rewrite process_merges_cons, Hu. cbn. by rewrite He.
Qed.

Lemma merge_loop_refines p pool deposit stake clock history seeds instructions it vs changed b :
  merges_as instructions (stake_counts vs)
    (merge_loop p pool deposit stake clock history seeds instructions it vs changed b).
Proof.
  revert it vs changed b. induction instructions as [|i l IH]; intros it vs changed b.
  { exists []. done. }
  cbn [merge_loop].
  apply bind_quiet; [apply merges_as_other|quietly|intros [main it1] b1 _].
  apply bind_quiet; [apply merges_as_other|quietly|intros [add it2] b2 _].
  pose proof (λ flag, update_count_find (msi_validator_address i) (merge_count i flag) vs) as Hu.
  destruct (find_validator _ vs) as [[j v]|] eqn:Hf; [|eapply merges_as_error; [done|apply Hu]].
  destruct (find_validator_lookup _ _ _ _ Hf) as [Hj _].
  apply ensure_bind; intros Hc.
  { apply negb_false_iff in Hc. eapply merges_as_error; [done|].
    rewrite Hu. unfold merge_count. by rewrite Hc. }
  apply negb_true_iff in Hc.
  assert (Hskip : update_count (msi_validator_address i) (merge_count i false) (stake_counts vs)
    = inr (stake_counts vs)).
  { rewrite Hu. unfold merge_count. rewrite Hc. cbn. by rewrite counts_with_count_id. }
  do 4 (apply bind_quiet; [apply merges_as_other|quietly|intros ? ? _]).
  destruct (different_credits _ _); [by eapply merges_as_step|].
  apply bind_quiet; [apply merges_as_other|quietly|intros ? ? _].
  eapply (merges_as_step _ true); [|apply IH].
  rewrite Hu. unfold merge_count. rewrite Hc. cbn [andb].
  destruct (_ =? _); cbn; [done|]. by rewrite counts_with_count_id.
Qed.

(** Counts that [n] new stakes do not overflow. *)
Definition room (n : nat) (vs : list ValidatorStakeInfo) : Prop :=
  Forall (λ v, 0 <= vsi_stake_count v ∧ vsi_stake_count v + Z.of_nat n < 2 ^ 32) vs.

Lemma room_insert n vs i v m :
  room (S n) vs → 0 <= m < 2 ^ 32 - Z.of_nat n → room n (<[i := with_count m v]> vs).
Proof.
  intros Hr Hm. apply Forall_insert; [|cbn; lia]. eapply Forall_impl; [exact Hr|]. cbn. lia.
Qed.

Lemma room_less n vs : room (S n) vs → room n vs.
Proof. intros Hr. eapply Forall_impl; [exact Hr|]. cbn. lia. Qed.

Lemma quiet_split p pool owner deposit sys stake clock history source split_ rent i z seeds b :
  quiet (split_and_deactivate p pool owner deposit sys stake clock history source split_ rent i z seeds) b.
Proof.
  intros e. unfold split_and_deactivate.
  apply (bind_quiet (λ r : program_result (unit * Bank), r = inl e → index_error e = None));
    [by intros ? ? [= <-]|quietly|intros ? ? _].
  apply (bind_quiet (λ r : program_result (unit * Bank), r = inl e → index_error e = None));
    [by intros ? ? [= <-]|quietly|intros ? ? _].
  apply quiet_stake.
Qed.

Lemma refines_other {A} spec e :
  index_error e = None → @refines A (inl e) spec.
Proof. intros He. unfold refines. by rewrite He. Qed.

Lemma unstake_loop_refines p pool owner deposit sys stake clock history rent seeds instructions it vs changed b :
  room (length instructions) vs →
  refines (unstake_loop p pool owner deposit sys stake clock history rent seeds instructions it vs changed b)
    (process_unstakes instructions (stake_counts vs)).
Proof.
  revert it vs changed b. induction instructions as [|i l IH]; intros it vs changed b Hroom; [done|].
  cbn [unstake_loop process_unstakes length] in *.
  rewrite update_count_find. destruct (find_validator _ vs) as [[j v]|] eqn:Hf; [|done].
  destruct (find_validator_lookup _ _ _ _ Hf) as [Hj _].
  pose proof (proj1 (Forall_lookup _ _) Hroom j v Hj) as Hv. cbn beta in Hv.
  unfold unstake_count at 1.
  apply ensure_bind; intros Hc1; [apply negb_false_iff in Hc1; by rewrite Hc1|apply negb_true_iff in Hc1; rewrite Hc1].
  apply ensure_bind; intros Hc2; [apply negb_false_iff in Hc2; by rewrite Hc2|apply negb_true_iff in Hc2; rewrite Hc2].
  do 2 (apply bind_quiet; [by apply refines_other|quietly|]; intros ?a ? _; try (destruct a as [src it1])).
  destruct (ui_split_index i =? ui_source_index i); cbn [map_inr].
  { apply bind_quiet; [by apply refines_other|quietly|intros ? ? _].
    rewrite counts_with_count_id by done. by apply IH, room_less. }
  apply bind_quiet; [by apply refines_other|quietly|intros [split_ it2] ? _].
  apply bind_quiet; [by apply refines_other|quietly|intros z ? _].
  apply bind_quiet; [by apply refines_other|apply quiet_split|intros ? ? _].
  unfold u32_succ. destruct (_ =? _); cbn [map_inr].
  - rewrite Z.mod_small by lia. apply IH, room_insert; [done|lia].
  - rewrite counts_with_count_id, list_insert_id by done. by apply IH, room_less.
Qed.

(** ** What the stake and system programs leave alone *)

(** Accounts of other programs keep their data and their owner. *)
Definition kept (b b' : Bank) : Prop :=
  ∀ k, ac_owner (b k) ≠ stake_id → ac_owner (b k) ≠ system_program_id →
    ac_data (b' k) = ac_data (b k) ∧ ac_owner (b' k) = ac_owner (b k).

Lemma kept_refl b : kept b b.
Proof. by split. Qed.

Lemma kept_trans b b1 b2 : kept b b1 → kept b1 b2 → kept b b2.
Proof.
  intros K1 K2 k Hs Hy. destruct (K1 k Hs Hy) as [Hd Ho]. rewrite <- Hd, <- Ho.
  apply K2; by rewrite Ho.
Qed.

Lemma kept_frame ks b b' :
  frame ks b b' → (∀ k, k ∈ ks → ac_owner (b k) = stake_id ∨ ac_owner (b k) = system_program_id) → kept b b'.
Proof. intros Hf Hks k Hs Hy. apply Hf. intros Hk. by destruct (Hks k Hk). Qed.

Lemma kept_frame_stake k b b' : frame [k] b b' → ac_owner (b k) = stake_id → kept b b'.
Proof. intros Hf Ho. eapply kept_frame; [done|]. intros x ->%list_elem_of_singleton. by left. Qed.

(** ** The lamports of stakes *)

Definition total (b : Bank) (ks : list buffer) : Z := sum_list_Z (lam b <$> ks).

Lemma stakes_total_cons b k ks : total b (k :: ks) = lam b k + total b ks.
Proof. done. Qed.

Lemma total_app b ks ks' : total b (ks ++ ks') = total b ks + total b ks'.
Proof. unfold total. by rewrite fmap_app, sum_list_Z_app. Qed.

Lemma total_ext b b' ks : (∀ k, k ∈ ks → lam b' k = lam b k) → total b' ks = total b ks.
Proof.
  intros Hk. unfold total. f_equal. apply list_fmap_ext. intros i x Hx. apply Hk.
  by eapply list_elem_of_lookup_2.
Qed.

Lemma total_zero b ks : (∀ k, k ∈ ks → lam b k = 0) → total b ks = 0.
Proof.
  induction ks as [|k ks IH]; intros Hk; [done|]. rewrite stakes_total_cons, IH by set_solver.
  rewrite Hk by set_solver. done.
Qed.

Section Update.
Context (p pool : buffer).

Definition reserve_key : buffer := fst (get_reserve_adderess p pool).
Definition stake_key (validator : buffer) (i : nat) : buffer :=
  fst (find_program_address (stake_seeds validator pool (Z.of_nat i)) p).

(** The addresses of [n] stakes of a validator from [i] on. *)
Definition keys_from (validator : buffer) (i n : nat) : list buffer := stake_key validator <$> seq i n.
Definition stake_keys (v : ValidatorStakeInfo) : list buffer :=
  keys_from (vsi_validator_account v) 0 (Z.to_nat (vsi_stake_count v)).

(** A record that has the lamports of its stakes. *)
Definition exact (b : Bank) (v : ValidatorStakeInfo) : Prop :=
  vsi_balance v = total b (stake_keys v) mod u64_max_plus_1.

Lemma check_address_inr v i k b z b' :
  check_validator_stake_address v p pool (Z.of_nat i) k b = inr (z, b') →
  b' = b ∧ k = stake_key (vsi_validator_account v) i.
Proof.
  intros Hr. unfold check_validator_stake_address, stake_address in Hr. unfold stake_key.
  destruct (find_program_address _ _) as [x y]. inv_step Hr. injection Hr as _ <-.
  apply bytes_eqb_true in E. done.
Qed.

Lemma read_state_inr i b s b' : read_stake_state i b = inr (s, b') → b' = b.
Proof. intros Hr. unfold read_stake_state in Hr. inv_step Hr. injection E as <- <-. by apply ok_or_fail_inr in Hr as [_ ->]. Qed.

Lemma available_inr n s b x b' : available_lamports n s b = inr (x, b') → b' = b.
Proof. destruct s; by intros [= <- <-]. Qed.

(** Of one stake: what it holds afterwards is counted, the rest went to the reserve. *)
Lemma update_stake_inv pi wd res sys sprog clock hist sp vote v i info acc b acc' b' :
  update_stake p pi wd res sys sprog clock hist sp vote v (Z.of_nat i) info acc b = inr (acc', b') →
  ai_key pi = pool → ai_key res = reserve_key → bank_u64 b → is_u64 acc.1 →
  let k := stake_key (vsi_validator_account v) i in
  k ≠ reserve_key →
  ai_key info = k ∧ bank_u64 b' ∧ kept b b' ∧ is_u64 acc'.1 ∧
  acc'.1 = (acc.1 + lam b' k) mod u64_max_plus_1 ∧
  (acc'.2 = Z.of_nat i + 1 ∨ acc'.2 = acc.2 ∧ lam b' k = 0) ∧
  ∃ n, moved k reserve_key n b b'.
Proof.
  intros Hr Hpi Hres Hu Hacc k Hk. unfold update_stake in Hr. rewrite Hpi in Hr. inv_step Hr.
  apply check_address_inr in E as [-> Hki]. fold k in Hki.
  inv_step Hr. apply lamports_inr in E as [-> ->]. rewrite Hki in Hr. split; [done|].
  destruct (Z.ltb_spec 0 (lam b k)) as [Hpos|Hzero].
  2: { apply (inj inr) in Hr. injection Hr as <- <-. pose proof (Hu k) as Hu0. unfold is_u64 in Hu0.
       assert (lam b k = 0) as Hz by lia.
       split_and!; try done; [rewrite Hz, Z.add_0_r, Z.mod_small; done|by right|].
       exists 0. intros ?. repeat destruct (decide _); lia. }
  inv_step Hr. injection E as <- <-. rewrite Hki in Hr. case_match eqn:Ho.
  - apply bytes_eqb_true in Ho.
    apply P_bind_inr in Hr as (s & b1 & ->%read_state_inr & Hr).
    apply P_bind_inr in Hr as (av & b1 & ->%available_inr & Hr).
    apply P_bind_inr in Hr as (bal & b1 & E0 & Hr). apply (inj inr) in Hr. injection Hr as <- <-.
    assert (Hgo : ∃ n, bank_u64 b1 ∧ kept b b1 ∧ moved k reserve_key n b b1 ∧ bal = lam b1 k).
    { destruct (Z.ltb_spec 0 av) as [Hav|Hav].
      - apply P_bind_inr in E0 as (? & b2 & E1%invoke_stake_inr & E0).
        apply (inj inr) in E0. injection E0 as <- <-.
        pose proof (stake_lamports_u64 _ _ _ _ _ _ E1 Hu) as Hu1.
        apply stake_withdraw_effect in E1 as (Hko & _ & Hle & Hso & Hfr & Hmv).
        rewrite Hres in Hmv. exists av. split_and!; [done|by eapply kept_frame_stake|done|].
        pose proof (moved_lam _ _ _ _ _ Hmv k) as Hl. unfold both, at_ in Hl.
        rewrite decide_True, decide_False in Hl by done. pose proof (Hu k). pose proof (Hu1 k).
        unfold is_u64, lam in *. rewrite wsub_small; lia.
      - apply (inj inr) in E0. injection E0 as <- <-. exists 0.
        split_and!; [done|apply kept_refl| |done]. intros ?. repeat destruct (decide _); lia. }
    destruct Hgo as (n & Hu0 & Hkept & Hmv & ->). cbn [fst snd].
    split_and!; try done; [apply wadd_u64|by left|by exists n].
  - case_match eqn:Hsys; [|done]. apply bytes_eqb_true in Hsys.
    inv_step Hr. apply (inj inr) in Hr. injection Hr as <- <-. apply invoke_inr in E.
    pose proof (lamports_kept_u64 _ _ _ _ _ _ E Hu) as Hu1.
    apply transfer_effect in E as (_ & _ & _ & Hfr & Hmv). rewrite ?Hki, Hres in Hmv.
    assert (Hz : lam b0 k = 0).
    { pose proof (moved_lam _ _ _ _ _ Hmv k) as Hl. unfold both, at_ in Hl.
      rewrite decide_True, decide_False in Hl by done. unfold lam in *. lia. }
    split_and!; try done.
    + eapply kept_frame; [done|]. set_solver.
    + rewrite Hz, Z.add_0_r, Z.mod_small; done.
    + by right.
    + by eexists.
Qed.

Lemma keys_from_S a i n : keys_from a i (S n) = stake_key a i :: keys_from a (S i) n.
Proof. done. Qed.

Lemma elem_of_keys_from a i n k :
  k ∈ keys_from a i n ↔ ∃ j, (i <= j < i + n)%nat ∧ k = stake_key a j.
Proof.
  unfold keys_from. rewrite list_elem_of_fmap. split.
  - intros (j & -> & Hj%elem_of_seq). eauto.
  - intros (j & Hj & ->). exists j. split; [done|]. by apply elem_of_seq.
Qed.

Record updated_stakes (a : buffer) (i n : nat) (acc acc' : Z * Z) (b b' : Bank) : Prop := {
  us_u64 : bank_u64 b';
  us_kept : kept b b';
  us_balance : is_u64 acc'.1 ∧ acc'.1 = (acc.1 + total b' (keys_from a i n)) mod u64_max_plus_1;
  us_count : acc.2 <= acc'.2 ∧ acc'.2 <= Z.max acc.2 (Z.of_nat (i + n));
  us_empty : ∀ j, (i <= j < i + n)%nat → acc'.2 <= Z.of_nat j → lam b' (stake_key a j) = 0;
  us_others : ∀ k, k ∉ keys_from a i n → k ≠ reserve_key → lam b' k = lam b k;
  us_total : lam b' reserve_key + total b' (keys_from a i n)
             = lam b reserve_key + total b (keys_from a i n);
}.

Lemma update_stakes_inv pi wd res sys sprog clock hist sp vote v n i it acc b acc' it' b' :
  update_stakes p pi wd res sys sprog clock hist sp vote v n (Z.of_nat i) it acc b = inr (acc', it', b') →
  ai_key pi = pool → ai_key res = reserve_key → bank_u64 b → is_u64 acc.1 → acc.2 <= Z.of_nat i →
  NoDup (keys_from (vsi_validator_account v) i n) →
  reserve_key ∉ keys_from (vsi_validator_account v) i n →
  length it = (n + length it')%nat ∧ updated_stakes (vsi_validator_account v) i n acc acc' b b'.
Proof.
  intros Hr Hpi Hres. revert i it acc b Hr. induction n as [|n IH]; intros i it acc b Hr Hu Hacc Hi Hnd Hrk.
  { apply (inj inr) in Hr. injection Hr as <- <- <-. split; [done|].
    split; try done; cbn [keys_from seq fmap list_fmap]; [|lia|intros; lia].
    split; [done|]. change (total b []) with 0. rewrite Z.add_0_r, Z.mod_small; done. }
  rewrite keys_from_S in Hnd, Hrk. apply NoDup_cons in Hnd as [Hk Hnd].
  apply not_elem_of_cons in Hrk as [Hk0 Hrk].
  cbn [update_stakes] in Hr. apply P_bind_inr in Hr as ([info it1] & b1 & [-> ->]%next_inr & Hr).
  apply P_bind_inr in Hr as (acc1 & b1 & E & Hr).
  apply update_stake_inv in E as (_ & Hu1 & Hkept & Ha1 & Hb1 & Hc1 & m & Hmv); try done.
  replace (Z.of_nat i + 1) with (Z.of_nat (S i)) in Hr, Hc1 by lia.
  apply IH in Hr as [Hlen [U K [Bu B] C Em O T]]; try done; [|lia].
  split; [cbn; lia|].
  set (k := stake_key _ i) in *. pose proof (O k Hk ltac:(done)) as Hkk.
  pose proof (moved_lam _ _ _ _ _ Hmv) as Hl. unfold both, at_ in Hl.
  split; rewrite ?keys_from_S; fold k.
  - done.
  - by eapply kept_trans.
  - split; [done|]. rewrite stakes_total_cons, Hkk, B, Hb1. rewrite Zplus_mod_idemp_l. f_equal. lia.
  - lia.
  - intros j Hj Hle. destruct (decide (j = i)) as [->|]; [|apply Em; lia].
    fold k. rewrite Hkk. lia.
  - intros x [Hx Hx']%not_elem_of_cons Hxr. rewrite O, Hl by done. rewrite !decide_False by done. lia.
  - rewrite !stakes_total_cons, Hkk. rewrite (total_ext b b1) in T.
    2: { intros x Hx. rewrite Hl, !decide_False; [lia| |]; intros ->; done. }
    rewrite (Hl reserve_key) in T. rewrite (Hl k).
    rewrite (decide_False (P := reserve_key = k)), (decide_True (P := reserve_key = reserve_key)) in T by done.
    rewrite (decide_True (P := k = k)), (decide_False (P := k = reserve_key)) by done. lia.
Qed.

(** *** All validators *)

(** The addresses of the stakes and of the reserve are different, as derived addresses are. *)
Record distinct (vs : list ValidatorStakeInfo) : Prop := {
  di_stakes : ∀ i j v w x y, vs !! i = Some v → vs !! j = Some w →
    (x < Z.to_nat (vsi_stake_count v))%nat → (y < Z.to_nat (vsi_stake_count w))%nat →
    stake_key (vsi_validator_account v) x = stake_key (vsi_validator_account w) y → i = j ∧ x = y;
  di_reserve : ∀ i v x, vs !! i = Some v → (x < Z.to_nat (vsi_stake_count v))%nat →
    stake_key (vsi_validator_account v) x ≠ reserve_key;
}.

Lemma distinct_shrink vs i v v' :
  distinct vs → vs !! i = Some v → vsi_validator_account v' = vsi_validator_account v →
  vsi_stake_count v' <= vsi_stake_count v → distinct (<[i := v']> vs).
Proof.
  intros [Ds Dr] Hv Ha Hc.
  assert (Hold : ∀ j w x, <[i := v']> vs !! j = Some w → (x < Z.to_nat (vsi_stake_count w))%nat →
    ∃ w0, vs !! j = Some w0 ∧ (x < Z.to_nat (vsi_stake_count w0))%nat ∧
          vsi_validator_account w0 = vsi_validator_account w).
  { intros j w x Hj Hx. apply list_lookup_insert_Some in Hj as [(<- & <- & _)|(_ & Hj)]; [|eauto].
    exists v. split_and!; [done|lia|done]. }
  split.
  - intros j l w u x y Hj Hl Hx Hy He.
    destruct (Hold j w x Hj Hx) as (w0 & Hw0 & Hx0 & Ew).
    destruct (Hold l u y Hl Hy) as (u0 & Hu0 & Hy0 & Eu). rewrite <- Ew, <- Eu in He. by eapply Ds.
  - intros j w x Hj Hx. destruct (Hold j w x Hj Hx) as (w0 & Hw0 & Hx0 & <-). by eapply Dr.
Qed.

Lemma distinct_keys vs i v :
  distinct vs → vs !! i = Some v → NoDup (stake_keys v) ∧ reserve_key ∉ stake_keys v.
Proof.
  intros [Ds Dr] Hv. split.
  - unfold stake_keys, keys_from. apply NoDup_fmap_2_strong; [|apply NoDup_seq].
    intros x y [_ Hx]%elem_of_seq [_ Hy]%elem_of_seq He.
    by destruct (Ds i i v v x y Hv Hv Hx Hy He).
  - intros (x & [_ Hx] & He)%elem_of_keys_from. by apply (Dr i v x Hv Hx).
Qed.

(** Stakes of other validators are other accounts. *)
Lemma distinct_others vs i j v w k :
  distinct vs → vs !! i = Some v → vs !! j = Some w → i ≠ j → k ∈ stake_keys w →
  (k ∉ stake_keys v) ∧ k ≠ reserve_key.
Proof.
  intros [Ds Dr] Hv Hw Hij (y & [_ Hy] & ->)%elem_of_keys_from. split; [|by eapply Dr].
  intros (x & [_ Hx] & He)%elem_of_keys_from. by destruct (Ds j i w v y x Hw Hv Hy Hx He).
Qed.

(** The lamports of the reserve and of all stakes. *)
Definition pool_lamports (b : Bank) (vs : list ValidatorStakeInfo) : Z :=
  lam b reserve_key + sum_list_Z ((λ v, total b (stake_keys v)) <$> vs).

Lemma sum_list_Z_cons x l : sum_list_Z (x :: l) = x + sum_list_Z l.
Proof. done. Qed.

Lemma sum_insert (f g : ValidatorStakeInfo → Z) vs i v v' :
  vs !! i = Some v → (∀ j w, vs !! j = Some w → i ≠ j → g w = f w) →
  sum_list_Z (g <$> <[i := v']> vs) = sum_list_Z (f <$> vs) - f v + g v'.
Proof.
  revert i; induction vs as [|w vs IH]; intros [|i] Hv Hg; [done|done| |].
  - injection Hv as ->. change (<[0%nat := v']> (v :: vs)) with (v' :: vs). rewrite !fmap_cons, !sum_list_Z_cons.
    assert (g <$> vs = f <$> vs) as ->; [|lia].
    apply list_fmap_ext. intros j u Hu. by apply (Hg (S j)).
  - change (<[S i := v']> (w :: vs)) with (w :: <[i := v']> vs). rewrite !fmap_cons, !sum_list_Z_cons.
    rewrite (Hg 0%nat w) by done. rewrite (IH i Hv); [lia|].
    intros j u Hu Hj. apply (Hg (S j)); [done|lia].
Qed.

(** A record of this epoch has the lamports of its stakes. *)
Definition fresh (epoch : Z) (b : Bank) (v : ValidatorStakeInfo) : Prop :=
  epoch <= vsi_last_update_epoch v → exact b v.

Record updated (epoch : Z) (vs vs' : list ValidatorStakeInfo) (b b' : Bank) : Prop := {
  up_u64 : bank_u64 b';
  up_fresh : Forall (fresh epoch b') vs';
  up_wf : Forall wf_validator vs';
  up_names : vsi_validator_account <$> vs' = vsi_validator_account <$> vs;
  up_distinct : distinct vs';
  up_total : pool_lamports b' vs' = pool_lamports b vs;
}.

Lemma stake_keys_take v n :
  0 <= n <= vsi_stake_count v →
  keys_from (vsi_validator_account v) 0 (Z.to_nat (vsi_stake_count v)) =
  keys_from (vsi_validator_account v) 0 (Z.to_nat n) ++
  keys_from (vsi_validator_account v) (Z.to_nat n) (Z.to_nat (vsi_stake_count v) - Z.to_nat n).
Proof.
  intros Hn. unfold keys_from. rewrite <- fmap_app, <- seq_app. do 2 f_equal. lia.
Qed.

(** The turn of one validator. *)
Lemma updated_turn epoch vs i v acc b b' :
  distinct vs → Forall wf_validator vs → is_u64 epoch → Forall (fresh epoch b) vs →
  vs !! i = Some v →
  updated_stakes (vsi_validator_account v) 0 (Z.to_nat (vsi_stake_count v)) (0, 0) acc b b' →
  updated epoch vs (<[i := {| vsi_validator_account := vsi_validator_account v; vsi_balance := acc.1;
                             vsi_last_update_epoch := epoch; vsi_stake_count := acc.2 |}]> vs) b b'.
Proof.
  intros Hd Hwf He Hfr Hv [U K [Bu B] C Em O T]. cbn [fst snd] in *.
  destruct (proj1 (Forall_lookup _ _) Hwf i v Hv) as (Hk & _ & _ & Hc).
  destruct (distinct_keys vs i v Hd Hv) as [Hnd Hrk]. rewrite Z.add_0_l in B.
  assert (Hcount : 0 <= acc.2 <= vsi_stake_count v) by lia.
  set (v' := {| vsi_balance := acc.1 |}).
  assert (Hzero : total b' (stake_keys v) = total b' (stake_keys v')).
  { unfold stake_keys. rewrite (stake_keys_take v acc.2 Hcount), total_app. cbn.
    rewrite (total_zero b' (keys_from _ _ (_ - _))); [lia|].
    intros x (j & Hj & ->)%elem_of_keys_from. apply Em; lia. }
  assert (Hothers : ∀ j w, vs !! j = Some w → i ≠ j → total b' (stake_keys w) = total b (stake_keys w)).
  { intros j w Hw Hij. apply total_ext. intros x Hx.
    destruct (distinct_others vs i j v w x Hd Hv Hw Hij Hx). by apply O. }
  split; try done.
  - apply Forall_lookup. intros j w [(<- & <- & _)|(Hij & Hw)]%list_lookup_insert_Some.
    + intros _. unfold exact. rewrite <- Hzero. exact B.
    + intros Hep. unfold exact. rewrite (Hothers j w Hw Hij).
      exact (proj1 (Forall_lookup _ _) Hfr j w Hw Hep).
  - apply Forall_insert; [done|]. unfold v', wf_validator; cbn. split_and!; try done; try apply Bu; lia.
  - rewrite list_fmap_insert. apply list_insert_id. by rewrite list_lookup_fmap, Hv.
  - eapply distinct_shrink; [done|done|done|cbn; lia].
  - unfold pool_lamports. rewrite (sum_insert (λ v, total b (stake_keys v)) _ vs i v v' Hv Hothers).
    rewrite <- Hzero. unfold stake_keys in *. lia.
Qed.

Lemma updated_refl epoch vs b :
  distinct vs → Forall wf_validator vs → bank_u64 b → Forall (fresh epoch b) vs → updated epoch vs vs b b.
Proof. by intros; split. Qed.

Lemma updated_trans epoch vs vs1 vs2 b b1 b2 :
  updated epoch vs vs1 b b1 → updated epoch vs1 vs2 b1 b2 → updated epoch vs vs2 b b2.
Proof.
  intros [U1 F1 W1 N1 D1 T1] [U2 F2 W2 N2 D2 T2]. split; try done; congruence.
Qed.

Lemma update_validators_inv fuel pi wd res sys sprog clock hist sp epoch it vs c b vs' c' b' :
  update_validators fuel p pi wd res sys sprog clock hist sp epoch it vs c b = inr (vs', c', b') →
  ai_key pi = pool → ai_key res = reserve_key → is_u64 epoch →
  distinct vs → Forall wf_validator vs → bank_u64 b → Forall (fresh epoch b) vs →
  updated epoch vs vs' b b' ∧ kept b b' ∧ (c' = false → c = false ∧ vs' = vs).
Proof.
  intros Hr Hpi Hres He. revert it vs c b Hr. induction fuel as [|fuel IH]; intros it vs c b Hr Hd Hwf Hu Hfr.
  { assert (Hret : inr (vs, c, b) = (inr (vs', c', b') : program_result _)) by (by destruct it).
    injection Hret as <- <- <-. split_and!; [by apply updated_refl|apply kept_refl|done]. }
  destruct it as [|vote it]; [injection Hr as <- <- <-; split_and!; [by apply updated_refl|apply kept_refl|done]|].
  cbn [update_validators] in Hr. destruct (find_validator _ vs) as [[i v]|] eqn:Hf; [|done].
  apply find_validator_lookup in Hf as [Hv _].
  apply P_bind_inr in Hr as ([[bal count] it1] & b1 & E & Hr).
  destruct (distinct_keys vs i v Hd Hv) as [Hnd Hrk].
  apply (update_stakes_inv _ _ _ _ _ _ _ _ _ _ _ 0) in E as [_ Hus]; try done.
  pose proof (updated_turn epoch vs i v (bal, count) b b1 Hd Hwf He Hfr Hv Hus) as Hturn.
  apply IH in Hr as (Hup & Hk & Hc); [|apply Hturn..].
  split_and!; [by eapply updated_trans|by eapply kept_trans, Hk; apply Hus|].
  intros ->. by destruct (Hc eq_refl).
Qed.

Lemma update_stakes_length pi wd res sys sprog clock hist sp vote v n i it acc b r it' b' :
  update_stakes p pi wd res sys sprog clock hist sp vote v n i it acc b = inr (r, it', b') →
  (length it' ≤ length it)%nat.
Proof.
  revert i it acc b; induction n as [|n IH]; intros i it acc b Hr; [by injection Hr as <- <- <-|].
  cbn [update_stakes] in Hr. apply P_bind_inr in Hr as ([info it1] & b1 & [-> ->]%next_inr & Hr).
  apply P_bind_inr in Hr as (acc1 & b1 & _ & Hr). apply IH in Hr. cbn. lia.
Qed.

(** As much fuel as there are accounts is enough: more changes nothing. *)
Lemma update_validators_fuel fuel fuel' pi wd res sys sprog clock hist sp epoch it vs c b :
  (length it ≤ fuel)%nat → (length it ≤ fuel')%nat →
  update_validators fuel p pi wd res sys sprog clock hist sp epoch it vs c b =
  update_validators fuel' p pi wd res sys sprog clock hist sp epoch it vs c b.
Proof.
  revert fuel' it vs c b; induction fuel as [|fuel IH]; intros [|fuel'] [|vote it] vs c b Hf Hf';
    cbn [length] in *; try done; try lia.
  cbn [update_validators]. destruct (find_validator _ vs) as [[i v]|]; [|done].
  unfold mbind, P_bind. destruct (update_stakes _ _ _ _ _ _ _ _ _ _ _ _ _ _ _ b) as [e|[[[bal n] it1] b1]] eqn:E; [done|].
  apply update_stakes_length in E. apply IH; lia.
Qed.

End Update.

(** ** The handlers *)

Definition validators_at (b : Bank) (k : buffer) : option ValidatorStakeList :=
  match deserialize_validator_stake_list (ac_data (b k)) with inr l => Some l | inl _ => None end.

Lemma read_validators_inr sp i b l b' :
  read_validators sp i b = inr (l, b') →
  b' = b ∧ ai_key i = sp_validator_stake_list sp ∧ validators_at b (ai_key i) = Some l ∧ wf_validators l.
Proof.
  intros Hr. unfold read_validators in Hr. inv_step Hr. inv_step Hr. injection E0 as <- <-. inv_step Hr.
  inv_step Hr. injection Hr as <- <-. apply bytes_eqb_true in E. unfold validators_at.
  rewrite E0. split_and!; try done. by eapply deserialize_validators_wf.
Qed.

Lemma write_validators_step i l b u b' :
  wf_validators l → write_validators i l b = inr (u, b') →
  effect [] [ai_key i] none none none b b' ∧ validators_at b' (ai_key i) = Some l ∧
  ac_owner (b' (ai_key i)) = ac_owner (b (ai_key i)) ∧ (∀ k, k ≠ ai_key i → b' k = b k).
Proof.
  intros Hw Hs. apply write_effect in Hs as (He & Ho & Hd & Hk). split_and!; [done| |done|done].
  unfold validators_at. by rewrite (validators_round_trip _ l _ _ (length_padding 4) Hw Hd).
Qed.

Lemma kept_validators b b' k :
  kept b b' → ac_owner (b k) ≠ stake_id → ac_owner (b k) ≠ system_program_id →
  validators_at b' k = validators_at b k ∧ ac_owner (b' k) = ac_owner (b k).
Proof. intros K Hs Hy. destruct (K k Hs Hy) as [Hd Ho]. unfold validators_at. by rewrite Hd. Qed.

(** The list written back if it changed. *)
Lemma write_changed_step i l vs c b u b' :
  wf_validators {| vsl_version := vsl_version l; vsl_validators := vs |} →
  (c = false → validators_at b (ai_key i) = Some {| vsl_version := vsl_version l; vsl_validators := vs |}) →
  write_changed i l (vs, c) b = inr (u, b') →
  validators_at b' (ai_key i) = Some {| vsl_version := vsl_version l; vsl_validators := vs |} ∧
  same_owners b b' ∧ same_lamports b b' ∧ (∀ k, k ≠ ai_key i → b' k = b k).
Proof.
  intros Hwf Hc Hw. unfold write_changed in Hw; cbn [fst snd] in Hw. destruct c.
  - apply write_validators_step in Hw as ([_ L _] & Hl & Ho & Hk); [|done]. split_and!; try done.
    + intros k. destruct (decide (k = ai_key i)) as [->|]; [done|]. by rewrite Hk.
    + intros k. specialize (L k). unfold lam, none in L. lia.
  - injection Hw as _ <-. split_and!; try done. by apply Hc.
Qed.

(** The accounts of the pool: its own and the list are the program's. *)
Record pool_accounts (p pool : buffer) (b : Bank) (sp : StakePool) (l : ValidatorStakeList) : Prop := {
  pa_pool : pool_at b pool = Some sp;
  pa_list : validators_at b (sp_validator_stake_list sp) = Some l;
  pa_owner : ac_owner (b pool) = p;
  pa_list_owner : ac_owner (b (sp_validator_stake_list sp)) = p;
  pa_apart : sp_validator_stake_list sp ≠ pool;
  pa_program : p ≠ stake_id ∧ p ≠ system_program_id;
}.

Lemma kept_accounts p pool b b' sp l :
  pool_accounts p pool b sp l → kept b b' → pool_accounts p pool b' sp l.
Proof.
  intros [Hp Hl Ho Hlo Ha [Hs Hy]] K.
  destruct (K pool) as [Dp Op]; [congruence..|]. destruct (K (sp_validator_stake_list sp)) as [Dl Ol]; [congruence..|].
  split; try congruence; try done.
  - unfold pool_at in *. by rewrite Dp.
  - unfold validators_at in *. by rewrite Dl.
Qed.

(** A written list leaves the rest of the pool's accounts. *)
Lemma written_accounts p pool b b' sp l l' :
  pool_accounts p pool b sp l →
  validators_at b' (sp_validator_stake_list sp) = Some l' → same_owners b b' →
  (∀ k, k ≠ sp_validator_stake_list sp → b' k = b k) → pool_accounts p pool b' sp l'.
Proof.
  intros [Hp Hl Ho Hlo Ha Hpr] Hl' Hso Hk. split; try done; [|by rewrite Hso..].
  unfold pool_at in *. by rewrite Hk.
Qed.

Lemma pool_lamports_ext p pool b b' vs :
  same_lamports b b' → pool_lamports p pool b' vs = pool_lamports p pool b vs.
Proof.
  intros Hl. unfold pool_lamports. rewrite (Hl _ : lam b' _ = lam b _). do 2 f_equal.
  apply list_fmap_ext. intros i v _. apply total_ext. intros k _. apply Hl.
Qed.

Lemma exact_ext p pool b b' v : same_lamports b b' → exact p pool b v → exact p pool b' v.
Proof. intros Hl. unfold exact. by rewrite (total_ext b b') by (intros k _; apply Hl). Qed.

Lemma update_list_inv p accounts b u b' sp l pi vl wd res sys sprog clock rest e :
  process_update_list_balance p accounts b = inr (u, b') →
  accounts = pi :: vl :: wd :: res :: sys :: sprog :: clock :: rest →
  let pool := ai_key pi in
  pool_accounts p pool b sp l → bank_u64 b → Clock_from_account_info clock b = inr e →
  distinct p pool (vsl_validators l) → Forall (fresh p pool e b) (vsl_validators l) →
  ∃ l', pool_accounts p pool b' sp l' ∧ vsl_version l' = vsl_version l ∧
    updated p pool e (vsl_validators l) (vsl_validators l') b b'.
Proof.
  intros Hr -> pool Hpa Hu Hclock Hd Hfr. pose proof (pa_pool _ _ _ _ _ Hpa) as Hp.
  pose proof (pa_list _ _ _ _ _ Hpa) as Hl.
  unfold process_update_list_balance in Hr. do 7 inv_step Hr.
  inv_step Hr. apply clock_inr in E as [-> Hc]. rewrite Hclock in Hc. injection Hc as <-. inv_step Hr.
  inv_step Hr. apply read_pool_inr in E as (-> & _ & Hsp & _). fold pool in Hsp. rewrite Hp in Hsp. injection Hsp as <-.
  inv_step Hr. apply read_validators_inr in E as (-> & Hvl & Hl' & Hwf). rewrite Hvl, Hl in Hl'. injection Hl' as <-.
  inv_step Hr. apply check_withdraw_inr in E as [-> _].
  inv_step Hr. apply check_reserve_inr in E as [-> Hres]. 
  apply P_bind_inr in Hr as ([vs c] & b1 & E & Hr).
  assert (He : is_u64 e) by (by eapply clock_u64).
  apply (update_validators_inv p pool) in E as (Hup & Hkept & Hc); try done;
    [|unfold reserve_key, pool; by rewrite Hres|apply Hwf].
  pose proof (kept_accounts _ _ _ _ _ _ Hpa Hkept) as Hpa1.
  set (l' := {| vsl_version := vsl_version l; vsl_validators := vs |}).
  apply write_changed_step in Hr as (Hl1 & Hso & Hsl & Hk).
  2: { destruct Hwf as (Hv & Hlen & _). split; [done|]. split; [cbn [vsl_validators]|apply Hup].
       rewrite <- (length_fmap vsi_validator_account), (up_names _ _ _ _ _ _ _ Hup), length_fmap. done. }
  2: { intros Hcf. destruct (Hc Hcf) as [_ ->]. rewrite Hvl, (pa_list _ _ _ _ _ Hpa1). by destruct l. }
  rewrite Hvl in Hl1, Hk. exists l'. split_and!; [by eapply written_accounts|done|].
  destruct Hup as [U F W N D T]. split; try done.
  - intros k. unfold lam. rewrite Hsl. apply U.
  - eapply Forall_impl; [exact F|]. intros v Hv Hep. eapply exact_ext; [done|]. by apply Hv.
  - rewrite <- T. by apply pool_lamports_ext.
Qed.

Lemma stakes_sum_exact p pool b vs :
  (∀ v, v ∈ vs → exact p pool b v) →
  (lam b (reserve_key p pool) + sum_list_Z (vsi_balance <$> vs)) mod u64_max_plus_1 =
  pool_lamports p pool b vs mod u64_max_plus_1.
Proof.
  unfold pool_lamports. generalize (lam b (reserve_key p pool)) as z.
  induction vs as [|v vs IH]; intros z Hv; [done|]. rewrite !fmap_cons, !sum_list_Z_cons, !Z.add_assoc.
  rewrite <- (IH (z + total b (stake_keys p pool v))) by set_solver.
  rewrite (Hv v) by set_solver. rewrite <- (Zplus_mod_idemp_l (z + _)), Zplus_mod_idemp_r.
  by rewrite Zplus_mod_idemp_l.
Qed.


(** *** Merges *)

(** Another stake count and nothing else. *)
Definition recounted (vs vs' : list ValidatorStakeInfo) : Prop :=
  Forall2 (λ v v', ∃ n, v' = with_count n v) vs vs'.

Lemma Forall2_compose {A} (P Q R : A → A → Prop) xs ys zs :
  (∀ x y z, P x y → Q y z → R x z) → Forall2 P xs ys → Forall2 Q ys zs → Forall2 R xs zs.
Proof.
  intros HR HP. revert zs. induction HP as [|x y xs ys Hx _ IH]; intros zs HQ; inversion HQ; constructor; eauto.
Qed.

Lemma recounted_refl vs : recounted vs vs.
Proof.
  induction vs as [|v vs IH]; constructor; [|done]. exists (vsi_stake_count v). by destruct v.
Qed.

Lemma recounted_trans vs1 vs2 vs3 : recounted vs1 vs2 → recounted vs2 vs3 → recounted vs1 vs3.
Proof.
  apply Forall2_compose. intros v1 v2 v3 [n ->] [m ->]. by exists m.
Qed.

Lemma recounted_insert vs i v n : vs !! i = Some v → recounted vs (<[i := with_count n v]> vs).
Proof.
  intros Hv. rewrite <- (list_insert_id vs i v Hv) at 1. apply Forall2_insert; [apply recounted_refl|by exists n].
Qed.

Lemma sum_at k n ks : NoDup ks → k ∈ ks → sum_list_Z (at_ k n <$> ks) = n.
Proof.
  induction 1 as [|x ks Hx Hnd IH]; intros Hk; [by apply elem_of_nil in Hk|].
  rewrite fmap_cons, sum_list_Z_cons. apply elem_of_cons in Hk as [->|Hk].
  - unfold at_ at 1. rewrite decide_True by done.
    assert (sum_list_Z (at_ x n <$> ks) = 0) as ->; [|lia].
    clear IH Hnd. induction ks as [|y ks IH]; [done|]. apply not_elem_of_cons in Hx as [Hy Hx].
    rewrite fmap_cons, sum_list_Z_cons, IH by done. unfold at_. by rewrite decide_False.
  - unfold at_ at 1. rewrite decide_False by congruence. rewrite IH by done. lia.
Qed.

Lemma total_plus f b b' ks :
  (∀ k, k ∈ ks → lam b' k = lam b k + f k) → total b' ks = total b ks + sum_list_Z (f <$> ks).
Proof.
  induction ks as [|k ks IH]; intros Hf; [done|].
  rewrite !stakes_total_cons, fmap_cons, sum_list_Z_cons, IH, Hf by set_solver. lia.
Qed.

(** Lamports moved between two of the accounts stay in their total. *)
Lemma total_moved from to n b b' ks :
  NoDup ks → from ∈ ks → to ∈ ks → moved from to n b b' → total b' ks = total b ks.
Proof.
  intros Hnd Hf Ht Hm. pose proof (moved_lam _ _ _ _ _ Hm) as Hl.
  rewrite (total_plus (both (at_ from (- n)) (at_ to n)) b b' ks (λ k _, Hl k)).
  assert (Hb : ∀ l, sum_list_Z (both (at_ from (- n)) (at_ to n) <$> l) =
                    sum_list_Z (at_ from (- n) <$> l) + sum_list_Z (at_ to n <$> l)).
  { induction l as [|x l IH]; [done|]. rewrite !fmap_cons, !sum_list_Z_cons, IH. unfold both. lia. }
  rewrite Hb, !sum_at by done. lia.
Qed.

(** What a merge keeps, if the addresses are distinct: the lamports of every validator's
    stakes and of the reserve. *)
Definition same_stakes (p pool : buffer) (vs vs' : list ValidatorStakeInfo) (b b' : Bank) : Prop :=
  distinct p pool vs → Forall (λ v, 0 <= vsi_stake_count v) vs →
  distinct p pool vs' ∧ Forall (λ v, 0 <= vsi_stake_count v) vs' ∧
  lam b' (reserve_key p pool) = lam b (reserve_key p pool) ∧
  Forall2 (λ v v', total b' (stake_keys p pool v') = total b (stake_keys p pool v)) vs vs'.

Lemma same_stakes_refl p pool vs b : same_stakes p pool vs vs b b.
Proof. intros Hd Hc. split_and!; try done. clear. induction vs; by constructor. Qed.

Lemma same_stakes_trans p pool vs vs1 vs2 b b1 b2 :
  same_stakes p pool vs vs1 b b1 → same_stakes p pool vs1 vs2 b1 b2 → same_stakes p pool vs vs2 b b2.
Proof.
  intros S1 S2 Hd Hc. destruct (S1 Hd Hc) as (Hd1 & Hc1 & Hr1 & HF1).
  destruct (S2 Hd1 Hc1) as (Hd2 & Hc2 & Hr2 & HF2). split_and!; try done; [congruence|].
  eapply Forall2_compose; [|exact HF1|exact HF2]. cbn. congruence.
Qed.

Lemma stake_in_keys p pool v x :
  (x < Z.to_nat (vsi_stake_count v))%nat → stake_key p pool (vsi_validator_account v) x ∈ stake_keys p pool v.
Proof. intros Hx. apply elem_of_keys_from. exists x. split; [lia|done]. Qed.

(** One merge of the stakes [x] and [y] of a validator; the last stake is dropped. *)
Lemma same_stakes_merge p pool vs i v x y b b' :
  let k := stake_key p pool (vsi_validator_account v) in
  vs !! i = Some v → 0 <= x < vsi_stake_count v → 0 <= y < vsi_stake_count v → x < y →
  moved (k (Z.to_nat y)) (k (Z.to_nat x)) (lam b (k (Z.to_nat y))) b b' →
  same_stakes p pool vs
    (if y + 1 =? vsi_stake_count v then <[i := with_count (vsi_stake_count v - 1) v]> vs else vs) b b'.
Proof.
  intros k Hv Hx Hy Hxy Hm Hd Hc.
  destruct (distinct_keys p pool vs i v Hd Hv) as [Hnd Hrk].
  pose proof (stake_in_keys p pool v (Z.to_nat x) ltac:(lia)) as Hkx.
  pose proof (stake_in_keys p pool v (Z.to_nat y) ltac:(lia)) as Hky. fold k in Hkx, Hky.
  pose proof (moved_lam _ _ _ _ _ Hm) as Hl. unfold both, at_ in Hl.
  assert (Hout : ∀ z, z ∉ stake_keys p pool v → lam b' z = lam b z).
  { intros z Hz. rewrite Hl, !decide_False; [lia| |]; intros ->; done. }
  assert (Htot : total b' (stake_keys p pool v) = total b (stake_keys p pool v)).
  { by eapply total_moved, Hm. }
  assert (Hall : ∀ j w, vs !! j = Some w → i ≠ j → total b' (stake_keys p pool w) = total b (stake_keys p pool w)).
  { intros j w Hw Hij. apply total_ext. intros z Hz. apply Hout.
    by apply (distinct_others p pool vs i j v w z). }
  assert (Hsame : Forall2 (λ v v', total b' (stake_keys p pool v') = total b (stake_keys p pool v)) vs vs).
  { apply Forall2_lookup. intros j. destruct (vs !! j) as [w|] eqn:Hw; constructor.
    destruct (decide (i = j)) as [<-|Hij]; [|by eapply Hall]. rewrite Hv in Hw. by injection Hw as <-. }
  destruct (Z.eqb_spec (y + 1) (vsi_stake_count v)) as [Hlast|_]; [|split_and!; try done; by apply Hout].
  split_and!; [eapply distinct_shrink; [done|done|done|cbn; lia]|apply Forall_insert; [done|cbn; lia]|by apply Hout|].
  rewrite <- (list_insert_id vs i v Hv) at 1. apply Forall2_insert; [done|]. rewrite <- Htot.
  assert (Hzero : lam b' (k (Z.to_nat y)) = 0).
  { assert (k (Z.to_nat y) ≠ k (Z.to_nat x)).
    { intros He. destruct (di_stakes _ _ _ Hd i i v v (Z.to_nat y) (Z.to_nat x) Hv Hv); [lia|lia|done|lia]. }
    rewrite Hl, decide_True, decide_False by done. lia. }
  unfold stake_keys. rewrite (stake_keys_take p pool v (vsi_stake_count v - 1)) by lia.
  rewrite total_app. replace (Z.to_nat (vsi_stake_count v) - _)%nat with 1%nat by lia.
  cbn [with_count vsi_stake_count vsi_validator_account].
  change (keys_from p pool ?a ?n 1) with [stake_key p pool a n]. rewrite stakes_total_cons.
  replace (Z.to_nat (vsi_stake_count v - 1)) with (Z.to_nat y) by lia. fold k. rewrite Hzero.
  unfold total at 3. cbn. lia.
Qed.

Lemma check_address_Z p pool v z k b x b' :
  0 <= z → check_validator_stake_address v p pool z k b = inr (x, b') →
  b' = b ∧ k = stake_key p pool (vsi_validator_account v) (Z.to_nat z).
Proof. intros Hz. rewrite <- (Z2Nat.id z Hz) at 1. apply check_address_inr. Qed.

Lemma wf_recount vs i v n :
  Forall wf_validator vs → vs !! i = Some v → 0 <= n < 2 ^ 32 →
  Forall wf_validator (<[i := with_count n v]> vs).
Proof.
  intros Hwf Hv Hn. apply Forall_insert; [done|].
  destruct (proj1 (Forall_lookup _ _) Hwf i v Hv) as (Hk & Hb & He & _). done.
Qed.

Lemma merge_loop_inv p pi deposit sprog clock hist seeds instructions it vs c b vs' c' b' :
  merge_loop p pi deposit sprog clock hist seeds instructions it vs c b = inr (vs', c', b') →
  Forall (λ i, 0 <= msi_main_index i ∧ 0 <= msi_additional_index i) instructions →
  Forall wf_validator vs →
  recounted vs vs' ∧ Forall wf_validator vs' ∧ kept b b' ∧ same_stakes p (ai_key pi) vs vs' b b' ∧
  (c' = false → c = false ∧ vs' = vs).
Proof.
  revert it vs c b. induction instructions as [|ins l IH]; intros it vs c b Hr Hpos Hwf.
  { injection Hr as <- <- <-. split_and!; try done; [apply recounted_refl|apply same_stakes_refl]. }
  apply Forall_cons in Hpos as [[Hx Hy] Hpos]. cbn [merge_loop] in Hr.
  apply P_bind_inr in Hr as ([main it1] & b1 & [-> ->]%next_inr & Hr).
  apply P_bind_inr in Hr as ([add it2] & b1 & [-> ->]%next_inr & Hr).
  destruct (find_validator _ vs) as [[i v]|] eqn:Hf; [|done].
  apply find_validator_lookup in Hf as [Hv _].
  apply P_bind_inr in Hr as (? & b1 & (Hc & [= -> ->])%ensure_inr & Hr).
  apply negb_true_iff, orb_false_iff in Hc as [[Hc1 Hc2]%orb_false_iff Hc3].
  apply Z.leb_gt in Hc1, Hc2, Hc3.
  apply P_bind_inr in Hr as (? & b1 & [-> Hmain]%check_address_Z & Hr); [|done].
  apply P_bind_inr in Hr as (? & b1 & [-> Hadd]%check_address_Z & Hr); [|done].
  apply P_bind_inr in Hr as (s & b1 & ->%read_state_inr & Hr).
  apply P_bind_inr in Hr as (s' & b1 & ->%read_state_inr & Hr).
  destruct (different_credits s s'); [by apply IH in Hr|].
  apply P_bind_inr in Hr as (? & b1 & E%invoke_stake_inr & Hr).
  apply stake_merge_effect in E as (Ho1 & Ho2 & _ & Hso & Hfr & Hmv). rewrite Hmain, Hadd in Hmv.
  destruct (proj1 (Forall_lookup _ _) Hwf i v Hv) as (_ & _ & _ & Hcnt).
  apply IH in Hr as (Hre & Hwf' & Hk & Hss & Hch); [|done|].
  2: { destruct (_ =? _); [apply wf_recount; [done|done|lia]|done]. }
  split_and!; [|done| | |].
  - eapply recounted_trans, Hre. destruct (_ =? _); [by apply recounted_insert|apply recounted_refl].
  - eapply kept_trans, Hk. eapply kept_frame; [done|]. intros k Hk'. left. set_solver.
  - eapply same_stakes_trans, Hss. apply (same_stakes_merge p _ vs i v (msi_main_index ins)); [done|lia|lia|lia|exact Hmv].
  - intros Hc'. destruct (Hch Hc') as [Hor ->]. apply orb_false_iff in Hor as [-> Hlast].
    by rewrite Hlast.
Qed.

(** Counts, balances and lamports of a list before and after. *)
Lemma recounted_wf l vs' :
  wf_validators l → recounted (vsl_validators l) vs' → Forall wf_validator vs' →
  wf_validators {| vsl_version := vsl_version l; vsl_validators := vs' |}.
Proof.
  intros (Hv & Hl & _) Hr Hwf. split; [done|]. split; [|done]. cbn. by rewrite <- (Forall2_length _ _ _ Hr).
Qed.

Lemma check_deposit_inr sp k p pool b u b' :
  check_authority_deposit sp k p pool b = inr (u, b') → b' = b.
Proof.
  intros Hr. unfold check_authority_deposit, check_authority in Hr. inv_step Hr.
  by apply ensure_inr in Hr as [_ [= -> ->]].
Qed.

Lemma quiet_ensure c e b : index_error e = None → quiet (ensure c e) b.
Proof. intros He e'. destruct c; [done|]. by intros [= <-]. Qed.

Lemma quiet_try {A} (r : program_result A) b : (∀ e, r = inl e → index_error e = None) → quiet (try_ r) b.
Proof. intros Hr e. destruct r; [intros [= <-]; by apply Hr|done]. Qed.

Lemma quiet_bind {A B} (m : P A) (f : A → P B) b :
  quiet m b → (∀ a b1, m b = inr (a, b1) → quiet (f a) b1) → quiet (m ≫= f) b.
Proof.
  intros Hm Hf e. unfold mbind, P_bind. destruct (m b) as [e'|[a b1]] eqn:E; [intros [= <-]; by apply Hm|].
  by apply Hf.
Qed.

Lemma quiet_read_pool p i b : quiet (read_pool p i) b.
Proof.
  unfold read_pool. apply quiet_bind; [by apply quiet_ensure|intros ? ? _].
  apply quiet_bind; [done|intros d ? _]. apply quiet_bind; [|intros ? ? _].
  - apply quiet_try. intros e. unfold deserialize_stake_pool. destruct (_ <? _)%nat; by intros [= <-].
  - apply quiet_bind; [by apply quiet_ensure|done].
Qed.

Lemma quiet_read_validators sp i b : quiet (read_validators sp i) b.
Proof.
  unfold read_validators. apply quiet_bind; [by apply quiet_ensure|intros ? ? _].
  apply quiet_bind; [done|intros d ? _]. apply quiet_bind; [|intros ? ? _].
  - apply quiet_try. intros e. unfold deserialize_validator_stake_list.
    repeat (destruct (_ <? _)%nat; [by intros [= <-]|]). destruct (_ =? _); [done|].
    by destruct (_ <? _)%nat; intros [= <-].
  - apply quiet_bind; [by apply quiet_ensure|done].
Qed.

Lemma quiet_check_authority k p pool ty z b : quiet (check_authority k p pool ty z) b.
Proof.
  unfold check_authority. apply quiet_bind; [|intros; by apply quiet_ensure].
  apply quiet_try. intros e. unfold authority_id. destruct (create_program_address _ _); by intros [= <-].
Qed.

Lemma quiet_write_changed i l r b : quiet (write_changed i l r) b.
Proof.
  intros e. unfold write_changed. destruct r.2; [|done].
  unfold write_validators, write_data, serialize_validator_stake_list.
  repeat (destruct (_ <? _)%nat; [by intros [= <-]|]). done.
Qed.

Lemma same_stakes_ext p pool vs vs' b b1 b2 :
  same_stakes p pool vs vs' b b1 → same_lamports b1 b2 → same_stakes p pool vs vs' b b2.
Proof.
  intros Hss Hl Hd Hc. destruct (Hss Hd Hc) as (Hd' & Hc' & Hr & HF). split_and!; try done.
  - unfold lam in *. by rewrite Hl.
  - eapply Forall2_impl; [exact HF|]. intros v v' <-. apply total_ext. intros k _. apply Hl.
Qed.

(** Success gives some choice of the pairs that were merged, and an error of the index
    checks is one of the specification. *)
Lemma merge_stakes_outcome p pi vl rest instructions b sp l :
  pool_accounts p (ai_key pi) b sp l →
  Forall (λ i, 0 <= msi_main_index i ∧ 0 <= msi_additional_index i) instructions →
  match process_merge_stakes p (pi :: vl :: rest) instructions b with
  | inr (_, b') => ∃ l' flags, pool_accounts p (ai_key pi) b' sp l' ∧
      length flags = length instructions ∧
      process_merges (zip instructions flags) (stake_counts (vsl_validators l))
        = inr (stake_counts (vsl_validators l')) ∧
      recounted (vsl_validators l) (vsl_validators l') ∧ wf_validators l ∧
      same_stakes p (ai_key pi) (vsl_validators l) (vsl_validators l') b b'
  | inl e => ∀ x, index_error e = Some x → ∃ flags, length flags = length instructions ∧
      process_merges (zip instructions flags) (stake_counts (vsl_validators l)) = inl x
  end.
Proof.
  intros Hpa Hpos. pose proof (pa_pool _ _ _ _ _ Hpa) as Hp. pose proof (pa_list _ _ _ _ _ Hpa) as Hl.
  pattern (process_merge_stakes p (pi :: vl :: rest) instructions b).
  match goal with |- ?g _ => set (G := g) end.
  assert (HG : ∀ e, index_error e = None → G (inl e)) by (intros e He x; by rewrite He).
  unfold process_merge_stakes.
  do 2 (apply bind_quiet; [done|quietly|intros [? ?] ? [E ->]%next_inr; injection E as <- <-]).
  do 4 (apply bind_quiet; [done|quietly|intros [? ?] ? [_ ->]%next_inr]).
  apply bind_quiet; [done|apply quiet_read_pool|intros sp' ? (-> & _ & Hsp & _)%read_pool_inr].
  rewrite Hp in Hsp. injection Hsp as <-.
  apply bind_quiet; [done|apply quiet_read_validators|intros l' ? (-> & Hvl & Hl' & Hwf)%read_validators_inr].
  rewrite Hvl, Hl in Hl'. injection Hl' as <-.
  apply bind_quiet; [done|apply quiet_check_authority|intros ? ? ->%check_deposit_inr].
  match goal with |- G ((merge_loop ?p ?pi ?d ?s ?c ?h ?sd ?i ?it ?vs ?ch ≫= _) _) =>
    destruct (merge_loop_refines p pi d s c h sd i it vs ch b) as (flags & Hfl & Href) end.
  unfold mbind, P_bind. destruct (merge_loop _ _ _ _ _ _ _ _ _ _ _ b) as [e|[[vs c] b1]] eqn:E.
  { intros x Hx. cbn in Href. rewrite Hx in Href. eauto. }
  cbn in Href. apply merge_loop_inv in E as (Hre & Hwf' & Hk & Hss & Hc); [|done|apply Hwf].
  pose proof (kept_accounts _ _ _ _ _ _ Hpa Hk) as Hpa1.
  destruct (write_changed vl l (vs, c) b1) as [e|[? b']] eqn:Hw.
  { apply HG. by eapply quiet_write_changed. }
  apply write_changed_step in Hw as (Hl1 & Hso & Hsl & Hk1); [|by apply recounted_wf|].
  2: { intros Hcf. destruct (Hc Hcf) as [_ ->]. rewrite Hvl, (pa_list _ _ _ _ _ Hpa1). by destruct l. }
  rewrite Hvl in Hl1, Hk1. exists {| vsl_version := vsl_version l; vsl_validators := vs |}, flags.
  split_and!; try done; [by eapply written_accounts|by eapply same_stakes_ext].
Qed.

(** C11: [MergeStakes] refines the specification of the stake counts.  If it succeeds, the
    list has the counts the specification gives for some choice of the pairs that were
    merged, and otherwise is as it was; every validator's stakes hold together what they
    held before and so does the reserve, so a record that had the lamports of its stakes
    still has them.  If it fails with an error of the index checks, so does the
    specification. *)
Theorem merge_stakes_refines p pi vl rest instructions b sp l :
  pool_accounts p (ai_key pi) b sp l → distinct p (ai_key pi) (vsl_validators l) →
  Forall (λ i, 0 <= msi_main_index i ∧ 0 <= msi_additional_index i) instructions →
  match process_merge_stakes p (pi :: vl :: rest) instructions b with
  | inr (_, b') => ∃ l' flags, pool_accounts p (ai_key pi) b' sp l' ∧
      length flags = length instructions ∧
      process_merges (zip instructions flags) (stake_counts (vsl_validators l))
        = inr (stake_counts (vsl_validators l')) ∧
      recounted (vsl_validators l) (vsl_validators l') ∧
      lam b' (reserve_key p (ai_key pi)) = lam b (reserve_key p (ai_key pi)) ∧
      Forall2 (λ v v', exact p (ai_key pi) b v → exact p (ai_key pi) b' v')
        (vsl_validators l) (vsl_validators l')
  | inl e => ∀ x, index_error e = Some x → ∃ flags, length flags = length instructions ∧
      process_merges (zip instructions flags) (stake_counts (vsl_validators l)) = inl x
  end.
Proof.
  intros Hpa Hd Hpos. pose proof (merge_stakes_outcome p pi vl rest instructions b sp l Hpa Hpos) as Ho.
  destruct (process_merge_stakes _ _ _ _) as [e|[u b']]; [done|].
  destruct Ho as (l' & flags & Hpa' & Hfl & Hm & Hre & Hwf & Hss). exists l', flags.
  destruct (Hss Hd) as (_ & _ & Hres & HF).
  { eapply Forall_impl; [apply Hwf|]. intros v (_ & _ & _ & Hv). lia. }
  split_and!; try done. clear -Hre HF. induction HF as [|v v' vs0 vs1 Hv _ IH]; [constructor|].
  apply Forall2_cons in Hre as [[n ->] Hre]. constructor; [|by apply IH].
  unfold exact. intros He. rewrite Hv. exact He.
Qed.

(** *** Unstakes *)

Lemma check_address_same v p pool i k b z b' :
  check_validator_stake_address v p pool i k b = inr (z, b') → b' = b.
Proof.
  intros Hr. unfold check_validator_stake_address in Hr. destruct (stake_address _ _ _ _).
  inv_step Hr. by injection Hr as _ <-.
Qed.

Lemma split_inv p pi owner deposit sys sprog clock hist src split_ rent i z seeds b u b' :
  split_and_deactivate p pi owner deposit sys sprog clock hist src split_ rent i z seeds b = inr (u, b') →
  kept b b'.
Proof.
  intros Hr. unfold split_and_deactivate in Hr.
  apply P_bind_inr in Hr as (? & b1 & E1%invoke_inr & Hr).
  apply P_bind_inr in Hr as (? & b2 & E2%invoke_stake_inr & Hr). apply invoke_stake_inr in Hr.
  apply create_account_effect in E1 as (_ & _ & _ & Hsys & _ & _ & Hf1 & _).
  apply stake_split_effect in E2 as (Ho1 & Ho2 & _ & _ & _ & Hf2 & _).
  apply stake_deactivate_effect in Hr as (Ho3 & _ & _ & Hf3 & _).
  eapply kept_trans; [|eapply kept_trans].
  - eapply kept_frame; [exact Hf1|]. intros k ->%list_elem_of_singleton. by right.
  - eapply kept_frame; [exact Hf2|]. intros k Hk. left. set_solver.
  - by eapply kept_frame_stake.
Qed.

Lemma unstake_loop_inv p pi owner deposit sys sprog clock hist rent seeds instructions it vs c b vs' c' b' :
  unstake_loop p pi owner deposit sys sprog clock hist rent seeds instructions it vs c b = inr (vs', c', b') →
  room (length instructions) vs → Forall wf_validator vs →
  recounted vs vs' ∧ Forall wf_validator vs' ∧ kept b b' ∧ (c' = false → c = false ∧ vs' = vs).
Proof.
  revert it vs c b. induction instructions as [|ins l IH]; intros it vs c b Hr Hroom Hwf.
  { injection Hr as <- <- <-. split_and!; try done. apply recounted_refl. }
  cbn [unstake_loop] in Hr. destruct (find_validator _ vs) as [[i v]|] eqn:Hf; [|done].
  apply find_validator_lookup in Hf as [Hv _]. pose proof (proj1 (Forall_lookup _ _) Hroom i v Hv) as Hc. cbn in Hc.
  apply P_bind_inr in Hr as (? & b1 & (_ & [= -> ->])%ensure_inr & Hr).
  apply P_bind_inr in Hr as (? & b1 & (_ & [= -> ->])%ensure_inr & Hr).
  apply P_bind_inr in Hr as ([src it1] & b1 & [-> ->]%next_inr & Hr).
  apply P_bind_inr in Hr as (? & b1 & ->%check_address_same & Hr).
  destruct (_ =? ui_source_index ins).
  { apply P_bind_inr in Hr as (? & b1 & E1%invoke_stake_inr & Hr).
    apply stake_deactivate_effect in E1 as (Ho & _ & _ & Hfr & _).
    apply IH in Hr as (Hre & Hwf' & Hk & Hch); [|by apply room_less|done].
    split_and!; try done. eapply kept_trans, Hk. by eapply kept_frame_stake. }
  apply P_bind_inr in Hr as ([split_ it2] & b1 & [-> ->]%next_inr & Hr).
  apply P_bind_inr in Hr as (z & b1 & ->%check_address_same & Hr).
  apply P_bind_inr in Hr as (? & b1 & E2%split_inv & Hr). unfold u32_succ in Hr.
  destruct (_ =? vsi_stake_count v).
  - rewrite Z.mod_small in Hr by lia.
    apply IH in Hr as (Hre & Hwf' & Hk & Hch); [|apply room_insert; [done|lia]|apply wf_recount; [done|done|lia]].
    split_and!; [by eapply recounted_trans, Hre; apply recounted_insert|done|by eapply kept_trans, Hk|].
    intros Hc'. destruct (Hch Hc') as [Hor _]. by rewrite orb_true_r in Hor.
  - rewrite list_insert_id in Hr by done. apply IH in Hr as (Hre & Hwf' & Hk & Hch); [|by apply room_less|done].
    split_and!; try done; [by eapply kept_trans, Hk|]. rewrite orb_false_r in Hch. done.
Qed.

Lemma quiet_rent i b : quiet (rent_from i) b.
Proof.
  intros e. unfold rent_from, map_inr. destruct (Rent_from_account_info _ _) as [e'|] eqn:E; [|done].
  apply rent_error in E as ->. by intros [= <-].
Qed.

Lemma quiet_check_owner sp i b : quiet (check_owner sp i) b.
Proof. unfold check_owner. apply quiet_bind; [by apply quiet_ensure|intros; by apply quiet_ensure]. Qed.

Lemma check_owner_inr sp i b u b' :
  check_owner sp i b = inr (u, b') → b' = b ∧ ai_key i = sp_owner sp ∧ ai_is_signer i = true.
Proof.
  intros Hr. unfold check_owner in Hr. inv_step Hr. apply ensure_inr in Hr as [Hs [= _ ->]].
  by apply bytes_eqb_true in E.
Qed.

(** What [Unstake] does to the list, and when it fails the index checks. *)
Lemma unstake_outcome p pi owner vl rest instructions b sp l :
  pool_accounts p (ai_key pi) b sp l → room (length instructions) (vsl_validators l) →
  match process_unstake p (pi :: owner :: vl :: rest) instructions b with
  | inr (_, b') => ∃ l', pool_accounts p (ai_key pi) b' sp l' ∧
      ai_key owner = sp_owner sp ∧ ai_is_signer owner = true ∧
      process_unstakes instructions (stake_counts (vsl_validators l))
        = inr (stake_counts (vsl_validators l')) ∧
      recounted (vsl_validators l) (vsl_validators l')
  | inl e => ∀ x, index_error e = Some x →
      process_unstakes instructions (stake_counts (vsl_validators l)) = inl x
  end.
Proof.
  intros Hpa Hroom. pose proof (pa_pool _ _ _ _ _ Hpa) as Hp. pose proof (pa_list _ _ _ _ _ Hpa) as Hl.
  pattern (process_unstake p (pi :: owner :: vl :: rest) instructions b).
  match goal with |- ?g _ => set (G := g) end.
  assert (HG : ∀ e, index_error e = None → G (inl e)) by (intros e He x; by rewrite He).
  unfold process_unstake.
  do 3 (apply bind_quiet; [done|quietly|intros [? ?] ? [E ->]%next_inr; injection E as <- <-]).
  do 4 (apply bind_quiet; [done|quietly|intros [? ?] ? [_ ->]%next_inr]).
  apply bind_quiet; [done|apply quiet_rent|intros rent ? [-> _]%rent_inr].
  do 2 (apply bind_quiet; [done|quietly|intros [? ?] ? [_ ->]%next_inr]).
  apply bind_quiet; [done|apply quiet_read_pool|intros sp' ? (-> & _ & Hsp & _)%read_pool_inr].
  rewrite Hp in Hsp. injection Hsp as <-.
  apply bind_quiet; [done|apply quiet_check_owner|intros ? ? (-> & Hown & Hsig)%check_owner_inr].
  apply bind_quiet; [done|apply quiet_read_validators|intros l' ? (-> & Hvl & Hl' & Hwf)%read_validators_inr].
  rewrite Hvl, Hl in Hl'. injection Hl' as <-.
  apply bind_quiet; [done|apply quiet_check_authority|intros ? ? ->%check_deposit_inr].
  match goal with |- G ((unstake_loop ?p ?pi ?o ?d ?y ?s ?c ?h ?r ?sd ?i ?it ?vs ?ch ≫= _) _) =>
    pose proof (unstake_loop_refines p pi o d y s c h r sd i it vs ch b Hroom) as Href end.
  unfold mbind, P_bind. destruct (unstake_loop _ _ _ _ _ _ _ _ _ _ _ _ _ _ b) as [e|[[vs c] b1]] eqn:E.
  { intros x Hx. cbn in Href. by rewrite Hx in Href. }
  cbn in Href. apply unstake_loop_inv in E as (Hre & Hwf' & Hk & Hc); [|done|apply Hwf].
  pose proof (kept_accounts _ _ _ _ _ _ Hpa Hk) as Hpa1.
  destruct (write_changed vl l (vs, c) b1) as [e|[? b']] eqn:Hw.
  { apply HG. by eapply quiet_write_changed. }
  apply write_changed_step in Hw as (Hl1 & Hso & Hsl & Hk1); [|by apply recounted_wf|].
  2: { intros Hcf. destruct (Hc Hcf) as [_ ->]. rewrite Hvl, (pa_list _ _ _ _ _ Hpa1). by destruct l. }
  rewrite Hvl in Hl1, Hk1. exists {| vsl_version := vsl_version l; vsl_validators := vs |}.
  split_and!; try done. by eapply written_accounts.
Qed.

(** C13: [Unstake] refines the specification of the stake counts: it needs the owner's
    signature; if it succeeds, the list has the counts the specification gives and
    otherwise is as it was; if it fails with an error of the index checks, so does the
    specification. *)
Theorem unstake_refines p pi owner vl rest instructions b sp l :
  pool_accounts p (ai_key pi) b sp l → room (length instructions) (vsl_validators l) →
  match process_unstake p (pi :: owner :: vl :: rest) instructions b with
  | inr (_, b') => ∃ l', pool_accounts p (ai_key pi) b' sp l' ∧
      ai_key owner = sp_owner sp ∧ ai_is_signer owner = true ∧
      process_unstakes instructions (stake_counts (vsl_validators l))
        = inr (stake_counts (vsl_validators l')) ∧
      recounted (vsl_validators l) (vsl_validators l')
  | inl e => ∀ x, index_error e = Some x →
      process_unstakes instructions (stake_counts (vsl_validators l)) = inl x
  end.
Proof. apply unstake_outcome. Qed.

(** *** Delegations *)

(** The lamports of the instructions together. *)
Definition delegated (instructions : list DelegateReserveInstruction) : Z :=
  sum_list_Z (dri_amount <$> instructions).

Definition wf_delegations (instructions : list DelegateReserveInstruction) : Prop :=
  Forall (λ i, 0 <= dri_amount i ∧ 0 <= dri_stake_index i) instructions.

(** None of the stakes the instructions name has the address of the reserve. *)
Definition off_reserve (p pool : buffer) (instructions : list DelegateReserveInstruction)
    (vs : list ValidatorStakeInfo) : Prop :=
  ∀ a i, a ∈ vsi_validator_account <$> vs → i ∈ instructions →
    stake_key p pool a (Z.to_nat (dri_stake_index i)) ≠ reserve_key p pool.

(** One delegation, of a new stake or of one that exists. *)
Lemma delegate_one p v vote st z pool i n res dep wd sys sprog clock hist config rent ds rs owner b v' b' :
  (if bytes_eqb owner system_program_id
   then init_stake p v vote st z pool i n res dep wd sprog clock hist config rent ds rs
   else redelegate_stake p v vote st n res dep sys sprog clock hist config ds rs) b = inr (v', b') →
  bank_u64 b →
  bank_u64 b' ∧ kept b b' ∧ n <= lam b (ai_key res) ∧ moved (ai_key res) (ai_key st) n b b' ∧
  v' = with_balance (wadd (vsi_balance v) n) v.
Proof.
  intros Hr Hu. destruct (bytes_eqb _ _).
  - unfold init_stake in Hr. inv_step Hr.
    apply P_bind_inr in Hr as (? & b1 & E1%invoke_inr & Hr).
    apply P_bind_inr in Hr as (? & b2 & E2%invoke_stake_inr & Hr).
    apply P_bind_inr in Hr as (? & b3 & E3%invoke_stake_inr & Hr). injection Hr as <- <-.
    assert (bank_u64 b3) by exact (stake_lamports_u64 _ _ _ _ _ _ E3
      (stake_lamports_u64 _ _ _ _ _ _ E2 (lamports_kept_u64 _ _ _ _ _ _ E1 Hu))).
    apply create_account_effect in E1 as (_ & _ & _ & Hsys & Hle & _ & Hf1 & Hm).
    apply stake_initialize_effect in E2 as (Ho2 & _ & Hf2 & Hl2).
    apply stake_delegate_effect in E3 as (Ho3 & _ & _ & Hf3 & Hl3).
    split_and!; try done.
    + apply (kept_trans _ b1); [|apply (kept_trans _ b2); by eapply kept_frame_stake].
      eapply kept_frame; [exact Hf1|]. intros k ->%list_elem_of_singleton. by right.
    + intros k. rewrite Hl3, Hl2. apply Hm.
  - unfold redelegate_stake in Hr.
    apply P_bind_inr in Hr as (? & b1 & E1%invoke_inr & Hr).
    apply P_bind_inr in Hr as (? & b2 & E2%invoke_stake_inr & Hr). injection Hr as <- <-.
    assert (bank_u64 b2) by exact (stake_lamports_u64 _ _ _ _ _ _ E2 (lamports_kept_u64 _ _ _ _ _ _ E1 Hu)).
    apply transfer_effect in E1 as (_ & _ & Hle & Hf1 & Hm).
    apply stake_delegate_effect in E2 as (Ho2 & _ & _ & Hf2 & Hl2).
    split_and!; try done.
    + apply (kept_trans _ b1); [|by eapply kept_frame_stake]. eapply kept_frame; [exact Hf1|]. set_solver.
    + intros k. rewrite Hl2. apply Hm.
Qed.

(** What the loop does, with [total] lamports delegated before. *)
Record delegated_by (p pool : buffer) (available total : Z) (instructions : list DelegateReserveInstruction)
    (vs vs' : list ValidatorStakeInfo) (b b' : Bank) : Prop := {
  db_u64 : bank_u64 b';
  db_kept : kept b b';
  db_wf : Forall wf_validator vs';
  db_names : vsi_validator_account <$> vs' = vsi_validator_account <$> vs;
  db_reserve : lam b' (reserve_key p pool) = lam b (reserve_key p pool) - delegated instructions;
  db_bound : total + delegated instructions <= available;
}.

Lemma delegate_loop_inv p pool pi wd dep res sys sprog clock hist config rent ds rs available
    instructions it vs total c b vs' c' b' :
  delegate_loop p pi wd dep res sys sprog clock hist config rent ds rs available instructions it vs
    total c b = inr (vs', c', b') →
  ai_key pi = pool → ai_key res = reserve_key p pool →
  off_reserve p pool instructions vs →
  bank_u64 b → Forall wf_validator vs → wf_delegations instructions → 0 <= total <= available →
  total + lam b (reserve_key p pool) < u64_max_plus_1 →
  delegated_by p pool available total instructions vs vs' b b'.
Proof.
  intros Hr Hpi Hres. revert it vs total c b Hr.
  induction instructions as [|ins l IH]; intros it vs total c b Hr Hne Hu Hwf Hins Htot Hfit.
  { injection Hr as <- <- <-. split; try done; [unfold delegated; cbn; lia|unfold delegated; cbn; lia]. }
  apply Forall_cons in Hins as [[Ha Hx] Hins]. cbn [delegate_loop] in Hr.
  apply P_bind_inr in Hr as ([vote it1] & b1 & [-> ->]%next_inr & Hr).
  apply P_bind_inr in Hr as ([st it2] & b1 & [-> ->]%next_inr & Hr).
  destruct (find_validator _ vs) as [[i v]|] eqn:Hf; [|done].
  apply find_validator_lookup in Hf as [Hv _].
  apply P_bind_inr in Hr as (? & b1 & (Hav & [= -> ->])%ensure_inr & Hr). apply Z.leb_le in Hav.
  apply P_bind_inr in Hr as (? & b1 & (Hix & [= -> ->])%ensure_inr & Hr). apply Z.leb_le in Hix.
  rewrite Hpi in Hr. apply P_bind_inr in Hr as (z & b1 & [-> Hst]%check_address_Z & Hr); [|done].
  apply P_bind_inr in Hr as (o & b1 & [= <- <-] & Hr).
  apply P_bind_inr in Hr as (v' & b1 & E & Hr).
  apply delegate_one in E as (Hu1 & Hk1 & Hle & Hm & ->); [|done].
  rewrite Hres, Hst in *. cbn [with_balance vsi_stake_count] in Hr.
  pose proof (moved_lam _ _ _ _ _ Hm (reserve_key p pool)) as Hl. unfold both, at_ in Hl.
  assert (Hnr : reserve_key p pool ≠ stake_key p pool (vsi_validator_account v) (Z.to_nat (dri_stake_index ins))).
  { apply not_eq_sym, Hne; [|by left]. by eapply list_elem_of_fmap_2, list_elem_of_lookup_2. }
  rewrite decide_True, decide_False in Hl by done.
  pose proof (Hu (reserve_key p pool)) as Hur. unfold is_u64 in Hur.
  destruct (proj1 (Forall_lookup _ _) Hwf i v Hv) as (Hwk & Hwb & Hwe & Hwc).
  rewrite (wadd_small total) in Hr, Hav by lia.
  assert (Hkeep : vsi_validator_account <$> (<[i := if vsi_stake_count v <=? dri_stake_index ins
      then with_count (u32_succ (dri_stake_index ins)) (with_balance (wadd (vsi_balance v) (dri_amount ins)) v)
      else with_balance (wadd (vsi_balance v) (dri_amount ins)) v]> vs) = vsi_validator_account <$> vs).
  { rewrite list_fmap_insert. apply list_insert_id. rewrite list_lookup_fmap, Hv. by destruct (_ <=? _). }
  apply IH in Hr as [U K W N R B]; [|intros a j Ha' Hj; rewrite Hkeep in Ha'; apply Hne; set_solver|done| |done|lia|lia].
  2: { apply Forall_insert; [done|]. unfold u32_succ.
       destruct (_ <=? _); (split; [done|]; split; [apply wadd_u64|]; split; [done|]);
         [by apply Z.mod_pos_bound|done]. }
  split; try done.
  - by eapply kept_trans.
  - by rewrite N.
  - rewrite R, Hl. unfold delegated. rewrite fmap_cons, sum_list_Z_cons. lia.
  - unfold delegated in *. rewrite fmap_cons, sum_list_Z_cons. lia.
Qed.

Lemma delegate_inv p pi owner vl wd dep res sys sprog clock hist config rent_info it instructions b sp l rent u b' :
  process_delegate_reserve p
    (pi :: owner :: vl :: wd :: dep :: res :: sys :: sprog :: clock :: hist :: config :: rent_info :: it)
    instructions b = inr (u, b') →
  pool_accounts p (ai_key pi) b sp l → Rent_from_account_info rent_info b = inr rent →
  ai_key owner = sp_owner sp ∧ ai_is_signer owner = true ∧ ai_key vl = sp_validator_stake_list sp ∧
  wf_validators l ∧ ai_key res = reserve_key p (ai_key pi) ∧
  ∃ z vs c b1,
    delegate_loop p pi wd dep res sys sprog clock hist config rent_info
      (authority_seeds (ai_key pi) AUTHORITY_DEPOSIT (sp_deposit_bump_seed sp))
      (authority_seeds (ai_key pi) AUTHORITY_RESERVE z)
      (Z.max 0 (lam b (ai_key res) - min_reserve_balance rent)) instructions it (vsl_validators l) 0 false b
    = inr (vs, c, b1) ∧ write_changed vl l (vs, c) b1 = inr (u, b').
Proof.
  intros Hr Hpa Hrent. pose proof (pa_pool _ _ _ _ _ Hpa) as Hp. pose proof (pa_list _ _ _ _ _ Hpa) as Hl.
  unfold process_delegate_reserve in Hr. do 12 inv_step Hr.
  inv_step Hr. apply rent_inr in E as [-> Hre]. rewrite Hrent in Hre. injection Hre as <-.
  inv_step Hr. apply read_pool_inr in E as (-> & _ & Hsp & _). rewrite Hp in Hsp. injection Hsp as <-.
  inv_step Hr. apply check_owner_inr in E as (-> & Hown & Hsig).
  inv_step Hr. apply read_validators_inr in E as (-> & Hvl & Hl' & Hwf). rewrite Hvl, Hl in Hl'. injection Hl' as <-.
  inv_step Hr. apply check_deposit_inr in E as ->. inv_step Hr. apply check_withdraw_inr in E as [-> _].
  apply P_bind_inr in Hr as (z & b1 & [-> Hres]%check_reserve_inr & Hr).
  inv_step Hr. apply lamports_inr in E as [-> ->].
  apply P_bind_inr in Hr as ([vs c] & b1 & E & Hr). split_and!; try done; [unfold reserve_key; by rewrite Hres|].
  by exists z, vs, c, b1.
Qed.

(** C12: delegating keeps the reserve.  [DelegateReserve] needs the owner's signature and
    takes exactly the lamports of its instructions out of the reserve, and no more of
    them than the reserve has above its minimum, although the sum of the amounts is
    computed with wrapping additions. *)
Theorem delegate_keeps_reserve p pi owner vl wd dep res sys sprog clock hist config rent_info it
    instructions b sp l rent u b' :
  process_delegate_reserve p
    (pi :: owner :: vl :: wd :: dep :: res :: sys :: sprog :: clock :: hist :: config :: rent_info :: it)
    instructions b = inr (u, b') →
  pool_accounts p (ai_key pi) b sp l → Rent_from_account_info rent_info b = inr rent →
  bank_u64 b → wf_delegations instructions →
  off_reserve p (ai_key pi) instructions (vsl_validators l) →
  ai_key owner = sp_owner sp ∧ ai_is_signer owner = true ∧
  lam b' (reserve_key p (ai_key pi)) = lam b (reserve_key p (ai_key pi)) - delegated instructions ∧
  (0 < delegated instructions → min_reserve_balance rent <= lam b' (reserve_key p (ai_key pi))) ∧
  ∃ l', pool_accounts p (ai_key pi) b' sp l' ∧
    vsi_validator_account <$> vsl_validators l' = vsi_validator_account <$> vsl_validators l.
Proof.
  intros Hr Hpa Hrent Hu Hins Hne.
  destruct (delegate_inv _ _ _ _ _ _ _ _ _ _ _ _ _ _ _ _ _ _ _ _ _ Hr Hpa Hrent)
    as (Hown & Hsig & Hvl & Hwf & Hres & z & vs & c & b1 & E & Hw).
  pose proof (Hu (reserve_key p (ai_key pi))) as Hur. unfold is_u64 in Hur.
  pose proof (delegate_loop_inv p (ai_key pi) _ _ _ _ _ _ _ _ _ _ _ _ _ _ _ _ _ _ _ _ _ _ E eq_refl Hres Hne Hu
    (proj2 (proj2 Hwf)) Hins ltac:(lia) ltac:(lia)) as D. rewrite Hres in *.
  destruct D as [U K W N R B]. pose proof (kept_accounts _ _ _ _ _ _ Hpa K) as Hpa1.
  assert (Hlist : ∃ l', validators_at b' (sp_validator_stake_list sp) = Some l' ∧ same_owners b1 b' ∧
    same_lamports b1 b' ∧ (∀ k, k ≠ sp_validator_stake_list sp → b' k = b1 k) ∧
    vsi_validator_account <$> vsl_validators l' = vsi_validator_account <$> vsl_validators l).
  { destruct c; [|injection Hw as _ <-; exists l; split_and!; try done; by apply Hpa1].
    apply write_changed_step in Hw as (Hl1 & Hso & Hsl & Hk); [|split; [apply Hwf|split; [|done]]|done].
    - rewrite Hvl in *. by eexists.
    - cbn. rewrite <- (length_fmap vsi_validator_account), N, length_fmap. apply Hwf. }
  destruct Hlist as (l' & Hl' & Hso & Hsl & Hk & HN).
  assert (Hrk : lam b' (reserve_key p (ai_key pi)) = lam b1 (reserve_key p (ai_key pi))) by apply Hsl.
  split_and!; [done|done|lia|intros Hd; lia|]. exists l'. split; [by eapply written_accounts|done].
Qed.

(** *** Delegating to stakes that exist *)

(** Every instruction names a stake its validator has. *)
Fixpoint existing (vs : list ValidatorStakeInfo) (instructions : list DelegateReserveInstruction)
    (it : list AccountInfo) : Prop :=
  match instructions, it with
  | i :: l, vote :: _ :: it' =>
      (∀ j v, find_validator (ai_key vote) vs = Some (j, v) → dri_stake_index i < vsi_stake_count v) ∧
      existing vs l it'
  | _, _ => True
  end.

Lemma find_rebalanced k vs i v n j w :
  vs !! i = Some v → find_validator k (<[i := with_balance n v]> vs) = Some (j, w) →
  ∃ w0, find_validator k vs = Some (j, w0) ∧ vsi_stake_count w0 = vsi_stake_count w.
Proof.
  revert i j; induction vs as [|u vs IH]; intros [|i] j Hv; try done; cbn.
  - injection Hv as ->. destruct (bytes_eqb _ _); [intros [= <- <-]; by eexists|].
    destruct (find_validator k vs) as [[j' w']|]; [|done]. cbn. intros [= <- <-]. by eexists.
  - destruct (bytes_eqb _ _); [intros [= <- <-]; by eexists|].
    destruct (find_validator k (<[i := _]> vs)) as [[j' w']|] eqn:E; [|done]. cbn. intros [= <- <-].
    destruct (IH i j' Hv E) as (w0 & -> & Hc). by eexists.
Qed.

Lemma existing_rebalanced vs i v n instructions it :
  vs !! i = Some v → existing vs instructions it → existing (<[i := with_balance n v]> vs) instructions it.
Proof.
  intros Hv. revert it; induction instructions as [|ins l IH]; intros [|vote [|st it]]; try done.
  cbn. intros [Hx He]. split; [|by apply IH]. intros j w Hf.
  destruct (find_rebalanced _ _ _ _ _ _ _ Hv Hf) as (w0 & Hf0 & <-). by eapply Hx.
Qed.

Lemma pool_lamports_rebalanced p pool b vs i v n :
  vs !! i = Some v → pool_lamports p pool b (<[i := with_balance n v]> vs) = pool_lamports p pool b vs.
Proof.
  intros Hv. unfold pool_lamports.
  rewrite (sum_insert (λ v, total b (stake_keys p pool v)) (λ v, total b (stake_keys p pool v)) vs i v) by done.
  change (stake_keys p pool (with_balance n v)) with (stake_keys p pool v). lia.
Qed.

(** Lamports moved from the reserve to a stake stay in the pool. *)
Lemma pool_lamports_moved p pool b b' vs i v x n :
  distinct p pool vs → vs !! i = Some v → (x < Z.to_nat (vsi_stake_count v))%nat →
  moved (reserve_key p pool) (stake_key p pool (vsi_validator_account v) x) n b b' →
  pool_lamports p pool b' vs = pool_lamports p pool b vs.
Proof.
  intros Hd Hv Hx Hm. destruct (distinct_keys p pool vs i v Hd Hv) as [Hnd Hrk].
  pose proof (stake_in_keys p pool v x Hx) as Hkx. pose proof (di_reserve _ _ _ Hd i v x Hv Hx) as Hne.
  pose proof (moved_lam _ _ _ _ _ Hm) as Hl. unfold pool_lamports.
  rewrite <- (list_insert_id vs i v Hv) at 1.
  rewrite (sum_insert (λ v, total b (stake_keys p pool v)) _ vs i v v Hv).
  - rewrite (Hl (reserve_key p pool)). unfold both at 1, at_ at 1 2.
    rewrite decide_True, decide_False by done.
    rewrite (total_plus (at_ (stake_key p pool (vsi_validator_account v) x) n) b b' (stake_keys p pool v) ).
    + rewrite sum_at by done. lia.
    + intros k Hk. rewrite Hl. unfold both, at_ at 1. rewrite decide_False by congruence. lia.
  - intros j w Hw Hij. apply total_ext. intros k Hk.
    destruct (distinct_others p pool vs i j v w k Hd Hv Hw Hij Hk) as [Hk1 Hk2].
    rewrite Hl. unfold both, at_. rewrite !decide_False by (intros ->; done). lia.
Qed.

Lemma delegate_loop_existing p pool pi wd dep res sys sprog clock hist config rent ds rs available
    instructions it vs total c b vs' c' b' :
  delegate_loop p pi wd dep res sys sprog clock hist config rent ds rs available instructions it vs
    total c b = inr (vs', c', b') →
  ai_key pi = pool → ai_key res = reserve_key p pool → bank_u64 b → wf_delegations instructions →
  distinct p pool vs → existing vs instructions it →
  c' = c ∧ pool_lamports p pool b' vs = pool_lamports p pool b vs.
Proof.
  intros Hr Hpi Hres. revert it vs total c b Hr.
  induction instructions as [|ins l IH]; intros it vs total c b Hr Hu Hins Hd Hex.
  { by injection Hr as <- <- <-. }
  apply Forall_cons in Hins as [[_ Hx] Hins]. cbn [delegate_loop] in Hr.
  apply P_bind_inr in Hr as ([vote it1] & b1 & [-> ->]%next_inr & Hr).
  apply P_bind_inr in Hr as ([st it2] & b1 & [-> ->]%next_inr & Hr). destruct Hex as [Hlt Hex].
  destruct (find_validator _ vs) as [[i v]|] eqn:Hf; [|done]. specialize (Hlt i v eq_refl).
  apply find_validator_lookup in Hf as [Hv _].
  apply P_bind_inr in Hr as (? & b1 & (_ & [= -> ->])%ensure_inr & Hr).
  apply P_bind_inr in Hr as (? & b1 & (_ & [= -> ->])%ensure_inr & Hr).
  rewrite Hpi in Hr. apply P_bind_inr in Hr as (z & b1 & [-> Hst]%check_address_Z & Hr); [|done].
  apply P_bind_inr in Hr as (o & b1 & [= <- <-] & Hr).
  apply P_bind_inr in Hr as (v' & b1 & E & Hr).
  apply delegate_one in E as (Hu1 & _ & _ & Hm & ->); [|done]. rewrite Hres, Hst in Hm.
  cbn [with_balance vsi_stake_count] in Hr. rewrite (proj2 (Z.leb_gt _ _) Hlt), orb_false_r in Hr.
  fold (with_balance (wadd (vsi_balance v) (dri_amount ins)) v) in Hr.
  apply IH in Hr as [-> Ht]; [|done|done|by eapply distinct_shrink|by apply existing_rebalanced].
  split; [done|]. rewrite !pool_lamports_rebalanced in Ht by done. rewrite Ht.
  eapply pool_lamports_moved; [done|done| |exact Hm]. lia.
Qed.

(** C40: redelegating makes the pool look poorer.  [DelegateReserve] adds what it delegates
    to the balance of the validator's record but writes the list back only if a stake
    count grew.  So when all its stakes exist, no lamport leaves the pool, yet the next
    [UpdatePoolBalance], which anybody can send, computes [stake_total] too low by all
    the lamports delegated. *)
Theorem redelegation_shrinks_pool p pi owner vl wd dep res sys sprog clock hist config rent_info it
    instructions b sp l rent b1 pi2 vl2 res2 clock2 rest2 b2 :
  process_delegate_reserve p
    (pi :: owner :: vl :: wd :: dep :: res :: sys :: sprog :: clock :: hist :: config :: rent_info :: it)
    instructions b = inr (tt, b1) →
  process_update_pool_balance p (pi2 :: vl2 :: res2 :: clock2 :: rest2) b1 = inr (tt, b2) →
  ai_key pi2 = ai_key pi →
  pool_accounts p (ai_key pi) b sp l → Rent_from_account_info rent_info b = inr rent →
  bank_u64 b → wf_delegations instructions →
  off_reserve p (ai_key pi) instructions (vsl_validators l) →
  distinct p (ai_key pi) (vsl_validators l) → existing (vsl_validators l) instructions it →
  Forall (exact p (ai_key pi) b) (vsl_validators l) →
  pool_lamports p (ai_key pi) b2 (vsl_validators l) = pool_lamports p (ai_key pi) b (vsl_validators l) ∧
  ∃ sp', pool_at b2 (ai_key pi) = Some sp' ∧
    sp_stake_total sp' =
      (pool_lamports p (ai_key pi) b2 (vsl_validators l) - delegated instructions) mod u64_max_plus_1.
Proof.
  intros Hr Hr2 Hpi2 Hpa Hrent Hu Hins Hne Hd Hex Hall.
  destruct (delegate_inv _ _ _ _ _ _ _ _ _ _ _ _ _ _ _ _ _ _ _ _ _ Hr Hpa Hrent)
    as (_ & _ & Hvl & Hwf & Hres & z & vs & c & b0 & E & Hw).
  pose proof (Hu (reserve_key p (ai_key pi))) as Hur. unfold is_u64 in Hur.
  pose proof (delegate_loop_inv p (ai_key pi) _ _ _ _ _ _ _ _ _ _ _ _ _ _ _ _ _ _ _ _ _ _ E eq_refl Hres Hne Hu
    (proj2 (proj2 Hwf)) Hins ltac:(lia) ltac:(lia)) as [U K _ _ R _].
  apply (delegate_loop_existing p (ai_key pi)) in E as [-> Ht]; try done. injection Hw as <-.
  pose proof (kept_accounts _ _ _ _ _ _ Hpa K) as Hpa1.
  destruct (update_inv _ _ _ _ _ _ _ _ _ _ _ Hr2 eq_refl ltac:(rewrite Hpi2; apply Hpa1) U)
    as (l2 & e2 & t & Hvl2 & Hl2 & Hres2 & _ & _ & Ht2 & [_ L _] & Hk & Hp2).
  pose proof (pa_list _ _ _ _ _ Hpa1) as Hl'. rewrite Hvl2 in Hl2. unfold validators_at in Hl'.
  rewrite Hl2 in Hl'. injection Hl' as ->. rewrite Hpi2 in *.
  assert (Hlam : same_lamports b0 b2) by (intros k; specialize (L k); unfold lam, none in L; lia).
  rewrite !(pool_lamports_ext _ _ b0 b2) by done. split; [done|]. eexists. split; [exact Hp2|].
  cbn [with_update sp_stake_total]. rewrite Ht2, <- Hres2, Ht. change (fst _) with (reserve_key p (ai_key pi)).
  rewrite R. rewrite <- Zminus_mod_idemp_l, <- stakes_sum_exact by (by apply Forall_forall).
  rewrite Zminus_mod_idemp_l. f_equal. lia.
Qed.

End StakeEffects.

(** ** On a concrete bank *)

Definition VOTE0 : buffer := ckey 50.
Definition VOTE1 : buffer := ckey 51.
Definition OWNER : buffer := ckey 21.
Definition HISTORY : buffer := ckey 23.
Definition CONFIG : buffer := ckey 24.
Definition DEPOSIT : buffer := default [] (sample_create (authority_seeds POOL AUTHORITY_DEPOSIT 255) PROG).

Abbreviation sample_key := (stake_key PROG POOL).

(** A stake of [stake] lamports in an account of [n]. *)
Definition stake_of (vote : buffer) (n stake : Z) : ChainAccount :=
  {| ac_lamports := n;
     ac_data := pack_stake 2 STAKE_RENT {| au_staker := DEPOSIT; au_withdrawer := WITHDRAW |} vote stake 0;
     ac_owner := STAKE |}.

(** Two validators, with two stakes and one, whose records are of [epoch]; the second
    stake account of the first was emptied and then sent some lamports. *)
Definition list3 (epoch : Z) : ValidatorStakeList :=
  {| vsl_version := 1;
     vsl_validators :=
       [{| vsi_validator_account := VOTE0; vsi_balance := 3002282880; vsi_last_update_epoch := epoch;
           vsi_stake_count := 2 |};
        {| vsi_validator_account := VOTE1; vsi_balance := 2002282880; vsi_last_update_epoch := epoch;
           vsi_stake_count := 1 |}] |}.

Definition bank3 (epoch : Z) (stake1 : ChainAccount) : Bank :=
  bank_of
    [(POOL, {| ac_lamports := 2784000; ac_data := stake_pool_bytes (alloc 5) (pool_value 6004565760 6000000000);
               ac_owner := PROG |});
     (VALIDATORS, {| ac_lamports := 40000000;
                     ac_data := written (serialize_validator_stake_list (λ _, alloc 4) (list3 epoch)
                                           (alloc VALIDATOR_STAKE_LIST_LEN));
                     ac_owner := PROG |});
     (RESERVE, wallet 1000000000); (OWNER, wallet 1000000000);
     (CLOCK, {| ac_lamports := 1; ac_data := le_split 8 7; ac_owner := ckey 22 |});
     (sample_key VOTE0 0, stake_of VOTE0 3002282880 2900000000);
     (sample_key VOTE0 1, stake1);
     (sample_key VOTE1 0, stake_of VOTE1 2002282880 2000000000)].

Lemma bank_of_u64 l : forallb (λ e, account_in_order (snd e)) l = true → bank_u64 (bank_of l).
Proof. intros Hl. by apply bo_lamports, bank_of_ok. Qed.

Lemma bank3_u64 epoch stake1 : account_in_order stake1 = true → bank_u64 (bank3 epoch stake1).
Proof.
  intros Hs. apply bank_of_u64. cbn [forallb snd]. rewrite Hs. vm_compute. reflexivity.
Qed.

Lemma list3_keys : NoDup [reserve_key PROG POOL; sample_key VOTE0 0; sample_key VOTE0 1; sample_key VOTE1 0].
Proof. apply (bool_decide_unpack _). vm_compute. exact I. Qed.

Lemma list3_distinct epoch : distinct PROG POOL (vsl_validators (list3 epoch)).
Proof.
  pose proof list3_keys as Hk. rewrite !NoDup_cons, !not_elem_of_cons in Hk.
  destruct Hk as ((N1 & N2 & N3 & _) & (N4 & N5 & _) & (N6 & _) & _).
  split.
  - intros i j v w x y Hi Hj Hx Hy He.
    destruct i as [|[|i]], j as [|[|j]]; try discriminate Hi; try discriminate Hj;
      injection Hi as <-; injection Hj as <-;
      cbn [vsi_stake_count vsi_validator_account] in *;
      destruct x as [|[|x]], y as [|[|y]]; try lia; exfalso; congruence.
  - intros i v x Hi Hx He.
    destruct i as [|[|i]]; try discriminate Hi; injection Hi as <-;
      cbn [vsi_stake_count vsi_validator_account] in *;
      destruct x as [|[|x]]; try lia; congruence.
Qed.

(** The accounts of the pool in a concrete bank. *)
Ltac sample_accounts :=
  split; [vm_compute; reflexivity..|intros E; vm_compute in E; discriminate
         |split; intros E; vm_compute in E; discriminate].

Abbreviation sp3 := (pool_value 6004565760 6000000000).

(** The second stake account of the first validator was emptied and sent some lamports. *)
Abbreviation bank4 := (bank3 6 (wallet 1000000)).

Lemma bank4_accounts : pool_accounts PROG POOL bank4 sp3 (list3 6).
Proof. sample_accounts. Qed.

Definition update_accounts (b : Bank) : list AccountInfo :=
  (λ k, handle b k false) <$>
    [POOL; VALIDATORS; WITHDRAW; RESERVE; SYSTEM; STAKE; CLOCK; HISTORY;
     VOTE0; sample_key VOTE0 0; sample_key VOTE0 1; VOTE1; sample_key VOTE1 0].

Definition pool_update_accounts (b : Bank) : list AccountInfo :=
  (λ k, handle b k false) <$> [POOL; VALIDATORS; RESERVE; CLOCK].

Abbreviation update4 := (process_update_list_balance PROG (update_accounts bank4) bank4).
Definition bank4' : Bank := result_bank update4 bank4.
Abbreviation pool_update4 := (process_update_pool_balance PROG (pool_update_accounts bank4') bank4').

Lemma update4_run : update4 = inr (tt, bank4').
Proof. apply succeeds_inr. vm_compute. reflexivity. Qed.

Lemma pool_update4_run : pool_update4 = inr (tt, result_bank pool_update4 bank4').
Proof. apply succeeds_inr. vm_compute. reflexivity. Qed.


(** Two stakes of the first validator. *)
Abbreviation bank5 := (bank3 7 (stake_of VOTE0 1002282880 1000000000)).

Lemma bank5_accounts : pool_accounts PROG POOL bank5 sp3 (list3 7).
Proof. sample_accounts. Qed.

Definition merges5 : list MergeStakesInstruction :=
  [{| msi_validator_address := VOTE0; msi_main_index := 0; msi_additional_index := 1 |}].

Definition merge_infos (b : Bank) : list AccountInfo :=
  (λ k, handle b k false) <$>
    [DEPOSIT; STAKE; CLOCK; HISTORY; sample_key VOTE0 0; sample_key VOTE0 1].

Abbreviation merge5 :=
  (process_merge_stakes PROG (handle bank5 POOL false :: handle bank5 VALIDATORS false :: merge_infos bank5)
     merges5 bank5).

Lemma merge5_run : merge5 = inr (tt, result_bank merge5 bank5).
Proof. apply succeeds_inr. vm_compute. reflexivity. Qed.

Lemma merge_stakes_refines_witness :
  ∃ l' flags, pool_accounts PROG POOL (result_bank merge5 bank5) sp3 l' ∧
    length flags = 1%nat ∧
    process_merges (zip merges5 flags) [(VOTE0, 2); (VOTE1, 1)] = inr (stake_counts (vsl_validators l')).
Proof.
  pose proof (merge_stakes_refines PROG (handle bank5 POOL false) (handle bank5 VALIDATORS false)
    (merge_infos bank5) merges5 bank5 sp3 (list3 7) bank5_accounts (list3_distinct 7)) as Hw.
  rewrite merge5_run in Hw. destruct Hw as (l' & flags & H1 & H2 & H3 & _).
  - apply Forall_cons. split; [split; apply Z.leb_le; reflexivity|apply Forall_nil; exact I].
  - exists l', flags. split; [exact H1|]. split; [exact H2|exact H3].
Defined.

Definition unstakes5 : list UnstakeInstruction :=
  [{| ui_validator_address := VOTE0; ui_source_index := 0; ui_split_index := 2; ui_amount := 500000000 |};
   {| ui_validator_address := VOTE0; ui_source_index := 1; ui_split_index := 1; ui_amount := 0 |}].

Definition unstake_infos (b : Bank) : list AccountInfo :=
  (λ k, handle b k false) <$>
    [DEPOSIT; SYSTEM; STAKE; RENT; CLOCK; HISTORY; sample_key VOTE0 0; sample_key VOTE0 2; sample_key VOTE0 1].

Abbreviation unstake5 :=
  (process_unstake PROG (handle bank5 POOL false :: handle bank5 OWNER true :: handle bank5 VALIDATORS false
     :: unstake_infos bank5) unstakes5 bank5).

Lemma unstake5_run : unstake5 = inr (tt, result_bank unstake5 bank5).
Proof. apply succeeds_inr. vm_compute. reflexivity. Qed.

Lemma unstake_refines_witness :
  ∃ l', pool_accounts PROG POOL (result_bank unstake5 bank5) sp3 l' ∧
    process_unstakes unstakes5 [(VOTE0, 2); (VOTE1, 1)] = inr (stake_counts (vsl_validators l')).
Proof.
  pose proof (unstake_refines PROG (handle bank5 POOL false) (handle bank5 OWNER true)
    (handle bank5 VALIDATORS false) (unstake_infos bank5) unstakes5 bank5 sp3 (list3 7) bank5_accounts) as Hw.
  rewrite unstake5_run in Hw. destruct Hw as (l' & H1 & _ & _ & H2 & _).
  - do 2 (apply Forall_cons; split; [split; [apply Z.leb_le|apply Z.ltb_lt]; reflexivity|]).
    apply Forall_nil. exact I.
  - exists l'. split; [exact H1|exact H2].
Defined.

(** Two stakes that have what their records say. *)
Abbreviation bank6 := (bank3 7 (wallet 0)).

Lemma bank6_accounts : pool_accounts PROG POOL bank6 sp3 (list3 7).
Proof. sample_accounts. Qed.

Lemma off_reserve_dec p pool instructions vs :
  Forall (λ a, Forall (λ i, stake_key p pool a (Z.to_nat (dri_stake_index i)) ≠ reserve_key p pool) instructions)
    (vsi_validator_account <$> vs) → off_reserve p pool instructions vs.
Proof. intros HF a i Ha Hi. rewrite Forall_forall in HF. specialize (HF a Ha). rewrite Forall_forall in HF. by apply HF. Qed.

Definition delegation_infos (b : Bank) (ks : list buffer) : list AccountInfo :=
  handle b POOL false :: handle b OWNER true ::
  ((λ k, handle b k false) <$>
    [VALIDATORS; WITHDRAW; DEPOSIT; RESERVE; SYSTEM; STAKE; CLOCK; HISTORY; CONFIG; RENT] ++ ks).

(** More for the first validator's stake, and a second stake for the other. *)
Definition delegations6 : list DelegateReserveInstruction :=
  [{| dri_amount := 200000000; dri_stake_index := 0 |}; {| dri_amount := 100000000; dri_stake_index := 1 |}].

Abbreviation delegate6 :=
  (process_delegate_reserve PROG
     (delegation_infos bank6 [VOTE0; sample_key VOTE0 0; VOTE1; sample_key VOTE1 1]) delegations6 bank6).

Lemma delegate6_run : delegate6 = inr (tt, result_bank delegate6 bank6).
Proof. apply succeeds_inr. vm_compute. reflexivity. Qed.

Lemma delegate_keeps_reserve_witness :
  lam (result_bank delegate6 bank6) RESERVE = lam bank6 RESERVE - 300000000 ∧
  min_reserve_balance tt <= lam (result_bank delegate6 bank6) RESERVE.
Proof.
  edestruct (delegate_keeps_reserve PROG (handle bank6 POOL false) (handle bank6 OWNER true)
    (handle bank6 VALIDATORS false)) as (_ & _ & H1 & H2 & _).
  - exact delegate6_run.
  - exact bank6_accounts.
  - reflexivity.
  - exact (bank3_u64 7 (wallet 0) eq_refl).
  - do 2 (apply Forall_cons; split; [split; apply Z.leb_le; reflexivity|]). apply Forall_nil. exact I.
  - apply off_reserve_dec. apply (bool_decide_unpack _). vm_compute. exact I.
  - split; [exact H1|apply H2; reflexivity].
Defined.

(** More for the stakes of both. *)
Definition delegations7 : list DelegateReserveInstruction :=
  [{| dri_amount := 200000000; dri_stake_index := 0 |}; {| dri_amount := 100000000; dri_stake_index := 0 |}].

Abbreviation delegate7 :=
  (process_delegate_reserve PROG
     (delegation_infos bank6 [VOTE0; sample_key VOTE0 0; VOTE1; sample_key VOTE1 0]) delegations7 bank6).
Definition bank7 : Bank := result_bank delegate7 bank6.
Abbreviation pool_update7 := (process_update_pool_balance PROG (pool_update_accounts bank7) bank7).

Lemma delegate7_run : delegate7 = inr (tt, bank7).
Proof. apply succeeds_inr. vm_compute. reflexivity. Qed.

Lemma pool_update7_run : pool_update7 = inr (tt, result_bank pool_update7 bank7).
Proof. apply succeeds_inr. vm_compute. reflexivity. Qed.

Lemma redelegation_shrinks_pool_witness :
  pool_lamports PROG POOL (result_bank pool_update7 bank7) (vsl_validators (list3 7))
    = pool_lamports PROG POOL bank6 (vsl_validators (list3 7)) ∧
  ∃ sp', pool_at (result_bank pool_update7 bank7) POOL = Some sp' ∧
    sp_stake_total sp' = (pool_lamports PROG POOL (result_bank pool_update7 bank7) (vsl_validators (list3 7))
                          - 300000000) mod u64_max_plus_1.
Proof.
  eapply (redelegation_shrinks_pool PROG (handle bank6 POOL false) (handle bank6 OWNER true)
    (handle bank6 VALIDATORS false) _ _ _ _ _ _ _ _ _ _ delegations7).
  - exact delegate7_run.
  - exact pool_update7_run.
  - reflexivity.
  - exact bank6_accounts.
  - reflexivity.
  - exact (bank3_u64 7 (wallet 0) eq_refl).
  - do 2 (apply Forall_cons; split; [split; apply Z.leb_le; reflexivity|]). apply Forall_nil. exact I.
  - apply off_reserve_dec. apply (bool_decide_unpack _). vm_compute. exact I.
  - apply list3_distinct.
  - split; [|split; [|exact I]]; intros j v Hf; vm_compute in Hf; injection Hf as <- <-; reflexivity.
  - do 2 (apply Forall_cons; split; [vm_compute; reflexivity|]). apply Forall_nil. exact I.
Defined.
