(* ===== verification/Instructions.v ===== *)
(** * TenderizeProgram: addresses and instructions (experiment/tenderize.ts)

    The client class of the pool: the accounts it holds, the addresses it
    derives and the instructions it builds, each as the bytes and the account
    list that go into a transaction.  The builders are [async] only for the
    address derivation, so they are computations that may throw and nothing
    else. *)

From Stdlib Require Import ZArith Lia.
From Stdlib Require Import String.
From stdpp Require Import base list strings sets.
From coqutil Require Import Byte Word.LittleEndianList.
From S2P Require Import Prelude JsNumber Buffers Web3 Program.

Open Scope Z_scope.

Definition MIN_STAKE_ACCOUNT_BALANCE : num := num_of_Z 1000000000.

Section Builders.
Context `{Keys}.

(** ** Data *)

Record ValidatorInfo := {
  votePubkey : PublicKey;
  balance : num;
  lastUpdateEpoch : num;
  stakeCount : Z;
}.

Record CreateStakePoolParams := {
  feeDenominator : num;
  feeNumerator : num;
}.

Record DepositParams := {
  userSource : Account;
  deposit_amount : num;
  userToken : PublicKey;
}.

Record WithdrawParams := {
  withdraw_userTokenSource : PublicKey;
  withdraw_amount : num;
  withdraw_userSolTarget : PublicKey;
}.

(** [PublicKey | Account]. *)
Inductive KeyOrAccount :=
  | IsKey (k : PublicKey)
  | IsAccount (a : Account).

Record CreditParams := {
  credit_userTokenSource : PublicKey;
  credit_amount : num;
  credit_userSolTarget : PublicKey;
  credit_cancelAuthority : KeyOrAccount;
}.

Record DepositReserveValidatorParam := {
  address : PublicKey;
  delegate_amount : num;
  stakeIndex : Z;
}.

Record StakePair := {
  pair_validator : PublicKey;
  mainIndex : Z;
  additionalIndex : Z;
}.

Record UnstakeItem := {
  unstake_validator : PublicKey;
  sourceIndex : Z;
  splitIndex : option Z;
  unstake_amount : option num;
}.

Record TenderizeProgram := {
  payerAccount : Account;
  programAccount : Account;
  stakePool : Account;
  owner : Account;
  validatorStakeListAccount : Account;
  creditListAccount : Account;
  poolMintToken : PublicKey;
  ownersFee : PublicKey;
  creditReserve : PublicKey;
}.

Definition SPL_TOKEN_PROGRAM_ID : PublicKey :=
  key_literal "TokenkegQfeZyiNwAJbNbGKPFXCWuBvf9Ss623VQ5DA".
Definition STAKE_CONFIG_ID : PublicKey :=
  key_literal "StakeConfig11111111111111111111111111111111".

Definition programId (t : TenderizeProgram) : PublicKey := publicKey (programAccount t).

(** [Buffer.from(s)] of an ASCII string. *)
Definition buffer_from (s : string) : buffer := list_byte_of_string s.

(** ** Derived addresses *)

Definition getReserveAddress (t : TenderizeProgram) : result PublicKey :=
  findProgramAddress [toBuffer (publicKey (stakePool t)); buffer_from "reserve"] (programId t).

Definition getDepositAuthority (t : TenderizeProgram) : result PublicKey :=
  findProgramAddress [toBuffer (publicKey (stakePool t)); buffer_from "deposit"] (programId t).

Definition getWithdrawAuthority (t : TenderizeProgram) : result PublicKey :=
  findProgramAddress [toBuffer (publicKey (stakePool t)); buffer_from "withdraw"] (programId t).

Definition getStakeForValidator (t : TenderizeProgram) (validator : PublicKey) (index : Z)
  : result PublicKey :=
  let indexBuffer := alloc 4 in
  '(indexBuffer, _) ← writeUInt32LE indexBuffer index 0;
  findProgramAddress
    [toBuffer validator; toBuffer (publicKey (stakePool t)); indexBuffer] (programId t).

(** ** Instruction builders *)

Definition createStakePoolInstruction (t : TenderizeProgram) (params : CreateStakePoolParams)
  : result TransactionInstruction :=
  let data := alloc (1 + 8 + 8) in
  '(data, p) ← writeUInt8 data 0 0;
  denominator ← BigInt (feeDenominator params);
  '(data, p) ← writeBigUInt64LE data denominator p;
  numerator ← BigInt (feeNumerator params);
  '(data, _) ← writeBigUInt64LE data numerator p;
  mret {| ix_keys :=
            [writable (publicKey (stakePool t)); signer (publicKey (owner t));
             writable (publicKey (validatorStakeListAccount t));
             writable (publicKey (creditListAccount t));
             readonly (poolMintToken t); readonly (ownersFee t); writable (creditReserve t);
             readonly SYSVAR_CLOCK_PUBKEY; readonly SYSVAR_RENT_PUBKEY;
             readonly SPL_TOKEN_PROGRAM_ID];
          ix_programId := publicKey (programAccount t);
          ix_data := data |}.

(** The two instructions that differ in their tag only. *)
Definition validatorInstruction (tag : Z) (t : TenderizeProgram) (validator : PublicKey)
  : result TransactionInstruction :=
  '(data, _) ← writeUInt8 (alloc 1) tag 0;
  mret {| ix_keys :=
            [readonly (publicKey (stakePool t)); signer (publicKey (owner t));
             writable (publicKey (validatorStakeListAccount t));
             readonly validator; readonly SYSVAR_CLOCK_PUBKEY];
          ix_programId := programId t;
          ix_data := data |}.

Definition addValidatorInstruction := validatorInstruction 2.
Definition removeValidatorInstruction := validatorInstruction 3.

Definition depositInstruction (t : TenderizeProgram) (params : DepositParams)
  : result TransactionInstruction :=
  '(data, p) ← writeUInt8 (alloc (1 + 8)) 6 0;
  amount ← BigInt (deposit_amount params);
  '(data, _) ← writeBigInt64LE data amount p;
  withdrawAuthority ← getWithdrawAuthority t;
  reserve ← getReserveAddress t;
  mret {| ix_keys :=
            [writable (publicKey (stakePool t)); readonly withdrawAuthority; writable reserve;
             signer_writable (publicKey (userSource params)); writable (userToken params);
             writable (ownersFee t); writable (poolMintToken t);
             readonly SYSVAR_RENT_PUBKEY; readonly (val SystemProgram_programId);
             readonly SPL_TOKEN_PROGRAM_ID];
          ix_programId := programId t;
          ix_data := data |}.

Definition withdrawInstruction (t : TenderizeProgram) (params : WithdrawParams)
  : result TransactionInstruction :=
  '(data, p) ← writeUInt8 (alloc (1 + 8)) 7 0;
  amount ← BigInt (withdraw_amount params);
  '(data, _) ← writeBigInt64LE data amount p;
  withdrawAuthority ← getWithdrawAuthority t;
  reserve ← getReserveAddress t;
  mret {| ix_keys :=
            [writable (publicKey (stakePool t)); readonly withdrawAuthority; writable reserve;
             writable (withdraw_userTokenSource params); writable (poolMintToken t);
             writable (withdraw_userSolTarget params);
             readonly SYSVAR_RENT_PUBKEY; readonly (val SystemProgram_programId);
             readonly SPL_TOKEN_PROGRAM_ID];
          ix_programId := programId t;
          ix_data := data |}.

(** [(amount >= 0) ? cancelAuthority as PublicKey : (cancelAuthority as Account).publicKey]:
    the casts check nothing, and a value of the other type is no key, which is
    noticed when the transaction is compiled. *)
Definition cancel_key (nonneg : bool) (c : KeyOrAccount) : result PublicKey :=
  match nonneg, c with
  | true, IsKey k => Ok k
  | false, IsAccount a => Ok (publicKey a)
  | _, _ => Err TypeError
  end.

Definition creditInstruction (t : TenderizeProgram) (params : CreditParams)
  : result TransactionInstruction :=
  let nonneg := num_leb (num_of_Z 0) (credit_amount params) in
  '(data, p) ← writeUInt8 (alloc (1 + 8)) (if nonneg then 10 else 11) 0;
  amount ← BigInt (Math_abs (credit_amount params));
  '(data, _) ← writeBigInt64LE data amount p;
  withdrawAuthority ← getWithdrawAuthority t;
  cancelAuthority ← cancel_key nonneg (credit_cancelAuthority params);
  mret {| ix_keys :=
            [writable (publicKey (stakePool t)); writable (publicKey (creditListAccount t));
             writable (creditReserve t); readonly withdrawAuthority;
             writable (credit_userTokenSource params); readonly (credit_userSolTarget params);
             meta cancelAuthority (num_ltb (credit_amount params) (num_of_Z 0)) false;
             readonly SPL_TOKEN_PROGRAM_ID];
          ix_programId := programId t;
          ix_data := data |}.

(** One turn of the loop of [delegateReserveInstruction]: the variables are
    [data], [p] and [keys]. *)
Definition delegate_item (t : TenderizeProgram) (st : buffer * nat * list AccountMeta)
    (validator : DepositReserveValidatorParam) : result (buffer * nat * list AccountMeta) :=
  let '(data, p, keys) := st in
  amount ← BigInt (delegate_amount validator);
  '(data, p) ← writeBigUInt64LE data amount p;
  '(data, p) ← writeUInt32LE data (stakeIndex validator) p;
  stake ← getStakeForValidator t (address validator) (stakeIndex validator);
  mret (data, p, keys ++ [readonly (address validator); writable stake]).

Definition delegateReserveInstruction (t : TenderizeProgram)
    (validators : list DepositReserveValidatorParam) : result TransactionInstruction :=
  '(data, p) ← writeUInt8 (alloc (1 + 4 + (8 + 4) * length validators)) 12 0;
  '(data, p) ← writeUInt32LE data (Z.of_nat (length validators)) p;
  withdrawAuthority ← getWithdrawAuthority t;
  depositAuthority ← getDepositAuthority t;
  reserve ← getReserveAddress t;
  let keys :=
    [readonly (publicKey (stakePool t)); signer (publicKey (owner t));
     writable (publicKey (validatorStakeListAccount t));
     readonly withdrawAuthority; readonly depositAuthority; writable reserve;
     readonly (val SystemProgram_programId); readonly StakeProgram_programId;
     readonly SYSVAR_CLOCK_PUBKEY; readonly SYSVAR_STAKE_HISTORY_PUBKEY;
     readonly STAKE_CONFIG_ID; readonly SYSVAR_RENT_PUBKEY] in
  '(data, _, keys) ← for_result validators (data, p, keys) (delegate_item t);
  mret {| ix_keys := keys; ix_programId := programId t; ix_data := data |}.

Definition merge_item (t : TenderizeProgram) (st : buffer * nat * list AccountMeta)
    (stakePair : StakePair) : result (buffer * nat * list AccountMeta) :=
  let '(data, p, keys) := st in
  let '(data, n) := copy_to (toBuffer (pair_validator stakePair)) data p in
  '(data, p) ← writeUInt32LE data (mainIndex stakePair) (p + n);
  '(data, p) ← writeUInt32LE data (additionalIndex stakePair) p;
  mainStake ← getStakeForValidator t (pair_validator stakePair) (mainIndex stakePair);
  additionalStake ← getStakeForValidator t (pair_validator stakePair) (additionalIndex stakePair);
  mret (data, p, keys ++ [writable mainStake; writable additionalStake]).

Definition mergeStakesInstruction (t : TenderizeProgram) (stakePairs : list StakePair)
  : result TransactionInstruction :=
  '(data, p) ← writeUInt8 (alloc (1 + 4 + (32 + 4 + 4) * length stakePairs)) 13 0;
  '(data, p) ← writeUInt32LE data (Z.of_nat (length stakePairs)) p;
  depositAuthority ← getDepositAuthority t;
  let keys :=
    [writable (publicKey (stakePool t)); writable (publicKey (validatorStakeListAccount t));
     readonly depositAuthority; readonly StakeProgram_programId;
     readonly SYSVAR_CLOCK_PUBKEY; readonly SYSVAR_STAKE_HISTORY_PUBKEY] in
  '(data, _, keys) ← for_result stakePairs (data, p, keys) (merge_item t);
  mret {| ix_keys := keys; ix_programId := programId t; ix_data := data |}.

(** [x || y] on an optional index: [undefined] and [0] give [y]. *)
Definition index_or (x : option Z) (y : Z) : Z :=
  match x with Some i => if i =? 0 then y else i | None => y end.

(** An optional index as a condition: [undefined] and [0] are falsy. *)
Definition index_truthy (x : option Z) : bool :=
  match x with Some i => negb (i =? 0) | None => false end.

(** [x || 0] on an optional number. *)
Definition num_or_zero (x : option num) : num :=
  match x with Some v => if truthy v then v else num_of_Z 0 | None => num_of_Z 0 end.

Definition unstake_item (t : TenderizeProgram) (st : buffer * nat * list AccountMeta)
    (unstake : UnstakeItem) : result (buffer * nat * list AccountMeta) :=
  let '(data, p, keys) := st in
  let '(data, n) := copy_to (toBuffer (unstake_validator unstake)) data p in
  '(data, p) ← writeUInt32LE data (sourceIndex unstake) (p + n);
  '(data, p) ← writeUInt32LE data (index_or (splitIndex unstake) (sourceIndex unstake)) p;
  amount ← BigInt (num_or_zero (unstake_amount unstake));
  '(data, p) ← writeBigUInt64LE data amount p;
  sourceStake ← getStakeForValidator t (unstake_validator unstake) (sourceIndex unstake);
  let keys := keys ++ [writable sourceStake] in
  match splitIndex unstake with
  | Some i =>
      if index_truthy (splitIndex unstake) then
        splitStake ← getStakeForValidator t (unstake_validator unstake) i;
        mret (data, p, keys ++ [writable splitStake])
      else mret (data, p, keys)
  | None => mret (data, p, keys)
  end.

Definition unstakeInstruction (t : TenderizeProgram) (unstakes : list UnstakeItem)
  : result TransactionInstruction :=
  '(data, p) ← writeUInt8 (alloc (1 + 4 + (32 + 4 + 4 + 8) * length unstakes)) 14 0;
  '(data, p) ← writeUInt32LE data (Z.of_nat (length unstakes)) p;
  depositAuthority ← getDepositAuthority t;
  let keys :=
    [writable (publicKey (stakePool t)); signer_writable (publicKey (owner t));
     writable (publicKey (validatorStakeListAccount t)); readonly depositAuthority;
     readonly (val SystemProgram_programId); readonly StakeProgram_programId;
     readonly SYSVAR_RENT_PUBKEY; readonly SYSVAR_CLOCK_PUBKEY;
     readonly SYSVAR_STAKE_HISTORY_PUBKEY] in
  '(data, _, keys) ← for_result unstakes (data, p, keys) (unstake_item t);
  mret {| ix_keys := keys; ix_programId := programId t; ix_data := data |}.

(** The accounts of one validator in [updateListBalanceInstruction]: the vote
    account and all its stakes. *)
Definition update_item (t : TenderizeProgram) (keys : list AccountMeta) (validator : ValidatorInfo)
  : result (list AccountMeta) :=
  stakes ← map_result (λ i, stake ← getStakeForValidator t (votePubkey validator) i;
                            mret (writable stake))
                      (seqZ 0 (stakeCount validator));
  mret (keys ++ [readonly (votePubkey validator)] ++ stakes).

Definition updateListBalanceInstruction (t : TenderizeProgram) (validators : list ValidatorInfo)
  : result TransactionInstruction :=
  '(data, _) ← writeUInt8 (alloc 1) 4 0;
  withdrawAuthority ← getWithdrawAuthority t;
  reserve ← getReserveAddress t;
  let keys :=
    [readonly (publicKey (stakePool t)); writable (publicKey (validatorStakeListAccount t));
     readonly withdrawAuthority; writable reserve;
     readonly (val SystemProgram_programId); readonly StakeProgram_programId;
     readonly SYSVAR_CLOCK_PUBKEY; readonly SYSVAR_STAKE_HISTORY_PUBKEY] in
  keys ← for_result validators keys (update_item t);
  mret {| ix_keys := keys; ix_programId := programId t; ix_data := data |}.

Definition updatePoolBalanceInstruction (t : TenderizeProgram) : result TransactionInstruction :=
  '(data, _) ← writeUInt8 (alloc 1) 5 0;
  reserve ← getReserveAddress t;
  mret {| ix_keys :=
            [writable (publicKey (stakePool t)); readonly (publicKey (validatorStakeListAccount t));
             readonly reserve; readonly SYSVAR_CLOCK_PUBKEY];
          ix_programId := programId t;
          ix_data := data |}.

End Builders.
