(* ===== verification/SamplePool.v ===== *)
(** * A concrete pool

    A pool on the cluster of Sample.v with two validators and two creditors, its
    accounts laid out as the program writes them: the inputs on which the theorems
    are tried out. *)

From Stdlib Require Import ZArith Lia.
From Stdlib Require Import String.
From stdpp Require Import base list strings sets.
From coqutil Require Import Byte.
From S2P Require Import Prelude JsNumber Buffers Web3 Sample Program Instructions.

Open Scope Z_scope.

Definition sample_pool : TenderizeProgram :=
  {| payerAccount := sample_key 1; programAccount := sample_key 2; stakePool := sample_key 3;
     owner := sample_key 4; validatorStakeListAccount := sample_key 5;
     creditListAccount := sample_key 6; poolMintToken := sample_key 7; ownersFee := sample_key 8;
     creditReserve := sample_key 9 |}.

(** Account number [z] of the sample. *)
Definition sample_account (z : Z) : Account := sample_key z.

Definition sample_vote (i : Z) : PublicKey := sample_key (100 + i).

Definition owned_account (data : buffer) (l : Z) : AccountInfo :=
  {| lamports := num_of_Z l; account_owner := Build_obj 1 (publicKey (programAccount sample_pool));
     account_data := data |}.

(** A validator with a balance and a number of stakes. *)
Definition sample_validator (i bal count : Z) : ValidatorStakeInfo :=
  {| vsi_validator_account := toBuffer (sample_vote i); vsi_balance := bal;
     vsi_last_update_epoch := 7; vsi_stake_count := count |}.

Definition sample_list (l : list ValidatorStakeInfo) : buffer :=
  validator_stake_list_bytes (λ _, alloc 4) {| vsl_version := 1; vsl_validators := l |}.

Definition sample_credits (l : list (Z * Z)) : buffer :=
  credit_list_bytes
    {| cl_version := 1;
       cl_credits := (λ '(k, a), {| cr_sol_target := toBuffer (sample_key k);
                                    cr_cancel_authority := toBuffer (sample_key (k + 1));
                                    cr_token_amount := a |}) <$> l |}.

Definition sample_pool_state : StakePool :=
  {| sp_version := 1; sp_owner := toBuffer (publicKey (owner sample_pool));
     sp_deposit_bump_seed := 254; sp_withdraw_bump_seed := 255;
     sp_validator_stake_list := toBuffer (publicKey (validatorStakeListAccount sample_pool));
     sp_credit_list := toBuffer (publicKey (creditListAccount sample_pool));
     sp_pool_mint := toBuffer (poolMintToken sample_pool);
     sp_owner_fee_account := toBuffer (ownersFee sample_pool);
     sp_credit_reserve := toBuffer (creditReserve sample_pool);
     sp_token_program_id := toBuffer SPL_TOKEN_PROGRAM_ID;
     sp_stake_total := 4000000000; sp_pool_total := 3900000000; sp_last_update_epoch := 7;
     sp_fee_denominator := 1000; sp_fee_numerator := 1 |}.

(** The client of the pool with the given validators, creditors and stakes: a
    stake is its address, its lamports and its activation. *)
Definition sample_client (validators : list ValidatorStakeInfo) (credits : list (Z * Z))
    (stakes : list (PublicKey * Z * StakeActivationData)) : Client SampleCluster :=
  {| world :=
       {| sc_accounts :=
            [(publicKey (stakePool sample_pool),
              owned_account (stake_pool_bytes (alloc 5) sample_pool_state) 1);
             (publicKey (validatorStakeListAccount sample_pool),
              owned_account (sample_list validators) 1);
             (publicKey (creditListAccount sample_pool), owned_account (sample_credits credits) 1)]
            ++ ((λ '(k, l, _), (k, owned_account [] l)) <$> stakes);
          sc_activations := (λ '(k, _, a), (k, a)) <$> stakes;
          sc_votes := [toBase58 (sample_vote 0); toBase58 (sample_vote 1)];
          sc_epoch := num_of_Z 7 |};
     sent := []; watched := [] |}.

Definition active_stake (l : Z) : StakeActivationData :=
  {| activation_state := active_; activation_active := num_of_Z l;
     activation_inactive := num_of_Z 0 |}.

Definition sample_stake (v i : Z) : PublicKey :=
  match getStakeForValidator sample_pool (sample_vote v) i with
  | Ok k => k
  | Err _ => publicKey (stakePool sample_pool)
  end.
