(* ===== verification/Wire.v ===== *)
(** * The client's messages as the program reads them

    Every builder of Instructions.v against [StakePoolInstruction::deserialize]
    and against the order and privileges in which the processor takes its
    accounts. *)

From Stdlib Require Import ZArith Lia.
From stdpp Require Import base list strings sets.
From coqutil Require Import Byte Word.LittleEndianList.
From S2P Require Import Prelude JsNumber Buffers Web3 Sample Program Instructions SamplePool.

Open Scope Z_scope.

Definition u32 (z : Z) : Prop := 0 <= z < 2 ^ 32.
Definition u64 (z : Z) : Prop := 0 <= z < 2 ^ 64.

Section Wire.
Context `{KeysLaws} `{!AddressesDerive}.

(** ** Addresses *)

Definition or_pool (t : TenderizeProgram) (r : result PublicKey) : PublicKey :=
  match r with Ok k => k | Err _ => publicKey (stakePool t) end.

(** The derived addresses as keys. *)
Definition stake_key (t : TenderizeProgram) (v : PublicKey) (i : Z) : PublicKey :=
  or_pool t (getStakeForValidator t v i).
Definition reserve_key (t : TenderizeProgram) : PublicKey := or_pool t (getReserveAddress t).
Definition deposit_key (t : TenderizeProgram) : PublicKey := or_pool t (getDepositAuthority t).
Definition withdraw_key (t : TenderizeProgram) : PublicKey := or_pool t (getWithdrawAuthority t).

Lemma getStake_ok t v i : u32 i → getStakeForValidator t v i = Ok (stake_key t v i).
Proof.
  intros Hi. unfold stake_key, getStakeForValidator.
  unfold writeUInt32LE. change (alloc 4) with ([] ++ alloc 4) at 1 2.
  rewrite !write_le_append by (done || lia). cbn [mbind result_bind].
  edestruct derive_ok as [k Hk]. by rewrite Hk.
Qed.

Lemma getReserve_ok t : getReserveAddress t = Ok (reserve_key t).
Proof. unfold reserve_key, getReserveAddress. edestruct derive_ok as [k Hk]. by rewrite Hk. Qed.
Lemma getDeposit_ok t : getDepositAuthority t = Ok (deposit_key t).
Proof. unfold deposit_key, getDepositAuthority. edestruct derive_ok as [k Hk]. by rewrite Hk. Qed.
Lemma getWithdraw_ok t : getWithdrawAuthority t = Ok (withdraw_key t).
Proof. unfold withdraw_key, getWithdrawAuthority. edestruct derive_ok as [k Hk]. by rewrite Hk. Qed.

(** ** Loops that encode one record per element *)

Lemma for_result_encode {A} (item : buffer * nat * list AccountMeta → A → result _)
    (enc : A → buffer) (ks : A → list AccountMeta) size xs pre post keys :
  (∀ x pre n keys, x ∈ xs → (size ≤ n)%nat →
     item (pre ++ alloc n, length pre, keys) x =
     Ok ((pre ++ enc x) ++ alloc (n - size), length (pre ++ enc x), keys ++ ks x)) →
  post = alloc (size * length xs) →
  for_result xs (pre ++ post, length pre, keys) item =
  Ok (pre ++ concat (enc <$> xs), length (pre ++ concat (enc <$> xs)),
      keys ++ concat (ks <$> xs)).
Proof.
  intros Hitem ->. revert pre keys; induction xs as [|x xs IH]; intros pre keys.
  { simpl. rewrite Nat.mul_0_r. simpl. by rewrite !app_nil_r. }
  cbn [for_result]. rewrite Hitem by (set_solver || (simpl; lia)). cbn [mbind result_bind].
  replace (size * length (x :: xs) - size)%nat with (size * length xs)%nat by (simpl; lia).
  rewrite IH by (intros; apply Hitem; set_solver).
  by rewrite fmap_cons, fmap_cons; cbn [concat]; rewrite !app_assoc.
Qed.

(** ** Decoding of encoded vectors *)

Lemma unpack_vec_encode {A B} size (enc : B → buffer) (get : buffer → A) (dec : B → A) tag xs :
  u32 (Z.of_nat (length xs)) → xs ≠ [] → (0 < size)%nat →
  (∀ x, x ∈ xs → length (enc x) = size ∧ get (enc x) = dec x) →
  unpack_vec size get (tag :: le_split 4 (Z.of_nat (length xs)) ++ concat (enc <$> xs)) =
  inr (dec <$> xs).
Proof.
  intros Hn Hne Hsize Hx. change (tag :: ?l) with ([tag] ++ l).
  assert (Hlen : length (concat (enc <$> xs)) = (size * length xs)%nat).
  { clear Hn Hne. induction xs as [|x xs IH]; [simpl; lia|]. rewrite fmap_cons. cbn [concat length]. rewrite length_app.
    rewrite IH by (intros; apply Hx; set_solver).
    destruct (Hx x) as [-> _]; [set_solver|]. lia. }
  unfold unpack_vec, unpack.
  rewrite (proj2 (Nat.ltb_ge _ _)) by (rewrite !length_app, length_le_split; simpl; lia).
  change (drop 1 ([tag] ++ ?l)) with l.
  pose proof (u_at_split 4 (Z.of_nat (length xs)) [] (concat (enc <$> xs)) 0 eq_refl Hn) as Hu.
  change ([] ++ ?l) with l in Hu. rewrite Hu.
  rewrite (proj2 (Z.ltb_ge _ _)) by (rewrite !length_app, length_le_split, Hlen; simpl length; lia).
  rewrite (proj2 (Nat.leb_gt _ _))
    by (rewrite !length_app, length_le_split, Hlen; simpl length; destruct xs; [done|simpl; lia]).
  rewrite Nat2Z.id. f_equal.
  rewrite app_assoc, drop_app_length' by (by rewrite length_app, length_le_split).
  rewrite <- (app_nil_r (concat _)). by apply raw_parts_concat.
Qed.

(** ** Delegation *)

Definition enc_delegate (az : DepositReserveValidatorParam → Z) (v : DepositReserveValidatorParam)
  : buffer := le_split 8 (az v) ++ le_split 4 (stakeIndex v).

Definition dec_delegate (az : DepositReserveValidatorParam → Z) (v : DepositReserveValidatorParam)
  : DelegateReserveInstruction := {| dri_amount := az v; dri_stake_index := stakeIndex v |}.

Lemma delegate_item_encodes t az v pre n keys :
  BigInt (delegate_amount v) = Ok (az v) → u64 (az v) → u32 (stakeIndex v) → (12 ≤ n)%nat →
  delegate_item t (pre ++ alloc n, length pre, keys) v =
  Ok ((pre ++ enc_delegate az v) ++ alloc (n - 12), length (pre ++ enc_delegate az v),
      keys ++ [readonly (address v); writable (stake_key t (address v) (stakeIndex v))]).
Proof.
  intros Hb Ha Hi Hn. unfold delegate_item, writeBigUInt64LE, writeUInt32LE, enc_delegate.
  rewrite Hb. cbn [mbind result_bind].
  rewrite write_le_append by (done || lia). cbn [mbind result_bind].
  rewrite write_le_append by (done || lia). cbn [mbind result_bind].
  rewrite getStake_ok by done. cbn [mbind result_bind].
  by rewrite <- !app_assoc, <- Nat.sub_add_distr.
Qed.

Lemma delegate_decodes az v :
  u64 (az v) → u32 (stakeIndex v) →
  length (enc_delegate az v) = 12%nat ∧
  get_DelegateReserveInstruction (enc_delegate az v) = dec_delegate az v.
Proof.
  intros Ha Hi. unfold enc_delegate. split; [len|].
  unfold get_DelegateReserveInstruction, dec_delegate. f_equal.
  - by apply (u_at_split 8 _ []).
  - rewrite <- (app_nil_r (le_split 4 _)). apply u_at_split; [len|done].
Qed.

(** The message of a delegation is what the program decodes, and its variable
    accounts are the pairs (vote account, stake) the program takes. *)
Lemma delegate_wire t vs az :
  (∀ v, v ∈ vs → BigInt (delegate_amount v) = Ok (az v) ∧ u64 (az v) ∧ u32 (stakeIndex v)) →
  u32 (Z.of_nat (length vs)) → vs ≠ [] →
  ∃ ix, delegateReserveInstruction t vs = Ok ix ∧
    deserialize_instruction (ix_data ix) = inr (DelegateReserve (dec_delegate az <$> vs)) ∧
    drop 12 (ix_keys ix) =
      concat ((λ v, [readonly (address v); writable (stake_key t (address v) (stakeIndex v))]) <$> vs).
Proof.
  intros Hv Hn Hne. unfold delegateReserveInstruction.
  change (1 + 4 + (8 + 4) * length vs)%nat with (S (4 + 12 * length vs)).
  rewrite write_tag by lia. cbn [mbind result_bind]. unfold writeUInt32LE at 1.
  rewrite write_le_append by (done || lia). cbn [mbind result_bind].
  rewrite getWithdraw_ok, getDeposit_ok, getReserve_ok. cbn [mbind result_bind].
  rewrite (for_result_encode _ (enc_delegate az) (λ v,
    [readonly (address v); writable (stake_key t (address v) (stakeIndex v))]) 12); cycle 1.
  { intros v pre n ks Hin Hle. destruct (Hv v Hin) as (? & ? & ?).
    by apply delegate_item_encodes. }
  { f_equal. lia. }
  cbn [mbind result_bind]. eexists; split; [reflexivity|]. cbn [ix_data ix_keys]. split; [|done].
  unfold deserialize_instruction. rewrite <- app_assoc. cbn [app].
  change (byte.unsigned (byte.of_Z 12)) with 12. cbv iota.
  rewrite (unpack_vec_encode 12 (enc_delegate az) _ (dec_delegate az)); [done|done|done|lia|].
  intros v Hin. destruct (Hv v Hin) as (? & ? & ?). by apply delegate_decodes.
Qed.

(** ** Merging *)

Definition enc_merge (s : StakePair) : buffer :=
  toBuffer (pair_validator s) ++ le_split 4 (mainIndex s) ++ le_split 4 (additionalIndex s).

Definition dec_merge (s : StakePair) : MergeStakesInstruction :=
  {| msi_validator_address := toBuffer (pair_validator s); msi_main_index := mainIndex s;
     msi_additional_index := additionalIndex s |}.

Definition merge_keys (t : TenderizeProgram) (s : StakePair) : list AccountMeta :=
  [writable (stake_key t (pair_validator s) (mainIndex s));
   writable (stake_key t (pair_validator s) (additionalIndex s))].

Lemma merge_item_encodes t s pre n keys :
  u32 (mainIndex s) → u32 (additionalIndex s) → (40 ≤ n)%nat →
  merge_item t (pre ++ alloc n, length pre, keys) s =
  Ok ((pre ++ enc_merge s) ++ alloc (n - 40), length (pre ++ enc_merge s), keys ++ merge_keys t s).
Proof.
  intros Hm Ha Hn. unfold merge_item, writeUInt32LE, enc_merge.
  rewrite copy_to_append by (try done; rewrite length_toBuffer; lia). rewrite length_toBuffer.
  rewrite write_le_append by (done || lia || (rewrite length_app, length_toBuffer; lia)).
  cbn [mbind result_bind].
  rewrite write_le_append by (done || lia). cbn [mbind result_bind].
  rewrite !getStake_ok by done. cbn [mbind result_bind].
  by rewrite <- !app_assoc, <- !Nat.sub_add_distr.
Qed.

Lemma merge_decodes s :
  u32 (mainIndex s) → u32 (additionalIndex s) →
  length (enc_merge s) = 40%nat ∧ get_MergeStakesInstruction (enc_merge s) = dec_merge s.
Proof.
  intros Hm Ha. unfold enc_merge.
  pose proof (length_toBuffer (pair_validator s)) as Hl.
  split; [autorewrite with len; lia|]. unfold get_MergeStakesInstruction, dec_merge. f_equal.
  - rewrite <- (app_nil_l (toBuffer _ ++ _)). by apply slice_app.
  - by apply u_at_split.
  - rewrite <- (app_nil_r (le_split 4 (additionalIndex s))), app_assoc.
    apply u_at_split; [autorewrite with len; lia|done].
Qed.

Lemma merge_wire t ps :
  (∀ s, s ∈ ps → u32 (mainIndex s) ∧ u32 (additionalIndex s)) →
  u32 (Z.of_nat (length ps)) → ps ≠ [] →
  ∃ ix, mergeStakesInstruction t ps = Ok ix ∧
    deserialize_instruction (ix_data ix) = inr (MergeStakes (dec_merge <$> ps)) ∧
    drop 6 (ix_keys ix) = concat (merge_keys t <$> ps).
Proof.
  intros Hs Hn Hne. unfold mergeStakesInstruction.
  change (1 + 4 + (32 + 4 + 4) * length ps)%nat with (S (4 + 40 * length ps)).
  rewrite write_tag by lia. cbn [mbind result_bind]. unfold writeUInt32LE at 1.
  rewrite write_le_append by (done || lia). cbn [mbind result_bind].
  rewrite getDeposit_ok. cbn [mbind result_bind].
  rewrite (for_result_encode _ enc_merge (merge_keys t) 40); cycle 1.
  { intros s pre n ks Hin Hle. destruct (Hs s Hin). by apply merge_item_encodes. }
  { f_equal. lia. }
  cbn [mbind result_bind]. eexists; split; [reflexivity|]. cbn [ix_data ix_keys]. split; [|done].
  unfold deserialize_instruction. rewrite <- app_assoc. cbn [app].
  change (byte.unsigned (byte.of_Z 13)) with 13. cbv iota.
  rewrite (unpack_vec_encode 40 enc_merge _ dec_merge); [done|done|done|lia|].
  intros s Hin. destruct (Hs s Hin). by apply merge_decodes.
Qed.

(** ** Unstaking *)

Definition enc_unstake (az : UnstakeItem → Z) (u : UnstakeItem) : buffer :=
  toBuffer (unstake_validator u) ++ le_split 4 (sourceIndex u)
  ++ le_split 4 (index_or (splitIndex u) (sourceIndex u)) ++ le_split 8 (az u).

Definition dec_unstake (az : UnstakeItem → Z) (u : UnstakeItem) : UnstakeInstruction :=
  {| ui_validator_address := toBuffer (unstake_validator u); ui_source_index := sourceIndex u;
     ui_split_index := index_or (splitIndex u) (sourceIndex u); ui_amount := az u |}.

Definition unstake_keys (t : TenderizeProgram) (u : UnstakeItem) : list AccountMeta :=
  writable (stake_key t (unstake_validator u) (sourceIndex u))
  :: match splitIndex u with
     | Some i => if i =? 0 then [] else [writable (stake_key t (unstake_validator u) i)]
     | None => []
     end.

(** An item with indices and amount of the right widths. *)
Definition unstake_item_ok (az : UnstakeItem → Z) (u : UnstakeItem) : Prop :=
  BigInt (num_or_zero (unstake_amount u)) = Ok (az u) ∧ u64 (az u) ∧ u32 (sourceIndex u) ∧
  (∀ i, splitIndex u = Some i → u32 i).

Lemma index_or_u32 x y : u32 y → (∀ i, x = Some i → u32 i) → u32 (index_or x y).
Proof. intros Hy Hx. destruct x as [i|]; simpl; [|done]. destruct (i =? 0); auto. Qed.

Lemma unstake_item_encodes t az u pre n keys :
  unstake_item_ok az u → (48 ≤ n)%nat →
  unstake_item t (pre ++ alloc n, length pre, keys) u =
  Ok ((pre ++ enc_unstake az u) ++ alloc (n - 48), length (pre ++ enc_unstake az u),
      keys ++ unstake_keys t u).
Proof.
  intros (Hb & Ha & Hs & Hi) Hn. pose proof (index_or_u32 _ _ Hs Hi).
  unfold unstake_item, writeUInt32LE, writeBigUInt64LE, enc_unstake.
  rewrite copy_to_append by (try done; rewrite length_toBuffer; lia). rewrite length_toBuffer.
  rewrite write_le_append by (done || lia || (rewrite length_app, length_toBuffer; lia)).
  cbn [mbind result_bind].
  rewrite write_le_append by (done || lia). cbn [mbind result_bind]. rewrite Hb. cbn [mbind result_bind].
  rewrite write_le_append by (done || lia). cbn [mbind result_bind].
  rewrite getStake_ok by done. cbn [mbind result_bind]. unfold unstake_keys, index_truthy.
  destruct (splitIndex u) as [i|].
  - destruct (i =? 0); simpl negb; cbv iota.
    + by rewrite <- !app_assoc, <- !Nat.sub_add_distr.
    + rewrite getStake_ok by auto. cbn [mbind result_bind].
      by rewrite <- !app_assoc, <- !Nat.sub_add_distr.
  - by rewrite <- !app_assoc, <- !Nat.sub_add_distr.
Qed.

Lemma unstake_decodes az u :
  unstake_item_ok az u →
  length (enc_unstake az u) = 48%nat ∧
  get_UnstakeInstruction (enc_unstake az u) = dec_unstake az u.
Proof.
  intros (Hb & Ha & Hs & Hi). pose proof (index_or_u32 _ _ Hs Hi). unfold enc_unstake.
  pose proof (length_toBuffer (unstake_validator u)) as Hl.
  split; [autorewrite with len; lia|]. unfold get_UnstakeInstruction, dec_unstake. f_equal.
  - rewrite <- (app_nil_l (toBuffer _ ++ _)). by apply slice_app.
  - by apply u_at_split.
  - rewrite app_assoc. apply u_at_split; [autorewrite with len; lia|done].
  - rewrite <- (app_nil_r (le_split 8 _)), (app_assoc (toBuffer _)), (app_assoc (toBuffer _ ++ _)).
    apply u_at_split; [autorewrite with len; lia|done].
Qed.

Lemma unstake_wire t us az :
  (∀ u, u ∈ us → unstake_item_ok az u) → u32 (Z.of_nat (length us)) → us ≠ [] →
  ∃ ix, unstakeInstruction t us = Ok ix ∧
    deserialize_instruction (ix_data ix) = inr (Unstake (dec_unstake az <$> us)) ∧
    drop 9 (ix_keys ix) = concat (unstake_keys t <$> us).
Proof.
  intros Hu Hn Hne. unfold unstakeInstruction.
  change (1 + 4 + (32 + 4 + 4 + 8) * length us)%nat with (S (4 + 48 * length us)).
  rewrite write_tag by lia. cbn [mbind result_bind]. unfold writeUInt32LE at 1.
  rewrite write_le_append by (done || lia). cbn [mbind result_bind].
  rewrite getDeposit_ok. cbn [mbind result_bind].
  rewrite (for_result_encode _ (enc_unstake az) (unstake_keys t) 48); cycle 1.
  { intros u pre n ks Hin Hle. by apply unstake_item_encodes; [apply Hu|]. }
  { f_equal. lia. }
  cbn [mbind result_bind]. eexists; split; [reflexivity|]. cbn [ix_data ix_keys]. split; [|done].
  unfold deserialize_instruction. rewrite <- app_assoc. cbn [app].
  change (byte.unsigned (byte.of_Z 14)) with 14. cbv iota.
  rewrite (unpack_vec_encode 48 (enc_unstake az) _ (dec_unstake az)); [done|done|done|lia|].
  intros u Hin. by apply unstake_decodes, Hu.
Qed.

(** The client passes exactly the stakes the program takes for an item, unless
    the item splits a stake into itself. *)
Lemma unstake_keys_taken t az u :
  ¬ (splitIndex u = Some (sourceIndex u) ∧ sourceIndex u ≠ 0) →
  pubkey <$> unstake_keys t u =
  stake_key t (unstake_validator u) <$> unstake_accounts (dec_unstake az u).
Proof.
  intros Hne. unfold unstake_keys, unstake_accounts, dec_unstake, index_or. simpl.
  destruct (splitIndex u) as [i|]; simpl; [|by rewrite Z.eqb_refl].
  destruct (Z.eqb_spec i 0); [by rewrite Z.eqb_refl|].
  destruct (Z.eqb_spec i (sourceIndex u)) as [->|]; [naive_solver|done].
Qed.

(** ** Scalar messages *)

Lemma deserialize_u64 tag (C : Z → StakePoolInstruction) v :
  u64 v → 0 <= tag < 256 →
  (∀ input, deserialize_instruction (byte.of_Z tag :: input) =
            map_inr C (unpack 8 (λ b, u_at 8 b 0) (byte.of_Z tag :: input))) →
  deserialize_instruction ([byte.of_Z tag] ++ le_split 8 v) = inr (C v).
Proof.
  intros Hv Ht Hd. cbn [app]. rewrite Hd. unfold unpack.
  rewrite (proj2 (Nat.ltb_ge _ _)) by (cbn [length]; rewrite length_le_split; lia).
  cbn [drop map_inr]. do 2 f_equal. rewrite <- (app_nil_r (le_split 8 v)).
  by apply (u_at_split 8 v []).
Qed.

(** The two's complement of a negative amount is a large unsigned one. *)
Lemma le_split_wrap n v : le_split n v = le_split n (v mod 2 ^ (Z.of_nat n * 8)).
Proof. apply le_split_mod. Qed.

Definition i64 (z : Z) : Prop := - 2 ^ 63 <= z < 2 ^ 63.

Lemma wrap_u64 v : u64 (v mod 2 ^ 64).
Proof. apply Z.mod_pos_bound. lia. Qed.

(** The bytes and the accounts of a deposit. *)
Lemma deposit_message t params a :
  BigInt (deposit_amount params) = Ok a → i64 a →
  ∃ ix, depositInstruction t params = Ok ix ∧
        deserialize_instruction (ix_data ix) = inr (Deposit (a mod 2 ^ 64)) ∧
        ix_keys ix = [writable (publicKey (stakePool t)); readonly (withdraw_key t); writable (reserve_key t);
             signer_writable (publicKey (userSource params)); writable (userToken params);
             writable (ownersFee t); writable (poolMintToken t);
             readonly SYSVAR_RENT_PUBKEY; readonly (val SystemProgram_programId);
             readonly SPL_TOKEN_PROGRAM_ID].
Proof.
  intros Hb Ha. unfold depositInstruction. rewrite write_tag by lia. cbn [mbind result_bind].
  rewrite Hb. cbn [mbind result_bind]. unfold writeBigInt64LE.
  rewrite write_le_append by (done || lia). cbn [mbind result_bind].
  rewrite getWithdraw_ok, getReserve_ok. cbn [mbind result_bind].
  eexists; split; [reflexivity|]. cbn [ix_data ix_keys]. split; [|done]. rewrite app_nil_r, le_split_wrap.
  by apply deserialize_u64; [apply wrap_u64|..].
Qed.

(** A deposit of an integral amount in the signed 64-bit range is decoded as a
    deposit; a nonnegative amount arrives as it is, a negative one as its two's
    complement, a huge unsigned amount. *)
Theorem deposit_wire t params a :
  BigInt (deposit_amount params) = Ok a → i64 a →
  ∃ ix, depositInstruction t params = Ok ix ∧
        deserialize_instruction (ix_data ix) = inr (Deposit (a mod 2 ^ 64)).
Proof. intros Hb Ha. destruct (deposit_message t params a Hb Ha) as (ix & Hix & Hd & _). eauto. Qed.

(** The bytes and the accounts of a withdrawal. *)
Lemma withdraw_message t params a :
  BigInt (withdraw_amount params) = Ok a → i64 a →
  ∃ ix, withdrawInstruction t params = Ok ix ∧
        deserialize_instruction (ix_data ix) = inr (Withdraw (a mod 2 ^ 64)) ∧
        ix_keys ix = [writable (publicKey (stakePool t)); readonly (withdraw_key t); writable (reserve_key t);
             writable (withdraw_userTokenSource params); writable (poolMintToken t);
             writable (withdraw_userSolTarget params);
             readonly SYSVAR_RENT_PUBKEY; readonly (val SystemProgram_programId);
             readonly SPL_TOKEN_PROGRAM_ID].
Proof.
  intros Hb Ha. unfold withdrawInstruction. rewrite write_tag by lia. cbn [mbind result_bind].
  rewrite Hb. cbn [mbind result_bind]. unfold writeBigInt64LE.
  rewrite write_le_append by (done || lia). cbn [mbind result_bind].
  rewrite getWithdraw_ok, getReserve_ok. cbn [mbind result_bind].
  eexists; split; [reflexivity|]. cbn [ix_data ix_keys]. split; [|done]. rewrite app_nil_r, le_split_wrap.
  by apply deserialize_u64; [apply wrap_u64|..].
Qed.

(** Likewise for a withdrawal. *)
Theorem withdraw_wire t params a :
  BigInt (withdraw_amount params) = Ok a → i64 a →
  ∃ ix, withdrawInstruction t params = Ok ix ∧
        deserialize_instruction (ix_data ix) = inr (Withdraw (a mod 2 ^ 64)).
Proof. intros Hb Ha. destruct (withdraw_message t params a Hb Ha) as (ix & Hix & Hd & _). eauto. Qed.

(** A credit for a nonnegative amount; the cancellation of one for a negative
    amount, signed by the cancel authority. *)
Lemma credit_message t params a :
  credit_amount params = num_of_Z a → safe a →
  (if 0 <=? a then ∃ k, credit_cancelAuthority params = IsKey k
   else ∃ c, credit_cancelAuthority params = IsAccount c) →
  ∃ ix k, creditInstruction t params = Ok ix ∧
    cancel_key (0 <=? a) (credit_cancelAuthority params) = Ok k ∧
    deserialize_instruction (ix_data ix) =
      inr (if 0 <=? a then Credit a else Uncredit (- a)) ∧
    ix_keys ix !! 6%nat = Some (meta k (a <? 0) false).
Proof.
  intros Ham Hs Hc. unfold creditInstruction. rewrite Ham.
  assert (Hk : ∃ k, cancel_key (0 <=? a) (credit_cancelAuthority params) = Ok k).
  { destruct (0 <=? a); destruct Hc as [? ->]; simpl; eauto. }
  destruct Hk as [k Hk].
  assert (Ha : u64 (Z.abs a)) by (unfold safe, u64 in *; lia).
  rewrite num_leb_exact, num_ltb_exact by (done || safe_lia).
  rewrite write_tag by (destruct (0 <=? a); lia). cbn [mbind result_bind].
  rewrite Math_abs_exact, BigInt_num_of_Z by (done || safe_lia). cbn [mbind result_bind].
  unfold writeBigInt64LE. rewrite write_le_append by (done || lia || safe_lia).
  cbn [mbind result_bind]. rewrite getWithdraw_ok. cbn [mbind result_bind]. rewrite Hk.
  cbn [mbind result_bind]. eexists _, k. split; [reflexivity|]. split; [done|].
  split; [|done]. cbn [ix_data]. rewrite app_nil_r.
  destruct (Z.leb_spec 0 a).
  - rewrite Z.abs_eq in * by lia. by apply deserialize_u64.
  - rewrite Z.abs_neq in * by lia. by apply deserialize_u64.
Qed.

Lemma createStakePool_wire t params d n :
  BigInt (feeDenominator params) = Ok d → u64 d → BigInt (feeNumerator params) = Ok n → u64 n →
  ∃ ix, createStakePoolInstruction t params = Ok ix ∧
        deserialize_instruction (ix_data ix) = inr (Initialize d n).
Proof.
  intros Hd Hd64 Hn Hn64. unfold createStakePoolInstruction, writeBigUInt64LE. cbv zeta.
  change (1 + 8 + 8)%nat with (S (8 + 8)).
  rewrite write_tag by lia. cbn [mbind result_bind]. rewrite Hd. cbn [mbind result_bind].
  rewrite write_le_append by (done || lia). cbn [mbind result_bind]. rewrite Hn. cbn [mbind result_bind].
  rewrite write_le_append by (done || lia). cbn [mbind result_bind].
  eexists; split; [reflexivity|]. cbn [ix_data]. rewrite app_nil_r, <- app_assoc. cbn [app].
  unfold deserialize_instruction. change (byte.unsigned (byte.of_Z 0)) with 0. cbv iota.
  unfold unpack. rewrite (proj2 (Nat.ltb_ge _ _)) by (cbn [length]; rewrite length_app, !length_le_split; lia).
  cbn [drop map_inr]. f_equal. f_equal.
  - by apply (u_at_split 8 d []).
  - rewrite <- (app_nil_r (le_split 8 n)). by apply u_at_split.
Qed.

(** ** Batches and their accounts *)

(** A batch of delegations (not empty, amounts and indices in range) is decoded
    as the client's amounts and stake indices, in order, and after the fixed
    accounts come, per delegation, the vote account and the stake account derived
    for that validator and index, the pair the processor takes for it. *)
Theorem delegate_roundtrip t vs az :
  (∀ v, v ∈ vs → BigInt (delegate_amount v) = Ok (az v) ∧ u64 (az v) ∧ u32 (stakeIndex v)) →
  u32 (Z.of_nat (length vs)) → vs ≠ [] →
  ∃ ix l, delegateReserveInstruction t vs = Ok ix ∧
    deserialize_instruction (ix_data ix) = inr (DelegateReserve l) ∧
    Forall2 (λ v i, dri_amount i = az v ∧ dri_stake_index i = stakeIndex v) vs l ∧
    pubkey <$> drop 12 (ix_keys ix) =
      concat (zip_with (λ v i, [address v; stake_key t (address v) (dri_stake_index i)]) vs l).
Proof.
  intros Hv Hn Hne. destruct (delegate_wire t vs az Hv Hn Hne) as (ix & Hix & Hd & Hk).
  eexists ix, _. split_and!; [done|done| |].
  - apply Forall2_fmap_r, Forall_Forall2_diag, Forall_true. by intros.
  - rewrite Hk. clear. induction vs as [|v vs IH]; [done|].
    rewrite !fmap_cons. cbn [zip_with concat app]. rewrite !fmap_cons, IH. done.
Qed.

(** A batch of unstakes in which no item names its source as the split target is
    decoded as the client's items and lists, after the fixed accounts, exactly the
    stake accounts the processor takes for them, in order. *)
Theorem unstake_roundtrip t us az :
  (∀ u, u ∈ us → unstake_item_ok az u ∧
                 ¬ (splitIndex u = Some (sourceIndex u) ∧ sourceIndex u ≠ 0)) →
  u32 (Z.of_nat (length us)) → us ≠ [] →
  ∃ ix l, unstakeInstruction t us = Ok ix ∧
    deserialize_instruction (ix_data ix) = inr (Unstake l) ∧
    Forall2 (λ u i, ui_source_index i = sourceIndex u ∧ ui_amount i = az u ∧
                    (∀ s, splitIndex u = Some s → s ≠ 0 → ui_split_index i = s) ∧
                    (splitIndex u = None → ui_split_index i = sourceIndex u)) us l ∧
    pubkey <$> drop 9 (ix_keys ix) =
      concat (zip_with (λ u i, stake_key t (unstake_validator u) <$> unstake_accounts i) us l).
Proof.
  intros Hu Hn Hne. edestruct (unstake_wire t us az) as (ix & Hix & Hd & Hk); [|done|done|].
  { intros u Hin. by apply Hu. }
  eexists ix, _. split_and!; [done|done| |].
  - apply Forall2_fmap_r, Forall_Forall2_diag, Forall_true. intros u. simpl. split_and!; try done.
    + intros s -> Hs. simpl. by rewrite (proj2 (Z.eqb_neq _ _)).
    + by intros ->.
  - rewrite Hk. clear Hk Hd Hix Hn Hne. induction us as [|u us IH]; [done|].
    rewrite !fmap_cons. cbn [zip_with concat]. rewrite fmap_app, IH by (intros; apply Hu; set_solver).
    f_equal. apply unstake_keys_taken, Hu. set_solver.
Qed.

End Wire.

(** ** On concrete messages *)

Definition sample_deposit (a : Z) : DepositParams :=
  {| userSource := sample_key 1; deposit_amount := num_of_Z a; userToken := sample_key 30 |}.

Definition sample_withdrawal (a : Z) : WithdrawParams :=
  {| withdraw_userTokenSource := sample_key 30; withdraw_amount := num_of_Z a;
     withdraw_userSolTarget := sample_key 31 |}.

Definition sample_credit (a : Z) (k : KeyOrAccount) : CreditParams :=
  {| credit_userTokenSource := sample_key 30; credit_amount := num_of_Z a;
     credit_userSolTarget := sample_key 31; credit_cancelAuthority := k |}.

Lemma deposit_wire_witness :
  ∃ ix, depositInstruction sample_pool (sample_deposit (-5)) = Ok ix ∧ deserialize_instruction (ix_data ix) = inr (Deposit (2 ^ 64 - 5)).
Proof. apply (deposit_wire sample_pool _ (-5)); [reflexivity|unfold i64; lia]. Defined.

Lemma withdraw_wire_witness :
  ∃ ix, withdrawInstruction sample_pool (sample_withdrawal 7000000000) = Ok ix ∧ deserialize_instruction (ix_data ix) = inr (Withdraw 7000000000).
Proof. apply (withdraw_wire sample_pool _ 7000000000); [reflexivity|unfold i64; lia]. Defined.

Definition sample_delegation : list DepositReserveValidatorParam :=
  [{| address := sample_vote 0; delegate_amount := num_of_Z 3000000000; stakeIndex := 0 |};
   {| address := sample_vote 1; delegate_amount := num_of_Z 3000000000; stakeIndex := 2 |}].

Lemma delegate_roundtrip_witness :
  ∃ ix l, delegateReserveInstruction sample_pool sample_delegation = Ok ix ∧
    deserialize_instruction (ix_data ix) = inr (DelegateReserve l) ∧
    Forall2 (λ v i, dri_amount i = 3000000000 ∧ dri_stake_index i = stakeIndex v) sample_delegation l ∧
    pubkey <$> drop 12 (ix_keys ix) =
      concat (zip_with (λ v i, [address v; stake_key sample_pool (address v) (dri_stake_index i)])
                       sample_delegation l).
Proof.
  apply (delegate_roundtrip sample_pool sample_delegation (λ _, 3000000000)); [|unfold u32; simpl; lia|done].
  intros v Hv. unfold sample_delegation in Hv. repeat (apply elem_of_cons in Hv as [->|Hv]);
    [| |by apply elem_of_nil in Hv]; (split; [reflexivity|unfold u32, u64; simpl; lia]).
Defined.

Definition sample_unstakes : list UnstakeItem :=
  [{| unstake_validator := sample_vote 0; sourceIndex := 0; splitIndex := None; unstake_amount := None |};
   {| unstake_validator := sample_vote 0; sourceIndex := 1; splitIndex := Some 4;
      unstake_amount := Some (num_of_Z 5) |}].

Definition sample_unstake_amount (u : UnstakeItem) : Z :=
  match splitIndex u with None => 0 | Some _ => 5 end.

Lemma unstake_roundtrip_witness :
  ∃ ix l, unstakeInstruction sample_pool sample_unstakes = Ok ix ∧
    deserialize_instruction (ix_data ix) = inr (Unstake l) ∧
    Forall2 (λ u i, ui_source_index i = sourceIndex u ∧ ui_amount i = sample_unstake_amount u ∧
                    (∀ s, splitIndex u = Some s → s ≠ 0 → ui_split_index i = s) ∧
                    (splitIndex u = None → ui_split_index i = sourceIndex u)) sample_unstakes l ∧
    pubkey <$> drop 9 (ix_keys ix) =
      concat (zip_with (λ u i, stake_key sample_pool (unstake_validator u) <$> unstake_accounts i)
                       sample_unstakes l).
Proof.
  apply (unstake_roundtrip sample_pool sample_unstakes sample_unstake_amount);
    [|unfold u32; simpl; lia|done].
  intros u Hu. unfold sample_unstakes in Hu. repeat (apply elem_of_cons in Hu as [->|Hu]);
    [| |by apply elem_of_nil in Hu]; (split; [|intros [Hs _]; simpl in Hs; by simplify_eq]);
    unfold unstake_item_ok, u32, u64, sample_unstake_amount; simpl sourceIndex; simpl splitIndex;
    cbv iota; (split; [reflexivity|]); (split; [lia|]); (split; [lia|]);
    intros i Hi; simplify_eq; lia.
Defined.
