(* ===== verification/Readers.v ===== *)
(** * Reading the pool's accounts (experiment/tenderize.ts)

    [parseState], [readState], [readValidators] and [readCreditors]: the byte
    offsets at which the client reads the three accounts of the pool, and that
    they are those at which the program wrote them (state.rs, in Program.v). *)

From Stdlib Require Import ZArith Lia.
From stdpp Require Import base list strings sets.
From coqutil Require Import Byte Word.LittleEndianList.
From S2P Require Import Prelude JsNumber Buffers Web3 Sample Program Instructions SamplePool.

Open Scope Z_scope.

Section Readers.
Context `{Keys}.

(** A [number] read from a [bigint] is rounded to a double; the state keeps its
    totals as [bigint]s. *)
Record State := {
  version : Z;
  state_owner : PublicKey;
  validatorStakeList : PublicKey;
  creditList : PublicKey;
  poolMint : PublicKey;
  ownerFeeAccount : PublicKey;
  state_creditReserve : PublicKey;
  tokenProgram : PublicKey;
  stakeTotal : Z;
  poolTotal : Z;
  lastEpochUpdate : Z;
  state_feeDenominator : Z;
  state_feeNumerator : Z;
}.

Record Creditor := {
  target : PublicKey;
  cancelAuthority : PublicKey;
  creditor_amount : num;
}.

Definition parseState (data : buffer) : result State :=
  v ← readUInt8 data 0;
  o ← new_PublicKey (slice data 1 33);
  vl ← new_PublicKey (slice data 35 67);
  cl ← new_PublicKey (slice data 67 99);
  pm ← new_PublicKey (slice data 99 131);
  ofa ← new_PublicKey (slice data 131 163);
  cr ← new_PublicKey (slice data 163 195);
  tp ← new_PublicKey (slice data 195 227);
  st ← readBigUInt64LE data 232;
  pt ← readBigUInt64LE data 240;
  le ← readBigUInt64LE data 248;
  fd ← readBigUInt64LE data 256;
  fn ← readBigUInt64LE data 264;
  mret {| version := v; state_owner := o; validatorStakeList := vl; creditList := cl;
          poolMint := pm; ownerFeeAccount := ofa; state_creditReserve := cr; tokenProgram := tp;
          stakeTotal := st; poolTotal := pt; lastEpochUpdate := le;
          state_feeDenominator := fd; state_feeNumerator := fn |}.

(** The record at index [i] of the validator list. *)
Definition parse_validator (data : buffer) (i : nat) : result ValidatorInfo :=
  let at_ := (3 + (32 + 8 + 8 + 8) * i)%nat in
  vote ← new_PublicKey (slice data at_ (at_ + 32));
  bal ← readBigUInt64LE data (at_ + 32);
  epoch ← readBigUInt64LE data (at_ + 32 + 8);
  count ← readUInt32LE data (at_ + 32 + 8 + 8);
  mret {| votePubkey := vote; balance := num_of_Z bal; lastUpdateEpoch := num_of_Z epoch;
          stakeCount := count |}.

Definition parse_validators (data : buffer) : result (list ValidatorInfo) :=
  validatorCount ← readUInt16LE data 1;
  map_result (parse_validator data) (seq 0 (Z.to_nat validatorCount)).

(** One turn of the loop of [readCreditors], which keeps the offset [p]. *)
Definition credit_item (data : buffer) (st : nat * list Creditor) (i : nat)
  : result (nat * list Creditor) :=
  let '(p, creditors) := st in
  tgt ← new_PublicKey (slice data p (p + 32));
  let p := (p + 32)%nat in
  cancel ← new_PublicKey (slice data p (p + 32));
  let p := (p + 32)%nat in
  amount ← readBigUInt64LE data p;
  let p := (p + 8)%nat in
  mret (p, creditors ++ [{| target := tgt; cancelAuthority := cancel;
                            creditor_amount := num_of_Z amount |}]).

Definition parse_creditors (data : buffer) : result (list Creditor) :=
  count ← readUInt16LE data 1;
  '(_, creditors) ← for_result (seq 0 (Z.to_nat count)) (3%nat, []) (credit_item data);
  mret creditors.

Context {W : Type} `{!Connection W}.

(** A dereference [x!.f]: a [TypeError] on [null]. *)
Definition not_null {A} (x : option A) : M (Client W) A :=
  match x with Some a => mret a | None => throw TypeError end.

(** [setState] is the flag whether a callback was given: the subscription is made
    before the account is looked at. *)
Definition readState (t : TenderizeProgram) (setState : bool) : M (Client W) (option State) :=
  stateAccount ← getAccountInfo (publicKey (stakePool t)) (Some singleGossip);
  _ ← (if setState then onAccountChange (publicKey (stakePool t)) else mret tt);
  match stateAccount with
  | None => mret None
  | Some a => if (length (account_data a) =? 0)%nat then mret None
              else s ← lift (parseState (account_data a)); mret (Some s)
  end.

Definition readValidators (t : TenderizeProgram) : M (Client W) (list ValidatorInfo) :=
  validatorListAccount ← getAccountInfo (publicKey (validatorStakeListAccount t)) (Some singleGossip);
  a ← not_null validatorListAccount;
  lift (parse_validators (account_data a)).

Definition readCreditors (t : TenderizeProgram) : M (Client W) (list Creditor) :=
  state ← readState t false;
  s ← not_null state;
  creditorsAccount ← getAccountInfo (creditList s) None;
  a ← not_null creditorsAccount;
  lift (parse_creditors (account_data a)).

End Readers.

(** ** What the program wrote is what the client reads *)

Section RoundTrips.
Context `{KeysLaws}.

(** The program's value that a client's value stands for: keys are their bytes. *)
Definition pool_of (dep wd : Z) (s : State) : StakePool :=
  {| sp_version := version s; sp_owner := toBuffer (state_owner s);
     sp_deposit_bump_seed := dep; sp_withdraw_bump_seed := wd;
     sp_validator_stake_list := toBuffer (validatorStakeList s);
     sp_credit_list := toBuffer (creditList s); sp_pool_mint := toBuffer (poolMint s);
     sp_owner_fee_account := toBuffer (ownerFeeAccount s);
     sp_credit_reserve := toBuffer (state_creditReserve s);
     sp_token_program_id := toBuffer (tokenProgram s); sp_stake_total := stakeTotal s;
     sp_pool_total := poolTotal s; sp_last_update_epoch := lastEpochUpdate s;
     sp_fee_denominator := state_feeDenominator s; sp_fee_numerator := state_feeNumerator s |}.

Definition u64_of (z : Z) : Prop := 0 <= z < 2 ^ 64.

Definition state_in_range (s : State) : Prop :=
  0 <= version s < 256 ∧ u64_of (stakeTotal s) ∧ u64_of (poolTotal s) ∧
  u64_of (lastEpochUpdate s) ∧ u64_of (state_feeDenominator s) ∧ u64_of (state_feeNumerator s).

Lemma key_here k r : new_PublicKey (slice (toBuffer k ++ r) 0 32) = Ok k.
Proof. rewrite slice_here by apply length_toBuffer. apply new_PublicKey_toBuffer. Qed.

(** Skips the fields in front of the one that is read. *)
Ltac field_length := first [apply length_toBuffer | apply length_le_split | eassumption].
Ltac skip_fields :=
  repeat first
    [ erewrite read_le_skip; [|field_length|lia]; cbn [Nat.sub]
    | erewrite slice_skip; [|field_length|lia]; cbn [Nat.sub] ].
Ltac read_field :=
  skip_fields; first [rewrite key_here | rewrite read_le_here by done]; cbn [mbind result_bind].

Lemma serialized_state_parses s dep wd padding output :
  state_in_range s → length padding = 5%nat →
  (STAKE_POOL_LEN ≤ length output)%nat →
  ∃ data, serialize_stake_pool padding (pool_of dep wd s) output = inr data ∧
          length data = length output ∧ parseState data = Ok s.
Proof.
  intros (Hv & H1 & H2 & H3 & H4 & H5) Hpad Hout. unfold serialize_stake_pool.
  rewrite (proj2 (Nat.ltb_ge _ _)) by done. eexists; split; [done|].
  unfold stake_pool_bytes. split.
  { rewrite !length_app, !length_le_split, Hpad, length_drop. cbn [pool_of sp_owner
      sp_validator_stake_list sp_credit_list sp_pool_mint sp_owner_fee_account
      sp_credit_reserve sp_token_program_id]. rewrite !length_toBuffer.
    unfold STAKE_POOL_LEN in *. lia. }
  unfold parseState, readUInt8, readBigUInt64LE. cbn [pool_of sp_version sp_owner
    sp_deposit_bump_seed sp_withdraw_bump_seed sp_validator_stake_list sp_credit_list sp_pool_mint
    sp_owner_fee_account sp_credit_reserve sp_token_program_id sp_stake_total sp_pool_total
    sp_last_update_epoch sp_fee_denominator sp_fee_numerator].
  rewrite <- !app_assoc. do 13 read_field. by destruct s.
Qed.

(** C18: the pool's state as the program serialises it, whatever the account held
    before and whatever the padding bytes are, is parsed by the client into the
    same values; serialising does not change the size of the account. *)
Theorem parse_serialized_state s dep wd padding output :
  state_in_range s → length padding = 5%nat →
  (STAKE_POOL_LEN ≤ length output)%nat →
  ∃ data, serialize_stake_pool padding (pool_of dep wd s) output = inr data ∧
          length data = length output ∧ parseState data = Ok s.
Proof. apply serialized_state_parses. Qed.

(** ** The validator list *)

(** [v] is the client's view of the program's record [p]: the balance and the
    epoch are rounded to doubles. *)
Definition validator_view (p : ValidatorStakeInfo) (v : ValidatorInfo) : Prop :=
  vsi_validator_account p = toBuffer (votePubkey v) ∧
  balance v = num_of_Z (vsi_balance p) ∧ lastUpdateEpoch v = num_of_Z (vsi_last_update_epoch p) ∧
  stakeCount v = vsi_stake_count p ∧
  u64_of (vsi_balance p) ∧ u64_of (vsi_last_update_epoch p) ∧ 0 <= vsi_stake_count p < 2 ^ 32.

Lemma length_stake_info_bytes padding p v :
  validator_view p v → length padding = 4%nat →
  length (validator_stake_info_bytes padding p) = VALIDATOR_STAKE_INFO_LEN.
Proof.
  intros (Hk & _) Hp. unfold validator_stake_info_bytes.
  by rewrite !length_app, !length_le_split, Hk, length_toBuffer, Hp.
Qed.

Lemma parse_validator_record pre padding p v post i :
  validator_view p v → length pre = (3 + 56 * i)%nat →
  parse_validator (pre ++ validator_stake_info_bytes padding p ++ post) i = Ok v.
Proof.
  intros (Hk & Hb & He & Hc & Hb64 & He64 & Hc32) Hpre.
  unfold parse_validator, readBigUInt64LE, readUInt32LE, validator_stake_info_bytes.
  change (32 + 8 + 8 + 8)%nat with 56%nat. cbv zeta.
  rewrite !(slice_skip pre _ _ _ _ Hpre), !(read_le_skip _ pre _ _ _ Hpre) by lia.
  replace (3 + 56 * i - (3 + 56 * i))%nat with 0%nat by lia.
  replace (3 + 56 * i + 32 - (3 + 56 * i))%nat with 32%nat by lia.
  replace (3 + 56 * i + 32 + 8 - (3 + 56 * i))%nat with 40%nat by lia.
  replace (3 + 56 * i + 32 + 8 + 8 - (3 + 56 * i))%nat with 48%nat by lia.
  rewrite Hk, <- !app_assoc. do 4 read_field. rewrite <- Hb, <- He, <- Hc. by destruct v.
Qed.

(** C19: the validator list as the program serialises it is parsed by the client into
    the same validators, in order, with balances and epochs rounded to doubles. *)
Theorem parse_serialized_validators ps vs ver padding output :
  Forall2 validator_view ps vs → (∀ i, length (padding i) = 4%nat) →
  0 <= ver < 256 → (length ps ≤ MAX_VALIDATORS)%nat →
  (VALIDATOR_STAKE_LIST_LEN ≤ length output)%nat →
  ∃ data, serialize_validator_stake_list padding {| vsl_version := ver; vsl_validators := ps |} output
            = inr data ∧ parse_validators data = Ok vs.
Proof.
  intros Hvs Hpad Hver Hmax Hout. unfold serialize_validator_stake_list.
  rewrite (proj2 (Nat.ltb_ge _ _)) by done. cbn [vsl_validators].
  rewrite (proj2 (Nat.ltb_ge _ _)) by done. eexists; split; [done|].
  pose proof (Forall2_length _ _ _ Hvs) as Hlen.
  unfold validator_stake_list_bytes, parse_validators, readUInt16LE. cbn [vsl_version vsl_validators].
  rewrite <- !app_assoc. skip_fields.
  rewrite read_le_here by (unfold MAX_VALIDATORS in *; lia). cbn [mbind result_bind].
  rewrite Nat2Z.id, Hlen. apply map_result_seq. intros i v Hv.
  destruct (Forall2_lookup_r _ _ _ _ _ Hvs Hv) as (p & Hp & Hview).
  edestruct (concat_lookup (imap (λ i v, validator_stake_info_bytes (padding i) v) ps)
    VALIDATOR_STAKE_INFO_LEN i) as (before & after & Hc & Hbefore).
  { by rewrite list_lookup_imap, Hp. }
  { intros x Hx. apply list_elem_of_lookup_1 in Hx as [j Hj].
    rewrite list_lookup_imap in Hj. destruct (ps !! j) as [q|] eqn:Hq; simplify_eq/=.
    destruct (Forall2_lookup_l _ _ _ _ _ Hvs Hq) as (w & _ & Hw).
    by apply (length_stake_info_bytes _ _ w). }
  set (post := drop _ output). rewrite Hc, <- !app_assoc.
  rewrite (app_assoc (le_split 1 ver)), (app_assoc _ before).
  apply parse_validator_record; [done|].
  rewrite !length_app, !length_le_split, Hbefore. unfold VALIDATOR_STAKE_INFO_LEN. lia.
Qed.

(** ** The credit list *)

Definition creditor_view (p : CreditRecord) (c : Creditor) : Prop :=
  cr_sol_target p = toBuffer (target c) ∧ cr_cancel_authority p = toBuffer (cancelAuthority c) ∧
  creditor_amount c = num_of_Z (cr_token_amount p) ∧ u64_of (cr_token_amount p).

Lemma credit_item_reads pre p c post i acc :
  creditor_view p c →
  credit_item (pre ++ credit_record_bytes p ++ post) (length pre, acc) i =
  Ok (length (pre ++ credit_record_bytes p), acc ++ [c]).
Proof.
  intros (Ht & Hc & Ha & Ha64). unfold credit_item, readBigUInt64LE, credit_record_bytes.
  rewrite !(slice_skip pre _ _ _ _ eq_refl), !(read_le_skip _ pre _ _ _ eq_refl) by lia.
  replace (length pre - length pre)%nat with 0%nat by lia.
  replace (length pre + 32 - length pre)%nat with 32%nat by lia.
  replace (length pre + 32 + 32 - length pre)%nat with 64%nat by lia.
  rewrite Ht, Hc, <- !app_assoc. do 3 read_field.
  rewrite <- Ha, !length_app, !length_toBuffer, length_le_split.
  do 2 f_equal; [lia|]. by destruct c.
Qed.

Lemma credit_items_read ps cs : Forall2 creditor_view ps cs → ∀ k pre post acc,
  for_result (seq k (length ps)) (length pre, acc)
    (credit_item (pre ++ concat (credit_record_bytes <$> ps) ++ post)) =
  Ok (length (pre ++ concat (credit_record_bytes <$> ps)), acc ++ cs).
Proof.
  induction 1 as [|p c ps cs Hv _ IH]; intros k pre post acc.
  { cbn. by rewrite !app_nil_r. }
  rewrite fmap_cons. cbn [length seq for_result concat]. rewrite <- app_assoc.
  rewrite credit_item_reads with (c := c) by done. cbn [mbind result_bind].
  rewrite app_assoc, IH, <- !app_assoc. done.
Qed.

(** The credit list as the program serialises it is parsed by the client into the
    same creditors, in order. *)
Theorem parse_serialized_creditors ps cs ver output :
  Forall2 creditor_view ps cs → 0 <= ver < 256 → (length ps ≤ MAX_CREDIT_RECORDS)%nat →
  (CREDIT_LIST_LEN ≤ length output)%nat →
  ∃ data, serialize_credit_list {| cl_version := ver; cl_credits := ps |} output = inr data ∧
          parse_creditors data = Ok cs.
Proof.
  intros Hcs Hver Hmax Hout. unfold serialize_credit_list.
  rewrite (proj2 (Nat.ltb_ge _ _)) by done. cbn [cl_credits].
  rewrite (proj2 (Nat.ltb_ge _ _)) by done. eexists; split; [done|].
  unfold credit_list_bytes, parse_creditors, readUInt16LE. cbn [cl_version cl_credits].
  rewrite <- !app_assoc. skip_fields.
  rewrite read_le_here by (unfold MAX_CREDIT_RECORDS in *; lia). cbn [mbind result_bind].
  rewrite Nat2Z.id. set (post := drop _ output).
  rewrite (app_assoc (le_split 1 ver)).
  pose proof (credit_items_read ps cs Hcs 0 (le_split 1 ver ++ le_split 2 (Z.of_nat (length ps))) post [])
    as Hread.
  rewrite length_app, !length_le_split in Hread. change (1 + 2)%nat with 3%nat in Hread.
  by rewrite Hread.
Qed.

End RoundTrips.

(** ** What is read is in range, whoever wrote it *)

Section Ranges.
Context `{Keys}.

Lemma parse_validator_range data i v :
  parse_validator data i = Ok v →
  0 <= stakeCount v < 2 ^ 32 ∧ ∃ b, balance v = num_of_Z b ∧ u64_of b.
Proof.
  unfold parse_validator. cbv zeta. intros Hr.
  apply result_bind_Ok in Hr as (k & _ & Hr).
  apply result_bind_Ok in Hr as (b & Hb%read_le_bound & Hr).
  apply result_bind_Ok in Hr as (e & _ & Hr).
  apply result_bind_Ok in Hr as (n & Hn%read_le_bound & Hr).
  injection Hr as <-. split; [done|]. by exists b.
Qed.

Lemma parse_validators_range data vs :
  parse_validators data = Ok vs →
  Z.of_nat (length vs) < 2 ^ 16 ∧ Forall (λ v, 0 <= stakeCount v < 2 ^ 32) vs ∧
  ∃ bals, balance <$> vs = num_of_Z <$> bals ∧ Forall u64_of bals.
Proof.
  intros Hr. apply result_bind_Ok in Hr as (n & Hn%read_le_bound & Hr).
  apply map_result_inv in Hr. pose proof (Forall2_length _ _ _ Hr) as Hlen.
  rewrite length_seq in Hlen. split.
  { rewrite <- Hlen. change (2 ^ 16) with (2 ^ (8 * Z.of_nat 2)). lia. }
  clear Hlen Hn. induction Hr as [|i v idxs vs Hv _ IH].
  { split; [constructor|]. by exists []. }
  destruct IH as [IH (bals & Hb & Hbals)].
  destruct (parse_validator_range _ _ _ Hv) as [Hc (b & Hvb & Hb64)].
  split; [by constructor|]. exists (b :: bals). rewrite !fmap_cons, Hvb, Hb.
  split; [done|by constructor].
Qed.

Context {W : Type} `{!Connection W}.

Lemma readValidators_range t (c c' : Client W) vs :
  readValidators t c = (Ok vs, c') →
  Z.of_nat (length vs) < 2 ^ 16 ∧ Forall (λ v, 0 <= stakeCount v < 2 ^ 32) vs ∧
  ∃ bals, balance <$> vs = num_of_Z <$> bals ∧ Forall u64_of bals.
Proof.
  unfold readValidators. intros Hr. inv_bind Hr. inv_bind Hr.
  injection Hr as Hr _. by apply parse_validators_range in Hr.
Qed.

Lemma not_null_quiet {A} (x : option A) : submits_nothing (not_null x : M (Client W) A).
Proof. by destruct x. Qed.

Lemma readState_quiet t b : submits_nothing (readState t b : M (Client W) _).
Proof.
  apply bind_submits_nothing; [apply query_submits_nothing|]. intros a.
  apply bind_submits_nothing; [by destruct b|]. intros _. destruct a as [i|]; [|done].
  destruct (length (account_data i) =? 0)%nat; [done|]. by apply bind_submits_nothing.
Qed.

Lemma readValidators_quiet t : submits_nothing (readValidators t : M (Client W) _).
Proof.
  apply bind_submits_nothing; [apply query_submits_nothing|]. intros a.
  apply bind_submits_nothing; [apply not_null_quiet|]. by intros i.
Qed.

Lemma readCreditors_quiet t : submits_nothing (readCreditors t : M (Client W) _).
Proof.
  apply bind_submits_nothing; [apply readState_quiet|]. intros s.
  apply bind_submits_nothing; [apply not_null_quiet|]. intros st.
  apply bind_submits_nothing; [apply query_submits_nothing|]. intros a.
  apply bind_submits_nothing; [apply not_null_quiet|]. by intros i.
Qed.

End Ranges.

(** ** Accounts that are missing or too short *)

Section Failures.
Context `{Keys}.

Lemma read_le_length n b p v : read_le n b p = Ok v → (p + n ≤ length b)%nat.
Proof. unfold read_le. by destruct (Nat.leb_spec (p + n) (length b)). Qed.

Lemma parseState_length data s : parseState data = Ok s → (STAKE_POOL_LEN ≤ length data)%nat.
Proof.
  unfold parseState. intros Hr. inv_result Hr. injection Hr as <-.
  by match goal with Hl : readBigUInt64LE data 264 = Ok _ |- _ => apply read_le_length in Hl end.
Qed.

Context {W : Type} `{!Connection W}.

(** Reading the state submits nothing and subscribes only when asked to; for a
    missing or an empty account it returns [null]; for an account shorter than the
    program's record it throws; and otherwise it returns what the bytes say. *)
Theorem readState_cases t setState (c c1 : Client W) a :
  getAccountInfo (publicKey (stakePool t)) (Some singleGossip) c = (Ok a, c1) →
  ∃ r c2, readState t setState c = (r, c2) ∧ sent c2 = sent c ∧
    watched c2 = watched c1 ++ (if setState then [publicKey (stakePool t)] else []) ∧
    match a with
    | None => r = Ok None
    | Some i =>
        if (length (account_data i) =? 0)%nat then r = Ok None
        else if (length (account_data i) <? STAKE_POOL_LEN)%nat then ∃ e, r = Err e
        else r = (s ← parseState (account_data i); mret (Some s))
    end.
Proof.
  intros Ha. unfold readState. erewrite bind_run by done.
  assert (Hq : sent c1 = sent c).
  { pose proof (query_submits_nothing (rpc_getAccountInfo (publicKey (stakePool t)) (Some singleGossip)) c).
    unfold getAccountInfo in Ha. by rewrite Ha in *. }
  set (c2 := if setState then Build_Client (world c1) (sent c1) (watched c1 ++ [publicKey (stakePool t)])
             else c1).
  erewrite (bind_run _ _ c1 tt c2) by (by destruct setState).
  assert (Hc2 : sent c2 = sent c ∧
    watched c2 = watched c1 ++ (if setState then [publicKey (stakePool t)] else [])).
  { unfold c2. destruct setState; [done|]. by rewrite app_nil_r. }
  destruct Hc2 as [Hc2a Hc2b].
  destruct a as [i|]; [|by eexists _, _].
  destruct (length (account_data i) =? 0)%nat; [by eexists _, _|]. rewrite lift_bind.
  destruct (parseState (account_data i)) as [s|e] eqn:Hp.
  - rewrite (proj2 (Nat.ltb_ge _ _)) by (by eapply parseState_length). by eexists _, _.
  - eexists _, _. split_and!; [done|done|done|]. destruct (_ <? _)%nat; [by eexists|done].
Qed.

End Failures.

(** ** On concrete accounts *)

Definition sample_state_of (v : Z) : State :=
  {| version := v; state_owner := sample_key 4; validatorStakeList := sample_key 5;
     creditList := sample_key 6; poolMint := sample_key 7; ownerFeeAccount := sample_key 8;
     state_creditReserve := sample_key 9; tokenProgram := sample_key 10; stakeTotal := 4000000000;
     poolTotal := 3900000000; lastEpochUpdate := 7; state_feeDenominator := 1000;
     state_feeNumerator := 2 ^ 64 - 1 |}.

Lemma parse_serialized_state_witness :
  ∃ data, serialize_stake_pool (alloc 5) (pool_of 254 255 (sample_state_of 1)) (alloc 300) = inr data ∧
          length data = length (alloc 300) ∧ parseState data = Ok (sample_state_of 1).
Proof.
  apply (parse_serialized_state (sample_state_of 1) 254 255 (alloc 5) (alloc 300)).
  - unfold state_in_range, u64_of. simpl. lia.
  - reflexivity.
  - unfold STAKE_POOL_LEN. simpl. lia.
Defined.

Definition sample_info (i bal count : Z) : ValidatorInfo :=
  {| votePubkey := sample_vote i; balance := num_of_Z bal; lastUpdateEpoch := num_of_Z 7;
     stakeCount := count |}.

Lemma parse_serialized_validators_witness :
  ∃ data, serialize_validator_stake_list (λ _, alloc 4)
            {| vsl_version := 1; vsl_validators := [sample_validator 0 (2 ^ 63 + 1) 3; sample_validator 1 0 0] |}
            (alloc VALIDATOR_STAKE_LIST_LEN) = inr data ∧
          parse_validators data = Ok [sample_info 0 (2 ^ 63 + 1) 3; sample_info 1 0 0].
Proof.
  apply (parse_serialized_validators [sample_validator 0 (2 ^ 63 + 1) 3; sample_validator 1 0 0]
           [sample_info 0 (2 ^ 63 + 1) 3; sample_info 1 0 0] 1 (λ _, alloc 4) (alloc VALIDATOR_STAKE_LIST_LEN)).
  - repeat (apply Forall2_cons; split; [split_and!; unfold u64_of; simpl; (done || lia)|]). constructor.
  - done.
  - lia.
  - unfold MAX_VALIDATORS. simpl. lia.
  - by rewrite length_alloc.
Defined.

Definition sample_owed (k a : Z) : Creditor :=
  {| target := sample_key k; cancelAuthority := sample_key (k + 1); creditor_amount := num_of_Z a |}.

Definition sample_credit_record (k a : Z) : CreditRecord :=
  {| cr_sol_target := toBuffer (sample_key k); cr_cancel_authority := toBuffer (sample_key (k + 1));
     cr_token_amount := a |}.

Lemma parse_serialized_creditors_witness :
  ∃ data, serialize_credit_list
            {| cl_version := 1; cl_credits := [sample_credit_record 50 9; sample_credit_record 60 8] |}
            (alloc CREDIT_LIST_LEN) = inr data ∧
          parse_creditors data = Ok [sample_owed 50 9; sample_owed 60 8].
Proof.
  apply (parse_serialized_creditors [sample_credit_record 50 9; sample_credit_record 60 8]
           [sample_owed 50 9; sample_owed 60 8] 1 (alloc CREDIT_LIST_LEN)).
  - repeat (apply Forall2_cons; split; [split_and!; unfold u64_of; simpl; (done || lia)|]). constructor.
  - lia.
  - unfold MAX_CREDIT_RECORDS. simpl length. lia.
  - by rewrite length_alloc.
Defined.

Lemma readState_cases_witness :
  ∃ r c2, readState sample_pool true (sample_client [] [] []) = (r, c2) ∧ sent c2 = [] ∧
    watched c2 = [] ++ [publicKey (stakePool sample_pool)] ∧
    r = (s ← parseState (stake_pool_bytes (alloc 5) sample_pool_state); mret (Some s)).
Proof.
  apply (readState_cases sample_pool true (sample_client [] [] []) (sample_client [] [] [])
    (Some (whole_lamports (owned_account (stake_pool_bytes (alloc 5) sample_pool_state) 1)))).
  reflexivity.
Defined.
