(* ===== verification/Operations.v ===== *)
(** * The client's single-transaction operations (experiment/tenderize.ts)

    Each operation builds one transaction, submits it with the keys that have to
    sign it and waits for it.  The options of the submission and the console
    output are not modelled. *)

From Stdlib Require Import ZArith Lia.
From stdpp Require Import base list strings sets.
From coqutil Require Import Byte.
From S2P Require Import Prelude JsNumber Buffers Web3 Sample Program Instructions SamplePool.
From S2P Require Import Wire Readers.

Open Scope Z_scope.

Section Operations.
Context `{Keys} {W : Type} `{!Connection W}.

(** [transaction.add(await build); await sendAndConfirmTransaction(..., signers)]. *)
Definition send_built (build : result TransactionInstruction) (ss : list Account)
  : M (Client W) unit :=
  ix ← lift build;
  sendAndConfirmTransaction [ix] ss.

Definition stakePoolLength : Z := 1000 + 4 + 32 + 4 + 4 + 32 + 32 + 32 + 8 + 8 + 8 + 2 * 8.
Definition validatorStakeListLength : Z := 60000 + 4 + 4 + 1000 * (32 + 8 + 8).
Definition creditListLength : Z := 5 + 10000 * (32 + 32 + 32).

(** The allocation of one account of the pool. *)
Definition pool_account (t : TenderizeProgram) (k : PublicKey) (len : Z)
  : M (Client W) TransactionInstruction :=
  rent ← getMinimumBalanceForRentExemption len;
  mret (createAccount {| fromPubkey := publicKey (payerAccount t); newAccountPubkey := k;
                         create_lamports := rent; space := len;
                         create_programId := programId t |}).

Definition createStakePool (t : TenderizeProgram) (params : CreateStakePoolParams)
  : M (Client W) unit :=
  pool ← pool_account t (publicKey (stakePool t)) stakePoolLength;
  validators ← pool_account t (publicKey (validatorStakeListAccount t)) validatorStakeListLength;
  credits ← pool_account t (publicKey (creditListAccount t)) creditListLength;
  ix ← lift (createStakePoolInstruction t params);
  sendAndConfirmTransaction [pool; validators; credits; ix]
    [payerAccount t; owner t; stakePool t; validatorStakeListAccount t; creditListAccount t].

Definition addValidator (t : TenderizeProgram) (validator : PublicKey) : M (Client W) unit :=
  send_built (addValidatorInstruction t validator) [payerAccount t; owner t].

Definition removeValidator (t : TenderizeProgram) (validator : PublicKey) : M (Client W) unit :=
  send_built (removeValidatorInstruction t validator) [payerAccount t; owner t].

Definition deposit (t : TenderizeProgram) (params : DepositParams) : M (Client W) unit :=
  send_built (depositInstruction t params) [payerAccount t].

Definition withdraw (t : TenderizeProgram) (params : WithdrawParams) : M (Client W) unit :=
  send_built (withdrawInstruction t params) [payerAccount t].

(** [params.cancelAuthority as Account], pushed to the signers: a value that is
    no account has no secret key to sign with. *)
Definition cancel_account (c : KeyOrAccount) : result Account :=
  match c with IsAccount a => Ok a | IsKey _ => Err TypeError end.

Definition credit (t : TenderizeProgram) (params : CreditParams) : M (Client W) unit :=
  ix ← lift (creditInstruction t params);
  signatures ← (if num_ltb (credit_amount params) (num_of_Z 0)
                then a ← lift (cancel_account (credit_cancelAuthority params));
                     mret [payerAccount t; a]
                else mret [payerAccount t]);
  sendAndConfirmTransaction [ix] signatures.

Definition delegateReserve (t : TenderizeProgram) (validators : list DepositReserveValidatorParam)
  : M (Client W) unit :=
  send_built (delegateReserveInstruction t validators) [payerAccount t; owner t].

Definition mergeStakes (t : TenderizeProgram) (stakePairs : list StakePair) : M (Client W) unit :=
  if (length stakePairs =? 0)%nat then mret tt
  else send_built (mergeStakesInstruction t stakePairs) [payerAccount t].

Definition updateListBalance (t : TenderizeProgram) (validators : list ValidatorInfo)
  : M (Client W) unit :=
  send_built (updateListBalanceInstruction t validators) [payerAccount t].

Definition updatePoolBalance (t : TenderizeProgram) : M (Client W) unit :=
  send_built (updatePoolBalanceInstruction t) [payerAccount t].

Definition updatePool (t : TenderizeProgram) : M (Client W) unit :=
  allValidators ← readValidators t;
  _ ← for_each allValidators (λ validator, updateListBalance t [validator]);
  updatePoolBalance t.

(** ** What an operation submits *)

(** What a run adds to the log satisfies [P]. *)
Definition adds {A} (P : submission → Prop) (m : M (Client W) A) : Prop :=
  ∀ c, ∃ l, sent (snd (m c)) = sent c ++ l ∧ Forall P l.

Lemma quiet_adds {A} P (m : M (Client W) A) : submits_nothing m → adds P m.
Proof. intros Hm c. exists []. by rewrite Hm, app_nil_r. Qed.

Lemma bind_adds_result {A B} P (m : M (Client W) A) (f : A → M (Client W) B) :
  adds P m → (∀ a c c', m c = (Ok a, c') → adds P (f a)) → adds P (m ≫= f).
Proof.
  intros Hm Hf c. unfold mbind, M_bind. destruct (Hm c) as (l & Hl & HP).
  destruct (m c) as [[a|e] c'] eqn:Hc; simpl in *; [|by eauto].
  destruct (Hf a c c' Hc c') as (l' & Hl' & HP'). exists (l ++ l').
  rewrite Hl', Hl, app_assoc, Forall_app. done.
Qed.

Lemma bind_adds {A B} P (m : M (Client W) A) (f : A → M (Client W) B) :
  adds P m → (∀ a, adds P (f a)) → adds P (m ≫= f).
Proof. intros Hm Hf. by apply bind_adds_result. Qed.

Lemma send_adds (P : submission → Prop) tx ss :
  (∀ ok, P {| submitted := tx; signers := ss; confirmed := ok |}) →
  adds P (sendAndConfirmTransaction tx ss : M (Client W) unit).
Proof.
  intros HP c. unfold sendAndConfirmTransaction.
  destruct (rpc_sendAndConfirmTransaction tx ss (world c)) as [r w]. eexists. split; [done|].
  by repeat constructor.
Qed.

Lemma ret_adds {A} P (a : A) : adds P (mret a : M (Client W) A).
Proof. by apply quiet_adds. Qed.

Lemma query_adds {A} P (f : W → result A * W) : adds P (query f).
Proof. apply quiet_adds, query_submits_nothing. Qed.

Lemma lift_bind_adds {A B} P (r : result A) (f : A → M (Client W) B) :
  (∀ a, r = Ok a → adds P (f a)) → adds P (lift r ≫= f).
Proof.
  intros Hf c. rewrite lift_bind. destruct r as [a|e]; [by apply Hf|].
  exists []. by rewrite app_nil_r.
Qed.

Lemma pool_account_adds P t k len : adds P (pool_account t k len).
Proof. apply bind_adds; [apply query_adds|]. intros. apply ret_adds. Qed.

(** What [pool_account] returns. *)
Lemma pool_account_is t k len ix c c' :
  pool_account t k len c = (Ok ix, c') →
  ∃ rent, ix = createAccount {| fromPubkey := publicKey (payerAccount t); newAccountPubkey := k;
                                create_lamports := rent; space := len;
                                create_programId := programId t |}.
Proof. unfold pool_account. intros Hr. inv_bind Hr. injection Hr as <- _. by eexists. Qed.

Lemma send_built_adds (P : submission → Prop) build ss :
  (∀ ix ok, build = Ok ix → P {| submitted := [ix]; signers := ss; confirmed := ok |}) →
  adds P (send_built build ss).
Proof. intros HP. apply lift_bind_adds. intros ix Hix. apply send_adds. auto. Qed.

(** A submission that is confirmed, and what it leaves behind. *)
Lemma send_run tx ss (c c' : Client W) :
  sendAndConfirmTransaction tx ss c = (Ok tt, c') →
  sent c' = sent c ++ [{| submitted := tx; signers := ss; confirmed := true |}] ∧
  watched c' = watched c.
Proof.
  unfold sendAndConfirmTransaction.
  destruct (rpc_sendAndConfirmTransaction tx ss (world c)) as [[[]|e] w]; naive_solver.
Qed.

(** An operation on one instruction submits that instruction or nothing: nothing
    exactly when the instruction cannot be built. *)
Lemma send_built_run build ss (c : Client W) :
  match build with
  | Ok ix => ∃ ok, sent (snd (send_built build ss c)) =
                   sent c ++ [{| submitted := [ix]; signers := ss; confirmed := ok |}] ∧
                   (ok = true ↔ is_ok (fst (send_built build ss c)) = true)
  | Err e => send_built build ss c = (Err e, c)
  end.
Proof.
  unfold send_built. rewrite lift_bind. destruct build as [ix|e]; [|done].
  unfold sendAndConfirmTransaction.
  destruct (rpc_sendAndConfirmTransaction [ix] ss (world c)) as [r w]. simpl. by exists (is_ok r).
Qed.

(** A loop that submits one instruction per element stops at the first transaction
    that is not confirmed: what it submitted is what it built for a prefix, and
    for all of the list if it ends normally. *)
Lemma for_each_send {A} (f : A → result TransactionInstruction) (g : A → TransactionInstruction)
    ss (xs : list A) (c : Client W) :
  (∀ x, x ∈ xs → f x = Ok (g x)) →
  ∃ front back subs,
    xs = front ++ back ∧
    sent (snd (for_each xs (λ x, send_built (f x) ss) c)) = sent c ++ subs ∧
    Forall2 (λ x s, submitted s = [g x] ∧ signers s = ss) front subs ∧
    (fst (for_each xs (λ x, send_built (f x) ss) c) = Ok tt → back = []).
Proof.
  revert c; induction xs as [|x xs IH]; intros c Hf.
  { exists [], [], []. split_and!; [done|by rewrite app_nil_r|constructor|done]. }
  cbn [for_each]. unfold mbind, M_bind.
  pose proof (send_built_run (f x) ss c) as Hx. rewrite (Hf x) in Hx |- * by set_solver.
  destruct Hx as (ok & Hsent & _).
  destruct (send_built (Ok (g x)) ss c) as [[[]|e] c1]; simpl in *.
  - destruct (IH c1) as (front & back & subs & -> & Hs & Hall & Hend); [set_solver|].
    exists (x :: front), back, ({| submitted := [g x]; signers := ss; confirmed := ok |} :: subs).
    split_and!; [done| |by constructor|done]. by rewrite Hs, Hsent, <- app_assoc.
  - exists [x], xs, [{| submitted := [g x]; signers := ss; confirmed := ok |}].
    split_and!; [done|done|by repeat constructor|done].
Qed.

(** The instructions [ixs], in transactions of their own signed by [ss], are submitted
    one after the other: all of them if the run ends normally, and otherwise those up
    to the first that is not confirmed. *)
Definition runs_through (ss : list Account) (ixs : list TransactionInstruction) (r : result unit)
    (new : list submission) : Prop :=
  let sub ok i := {| submitted := [i]; signers := ss; confirmed := ok |} in
  (r = Ok tt ∧ new = sub true <$> ixs) ∨
  (∃ e front i back, r = Err e ∧ ixs = front ++ i :: back ∧ new = (sub true <$> front) ++ [sub false i]).

Definition in_order (ss : list Account) (ixs : list TransactionInstruction) (m : M (Client W) unit) : Prop :=
  ∀ c, ∃ new, sent (snd (m c)) = sent c ++ new ∧ runs_through ss ixs (fst (m c)) new.

(** A submission is recorded, and the call returns if and only if it is confirmed. *)
Lemma send_always tx ss (c : Client W) :
  ∃ ok, sent (snd (sendAndConfirmTransaction tx ss c)) =
          sent c ++ [{| submitted := tx; signers := ss; confirmed := ok |}] ∧
        (ok = true ↔ fst (sendAndConfirmTransaction tx ss c) = Ok tt).
Proof.
  unfold sendAndConfirmTransaction.
  destruct (rpc_sendAndConfirmTransaction tx ss (world c)) as [[[]|e] w]; by eexists.
Qed.

Lemma send_in_order build ss ix : build = Ok ix → in_order ss [ix] (send_built build ss).
Proof.
  intros -> c. unfold send_built. rewrite lift_bind.
  destruct (send_always [ix] ss c) as (ok & Hs & Hok). eexists. split; [exact Hs|].
  destruct (sendAndConfirmTransaction [ix] ss c) as [[[]|e] c']; cbn [fst] in *.
  - left. split; [done|]. by rewrite (proj2 Hok eq_refl).
  - right. exists e, [], ix, []. split_and!; [done|done|]. destruct ok; [|done].
    by pose proof (proj1 Hok eq_refl).
Qed.

Lemma bind_in_order ss ixs ixs' (m m' : M (Client W) unit) :
  in_order ss ixs m → in_order ss ixs' m' → in_order ss (ixs ++ ixs') (_ ← m; m').
Proof.
  intros Hm Hm' c. unfold mbind, M_bind. destruct (Hm c) as (new & Hs & Hr).
  destruct (m c) as [[[]|e] c1]; cbn [fst snd] in *.
  - destruct Hr as [[_ ->]|(? & ? & ? & ? & ? & _)]; [|done].
    destruct (Hm' c1) as (new' & Hs' & Hr'). eexists. rewrite Hs', Hs, <- app_assoc. split; [done|].
    destruct Hr' as [[-> ->]|(e & front & i & back & -> & -> & ->)].
    + left. by rewrite fmap_app.
    + right. exists e, (ixs ++ front), i, back. rewrite fmap_app, <- !app_assoc. by split_and!.
  - destruct Hr as [[? _]|(e' & front & i & back & He & -> & ->)]; [done|]. eexists. split; [exact Hs|].
    right. exists e', front, i, (back ++ ixs'). by rewrite <- app_assoc.
Qed.

Lemma for_each_in_order {A} ss (xs : list A) ixs (body : A → M (Client W) unit) :
  Forall2 (λ x ix, in_order ss [ix] (body x)) xs ixs → in_order ss ixs (for_each xs body).
Proof.
  induction 1 as [|x ix xs ixs Hx _ IH].
  - intros c. exists []. rewrite app_nil_r. split; [done|]. by left.
  - cbn [for_each]. by apply (bind_in_order ss [ix] ixs).
Qed.

(** ** Creation and update of the pool *)

(** The creation of an account of the pool with the given key, size and rent. *)
Definition creates (t : TenderizeProgram) (k : PublicKey) (len : Z) (rent : num) :=
  createAccount {| fromPubkey := publicKey (payerAccount t); newAccountPubkey := k;
                   create_lamports := rent; space := len; create_programId := programId t |}.

Lemma pool_account_answered `{!RentAnswered} t k len (c : Client W) :
  ∃ r c', pool_account t k len c = (Ok (creates t k len r), c') ∧ sent c' = sent c.
Proof.
  unfold pool_account, getMinimumBalanceForRentExemption.
  destruct (rent_answered len (world c)) as (r & w & Hr). exists r. eexists. split.
  - erewrite bind_run; [done|]. unfold query. by rewrite Hr.
  - done.
Qed.

Context `{!KeysLaws} `{!AddressesDerive}.

(** With fees that fit 64 bits and a cluster that tells the rents, creating the pool
    submits exactly one transaction, and returns if and only if it is confirmed: the
    creation of the three accounts, owned by the program and each at least as large
    as what the program stores there, and an instruction the program decodes as the
    initialisation with these fees; signed by the payer, the owner and the three new
    accounts. *)
Theorem createStakePool_submits `{!RentAnswered} t params d n (c : Client W) :
  BigInt (feeDenominator params) = Ok d → u64 d → BigInt (feeNumerator params) = Ok n → u64 n →
  ∃ ix r1 r2 r3 ok,
    createStakePoolInstruction t params = Ok ix ∧
    deserialize_instruction (ix_data ix) = inr (Initialize d n) ∧
    sent (snd (createStakePool t params c)) = sent c ++
      [{| submitted := [creates t (publicKey (stakePool t)) stakePoolLength r1;
                        creates t (publicKey (validatorStakeListAccount t)) validatorStakeListLength r2;
                        creates t (publicKey (creditListAccount t)) creditListLength r3; ix];
          signers := [payerAccount t; owner t; stakePool t; validatorStakeListAccount t;
                      creditListAccount t];
          confirmed := ok |}] ∧
    (ok = true ↔ fst (createStakePool t params c) = Ok tt) ∧
    Z.of_nat STAKE_POOL_LEN <= stakePoolLength ∧
    Z.of_nat VALIDATOR_STAKE_LIST_LEN <= validatorStakeListLength ∧
    Z.of_nat CREDIT_LIST_LEN <= creditListLength.
Proof.
  intros Hd Hd64 Hn Hn64. destruct (createStakePool_wire t params d n Hd Hd64 Hn Hn64) as (ix & Hix & Hw).
  destruct (pool_account_answered t (publicKey (stakePool t)) stakePoolLength c) as (r1 & c1 & E1 & S1).
  destruct (pool_account_answered t (publicKey (validatorStakeListAccount t)) validatorStakeListLength c1)
    as (r2 & c2 & E2 & S2).
  destruct (pool_account_answered t (publicKey (creditListAccount t)) creditListLength c2)
    as (r3 & c3 & E3 & S3).
  unfold createStakePool. erewrite !bind_run by done. rewrite lift_bind, Hix.
  destruct (send_always [creates t (publicKey (stakePool t)) stakePoolLength r1;
      creates t (publicKey (validatorStakeListAccount t)) validatorStakeListLength r2;
      creates t (publicKey (creditListAccount t)) creditListLength r3; ix]
    [payerAccount t; owner t; stakePool t; validatorStakeListAccount t; creditListAccount t] c3)
    as (ok & Hs & Hok).
  exists ix, r1, r2, r3, ok. split_and!; [done|done| |done|by vm_compute..]. rewrite Hs. congruence.
Qed.

Lemma updateList_builds t v :
  0 <= stakeCount v < 2 ^ 32 → ∃ ix, updateListBalanceInstruction t [v] = Ok ix.
Proof.
  intros Hv. unfold updateListBalanceInstruction.
  change (alloc 1) with (alloc (S 0)). rewrite write_tag by lia. cbn [mbind result_bind].
  rewrite getWithdraw_ok, getReserve_ok. cbn [mbind result_bind for_result]. unfold update_item.
  rewrite (map_result_Ok _ (λ i, writable (stake_key t (votePubkey v) i))).
  - cbn [mbind result_bind]. by eexists.
  - intros i Hi%elem_of_seqZ. rewrite getStake_ok by (unfold u32; lia). done.
Qed.

(** Updating the pool, once the validators have been read, submits the update of
    every validator of the list, one transaction each and in the order of the list,
    and then the update of the pool's balance: all of them, or up to the first
    transaction that is rejected, which makes the call fail. *)
Theorem updatePool_order t (c c1 : Client W) vs :
  readValidators t c = (Ok vs, c1) →
  ∃ ixs ix new,
    Forall2 (λ v i, updateListBalanceInstruction t [v] = Ok i) vs ixs ∧
    updatePoolBalanceInstruction t = Ok ix ∧
    sent (snd (updatePool t c)) = sent c ++ new ∧
    runs_through [payerAccount t] (ixs ++ [ix]) (fst (updatePool t c)) new.
Proof.
  intros Hread. pose proof (readValidators_quiet t c) as Hq. rewrite Hread in Hq. cbn [snd] in Hq.
  destruct (readValidators_range _ _ _ _ Hread) as (_ & Hr & _).
  assert (Hixs : ∃ ixs, Forall2 (λ v i, updateListBalanceInstruction t [v] = Ok i) vs ixs).
  { clear Hread. induction Hr as [|v vs Hv _ [ixs IH]]; [by exists []|].
    destruct (updateList_builds t v Hv) as [i Hi]. exists (i :: ixs). by constructor. }
  destruct Hixs as [ixs Hixs].
  assert (Hpool : ∃ ix, updatePoolBalanceInstruction t = Ok ix).
  { unfold updatePoolBalanceInstruction. change (alloc 1) with (alloc (S 0)). rewrite write_tag by lia.
    cbn [mbind result_bind]. rewrite getReserve_ok. by eexists. }
  destruct Hpool as [ix Hix].
  assert (Hall : in_order [payerAccount t] (ixs ++ [ix])
    (_ ← for_each vs (λ validator, updateListBalance t [validator]); updatePoolBalance t)).
  { apply bind_in_order; [|by apply send_in_order]. apply for_each_in_order.
    eapply Forall2_impl; [exact Hixs|]. intros v i Hi. by apply send_in_order. }
  destruct (Hall c1) as (new & Hs & Hrun). exists ixs, ix, new. unfold updatePool.
  erewrite bind_run by done. rewrite <- Hq. by split_and!.
Qed.

End Operations.

(** ** On a concrete pool *)

Definition sample_fees : CreateStakePoolParams :=
  {| feeDenominator := num_of_Z 100; feeNumerator := num_of_Z 1 |}.

Definition empty_client : Client SampleCluster := sample_client [] [] [].

Lemma createStakePool_submits_witness :
  ∃ ix r1 r2 r3 ok,
    createStakePoolInstruction sample_pool sample_fees = Ok ix ∧
    deserialize_instruction (ix_data ix) = inr (Initialize 100 1) ∧
    sent (snd (createStakePool sample_pool sample_fees empty_client)) = [] ++
      [{| submitted := [creates sample_pool (publicKey (stakePool sample_pool)) stakePoolLength r1;
                        creates sample_pool (publicKey (validatorStakeListAccount sample_pool))
                          validatorStakeListLength r2;
                        creates sample_pool (publicKey (creditListAccount sample_pool)) creditListLength r3;
                        ix];
          signers := [payerAccount sample_pool; owner sample_pool; stakePool sample_pool;
                      validatorStakeListAccount sample_pool; creditListAccount sample_pool];
          confirmed := ok |}] ∧
    (ok = true ↔ fst (createStakePool sample_pool sample_fees empty_client) = Ok tt) ∧
    Z.of_nat STAKE_POOL_LEN <= stakePoolLength ∧
    Z.of_nat VALIDATOR_STAKE_LIST_LEN <= validatorStakeListLength ∧
    Z.of_nat CREDIT_LIST_LEN <= creditListLength.
Proof.
  apply (createStakePool_submits sample_pool sample_fees 100 1 empty_client);
    [reflexivity|unfold u64; lia|reflexivity|unfold u64; lia].
Defined.

Definition updated_client : Client SampleCluster :=
  sample_client [sample_validator 0 5 1; sample_validator 1 6 2] [] [].

Lemma updatePool_order_witness :
  ∃ ixs ix new,
    Forall2 (λ v i, updateListBalanceInstruction sample_pool [v] = Ok i)
      [sample_info 0 5 1; sample_info 1 6 2] ixs ∧
    updatePoolBalanceInstruction sample_pool = Ok ix ∧
    sent (snd (updatePool sample_pool updated_client)) = [] ++ new ∧
    runs_through [payerAccount sample_pool] (ixs ++ [ix]) (fst (updatePool sample_pool updated_client)) new.
Proof.
  apply (updatePool_order sample_pool updated_client updated_client); reflexivity.
Defined.
