(* ===== verification/Accounts.v ===== *)
(** * Every message of the client, as the program takes it

    The builders of Instructions.v as one family of requests: whatever the client
    manages to build is decoded by the program, and the accounts it lists are the
    ones the processor takes, in that order and with the privileges it needs. *)

From Stdlib Require Import ZArith Lia.
From stdpp Require Import base list strings sets.
From coqutil Require Import Byte Word.LittleEndianList.
From S2P Require Import Prelude JsNumber Buffers Web3 Sample Program Instructions SamplePool.
From S2P Require Import Wire Readers Operations.

Open Scope Z_scope.

Section Accounts.
Context `{KeysLaws} `{!AddressesDerive}.

(** A call of an instruction builder. *)
Inductive Request :=
  | RCreate (p : CreateStakePoolParams)
  | RAdd (v : PublicKey)
  | RRemove (v : PublicKey)
  | RDeposit (p : DepositParams)
  | RWithdraw (p : WithdrawParams)
  | RCredit (p : CreditParams)
  | RDelegate (vs : list DepositReserveValidatorParam)
  | RMerge (ps : list StakePair)
  | RUnstake (us : list UnstakeItem)
  | RUpdateList (vs : list ValidatorInfo)
  | RUpdatePool.

Definition build (t : TenderizeProgram) (r : Request) : result TransactionInstruction :=
  match r with
  | RCreate p => createStakePoolInstruction t p
  | RAdd v => addValidatorInstruction t v
  | RRemove v => removeValidatorInstruction t v
  | RDeposit p => depositInstruction t p
  | RWithdraw p => withdrawInstruction t p
  | RCredit p => creditInstruction t p
  | RDelegate vs => delegateReserveInstruction t vs
  | RMerge ps => mergeStakesInstruction t ps
  | RUnstake us => unstakeInstruction t us
  | RUpdateList vs => updateListBalanceInstruction t vs
  | RUpdatePool => updatePoolBalanceInstruction t
  end.

(** The batches the program decodes are not empty. *)
Definition nonempty_batch (r : Request) : Prop :=
  match r with
  | RDelegate vs => vs ≠ []
  | RMerge ps => ps ≠ []
  | RUnstake us => us ≠ []
  | _ => True
  end.

(** The account that plays a role in a request. *)
Definition role_key (t : TenderizeProgram) (r : Request) (ro : AccountRole) : option PublicKey :=
  match ro with
  | R_StakePool => Some (publicKey (stakePool t))
  | R_Owner => Some (publicKey (owner t))
  | R_ValidatorStakeList => Some (publicKey (validatorStakeListAccount t))
  | R_CreditList => Some (publicKey (creditListAccount t))
  | R_PoolMint => Some (poolMintToken t)
  | R_OwnerFee => Some (ownersFee t)
  | R_CreditReserve => Some (creditReserve t)
  | R_WithdrawAuthority => Some (withdraw_key t)
  | R_DepositAuthority => Some (deposit_key t)
  | R_Reserve => Some (reserve_key t)
  | R_UserSource => match r with RDeposit p => Some (publicKey (userSource p)) | _ => None end
  | R_UserToken =>
      match r with
      | RDeposit p => Some (userToken p)
      | RWithdraw p => Some (withdraw_userTokenSource p)
      | RCredit p => Some (credit_userTokenSource p)
      | _ => None
      end
  | R_UserSolTarget =>
      match r with
      | RWithdraw p => Some (withdraw_userSolTarget p)
      | RCredit p => Some (credit_userSolTarget p)
      | _ => None
      end
  | R_CancelAuthority =>
      match r with
      | RCredit p => match credit_cancelAuthority p with
                     | IsKey k => Some k
                     | IsAccount a => Some (publicKey a)
                     end
      | _ => None
      end
  | R_ValidatorVote => match r with RAdd v | RRemove v => Some v | _ => None end
  | R_Clock => Some SYSVAR_CLOCK_PUBKEY
  | R_Rent => Some SYSVAR_RENT_PUBKEY
  | R_StakeHistory => Some SYSVAR_STAKE_HISTORY_PUBKEY
  | R_StakeConfig => Some STAKE_CONFIG_ID
  | R_SystemProgram => Some (val SystemProgram_programId)
  | R_StakeProgram => Some StakeProgram_programId
  | R_TokenProgram => Some SPL_TOKEN_PROGRAM_ID
  | R_NewOwner | R_NewOwnerFee | R_Stake | R_StakingKey => None
  end.

(** An entry of [keys] is the account the program expects there, with at least
    the privileges it needs. *)
Definition serves (key_of : AccountRole → option PublicKey) (s : AccountSpec) (m : AccountMeta) : Prop :=
  key_of (role s) = Some (pubkey m) ∧
  (needs_signer s = true → isSigner m = true) ∧ (needs_writable s = true → isWritable m = true).

Definition accounts_served (key_of : AccountRole → option PublicKey) (i : StakePoolInstruction)
    (ix : TransactionInstruction) : Prop :=
  Forall2 (serves key_of) (accounts_of i) (take (length (accounts_of i)) (ix_keys ix)).

(** ** A builder that returns has put every number in its range *)

(** The integer a number converts to. *)
Definition int_of (x : num) : Z := match BigInt x with Ok z => z | Err _ => 0 end.

Lemma int_of_ok x z : BigInt x = Ok z → BigInt x = Ok (int_of x).
Proof. unfold int_of. by intros ->. Qed.

Lemma getStake_range t v i k : getStakeForValidator t v i = Ok k → u32 i.
Proof. intros (? & Hw & _)%result_bind_Ok. by apply write_le_range in Hw. Qed.

Lemma delegate_item_range t st v st' :
  delegate_item t st v = Ok st' →
  BigInt (delegate_amount v) = Ok (int_of (delegate_amount v)) ∧
  u64 (int_of (delegate_amount v)) ∧ u32 (stakeIndex v).
Proof.
  destruct st as [[data p] keys]. unfold delegate_item. intros (a & Ha & Hr)%result_bind_Ok.
  apply result_bind_Ok in Hr as ([d1 p1] & Hw%write_le_range & Hr).
  apply result_bind_Ok in Hr as ([d2 p2] & Hi%write_le_range & _).
  unfold int_of. by rewrite Ha.
Qed.

Lemma merge_item_range t st s st' :
  merge_item t st s = Ok st' → u32 (mainIndex s) ∧ u32 (additionalIndex s).
Proof.
  destruct st as [[data p] keys]. unfold merge_item. destruct (copy_to _ _ _).
  intros ([d1 p1] & Hw%write_le_range & Hr)%result_bind_Ok.
  by apply result_bind_Ok in Hr as ([d2 p2] & Hi%write_le_range & _).
Qed.

Lemma unstake_item_range t st u st' :
  unstake_item t st u = Ok st' → unstake_item_ok (λ u, int_of (num_or_zero (unstake_amount u))) u.
Proof.
  destruct st as [[data p] keys]. unfold unstake_item. destruct (copy_to _ _ _).
  intros ([d1 p1] & Hs%write_le_range & Hr)%result_bind_Ok.
  apply result_bind_Ok in Hr as ([d2 p2] & Hi%write_le_range & Hr).
  apply result_bind_Ok in Hr as (a & Ha & Hr).
  apply result_bind_Ok in Hr as ([d3 p3] & Hw%write_le_range & _).
  unfold unstake_item_ok, int_of. rewrite Ha. split_and!; try done; try (unfold u64; lia).
  intros i Hsp. rewrite Hsp in Hi. simpl in Hi. destruct (Z.eqb_spec i 0); [subst; done|done].
Qed.

(** ** Decoding *)

(** A message of a tag and a 64-bit integer, as far as the program looks at it. *)
Lemma scalar_decodes tag (C : Z → StakePoolInstruction) a d q :
  0 <= tag < 256 →
  writeBigInt64LE ([byte.of_Z tag] ++ alloc 8) a 1 = Ok (d, q) →
  (∀ input, deserialize_instruction (byte.of_Z tag :: input) =
            map_inr C (unpack 8 (λ b, u_at 8 b 0) (byte.of_Z tag :: input))) →
  deserialize_instruction d = inr (C (a mod 2 ^ 64)).
Proof.
  intros Htag Hw Hd. pose proof (write_le_range _ _ _ _ _ _ _ Hw).
  unfold writeBigInt64LE in Hw. rewrite write_le_append in Hw by (done || lia).
  assert (d = [byte.of_Z tag] ++ le_split 8 a) as -> by (rewrite app_nil_r in Hw; congruence).
  rewrite le_split_wrap. by apply deserialize_u64; [apply wrap_u64|..].
Qed.

(** The instruction a request asks for, up to its arguments. *)
Definition kind (r : Request) : StakePoolInstruction :=
  match r with
  | RCreate _ => Initialize 0 0
  | RAdd _ => AddValidator
  | RRemove _ => RemoveValidator
  | RDeposit _ => Deposit 0
  | RWithdraw _ => Withdraw 0
  | RCredit p => if num_leb (num_of_Z 0) (credit_amount p) then Credit 0 else Uncredit 0
  | RDelegate _ => DelegateReserve []
  | RMerge _ => MergeStakes []
  | RUnstake _ => Unstake []
  | RUpdateList _ => UpdateListBalance
  | RUpdatePool => UpdatePoolBalance
  end.

Lemma credit_decodes t p ix :
  creditInstruction t p = Ok ix →
  ∃ i, deserialize_instruction (ix_data ix) = inr i ∧ accounts_of i = accounts_of (kind (RCredit p)).
Proof.
  unfold creditInstruction. cbn [kind]. set (nn := num_leb _ _). intros Hr.
  rewrite write_tag in Hr by (destruct nn; lia). cbn [mbind result_bind] in Hr.
  apply result_bind_Ok in Hr as (a & _ & Hr). apply result_bind_Ok in Hr as ([d q] & Hw & Hr).
  rewrite getWithdraw_ok in Hr. cbn [mbind result_bind] in Hr.
  apply result_bind_Ok in Hr as (k & _ & [= <-]). cbn [ix_data].
  exists (if nn then Credit (a mod 2 ^ 64) else Uncredit (a mod 2 ^ 64)).
  split; [|by destruct nn]. by destruct nn; eapply scalar_decodes in Hw.
Qed.

Lemma list_request_ok {A} size (xs : list A) tag (rest : buffer * nat → result TransactionInstruction) ix :
  0 <= tag < 256 →
  ('(data, p) ← writeUInt8 (alloc (1 + 4 + size)) tag 0;
   '(data, p) ← writeUInt32LE data (Z.of_nat (length xs)) p; rest (data, p)) = Ok ix →
  u32 (Z.of_nat (length xs)) ∧ ∃ st, rest st = Ok ix.
Proof.
  intros Htag Hr. change (1 + 4 + size)%nat with (S (4 + size)) in Hr.
  rewrite write_tag in Hr by done. cbn [mbind result_bind] in Hr.
  apply result_bind_Ok in Hr as ([d q] & Hw%write_le_range & Hr). split; [done|]. by exists (d, q).
Qed.

Lemma delegate_request_decodes t vs ix :
  delegateReserveInstruction t vs = Ok ix → vs ≠ [] →
  ∃ i, deserialize_instruction (ix_data ix) = inr i ∧ accounts_of i = accounts_of (kind (RDelegate vs)).
Proof.
  intros Hb Hne. pose proof Hb as Hb'.
  apply (list_request_ok _ vs 12 (λ '(data, p), _)) in Hb' as [Hlen [[d q] Hr]]; [|lia].
  rewrite getWithdraw_ok, getDeposit_ok, getReserve_ok in Hr. cbn [mbind result_bind] in Hr.
  apply result_bind_Ok in Hr as (st & Hloop & _).
  edestruct (delegate_wire t vs (λ v, int_of (delegate_amount v))) as (ix' & Hix & Hdec & _);
    [|done|done|].
  { intros v Hv. destruct (for_result_turn _ _ _ _ v Hloop Hv) as (? & ? & Hi).
    by apply delegate_item_range in Hi. }
  rewrite Hix in Hb. simplify_eq. by eexists.
Qed.

Lemma merge_request_decodes t ps ix :
  mergeStakesInstruction t ps = Ok ix → ps ≠ [] →
  ∃ i, deserialize_instruction (ix_data ix) = inr i ∧ accounts_of i = accounts_of (kind (RMerge ps)).
Proof.
  intros Hb Hne. pose proof Hb as Hb'.
  apply (list_request_ok _ ps 13 (λ '(data, p), _)) in Hb' as [Hlen [[d q] Hr]]; [|lia].
  rewrite getDeposit_ok in Hr. cbn [mbind result_bind] in Hr.
  apply result_bind_Ok in Hr as (st & Hloop & _).
  edestruct (merge_wire t ps) as (ix' & Hix & Hdec & _); [|done|done|].
  { intros v Hv. destruct (for_result_turn _ _ _ _ v Hloop Hv) as (? & ? & Hi).
    by apply merge_item_range in Hi. }
  rewrite Hix in Hb. simplify_eq. by eexists.
Qed.

Lemma unstake_request_decodes t us ix :
  unstakeInstruction t us = Ok ix → us ≠ [] →
  ∃ i, deserialize_instruction (ix_data ix) = inr i ∧ accounts_of i = accounts_of (kind (RUnstake us)).
Proof.
  intros Hb Hne. pose proof Hb as Hb'.
  apply (list_request_ok _ us 14 (λ '(data, p), _)) in Hb' as [Hlen [[d q] Hr]]; [|lia].
  rewrite getDeposit_ok in Hr. cbn [mbind result_bind] in Hr.
  apply result_bind_Ok in Hr as (st & Hloop & _).
  edestruct (unstake_wire t us (λ u, int_of (num_or_zero (unstake_amount u))))
    as (ix' & Hix & Hdec & _); [|done|done|].
  { intros v Hv. destruct (for_result_turn _ _ _ _ v Hloop Hv) as (? & ? & Hi).
    by apply unstake_item_range in Hi. }
  rewrite Hix in Hb. simplify_eq. by eexists.
Qed.

Lemma request_decodes t r ix :
  build t r = Ok ix → nonempty_batch r →
  ∃ i, deserialize_instruction (ix_data ix) = inr i ∧ accounts_of i = accounts_of (kind r).
Proof.
  intros Hb Hne. destruct r as [p|v|v|p|p|p|vs|ps|us|vs|]; simpl build in Hb; simpl in Hne.
  - pose proof Hb as Hr. unfold createStakePoolInstruction in Hr.
    apply result_bind_Ok in Hr as ([d1 q1] & _ & Hr).
    apply result_bind_Ok in Hr as (den & Hden & Hr).
    apply result_bind_Ok in Hr as ([d2 q2] & Hw1%write_le_range & Hr).
    apply result_bind_Ok in Hr as (nm & Hnm & Hr).
    apply result_bind_Ok in Hr as ([d3 q3] & Hw2%write_le_range & _).
    edestruct (createStakePool_wire t p den nm) as (ix' & Hix & Hdec); [done..|].
    rewrite Hix in Hb. simplify_eq. by eexists.
  - cbv in Hb. simplify_eq. by exists AddValidator.
  - cbv in Hb. simplify_eq. by exists RemoveValidator.
  - unfold depositInstruction in Hb. rewrite write_tag in Hb by lia. cbn [mbind result_bind] in Hb.
    rewrite getWithdraw_ok, getReserve_ok in Hb. inv_result Hb. injection Hb as <-.
    eapply (scalar_decodes 6 Deposit) in E0; [by eexists|lia|done].
  - unfold withdrawInstruction in Hb. rewrite write_tag in Hb by lia. cbn [mbind result_bind] in Hb.
    rewrite getWithdraw_ok, getReserve_ok in Hb. inv_result Hb. injection Hb as <-.
    eapply (scalar_decodes 7 Withdraw) in E0; [by eexists|lia|done].
  - by apply credit_decodes in Hb.
  - by apply delegate_request_decodes in Hb.
  - by apply merge_request_decodes in Hb.
  - by apply unstake_request_decodes in Hb.
  - unfold updateListBalanceInstruction in Hb. rewrite write_tag in Hb by lia.
    cbn [mbind result_bind] in Hb. rewrite getWithdraw_ok, getReserve_ok in Hb.
    cbn [mbind result_bind] in Hb. apply result_bind_Ok in Hb as (ks & _ & [= <-]).
    by exists UpdateListBalance.
  - unfold updatePoolBalanceInstruction in Hb. rewrite write_tag in Hb by lia.
    cbn [mbind result_bind] in Hb. rewrite getReserve_ok in Hb. injection Hb as <-.
    by exists UpdatePoolBalance.
Qed.

(** ** The fixed accounts *)

(** A loop that only appends to its list of accounts keeps what was there. *)
Lemma for_result_prefix {A B C} (g : B → list C) (xs : list A) b b' f :
  (∀ b1 x b2, f b1 x = Ok b2 → g b1 `prefix_of` g b2) →
  for_result xs b f = Ok b' → g b `prefix_of` g b'.
Proof.
  intros Hf. revert b; induction xs as [|x xs IH]; intros b Hr.
  { by injection Hr as ->. }
  apply result_bind_Ok in Hr as (b1 & Hx & Hr). etrans; [by eapply Hf|by eapply IH].
Qed.

Lemma delegate_item_prefix t st v st' : delegate_item t st v = Ok st' → snd st `prefix_of` snd st'.
Proof.
  destruct st as [[data p] keys]. unfold delegate_item. intros Hr. inv_result Hr.
  injection Hr as <-. apply prefix_app_r. done.
Qed.

Lemma merge_item_prefix t st s st' : merge_item t st s = Ok st' → snd st `prefix_of` snd st'.
Proof.
  destruct st as [[data p] keys]. unfold merge_item. destruct (copy_to _ _ _). intros Hr. inv_result Hr.
  injection Hr as <-. apply prefix_app_r. done.
Qed.

Lemma unstake_item_prefix t st u st' : unstake_item t st u = Ok st' → snd st `prefix_of` snd st'.
Proof.
  destruct st as [[data p] keys]. unfold unstake_item. destruct (copy_to _ _ _). intros Hr.
  inv_result Hr. destruct (splitIndex u) as [i|]; [destruct (index_truthy _)|]; inv_result Hr;
    injection Hr as <-; simpl; rewrite <- ?app_assoc; apply prefix_app_r; done.
Qed.

Lemma update_item_prefix t ks v ks' : update_item t ks v = Ok ks' → ks `prefix_of` ks'.
Proof.
  unfold update_item. intros Hr. apply result_bind_Ok in Hr as (? & _ & Hr). injection Hr as <-.
  by apply prefix_app_r.
Qed.

Lemma served_prefix key_of specs base (ks : list AccountMeta) :
  base `prefix_of` ks → length base = length specs → Forall2 (serves key_of) specs base →
  Forall2 (serves key_of) specs (take (length specs) ks).
Proof. intros [l ->] <-. by rewrite take_app_length. Qed.

Ltac serve := repeat constructor; try done.

Lemma fixed_accounts t r ix :
  build t r = Ok ix → accounts_served (role_key t r) (kind r) ix.
Proof.
  intros Hb. unfold accounts_served.
  destruct r as [p|v|v|p|p|p|vs|ps|us|vs|]; simpl build in Hb.
  - unfold createStakePoolInstruction in Hb. inv_result Hb. injection Hb as <-. simplify_eq. serve.
  - cbv in Hb. injection Hb as <-. serve.
  - cbv in Hb. injection Hb as <-. serve.
  - unfold depositInstruction in Hb. rewrite getWithdraw_ok, getReserve_ok in Hb.
    inv_result Hb. injection Hb as <-. simplify_eq. serve.
  - unfold withdrawInstruction in Hb. rewrite getWithdraw_ok, getReserve_ok in Hb.
    inv_result Hb. injection Hb as <-. simplify_eq. serve.
  - unfold creditInstruction in Hb. rewrite getWithdraw_ok in Hb. cbn [kind].
    apply result_bind_Ok in Hb as ([d q] & _ & Hb).
    apply result_bind_Ok in Hb as (a & Ha%sign_cases & Hb). rewrite Ha in Hb.
    destruct (num_leb _ _), (credit_cancelAuthority p) eqn:Hc; cbn [cancel_key] in Hb;
      inv_result Hb; simplify_eq; injection Hb as <-; serve; simpl; by rewrite Hc.
  - unfold delegateReserveInstruction in Hb. inv_result Hb.
    rewrite getWithdraw_ok in E1. rewrite getDeposit_ok in E2. rewrite getReserve_ok in E3.
    simplify_eq. apply (for_result_prefix snd) in E4; [|apply delegate_item_prefix].
    injection Hb as <-. eapply served_prefix; [done|done|]. serve.
  - unfold mergeStakesInstruction in Hb. inv_result Hb. rewrite getDeposit_ok in E1.
    simplify_eq. apply (for_result_prefix snd) in E2; [|apply merge_item_prefix].
    injection Hb as <-. eapply served_prefix; [done|done|]. serve.
  - unfold unstakeInstruction in Hb. inv_result Hb. rewrite getDeposit_ok in E1.
    simplify_eq. apply (for_result_prefix snd) in E2; [|apply unstake_item_prefix].
    injection Hb as <-. eapply served_prefix; [done|done|]. serve.
  - unfold updateListBalanceInstruction in Hb. inv_result Hb.
    rewrite getWithdraw_ok in E0. rewrite getReserve_ok in E1.
    simplify_eq. apply (for_result_prefix (λ x, x)) in E2; [|apply update_item_prefix].
    injection Hb as <-. eapply served_prefix; [done|done|]. serve.
  - unfold updatePoolBalanceInstruction in Hb. rewrite getReserve_ok in Hb.
    inv_result Hb. injection Hb as <-. simplify_eq. serve.
Qed.


(** An empty batch, which the client never sends, would abort the program. *)
Lemma empty_batch_panics t ix :
  build t (RDelegate []) = Ok ix → deserialize_instruction (ix_data ix) = inl Panicked.
Proof.
  simpl. unfold delegateReserveInstruction. rewrite getWithdraw_ok, getDeposit_ok, getReserve_ok.
  intros Hb. inv_result Hb. injection Hb as <-. cbv in E. simplify_eq. cbv in E0. simplify_eq.
  injection E4 as <- _ _. done.
Qed.

(** ** Signatures *)

(** The accounts that have to sign are among the signers. *)
Definition signs (ks : list PublicKey) (keys : list AccountMeta) : Prop :=
  Forall (λ m, isSigner m = true → pubkey m ∈ ks) keys.

Definition fully_signed (s : submission) : Prop :=
  Forall (λ ix, signs (publicKey <$> signers s) (ix_keys ix)) (submitted s).

Lemma signs_app ks l l' : signs ks (l ++ l') ↔ signs ks l ∧ signs ks l'.
Proof. apply Forall_app. Qed.

Lemma signs_unsigned ks l : Forall (λ m, isSigner m = false) l → signs ks l.
Proof. intros Hl. eapply Forall_impl; [done|]. simpl. congruence. Qed.

Lemma delegate_item_signs ks t st v st' :
  signs ks (snd st) → delegate_item t st v = Ok st' → signs ks (snd st').
Proof.
  destruct st as [[data p] keys]. unfold delegate_item. intros Hs Hr. inv_result Hr.
  injection Hr as <-. apply signs_app. split; [done|]. apply signs_unsigned. repeat constructor.
Qed.

Lemma merge_item_signs ks t st s st' :
  signs ks (snd st) → merge_item t st s = Ok st' → signs ks (snd st').
Proof.
  destruct st as [[data p] keys]. unfold merge_item. destruct (copy_to _ _ _). intros Hs Hr.
  inv_result Hr. injection Hr as <-. apply signs_app. split; [done|].
  apply signs_unsigned. repeat constructor.
Qed.

Lemma unstake_item_signs ks t st u st' :
  signs ks (snd st) → unstake_item t st u = Ok st' → signs ks (snd st').
Proof.
  destruct st as [[data p] keys]. unfold unstake_item. destruct (copy_to _ _ _). intros Hs Hr.
  inv_result Hr. destruct (splitIndex u) as [i|]; [destruct (index_truthy _)|]; inv_result Hr;
    injection Hr as <-; simpl; rewrite <- ?app_assoc; apply signs_app; split; try done;
    apply signs_unsigned; repeat constructor.
Qed.

Lemma update_item_signs ks t keys v keys' :
  signs ks keys → update_item t keys v = Ok keys' → signs ks keys'.
Proof.
  unfold update_item. intros Hs Hr. apply result_bind_Ok in Hr as (stakes & Hst & Hr).
  injection Hr as <-. apply signs_app. split; [done|]. apply signs_unsigned. constructor; [done|].
  revert stakes Hst. induction (seqZ 0 (stakeCount v)) as [|i l IH]; intros stakes Hst.
  { injection Hst as <-. constructor. }
  simpl in Hst. apply result_bind_Ok in Hst as (m & Hm & Hst).
  apply result_bind_Ok in Hst as (ms & Hms & Hst). injection Hst as <-.
  apply result_bind_Ok in Hm as (k & _ & Hm). injection Hm as <-. constructor; [done|by apply IH].
Qed.

(** The accounts that sign the transaction of a request. *)
Definition signers_of (t : TenderizeProgram) (r : Request) : list Account :=
  match r with
  | RCreate _ =>
      [payerAccount t; owner t; stakePool t; validatorStakeListAccount t; creditListAccount t]
  | RAdd _ | RRemove _ | RDelegate _ | RUnstake _ => [payerAccount t; owner t]
  | RCredit p =>
      match credit_cancelAuthority p with
      | IsAccount a => if num_ltb (credit_amount p) (num_of_Z 0) then [payerAccount t; a]
                       else [payerAccount t]
      | IsKey _ => [payerAccount t]
      end
  | _ => [payerAccount t]
  end.

(** A deposit is paid by the account that pays for the transaction. *)
Definition payer_deposits (t : TenderizeProgram) (r : Request) : Prop :=
  match r with RDeposit p => publicKey (userSource p) = publicKey (payerAccount t) | _ => True end.

Ltac sign := repeat (constructor; [simpl; intros; (set_solver || congruence)|]); try constructor.

Lemma built_signed t r ix :
  build t r = Ok ix → payer_deposits t r → signs (publicKey <$> signers_of t r) (ix_keys ix).
Proof.
  intros Hb Hp. destruct r as [p|v|v|p|p|p|vs|ps|us|vs|]; simpl build in Hb; simpl in Hp.
  - unfold createStakePoolInstruction in Hb. inv_result Hb. injection Hb as <-. sign.
  - cbv in Hb. injection Hb as <-. sign.
  - cbv in Hb. injection Hb as <-. sign.
  - unfold depositInstruction in Hb. inv_result Hb. injection Hb as <-. sign.
  - unfold withdrawInstruction in Hb. inv_result Hb. injection Hb as <-. sign.
  - unfold creditInstruction in Hb.
    apply result_bind_Ok in Hb as ([d q] & _ & Hb).
    apply result_bind_Ok in Hb as (a & Ha%sign_cases & Hb). cbn [signers_of]. rewrite Ha in *.
    destruct (num_leb _ _), (credit_cancelAuthority p) eqn:Hc; cbn [cancel_key] in Hb;
      inv_result Hb; simplify_eq; injection Hb as <-; sign.
  - unfold delegateReserveInstruction in Hb. inv_result Hb. injection Hb as <-.
    eapply (for_result_inv (λ st, signs _ (snd st))) in E4; [done| |apply delegate_item_signs]. sign.
  - unfold mergeStakesInstruction in Hb. inv_result Hb. injection Hb as <-.
    eapply (for_result_inv (λ st, signs _ (snd st))) in E2; [done| |apply merge_item_signs]. sign.
  - unfold unstakeInstruction in Hb. inv_result Hb. injection Hb as <-.
    eapply (for_result_inv (λ st, signs _ (snd st))) in E2; [done| |apply unstake_item_signs]. sign.
  - unfold updateListBalanceInstruction in Hb. inv_result Hb. injection Hb as <-.
    eapply (for_result_inv (signs _)) in E2; [done| |apply update_item_signs]. sign.
  - unfold updatePoolBalanceInstruction in Hb. inv_result Hb. injection Hb as <-. sign.
Qed.

Context {W : Type} `{!Connection W} `{!SystemProgramLaws}.

(** The operation of a request. *)
Definition perform (t : TenderizeProgram) (r : Request) : M (Client W) unit :=
  match r with
  | RCreate p => createStakePool t p
  | RAdd v => addValidator t v
  | RRemove v => removeValidator t v
  | RDeposit p => deposit t p
  | RWithdraw p => withdraw t p
  | RCredit p => credit t p
  | RDelegate vs => delegateReserve t vs
  | RMerge ps => mergeStakes t ps
  | RUnstake us => send_built (unstakeInstruction t us) [payerAccount t; owner t]
  | RUpdateList vs => updateListBalance t vs
  | RUpdatePool => updatePoolBalance t
  end.


(** A credit request for a nonnegative amount submits that credit, signed by the
    payer alone; one for a negative amount submits the cancellation of the absolute
    amount, in which the cancel authority is marked as a signer and signs. *)
Theorem credit_submits t params a (c : Client W) :
  credit_amount params = num_of_Z a → safe a →
  (if 0 <=? a then ∃ k, credit_cancelAuthority params = IsKey k
   else ∃ x, credit_cancelAuthority params = IsAccount x) →
  ∃ ix k ss ok,
    sent (snd (credit t params c)) =
      sent c ++ [{| submitted := [ix]; signers := ss; confirmed := ok |}] ∧
    deserialize_instruction (ix_data ix) = inr (if 0 <=? a then Credit a else Uncredit (- a)) ∧
    ix_keys ix !! 6%nat = Some (meta k (a <? 0) false) ∧
    ss = payerAccount t ::
           match credit_cancelAuthority params with IsAccount x => [x] | IsKey _ => [] end ∧
    k = match credit_cancelAuthority params with IsAccount x => publicKey x | IsKey k => k end.
Proof.
  intros Ha Hs Hc. destruct (credit_message t params a Ha Hs Hc) as (ix & k & Hix & Hk & Hd & H6).
  unfold credit. rewrite lift_bind, Hix, Ha, num_ltb_exact by (done || safe_lia).
  destruct (Z.leb_spec 0 a); destruct Hc as [x Hx]; rewrite Hx in *; simpl in Hk; simplify_eq.
  - rewrite (proj2 (Z.ltb_ge _ _)) in * by lia. rewrite ret_bind. unfold sendAndConfirmTransaction.
    destruct (rpc_sendAndConfirmTransaction _ _ _) as [r w]. eexists ix, _, _, _. by split_and!.
  - rewrite (proj2 (Z.ltb_lt _ _)) in * by lia. unfold cancel_account.
    erewrite bind_run by done. unfold sendAndConfirmTransaction.
    destruct (rpc_sendAndConfirmTransaction _ _ _) as [r w]. eexists ix, _, _, _. by split_and!.
Qed.

End Accounts.

(** ** On a concrete pool *)

Definition sample_deposit_ix : TransactionInstruction :=
  match depositInstruction sample_pool (sample_deposit 5) with
  | Ok ix => ix
  | Err _ => {| ix_keys := []; ix_programId := programId sample_pool; ix_data := [] |}
  end.



Lemma credit_submits_witness :
  ∃ ix k ss ok,
    sent (snd (credit sample_pool (sample_credit (-9) (IsAccount (sample_account 32))) empty_client)) =
      [] ++ [{| submitted := [ix]; signers := ss; confirmed := ok |}] ∧
    deserialize_instruction (ix_data ix) = inr (Uncredit 9) ∧
    ix_keys ix !! 6%nat = Some (meta k true false) ∧
    ss = [payerAccount sample_pool; sample_account 32] ∧ k = publicKey (sample_account 32).
Proof.
  apply (credit_submits sample_pool (sample_credit (-9) (IsAccount (sample_account 32))) (-9) empty_client);
    [reflexivity|unfold safe; lia|]. by eexists.
Defined.
