(* ===== verification/Delegation.v ===== *)
(** * Delegating the reserve over the validators (experiment/tenderize.ts)

    [delegateReserveBatch] fills every validator up to a common target, in list
    order, until the amount is spent.  The code works on floating-point numbers
    and asks the cluster about stake accounts between the steps; [plan] is the
    same distribution on integers and without the cluster. *)

From Stdlib Require Import ZArith Lia.
From stdpp Require Import base list strings sets.
From coqutil Require Import Byte.
From S2P Require Import Prelude JsNumber Buffers Web3 Sample Program Instructions SamplePool.
From S2P Require Import Wire Readers Operations.

Open Scope Z_scope.

Section Delegation.
Context `{Keys} {W : Type} `{!Connection W} `{!Lodash}.

(** [!stakeAccount || stakeAccount.owner == SystemProgram.programId]. *)
Definition is_free (a : option AccountInfo) : bool :=
  match a with None => true | Some i => same_object (account_owner i) SystemProgram_programId end.

(** The loop that looks for a slot without a stake. *)
Definition free_index (t : TenderizeProgram) (validator : ValidatorInfo) : M (Client W) Z :=
  for_of (seqZ 0 (stakeCount validator)) (stakeCount validator) (λ firstFreeIndex index,
    stakeAddress ← lift (getStakeForValidator t (votePubkey validator) index);
    stakeAccount ← getAccountInfo stakeAddress None;
    mret (Continue (if is_free stakeAccount then index else firstFreeIndex))).

(** The loop that looks for a stake that began to activate in this epoch; a stake
    the cluster cannot report on is skipped. *)
Definition activating_index (t : TenderizeProgram) (validator : ValidatorInfo) : M (Client W) Z :=
  for_of (seqZ 0 (stakeCount validator)) (-1) (λ currentEpochStakeIndex index,
    stakeAddress ← lift (getStakeForValidator t (votePubkey validator) index);
    catch (stakeData ← getStakeActivation stakeAddress (Some singleGossip);
           if bool_decide (activation_state stakeData = activating_)
              && num_eqb (activation_active stakeData) (num_of_Z 0)
           then mret (Break index) else mret (Continue currentEpochStakeIndex))
          (λ _, mret (Continue currentEpochStakeIndex))).

(** One turn of the loop over the validators: the variables are [amountLeft] and
    [instructions]. *)
Definition delegate_turn (t : TenderizeProgram) (targetAmount : num)
    (st : num * list DepositReserveValidatorParam) (validator : ValidatorInfo)
  : M (Client W) (step (num * list DepositReserveValidatorParam)) :=
  let '(amountLeft, instructions) := st in
  if num_ltb amountLeft (num_of_Z 1) then mret (Break (amountLeft, instructions))
  else if num_leb targetAmount (balance validator) then mret (Continue (amountLeft, instructions))
  else
    let delegateAmount := Math_min (num_sub targetAmount (balance validator)) amountLeft in
    let amountLeft := num_sub amountLeft delegateAmount in
    let '(delegateAmount, amountLeft) :=
      if num_ltb amountLeft MIN_STAKE_ACCOUNT_BALANCE
      then (num_add delegateAmount amountLeft, num_of_Z 0) else (delegateAmount, amountLeft) in
    let instruction i := {| address := votePubkey validator; delegate_amount := delegateAmount;
                            stakeIndex := i |} in
    currentEpochStakeIndex ← activating_index t validator;
    if 0 <=? currentEpochStakeIndex then
      _ ← lift (getStakeForValidator t (votePubkey validator) currentEpochStakeIndex);
      mret (Continue (amountLeft, instructions ++ [instruction currentEpochStakeIndex]))
    else
      firstFreeIndex ← free_index t validator;
      _ ← lift (getStakeForValidator t (votePubkey validator) firstFreeIndex);
      mret (Continue (amountLeft, instructions ++ [instruction firstFreeIndex])).

Definition delegateReserveBatch (t : TenderizeProgram) (totalAmount : num) : M (Client W) unit :=
  if num_ltb totalAmount MIN_STAKE_ACCOUNT_BALANCE
  then throw (JsError "Too low delegation" [])
  else
    validators ← readValidators t;
    if (length validators =? 0)%nat then throw (JsError "No validator added" [])
    else
      let stakeTotal := foldl num_add (num_of_Z 0) (balance <$> validators) in
      let targetAmount := Math_ceil (num_div (num_add stakeTotal totalAmount)
                                             (num_of_Z (Z.of_nat (length validators)))) in
      '(amountLeft, instructions) ←
        for_of validators (totalAmount, []) (delegate_turn t targetAmount);
      if num_ltb (num_of_Z 0) amountLeft then throw (JsError "Left" [ANum amountLeft])
      else for_each (chunk instructions 4) (delegateReserve t).

End Delegation.

(** ** The distribution on integers *)

Definition MIN_STAKE : Z := 1000000000.

(** What a validator with balance [b] gets of [left] and what is left after it. *)
Definition share (target left b : Z) : Z * Z :=
  let d := Z.min (target - b) left in
  let left' := left - d in
  if left' <? MIN_STAKE then (d + left', 0) else (d, left').

(** The amount for every validator, 0 for the ones that get nothing. *)
Fixpoint plan (target left : Z) (bals : list Z) : list Z * Z :=
  match bals with
  | [] => ([], left)
  | b :: bs =>
      if left <? 1 then (replicate (length bals) 0, left)
      else if target <=? b then let '(amounts, l) := plan target left bs in (0 :: amounts, l)
      else let '(d, left') := share target left b in
           let '(amounts, l) := plan target left' bs in (d :: amounts, l)
  end.

Definition plan_amounts (target left : Z) (bals : list Z) : list Z := (plan target left bals).1.

Lemma share_spec target left b d l :
  share target left b = (d, l) → 0 < left → b < target →
  0 < d ∧ 0 <= l ∧ d + l = left ∧ b + d < target + MIN_STAKE ∧ (l ≠ 0 → b + d = target).
Proof.
  unfold share, MIN_STAKE. intros Hs Hl Hb. destruct (Z.ltb_spec (left - Z.min (target - b) left) 1000000000);
    simplify_eq; lia.
Qed.

(** Nothing is lost: what is planned and what is left add up. *)
Lemma plan_conserves target left bals :
  sum_list_Z (plan target left bals).1 + (plan target left bals).2 = left.
Proof.
  revert left; induction bals as [|b bs IH]; intros left; simpl; [lia|].
  destruct (Z.ltb_spec left 1) as [Hl|Hl].
  { simpl. assert (∀ n, sum_list_Z (replicate n 0) = 0) as -> by (intros n; induction n; simpl; lia). lia. }
  destruct (Z.leb_spec target b) as [Hb|Hb].
  { specialize (IH left). destruct (plan target left bs). simpl in *. lia. }
  destruct (share target left b) as [d l] eqn:Hs. specialize (IH l).
  destruct (plan target l bs) as [amounts l']. simpl in *.
  destruct (share_spec _ _ _ _ _ Hs) as (? & ? & ? & _); lia.
Qed.

Lemma length_plan target left bals : length (plan target left bals).1 = length bals.
Proof.
  revert left; induction bals as [|b bs IH]; intros left; [done|]. simpl.
  destruct (left <? 1); [simpl; by rewrite length_replicate|].
  destruct (target <=? b); [specialize (IH left)|].
  - by destruct (plan target left bs); simpl in *; rewrite IH.
  - destruct (share target left b) as [d l]. specialize (IH l).
    by destruct (plan target l bs); simpl in *; rewrite IH.
Qed.

(** Nobody is pushed above the target by a minimal stake or more. *)
Lemma plan_bounds target left bals :
  0 <= left →
  Forall2 (λ b a, a = 0 ∨ (0 < a ∧ b < target ∧ b + a < target + MIN_STAKE)) bals
          (plan target left bals).1.
Proof.
  revert left; induction bals as [|b bs IH]; intros left Hleft; simpl; [constructor|].
  destruct (Z.ltb_spec left 1) as [Hl|Hl].
  { cbn [fst]. change (0 :: replicate (length bs) 0) with (replicate (length (b :: bs)) 0).
    clear. induction (b :: bs) as [|x l IHl]; constructor; auto. }
  destruct (Z.leb_spec target b) as [Hb|Hb].
  { specialize (IH left Hleft). destruct (plan target left bs). constructor; auto. }
  destruct (share target left b) as [d l] eqn:Hs.
  destruct (share_spec _ _ _ _ _ Hs) as (? & ? & ? & ? & _); [lia..|].
  specialize (IH l ltac:(lia)). destruct (plan target l bs). constructor; auto.
Qed.

(** Everything is spent when the target leaves room for it. *)
Lemma plan_spends target left bals :
  0 <= left → sum_list_Z bals + left <= target * Z.of_nat (length bals) →
  (plan target left bals).2 = 0.
Proof.
  intros Hleft Hroom.
  assert (Hk : ∀ bs left, 0 <= left →
    0 <= (plan target left bs).2 ∧
    ((plan target left bs).2 ≠ 0 →
     target * Z.of_nat (length bs) + (plan target left bs).2 <= sum_list_Z bs + left)).
  { clear. induction bs as [|b bs IH]; intros left Hleft; simpl length; simpl plan; [simpl; lia|].
    destruct (Z.ltb_spec left 1) as [Hl|Hl]; [simpl; lia|].
    destruct (Z.leb_spec target b) as [Hb|Hb].
    { specialize (IH left Hleft). destruct (plan target left bs) as [amounts l']. simpl in *. lia. }
    destruct (share target left b) as [d l] eqn:Hs.
    destruct (share_spec _ _ _ _ _ Hs) as (? & ? & ? & ? & Hne); [lia..|].
    specialize (IH l ltac:(lia)).
    assert (l = 0 → (plan target l bs).2 = 0) by (intros ->; destruct bs; done).
    destruct (plan target l bs) as [amounts l']. simpl in *. lia. }
  destruct (Hk bals left Hleft) as [? Hne].
  destruct (Z.eq_dec (plan target left bals).2 0) as [|Hn]; [done|]. specialize (Hne Hn). lia.
Qed.

(** ** The code carries out the plan *)

(** The instructions for a planned distribution: one for every validator that gets
    something, into one of its slots or the next one. *)
Inductive planned `{Keys} :
    list ValidatorInfo → list Z → list DepositReserveValidatorParam → Prop :=
  | planned_nil : planned [] [] []
  | planned_skip v vs amounts ins :
      planned vs amounts ins → planned (v :: vs) (0 :: amounts) ins
  | planned_some v vs a amounts ins i :
      0 < a → 0 <= i <= stakeCount v → planned vs amounts ins →
      planned (v :: vs) (a :: amounts)
        ({| address := votePubkey v; delegate_amount := num_of_Z a; stakeIndex := i |} :: ins).

Section Refinement.
Context `{KeysLaws} `{!AddressesDerive} {W : Type} `{!Connection W} `{!ClusterAnswers}
        `{!Lodash} `{!LodashLaws}.

(** The client has submitted nothing since [c0]. *)
Definition unsent (c0 c : Client W) : Prop := sent c = sent c0.

Lemma answered k cm (c : Client W) :
  ∃ a c', getAccountInfo k cm c = (Ok a, c') ∧ unsent c c'.
Proof.
  unfold getAccountInfo, query. destruct (account_answered k cm (world c)) as (a & w & ->).
  by eexists _, _.
Qed.

Lemma free_index_run t v (c : Client W) :
  u32 (stakeCount v) →
  ∃ i c', free_index t v c = (Ok i, c') ∧ 0 <= i <= stakeCount v ∧ unsent c c'.
Proof.
  intros Hv. unfold free_index.
  apply (for_of_run (λ i c', 0 <= i <= stakeCount v ∧ unsent c c')).
  { unfold u32, unsent in *. split; [lia|done]. }
  intros b c1 i Hi%elem_of_seqZ [Hb Hc].
  rewrite lift_bind, getStake_ok by (unfold u32 in *; lia).
  destruct (answered (stake_key t (votePubkey v) i) None c1) as (a & c2 & Ha & Hc2).
  erewrite bind_run by done. eexists _, c2. split; [done|]. unfold unsent in *.
  split; [|congruence]. destruct (is_free a); lia.
Qed.

Lemma activating_index_run t v (c : Client W) :
  u32 (stakeCount v) →
  ∃ i c', activating_index t v c = (Ok i, c') ∧ -1 <= i <= stakeCount v ∧ unsent c c'.
Proof.
  intros Hv. unfold activating_index.
  apply (for_of_run (λ i c', -1 <= i <= stakeCount v ∧ unsent c c')).
  { unfold u32, unsent in *. split; [lia|done]. }
  intros b c1 i Hi%elem_of_seqZ [Hb Hc].
  rewrite lift_bind, getStake_ok by (unfold u32 in *; lia).
  unfold catch, getStakeActivation, query, mbind, M_bind, unsent in *.
  destruct (rpc_getStakeActivation _ _ (world c1)) as [[d|e] w].
  - destruct (_ && _); by eexists _, _; (split; [done|]; simpl; split; [lia|done]).
  - by eexists _, _; (split; [done|]; simpl; split; [lia|done]).
Qed.

(** One turn on safe integers is one step of the plan. *)
Lemma delegate_turn_refines t target left ins v b (c : Client W) :
  balance v = num_of_Z b → 0 <= b < 2 ^ 52 → 0 <= target < 2 ^ 52 → 0 <= left < 2 ^ 52 →
  u32 (stakeCount v) →
  if left <? 1 then
    delegate_turn t (num_of_Z target) (num_of_Z left, ins) v c =
      (Ok (Break (num_of_Z left, ins)), c)
  else if target <=? b then
    delegate_turn t (num_of_Z target) (num_of_Z left, ins) v c =
      (Ok (Continue (num_of_Z left, ins)), c)
  else ∃ i c', 0 <= i <= stakeCount v ∧ unsent c c' ∧
    delegate_turn t (num_of_Z target) (num_of_Z left, ins) v c =
      (Ok (Continue (num_of_Z (share target left b).2,
        ins ++ [{| address := votePubkey v; delegate_amount := num_of_Z (share target left b).1;
                   stakeIndex := i |}])), c').
Proof.
  intros Hb Hb52 Ht Hl Hv. unfold delegate_turn. rewrite Hb.
  rewrite num_ltb_exact by safe_lia. destruct (Z.ltb_spec left 1); [done|].
  rewrite num_leb_exact by safe_lia. destruct (Z.leb_spec target b); [done|]. cbv zeta.
  rewrite num_sub_exact, Math_min_exact, num_sub_exact by safe_lia.
  unfold MIN_STAKE_ACCOUNT_BALANCE. change 1000000000 with MIN_STAKE.
  rewrite num_ltb_exact by (unfold MIN_STAKE; safe_lia).
  rewrite num_add_exact by safe_lia.
  destruct (share target left b) as [d l] eqn:Hs. unfold share in Hs. cbn [fst snd].
  set (r := if _ <? MIN_STAKE then (_, num_of_Z 0) else _).
  assert (r = (num_of_Z d, num_of_Z l)) as ->.
  { unfold r. by destruct (_ <? MIN_STAKE); simplify_eq. }
  destruct (activating_index_run t v c Hv) as (i & c1 & Hi & Hir & Hc1).
  erewrite bind_run by done. destruct (Z.leb_spec 0 i).
  { rewrite lift_bind, getStake_ok by (unfold u32 in *; lia). exists i, c1. split_and!; (done || lia). }
  destruct (free_index_run t v c1 Hv) as (j & c2 & Hj & Hjr & Hc2).
  erewrite bind_run by done. rewrite lift_bind, getStake_ok by (unfold u32 in *; lia).
  exists j, c2. split_and!; try (done || lia). unfold unsent in *. congruence.
Qed.

Lemma planned_zeros vs : planned vs (replicate (length vs) 0) [].
Proof. induction vs; constructor; done. Qed.

Lemma delegate_loop_refines t target vs bals :
  balance <$> vs = num_of_Z <$> bals → Forall (λ b, 0 <= b < 2 ^ 52) bals →
  0 <= target < 2 ^ 52 → Forall (λ v, u32 (stakeCount v)) vs →
  ∀ left ins (c : Client W), 0 <= left < 2 ^ 52 →
  ∃ new c',
    for_of vs (num_of_Z left, ins) (delegate_turn t (num_of_Z target)) c =
      (Ok (num_of_Z (plan target left bals).2, ins ++ new), c') ∧
    planned vs (plan target left bals).1 new ∧ unsent c c'.
Proof.
  intros Hbal Hbals Htarget. revert bals Hbal Hbals.
  induction vs as [|v vs IH]; intros [|b bals] Hbal Hbals Hcount left ins c Hleft; try done.
  { exists [], c. rewrite app_nil_r. split_and!; [done|constructor|done]. }
  rewrite !fmap_cons in Hbal. injection Hbal as Hb Hbal.
  apply Forall_cons in Hbals as [Hb52 Hbals]. apply Forall_cons in Hcount as [Hv Hcount].
  pose proof (delegate_turn_refines t target left ins v b c Hb Hb52 Htarget Hleft Hv) as Hturn.
  assert (Hlen : length vs = length bals).
  { apply (f_equal length) in Hbal. by rewrite !length_fmap in Hbal. }
  cbn [for_of plan]. destruct (Z.ltb_spec left 1) as [Hl1|Hl1].
  { erewrite bind_run by done. exists [], c. rewrite app_nil_r. cbn [fst snd].
    replace (length (b :: bals)) with (length (v :: vs)) by (simpl; by rewrite Hlen).
    split_and!; [done|apply planned_zeros|done]. }
  destruct (Z.leb_spec target b) as [Htb|Htb].
  { erewrite bind_run by done. destruct (IH bals Hbal Hbals Hcount left ins c Hleft) as (new & c' & Hr & Hp & Hc).
    exists new, c'. destruct (plan target left bals). split_and!; [done|by constructor|done]. }
  destruct Hturn as (i & c1 & Hi & Hc1 & Hrun). erewrite bind_run by done.
  destruct (share target left b) as [d l] eqn:Hs. cbn [fst snd] in *.
  destruct (share_spec _ _ _ _ _ Hs) as (Hd & Hl & Hsum & _); [lia..|].
  destruct (IH bals Hbal Hbals Hcount l (ins ++ [{| address := votePubkey v; delegate_amount := num_of_Z d; stakeIndex := i |}])
    c1 ltac:(lia)) as (new & c' & Hr & Hp & Hc).
  destruct (plan target l bals) as [amounts l']. cbn [fst snd] in *.
  eexists (_ :: new), c'. rewrite Hr, <- app_assoc. split_and!; [done|by constructor|].
  unfold unsent in *. congruence.
Qed.

Lemma foldl_num_add bals acc :
  Forall (λ b, 0 <= b) bals → 0 <= acc → acc + sum_list_Z bals < 2 ^ 53 →
  foldl num_add (num_of_Z acc) (num_of_Z <$> bals) = num_of_Z (acc + sum_list_Z bals).
Proof.
  revert acc; induction bals as [|b bals IH]; intros acc Hb Hacc Hs; simpl; [by rewrite Z.add_0_r|].
  apply Forall_cons in Hb as [Hb Hbals]. simpl in Hs.
  assert (0 <= sum_list_Z bals) by (clear -Hbals; induction Hbals; simpl; lia).
  rewrite num_add_exact by safe_lia. rewrite IH by (done || lia). f_equal. lia.
Qed.

(** The run of the batch up to its submissions. *)
Lemma delegateReserveBatch_run t total (c c1 : Client W) vs bals :
  readValidators t c = (Ok vs, c1) → vs ≠ [] → balance <$> vs = num_of_Z <$> bals →
  Forall (λ b, 0 <= b) bals → MIN_STAKE <= total → sum_list_Z bals + total < 2 ^ 52 →
  ∃ ins c2,
    let amounts := plan_amounts (cdiv (sum_list_Z bals + total) (Z.of_nat (length vs))) total bals in
    planned vs amounts ins ∧ sum_list_Z amounts = total ∧ unsent c c2 ∧
    delegateReserveBatch t (num_of_Z total) c = for_each (chunk ins 4) (delegateReserve t) c2.
Proof.
  intros Hread Hne Hbal Hpos Hmin Hsum.
  pose proof (readValidators_quiet t c) as Hq. rewrite Hread in Hq. cbn [snd] in Hq.
  destruct (readValidators_range _ _ _ _ Hread) as (Hlen & Hcount & _).
  assert (0 <= sum_list_Z bals) as Hs0 by (clear -Hpos; induction Hpos; simpl; lia).
  unfold MIN_STAKE in Hmin.
  assert (Hlb : length vs = length bals).
  { apply (f_equal length) in Hbal. by rewrite !length_fmap in Hbal. }
  assert (Hl0 : 0 < Z.of_nat (length vs)) by (destruct vs; [done|simpl; lia]).
  set (S := sum_list_Z bals + total) in *.
  pose proof (cdiv_bounds S (Z.of_nat (length vs)) Hl0) as Hcd.
  set (target := cdiv S (Z.of_nat (length vs))) in *.
  assert (Ht : 0 <= target < 2 ^ 52) by (split; nia).
  destruct (delegate_loop_refines t target vs bals) with (left := total) (ins := @nil DepositReserveValidatorParam) (c := c1)
    as (ins & c2 & Hloop & Hplan & Hc2); [done| |done|done|lia|].
  { clear -Hpos Hsum Hmin. unfold S in *. induction Hpos; constructor; simpl in *;
      [|apply IHHpos; lia]. assert (0 <= sum_list_Z l) by (clear -Hpos; induction Hpos; simpl; lia). lia. }
  assert (Hspent : (plan target total bals).2 = 0).
  { apply plan_spends; [lia|]. rewrite <- Hlb. unfold S in Hcd. lia. }
  exists ins, c2. split_and!; [done| | |].
  - pose proof (plan_conserves target total bals). unfold plan_amounts. lia.
  - unfold unsent in *. congruence.
  - unfold delegateReserveBatch, MIN_STAKE_ACCOUNT_BALANCE. rewrite num_ltb_exact by safe_lia.
    rewrite (proj2 (Z.ltb_ge _ _)) by done. erewrite bind_run by done.
    rewrite (proj2 (Nat.eqb_neq _ _)) by lia. cbv zeta.
    rewrite Hbal, foldl_num_add by (done || safe_lia). rewrite Z.add_0_l.
    rewrite num_add_exact by safe_lia. fold S. rewrite ceil_div_exact by safe_lia. fold target.
    erewrite bind_run by done. rewrite Hspent, num_ltb_exact by safe_lia. done.
Qed.

(** ** What reaches the program *)

(** A submission that carries one batch of delegations, signed by the owner. *)
Definition carries_delegation (t : TenderizeProgram) (l : list DelegateReserveInstruction)
    (s : submission) : Prop :=
  ∃ ix, submitted s = [ix] ∧ signers s = [payerAccount t; owner t] ∧
        deserialize_instruction (ix_data ix) = inr (DelegateReserve l).

Definition wire_amount (v : DepositReserveValidatorParam) : Z :=
  match BigInt (delegate_amount v) with Ok z => z | Err _ => 0 end.

Lemma planned_ins vs amounts ins :
  planned vs amounts ins → Forall (λ v, u32 (stakeCount v)) vs → sum_list_Z amounts < 2 ^ 53 →
  sum_list_Z (wire_amount <$> ins) = sum_list_Z amounts ∧ 0 <= sum_list_Z amounts ∧
  Forall (λ v, BigInt (delegate_amount v) = Ok (wire_amount v) ∧ 0 <= wire_amount v < 2 ^ 53 ∧
               u32 (stakeIndex v)) ins.
Proof.
  induction 1 as [|v vs amounts ins Hp IH|v vs a amounts ins i Ha Hi Hp IH]; intros Hc Hs.
  - split_and!; [done|done|constructor].
  - apply Forall_cons in Hc as [_ Hc]. simpl in *. destruct (IH Hc ltac:(lia)) as (? & ? & ?).
    split_and!; [lia|lia|done].
  - apply Forall_cons in Hc as [Hv Hc]. simpl in Hs.
    assert (Hs' : sum_list_Z amounts < 2 ^ 53) by lia.
    destruct (IH Hc Hs') as (Hw1 & Hw2 & Hw3).
    assert (Hw : BigInt (num_of_Z a) = Ok a) by (apply BigInt_num_of_Z; safe_lia).
    rewrite fmap_cons. simpl. unfold wire_amount at 1. simpl. rewrite Hw.
    split_and!; [lia|lia|]. constructor; [|done]. unfold wire_amount. simpl. rewrite Hw.
    unfold u32 in *. split_and!; (done || lia).
Qed.

(** What one batch of the client becomes on the wire. *)
Definition delegations (ins : list DepositReserveValidatorParam) : list DelegateReserveInstruction :=
  dec_delegate wire_amount <$> ins.

Lemma delegation_amounts ins : dri_amount <$> delegations ins = wire_amount <$> ins.
Proof. unfold delegations. by rewrite <- list_fmap_compose. Qed.

Lemma chunk_concat_prefix {A} (xs : list A) front back :
  chunk xs 4 = front ++ back → xs = concat front ++ concat back.
Proof. intros Hc. rewrite <- concat_app, <- Hc. symmetry. apply concat_chunk. lia. Qed.

Lemma chunk_delegates t ins :
  Forall (λ v, BigInt (delegate_amount v) = Ok (wire_amount v) ∧ 0 <= wire_amount v < 2 ^ 53 ∧
               u32 (stakeIndex v)) ins →
  ∃ g, ∀ ch, ch ∈ chunk ins 4 → (0 < length ch ≤ 4)%nat ∧
    delegateReserveInstruction t ch = Ok (g ch) ∧
    deserialize_instruction (ix_data (g ch)) = inr (DelegateReserve (delegations ch)).
Proof.
  intros Hins.
  exists (λ ch, match delegateReserveInstruction t ch with
                | Ok ix => ix
                | Err _ => {| ix_keys := []; ix_programId := programId t; ix_data := [] |}
                end).
  intros ch Hch. assert (Hlen : (0 < length ch ≤ 4)%nat) by (eapply length_chunk; [lia|done]).
  split; [done|]. edestruct (delegate_wire t ch wire_amount) as (ix & Hix & Hd & _).
  { intros v Hv. assert (Hvi : v ∈ ins).
    { rewrite <- (concat_chunk _ ins 4) by lia. by apply (elem_of_concat _ ch). }
    rewrite Forall_forall in Hins. specialize (Hins v Hvi). unfold u64. split_and!; (tauto || lia). }
  { unfold u32. lia. }
  { by destruct ch; [simpl in Hlen; lia|]. }
  by rewrite Hix.
Qed.

(** C1: on a cluster that answers queries, a batch delegation of [total] lamports
    (at least the minimum, with balances that fit a safe integer together with it)
    submits batches of at most four delegations that the program decodes; what
    they delegate never exceeds [total], and is exactly [total] when the call
    returns, wherever a transaction may be rejected. *)
Theorem delegateReserveBatch_delegates t total (c c1 : Client W) vs bals :
  readValidators t c = (Ok vs, c1) → vs ≠ [] → balance <$> vs = num_of_Z <$> bals →
  Forall (λ b, 0 <= b) bals → MIN_STAKE <= total → sum_list_Z bals + total < 2 ^ 52 →
  ∃ batches subs,
    sent (snd (delegateReserveBatch t (num_of_Z total) c)) = sent c ++ subs ∧
    Forall2 (carries_delegation t) batches subs ∧
    Forall (λ b, 0 < length b ≤ 4)%nat batches ∧
    sum_list_Z (dri_amount <$> concat batches) <= total ∧
    (fst (delegateReserveBatch t (num_of_Z total) c) = Ok tt →
     sum_list_Z (dri_amount <$> concat batches) = total).
Proof.
  intros Hread Hne Hbal Hpos Hmin Hsum.
  destruct (delegateReserveBatch_run t total c c1 vs bals) as (ins & c2 & Hp & Htot & Hc & ->); try done.
  destruct (readValidators_range _ _ _ _ Hread) as (_ & Hcount & _).
  assert (0 <= sum_list_Z bals) as Hs0 by (clear -Hpos; induction Hpos; simpl; lia).
  destruct (planned_ins _ _ _ Hp Hcount) as (Hwire & _ & Hins); [lia|].
  destruct (chunk_delegates t ins Hins) as [g Hg].
  destruct (for_each_send (delegateReserveInstruction t) g [payerAccount t; owner t] (chunk ins 4) c2)
    as (front & back & subs & Hfb & Hsent & Hall & Hend); [intros ch Hch; by apply Hg|].
  assert (Hfront : ∀ ch, ch ∈ front → ch ∈ chunk ins 4) by (rewrite Hfb; set_solver).
  assert (Hconcat : dri_amount <$> concat (delegations <$> front) = wire_amount <$> concat front).
  { clear. induction front as [|ch front IH]; [done|]. rewrite fmap_cons. cbn [concat].
    by rewrite !fmap_app, IH, delegation_amounts. }
  exists (delegations <$> front), subs. rewrite Hconcat. split_and!.
  - unfold unsent in Hc. by rewrite <- Hc.
  - apply Forall2_fmap_l. eapply Forall2_impl_in; [done|].
    intros ch s Hch [Hs1 Hs2]. exists (g ch). split_and!; [done|done|]. by apply Hg, Hfront.
  - apply Forall_fmap, Forall_forall. intros ch Hch. unfold compose, delegations.
    rewrite length_fmap. by apply Hg, Hfront.
  - apply chunk_concat_prefix in Hfb. rewrite Hfb, fmap_app, sum_list_Z_app in Hwire.
    assert (0 <= sum_list_Z (wire_amount <$> concat back)); [|lia].
    rewrite Hfb in Hins. apply Forall_app in Hins as [_ Hins]. clear -Hins.
    induction Hins as [|v l (_ & Hv & _) _ IH]; [done|]. rewrite fmap_cons.
    unfold sum_list_Z in *. cbn [foldr]. lia.
  - intros Hok. rewrite (Hend Hok) in Hfb. apply chunk_concat_prefix in Hfb.
    rewrite app_nil_r in Hfb. rewrite <- Hfb. lia.
Qed.

(** C14: the batch is fair.  With [target] the balance every validator would have if
    the reserve were spread evenly (rounded up), the code submits, in chunks of
    four, one delegation for every validator that gets something; only validators
    below the target get something, none is pushed a minimal stake or more above
    it, and together they get exactly the total.  The floating-point code computes
    this integer distribution exactly. *)
Theorem delegateReserveBatch_fair t total (c c1 : Client W) vs bals :
  readValidators t c = (Ok vs, c1) → vs ≠ [] → balance <$> vs = num_of_Z <$> bals →
  Forall (λ b, 0 <= b) bals → MIN_STAKE <= total → sum_list_Z bals + total < 2 ^ 52 →
  let target := cdiv (sum_list_Z bals + total) (Z.of_nat (length vs)) in
  ∃ ins amounts c2,
    delegateReserveBatch t (num_of_Z total) c = for_each (chunk ins 4) (delegateReserve t) c2 ∧
    sent c2 = sent c ∧ planned vs amounts ins ∧ sum_list_Z amounts = total ∧
    Forall2 (λ b a, a = 0 ∨ (0 < a ∧ b < target ∧ b + a < target + MIN_STAKE)) bals amounts.
Proof.
  intros Hread Hne Hbal Hpos Hmin Hsum target.
  destruct (delegateReserveBatch_run t total c c1 vs bals) as (ins & c2 & Hp & Htot & Hc & ->); try done.
  eexists ins, _, c2. split_and!; try done. apply plan_bounds. unfold MIN_STAKE in Hmin. lia.
Qed.

(** A delegation below the minimal stake is refused before anything is asked
    or sent, and one without validators before anything is sent. *)
Theorem delegateReserveBatch_refuses t total (c : Client W) :
  safe total →
  (total < MIN_STAKE →
   delegateReserveBatch t (num_of_Z total) c = (Err (JsError "Too low delegation" []), c)) ∧
  (MIN_STAKE <= total → ∀ c1, readValidators t c = (Ok [], c1) →
   delegateReserveBatch t (num_of_Z total) c = (Err (JsError "No validator added" []), c1) ∧
   sent c1 = sent c).
Proof.
  intros Hs. unfold delegateReserveBatch, MIN_STAKE_ACCOUNT_BALANCE. change 1000000000 with MIN_STAKE.
  rewrite num_ltb_exact by (done || unfold MIN_STAKE; safe_lia). split.
  - intros Hl. by rewrite (proj2 (Z.ltb_lt _ _)).
  - intros Hl c1 Hr. rewrite (proj2 (Z.ltb_ge _ _)) by done. erewrite bind_run by done.
    split; [done|]. pose proof (readValidators_quiet t c) as Hq. by rewrite Hr in Hq.
Qed.

End Refinement.

(** ** On a concrete pool *)

(** Two validators, the first one lamport below the common target. *)
Definition two_validators : Client SampleCluster :=
  sample_client [sample_validator 0 1999999999 0; sample_validator 1 0 0] [] [].

Definition two_infos : list ValidatorInfo :=
  [{| votePubkey := sample_vote 0; balance := num_of_Z 1999999999; lastUpdateEpoch := num_of_Z 7;
      stakeCount := 0 |};
   {| votePubkey := sample_vote 1; balance := num_of_Z 0; lastUpdateEpoch := num_of_Z 7;
      stakeCount := 0 |}].

Lemma delegateReserveBatch_delegates_witness :
  ∃ batches subs,
    sent (snd (delegateReserveBatch sample_pool (num_of_Z 2000000001) two_validators)) = [] ++ subs ∧
    Forall2 (carries_delegation sample_pool) batches subs ∧
    Forall (λ b, 0 < length b ≤ 4)%nat batches ∧
    sum_list_Z (dri_amount <$> concat batches) <= 2000000001 ∧
    (fst (delegateReserveBatch sample_pool (num_of_Z 2000000001) two_validators) = Ok tt →
     sum_list_Z (dri_amount <$> concat batches) = 2000000001).
Proof.
  apply (delegateReserveBatch_delegates sample_pool 2000000001 two_validators two_validators
           two_infos [1999999999; 0]).
  - reflexivity.
  - done.
  - reflexivity.
  - repeat constructor; lia.
  - unfold MIN_STAKE. lia.
  - simpl. lia.
Defined.

Lemma delegateReserveBatch_fair_witness :
  ∃ ins amounts (c2 : Client SampleCluster),
    delegateReserveBatch sample_pool (num_of_Z 2000000001) two_validators =
      for_each (chunk ins 4) (delegateReserve sample_pool) c2 ∧
    sent c2 = [] ∧ planned two_infos amounts ins ∧ sum_list_Z amounts = 2000000001 ∧
    Forall2 (λ b a, a = 0 ∨ (0 < a ∧ b < 2000000000 ∧ b + a < 2000000000 + MIN_STAKE))
      [1999999999; 0] amounts.
Proof.
  apply (delegateReserveBatch_fair sample_pool 2000000001 two_validators two_validators
           two_infos [1999999999; 0]).
  - reflexivity.
  - done.
  - reflexivity.
  - repeat constructor; lia.
  - unfold MIN_STAKE. lia.
  - simpl. lia.
Defined.

Lemma delegateReserveBatch_refuses_witness :
  delegateReserveBatch sample_pool (num_of_Z 999999999) two_validators =
    (Err (JsError "Too low delegation" []), two_validators).
Proof.
  apply (delegateReserveBatch_refuses sample_pool 999999999 two_validators).
  - unfold safe. lia.
  - unfold MIN_STAKE. lia.
Defined.

(** The amounts of the delegations a run submits. *)
Definition submitted_amounts (subs : list submission) : list Z :=
  concat ((λ s, concat ((λ ix, match deserialize_instruction (ix_data ix) with
                               | inr (DelegateReserve l) => dri_amount <$> l
                               | _ => []
                               end) <$> submitted s)) <$> subs).

(** Nothing keeps the amount for a single validator above the minimum: with a
    validator one lamport below the target, the batch opens a stake of one
    lamport, while the program initialises no stake below 0.1 SOL. *)
Theorem delegateReserveBatch_one_lamport :
  submitted_amounts
    (sent (snd (delegateReserveBatch sample_pool (num_of_Z 2000000001) two_validators))) =
  [1; 2000000000].
Proof. vm_compute. reflexivity. Qed.
