(* ===== verification/Stakes.v ===== *)
(** * Merging and unstaking (experiment/tenderize.ts)

    [mergeAllStakes], [unstake] and [unstakeAll]: the client looks at the stakes of
    a validator one by one and sends what it decided in batches of four.  The
    batches are shown to pass the processor's checks of the stake indices, which are
    specified in StakeProcessor.v. *)

From Stdlib Require Import ZArith Lia.
From Stdlib Require Import Sorted.
From stdpp Require Import base list strings sets sorting.
From coqutil Require Import Byte.
From S2P Require Import Prelude JsNumber Buffers Web3 Sample Program Instructions SamplePool.
From S2P Require Import StakeProcessor Wire Readers Operations Delegation.

Open Scope Z_scope.

(** ** The client *)

Section Stakes.
Context `{Keys} {W : Type} `{!Connection W} `{!Lodash}.

(** The loop that collects the indices of the active stakes of a validator. *)
Definition active_turn (t : TenderizeProgram) (validator : ValidatorInfo) (mergeIndices : list Z)
    (i : Z) : M (Client W) (step (list Z)) :=
  stakeAddress ← lift (getStakeForValidator t (votePubkey validator) i);
  catch (stakeData ← getStakeActivation stakeAddress (Some singleGossip);
         mret (Continue (if bool_decide (activation_state stakeData = active_)
                         then mergeIndices ++ [i] else mergeIndices)))
        (λ _, mret (Continue mergeIndices)).

Definition active_indices (t : TenderizeProgram) (validator : ValidatorInfo)
  : M (Client W) (list Z) :=
  for_of (seqZ 0 (stakeCount validator)) [] (active_turn t validator).

(** [for (let i = mergeIndices.length - 1; i > 0; --i)]. *)
Definition merge_pairs (validator : ValidatorInfo) (mergeIndices : list Z) : list StakePair :=
  (λ i, {| pair_validator := votePubkey validator; mainIndex := nth 0 mergeIndices 0;
           additionalIndex := nth i mergeIndices 0 |})
  <$> reverse (seq 1 (length mergeIndices - 1)).

Definition mergeAllStakes (t : TenderizeProgram) : M (Client W) unit :=
  validators ← readValidators t;
  if (length validators =? 0)%nat then mret tt
  else
    stakePairs ← for_of validators [] (λ stakePairs validator,
      mergeIndices ← active_indices t validator;
      mret (Continue (stakePairs ++ merge_pairs validator mergeIndices)));
    for_each (chunk stakePairs 4) (mergeStakes t).

(** [amountLeft === undefined || amountLeft >= stakeAmount]. *)
Definition takes_whole (amountLeft : option num) (stakeAmount : num) : bool :=
  match amountLeft with None => true | Some a => num_leb stakeAmount a end.

(** What the body of the [try] decides once it has the stake's activation and
    lamports. *)
Definition unstake_decision (validator : ValidatorInfo) (firstFreeIndex i : Z)
    (stakeData : StakeActivationData) (stakeAmount : num)
    (amountLeft : option num) (unstakes : list UnstakeItem)
  : step (option num * list UnstakeItem) :=
  let some_active := num_ltb (num_of_Z 0) (activation_active stakeData) in
  if takes_whole amountLeft stakeAmount then
    let unstakes :=
      if some_active && (bool_decide (activation_state stakeData = active_)
                         || bool_decide (activation_state stakeData = activating_))
      then unstakes ++ [{| unstake_validator := votePubkey validator; sourceIndex := i;
                           splitIndex := None; unstake_amount := None |}]
      else unstakes in
    Continue (match amountLeft with None => None | Some a => Some (num_sub a stakeAmount) end,
              unstakes)
  else
    Break (amountLeft,
           if some_active && bool_decide (activation_state stakeData = active_)
           then unstakes ++ [{| unstake_validator := votePubkey validator; sourceIndex := i;
                                splitIndex := Some firstFreeIndex; unstake_amount := amountLeft |}]
           else unstakes).

Definition unstake_turn (t : TenderizeProgram) (validator : ValidatorInfo) (firstFreeIndex : Z)
    (st : option num * list UnstakeItem) (i : Z)
  : M (Client W) (step (option num * list UnstakeItem)) :=
  let '(amountLeft, unstakes) := st in
  stakeAddress ← lift (getStakeForValidator t (votePubkey validator) i);
  catch (stakeData ← getStakeActivation stakeAddress (Some singleGossip);
         stakeAccount ← getAccountInfo stakeAddress (Some singleGossip);
         a ← not_null stakeAccount;
         mret (unstake_decision validator firstFreeIndex i stakeData (lamports a)
                 amountLeft unstakes))
        (λ _, mret (Continue (amountLeft, unstakes))).

(** The items [unstake] collects. *)
Definition unstake_items (t : TenderizeProgram) (validator : ValidatorInfo) (amount : option num)
  : M (Client W) (list UnstakeItem) :=
  firstFreeIndex ← free_index t validator;
  '(_, unstakes) ← for_of (seqZ 0 (stakeCount validator)) (amount, [])
                          (unstake_turn t validator firstFreeIndex);
  mret unstakes.

Definition unstake (t : TenderizeProgram) (validator : ValidatorInfo) (amount : option num)
  : M (Client W) unit :=
  unstakes ← unstake_items t validator amount;
  for_each (chunk unstakes 4)
    (λ ch, send_built (unstakeInstruction t ch) [payerAccount t; owner t]).

Definition unstakeAll (t : TenderizeProgram) : M (Client W) unit :=
  validators ← readValidators t;
  for_each validators (λ validator, unstake t validator None).

End Stakes.

(** ** Merges pass the checks *)

Section Merging.
Context `{KeysLaws} `{!AddressesDerive} {W : Type} `{!Connection W} `{!Lodash} `{!LodashLaws}.

(** A subset of the indices of a validator's stakes, in order. *)
Definition some_indices (v : ValidatorInfo) (idxs : list Z) : Prop :=
  idxs `sublist_of` seqZ 0 (stakeCount v).

Lemma active_turn_run t v acc i (c : Client W) :
  u32 i →
  ∃ (b : bool) c', active_turn t v acc i c = (Ok (Continue (if b then acc ++ [i] else acc)), c') ∧
                   unsent c c'.
Proof.
  intros Hi. unfold active_turn. rewrite lift_bind, getStake_ok by done.
  unfold catch, getStakeActivation, query, mbind, M_bind.
  destruct (rpc_getStakeActivation _ _ (world c)) as [[d|e] w].
  - by eexists (bool_decide _), _.
  - by eexists false, _.
Qed.

Lemma active_indices_run t v (c : Client W) :
  u32 (stakeCount v) →
  ∃ idxs c', active_indices t v c = (Ok idxs, c') ∧ some_indices v idxs ∧ unsent c c'.
Proof.
  intros Hv. unfold active_indices, some_indices.
  assert (Hall : ∀ i, i ∈ seqZ 0 (stakeCount v) → u32 i).
  { intros i ?%elem_of_seqZ. unfold u32 in *. lia. }
  cut (∀ acc (c : Client W), ∃ idxs c',
    for_of (seqZ 0 (stakeCount v)) acc (active_turn t v) c = (Ok (acc ++ idxs), c') ∧
    idxs `sublist_of` seqZ 0 (stakeCount v) ∧ unsent c c'); [intros Hcut; apply (Hcut [])|].
  induction (seqZ 0 (stakeCount v)) as [|i l IH]; intros acc c1.
  { exists [], c1. rewrite app_nil_r. done. }
  destruct (active_turn_run t v acc i c1) as (b & c2 & Hb & Hc2); [apply Hall; set_solver|].
  cbn [for_of]. erewrite bind_run by done. specialize (IH ltac:(intros; apply Hall; set_solver)).
  destruct (IH (if b then acc ++ [i] else acc) c2) as (idxs & c' & -> & Hs & Hc).
  exists (if b then i :: idxs else idxs), c'. unfold unsent in *.
  destruct b; rewrite <- ?app_assoc; split_and!; (done || by constructor || congruence).
Qed.

Lemma merge_pairs_cons v m rest :
  merge_pairs v (m :: rest) =
  (λ a, {| pair_validator := votePubkey v; mainIndex := m; additionalIndex := a |}) <$> reverse rest.
Proof.
  unfold merge_pairs. cbn [length]. rewrite Nat.sub_succ, Nat.sub_0_r, !fmap_reverse. f_equal.
  cbn [nth]. rewrite <- fmap_S_seq, <- list_fmap_compose. unfold compose. cbn [nth].
  apply list_eq. intros i. rewrite !list_lookup_fmap.
  destruct (decide (i < length rest)%nat) as [Hi|Hi].
  - rewrite lookup_seq_lt by done. simpl. rewrite nth_lookup.
    destruct (lookup_lt_is_Some_2 rest i Hi) as [a ->]. done.
  - rewrite lookup_seq_ge, lookup_ge_None_2 by lia. done.
Qed.

Lemma seqZ_sorted a n : StronglySorted Z.lt (seqZ a n).
Proof.
  destruct (decide (0 <= n)) as [Hn|Hn]; [|rewrite seqZ_nil by lia; constructor].
  revert a. pattern n. apply natlike_ind; [|clear n Hn; intros n Hn IH a|done]; [intros a; constructor|].
  rewrite seqZ_cons by lia. rewrite Z.pred_succ. constructor; [apply IH|].
  apply Forall_forall. intros i Hi%elem_of_seqZ. lia.
Qed.

Lemma sorted_sublist (l k : list Z) :
  l `sublist_of` k → StronglySorted Z.lt k → StronglySorted Z.lt l.
Proof.
  induction 1 as [|x l k Hs IH|x l k Hs IH]; intros Hk; [constructor| |];
    apply StronglySorted_cons in Hk as [Hx Hk]; [|auto].
  apply StronglySorted_cons. split; [|auto]. rewrite Forall_forall in *.
  intros y Hy. by apply Hx, (elem_of_sublist _ _ _ Hy Hs).
Qed.

Lemma some_indices_sorted v idxs :
  some_indices v idxs → StronglySorted Z.lt idxs ∧ Forall (λ i, 0 <= i < stakeCount v) idxs.
Proof.
  unfold some_indices. intros Hs. split.
  - eapply sorted_sublist; [done|apply seqZ_sorted].
  - apply Forall_forall. intros i Hi. pose proof (elem_of_sublist _ _ _ Hi Hs) as Hi2%elem_of_seqZ. lia.
Qed.

(** The count of one validator through a sequence of its merges. *)
Fixpoint merge_counts (l : list (MergeStakesInstruction * bool)) (n : Z) : StakePoolError + Z :=
  match l with
  | [] => inr n
  | (i, merged) :: l' =>
      match merge_count i merged n with inl e => inl e | inr n' => merge_counts l' n' end
  end.

Lemma update_count_at k f n n' (pre post : counts) :
  k ∉ pre.*1 → f n = inr n' →
  update_count k f (pre ++ (k, n) :: post) = inr (pre ++ (k, n') :: post).
Proof.
  intros Hk Hf. induction pre as [|[k' m] pre IH]; simpl.
  - by rewrite decide_True, Hf.
  - rewrite decide_False by set_solver. rewrite IH by set_solver. done.
Qed.

Lemma process_merges_at k l n n' (pre post : counts) :
  k ∉ pre.*1 → Forall (λ i, msi_validator_address i.1 = k) l → merge_counts l n = inr n' →
  process_merges l (pre ++ (k, n) :: post) = inr (pre ++ (k, n') :: post).
Proof.
  intros Hk Hl. revert n; induction Hl as [|[i b] l Hi Hl IH]; intros n Hn; simpl in *; [congruence|].
  destruct (merge_count i b n) as [e|n1] eqn:Hm; [done|].
  by rewrite Hi, (update_count_at k _ n n1), IH by done.
Qed.

Lemma process_merges_app l k cs :
  process_merges (l ++ k) cs =
  match process_merges l cs with inl e => inl e | inr cs' => process_merges k cs' end.
Proof.
  revert cs; induction l as [|[i b] l IH]; intros cs; [done|]. simpl.
  destruct (update_count _ _ _); auto.
Qed.

(** Merging the larger index first, every index stays below the count, although a
    merge of the last stake lowers it. *)
Lemma merge_counts_descend v m rest n flags :
  StronglySorted Z.lt (m :: rest) → Forall (λ a, a < n) (m :: rest) →
  length flags = length rest →
  ∃ n', merge_counts (zip (dec_merge <$> merge_pairs v (m :: rest)) flags) n = inr n'.
Proof.
  rewrite merge_pairs_cons, <- list_fmap_compose. revert n flags.
  induction rest as [|a rest IH] using rev_ind; intros n flags Hs Hn Hf; [by exists n|].
  rewrite reverse_snoc, fmap_cons. rewrite length_app in Hf. simpl in Hf.
  destruct flags as [|b flags]; [simpl in Hf; lia|]. cbn [zip zip_with merge_counts].
  change (m :: rest ++ [a]) with ((m :: rest) ++ [a]) in *.
  apply StronglySorted_app in Hs as (Hlt & Hs & _). apply Forall_app in Hn as [Hn Ha].
  apply Forall_cons in Ha as [Ha _].
  assert (Hma : Forall (λ x, x < a) (m :: rest)).
  { apply Forall_forall. intros x Hx. apply Hlt; set_solver. }
  pose proof (Forall_inv Hma) as Hm. pose proof (Forall_inv Hn) as Hmn. simpl in Hm, Hmn.
  unfold merge_count. simpl.
  rewrite (proj2 (Z.leb_gt n m)), (proj2 (Z.leb_gt n a)), (proj2 (Z.leb_gt a m)) by lia. simpl.
  simpl in Hf. destruct (b && (a + 1 =? n)) eqn:Hb.
  - apply andb_true_iff in Hb as [_ Hb%Z.eqb_eq]. apply IH; [done| |lia].
    eapply Forall_impl; [done|]. simpl. lia.
  - apply IH; [done|done|lia].
Qed.

(** The counts the program has when the client reads the list. *)
Definition counts_of (vs : list ValidatorInfo) : counts :=
  (λ v, (toBuffer (votePubkey v), stakeCount v)) <$> vs.

(** The pairs [mergeAllStakes] collects for indices [idxss]. *)
Definition all_pairs (vs : list ValidatorInfo) (idxss : list (list Z)) : list StakePair :=
  concat (zip_with merge_pairs vs idxss).

Lemma merge_pairs_address v idxs flags :
  Forall (λ i : MergeStakesInstruction * bool, msi_validator_address i.1 = toBuffer (votePubkey v))
         (zip (dec_merge <$> merge_pairs v idxs) flags).
Proof.
  apply Forall_forall. intros [i b] Hi. apply elem_of_zip_l in Hi.
  unfold merge_pairs in Hi. rewrite <- list_fmap_compose in Hi.
  apply list_elem_of_fmap in Hi as (j & -> & _). done.
Qed.

Lemma toBuffer_inj k k' : toBuffer k = toBuffer k' → k = k'.
Proof.
  intros Hk. pose proof (new_PublicKey_toBuffer k) as H1'. rewrite Hk, new_PublicKey_toBuffer in H1'.
  congruence.
Qed.

Lemma length_merge_pairs v idxs : length (merge_pairs v idxs) = (length idxs - 1)%nat.
Proof. unfold merge_pairs. by rewrite length_fmap, length_reverse, length_seq. Qed.

Lemma validator_merges v idxs flags :
  some_indices v idxs → length flags = length (merge_pairs v idxs) →
  ∃ n', merge_counts (zip (dec_merge <$> merge_pairs v idxs) flags) (stakeCount v) = inr n'.
Proof.
  intros Hi Hf. apply some_indices_sorted in Hi as [Hs Hr].
  rewrite length_merge_pairs in Hf.
  destruct idxs as [|m rest]; [by exists (stakeCount v)|].
  apply merge_counts_descend; [done| |simpl in Hf; lia].
  eapply Forall_impl; [done|]. simpl. lia.
Qed.

(** Whichever merges the program skips, no pair fails its index check. *)
Lemma all_pairs_pass vs idxss flags :
  NoDup (votePubkey <$> vs) → Forall2 some_indices vs idxss →
  length flags = length (all_pairs vs idxss) →
  ∃ cs, process_merges (zip (dec_merge <$> all_pairs vs idxss) flags) (counts_of vs) = inr cs.
Proof.
  intros Hnd Hidx. change (counts_of vs) with ([] ++ counts_of vs).
  assert (Hpre : ∀ v, v ∈ vs → toBuffer (votePubkey v) ∉ ([] : counts).*1) by set_solver.
  revert flags Hpre. generalize ([] : counts) as pre. revert Hnd.
  induction Hidx as [|v idxs vs idxss Hv _ IH]; intros Hnd pre flags Hpre Hf.
  { by exists (pre ++ []). }
  apply NoDup_cons in Hnd as [Hnv Hnd]. unfold all_pairs in Hf |- *. cbn [zip_with concat] in *.
  rewrite length_app in Hf. rewrite <- (take_drop (length (merge_pairs v idxs)) flags).
  assert (Hft : length (take (length (merge_pairs v idxs)) flags) = length (merge_pairs v idxs))
    by (rewrite length_take; lia).
  rewrite fmap_app, zip_with_app by (by rewrite Hft, length_fmap).
  destruct (validator_merges v idxs _ Hv Hft) as [n' Hn'].
  rewrite process_merges_app. cbn [counts_of fmap list_fmap].
  erewrite process_merges_at; [|by apply Hpre; set_solver|apply merge_pairs_address|done].
  change (pre ++ (?x :: ?l)) with (pre ++ [x] ++ l). rewrite app_assoc. apply IH; [done| |].
  - intros u Hu. rewrite fmap_app. apply not_elem_of_app. split; [by apply Hpre; set_solver|].
    simpl. intros He%list_elem_of_singleton%toBuffer_inj. apply Hnv. rewrite <- He.
    by apply list_elem_of_fmap_2.
  - rewrite length_drop. unfold all_pairs. lia.
Qed.

Lemma merge_loop_run t vs :
  Forall (λ v, u32 (stakeCount v)) vs → ∀ acc (c : Client W), ∃ idxss c',
    for_of vs acc (λ stakePairs validator,
      mergeIndices ← active_indices t validator;
      mret (Continue (stakePairs ++ merge_pairs validator mergeIndices))) c =
    (Ok (acc ++ all_pairs vs idxss), c') ∧ Forall2 some_indices vs idxss ∧ unsent c c'.
Proof.
  induction 1 as [|v vs Hv Hvs IH]; intros acc c.
  { exists [], c. unfold all_pairs. simpl. rewrite app_nil_r. split_and!; (done || constructor). }
  destruct (active_indices_run t v c Hv) as (idxs & c1 & Hi & Hs & Hc1).
  destruct (IH (acc ++ merge_pairs v idxs) c1) as (idxss & c2 & Hr & Hall & Hc2).
  exists (idxs :: idxss), c2. cbn [for_of]. unfold mbind at 1, M_bind at 1.
  erewrite bind_run by done. cbn [mret M_ret]. rewrite Hr. unfold all_pairs. simpl.
  rewrite <- app_assoc. split_and!; [done|by constructor|]. unfold unsent in *. congruence.
Qed.

Definition carries_merges (t : TenderizeProgram) (l : list MergeStakesInstruction) (s : submission)
  : Prop :=
  ∃ ix, submitted s = [ix] ∧ signers s = [payerAccount t] ∧
        deserialize_instruction (ix_data ix) = inr (MergeStakes l).

Lemma all_pairs_u32 vs idxss s :
  Forall2 some_indices vs idxss → Forall (λ v, u32 (stakeCount v)) vs → s ∈ all_pairs vs idxss →
  u32 (mainIndex s) ∧ u32 (additionalIndex s).
Proof.
  unfold all_pairs. induction 1 as [|v idxs vs idxss Hv _ IH]; intros Hc Hs; [by apply elem_of_nil in Hs|].
  apply Forall_cons in Hc as [Hvc Hc]. cbn [zip_with concat] in Hs. apply elem_of_app in Hs as [Hs|Hs]; [|auto].
  apply some_indices_sorted in Hv as [_ Hr]. destruct idxs as [|m rest]; [by apply elem_of_nil in Hs|].
  rewrite merge_pairs_cons in Hs. apply list_elem_of_fmap in Hs as (a & -> & Ha%elem_of_reverse). simpl.
  rewrite Forall_forall in Hr. unfold u32 in *.
  pose proof (Hr m ltac:(set_solver)). pose proof (Hr a ltac:(set_solver)). lia.
Qed.

Lemma chunk_merges t ps :
  (∀ s, s ∈ ps → u32 (mainIndex s) ∧ u32 (additionalIndex s)) →
  ∃ g, ∀ ch, ch ∈ chunk ps 4 → (0 < length ch ≤ 4)%nat ∧
    mergeStakesInstruction t ch = Ok (g ch) ∧
    deserialize_instruction (ix_data (g ch)) = inr (MergeStakes (dec_merge <$> ch)).
Proof.
  intros Hps.
  exists (λ ch, match mergeStakesInstruction t ch with
                | Ok ix => ix
                | Err _ => {| ix_keys := []; ix_programId := programId t; ix_data := [] |}
                end).
  intros ch Hch. assert (Hlen : (0 < length ch ≤ 4)%nat) by (eapply length_chunk; [lia|done]).
  split; [done|]. edestruct (merge_wire t ch) as (ix & Hix & Hd & _).
  { intros s Hs. apply Hps. rewrite <- (concat_chunk _ ps 4) by lia. by apply (elem_of_concat _ ch). }
  { unfold u32. lia. }
  { by destruct ch; [simpl in Hlen; lia|]. }
  by rewrite Hix.
Qed.

Lemma process_merges_prefix l k cs cs' :
  process_merges (l ++ k) cs = inr cs' → ∃ cs1, process_merges l cs = inr cs1.
Proof. rewrite process_merges_app. destruct (process_merges l cs); [done|]. by eexists. Qed.

(** The batches of merges the client submits. *)
Lemma mergeAllStakes_batches t (c c1 : Client W) vs :
  readValidators t c = (Ok vs, c1) → NoDup (votePubkey <$> vs) →
  ∃ batches subs,
    sent (snd (mergeAllStakes t c)) = sent c ++ subs ∧
    Forall2 (carries_merges t) batches subs ∧ Forall (λ b, 0 < length b ≤ 4)%nat batches ∧
    ∀ flags, length flags = length (concat batches) →
      ∃ cs, process_merges (zip (concat batches) flags) (counts_of vs) = inr cs.
Proof.
  intros Hread Hnd. unfold mergeAllStakes. erewrite bind_run by done.
  pose proof (readValidators_quiet t c) as Hq. rewrite Hread in Hq. cbn [snd] in Hq.
  destruct (readValidators_range _ _ _ _ Hread) as (_ & Hcount & _).
  destruct (Nat.eqb_spec (length vs) 0) as [Hz|Hz].
  { exists [], []. rewrite app_nil_r. split_and!; [done|constructor|constructor|].
    intros flags _. by exists (counts_of vs). }
  destruct (merge_loop_run t vs Hcount [] c1) as (idxss & c2 & Hr & Hidx & Hc2).
  erewrite bind_run by done. cbn [app]. set (ps := all_pairs vs idxss) in *.
  destruct (chunk_merges t ps) as [g Hg]; [intros s; by apply all_pairs_u32|].
  rewrite (for_each_ext _ _ (λ ch, send_built (mergeStakesInstruction t ch) [payerAccount t])).
  2:{ intros ch s Hch%Hg. unfold mergeStakes. by rewrite (proj2 (Nat.eqb_neq _ _)) by lia. }
  destruct (for_each_send (mergeStakesInstruction t) g [payerAccount t] (chunk ps 4) c2)
    as (front & back & subs & Hfb & Hsent & Hall & _); [intros ch Hch; by apply Hg|].
  assert (Hfront : ∀ ch, ch ∈ front → ch ∈ chunk ps 4) by (rewrite Hfb; set_solver).
  exists ((λ ch : list StakePair, dec_merge <$> ch) <$> front), subs. split_and!.
  - rewrite Hsent. unfold unsent in Hc2. congruence.
  - apply Forall2_fmap_l. eapply Forall2_impl_in; [done|].
    intros ch s Hch [Hs1 Hs2]. exists (g ch). split_and!; [done|done|]. by apply Hg, Hfront.
  - apply Forall_fmap, Forall_forall. intros ch Hch. unfold compose.
    rewrite length_fmap. by apply Hg, Hfront.
  - intros flags Hf. apply chunk_concat_prefix in Hfb.
    assert (Hcf : concat ((λ ch : list StakePair, dec_merge <$> ch) <$> front) = dec_merge <$> concat front).
    { clear. induction front as [|x l IHl]; [done|]. rewrite fmap_cons. cbn [concat]. by rewrite fmap_app, IHl. }
    rewrite Hcf in *. rewrite length_fmap in Hf.
    destruct (all_pairs_pass vs idxss (flags ++ replicate (length (concat back)) true) Hnd Hidx) as [cs Hcs].
    { fold ps. rewrite Hfb, !length_app, length_replicate. lia. }
    fold ps in Hcs. rewrite Hfb, fmap_app, zip_with_app in Hcs by (by rewrite length_fmap).
    by eapply process_merges_prefix.
Qed.

(** Merging all stakes.  Every batch the client submits (of one to four pairs)
    is decoded by the program as the pairs the client chose, and no pair of any
    batch fails the program's index check, whichever merges the program skips and
    although every merge of a last stake lowers the stake count. *)
Theorem mergeAllStakes_indices_pass t (c c1 : Client W) vs :
  readValidators t c = (Ok vs, c1) → NoDup (votePubkey <$> vs) →
  ∃ batches subs,
    sent (snd (mergeAllStakes t c)) = sent c ++ subs ∧
    Forall2 (carries_merges t) batches subs ∧ Forall (λ b, 0 < length b ≤ 4)%nat batches ∧
    ∀ flags, length flags = length (concat batches) →
      ∃ cs, process_merges (zip (concat batches) flags) (counts_of vs) = inr cs.
Proof. apply mergeAllStakes_batches. Qed.

End Merging.

(** ** Unstaking *)

Section Unstaking.
Context `{KeysLaws} `{!AddressesDerive} {W : Type} `{!Connection W} `{!ClusterAnswers}
        `{!LamportsExact} `{!Lodash} `{!LodashLaws}.

(** The cluster reported [l] lamports for an account. *)
Definition reported (k : PublicKey) (l : Z) : Prop :=
  ∃ cm w a w', rpc_getAccountInfo k cm w = (Ok (Some a), w') ∧ lamports a = num_of_Z l.

Definition whole_item (v : ValidatorInfo) (i : Z) : UnstakeItem :=
  {| unstake_validator := votePubkey v; sourceIndex := i; splitIndex := None;
     unstake_amount := None |}.

Definition split_item (v : ValidatorInfo) (i free a : Z) : UnstakeItem :=
  {| unstake_validator := votePubkey v; sourceIndex := i; splitIndex := Some free;
     unstake_amount := Some (num_of_Z a) |}.

(** [takes us n]: the items [us] of a validator take [n] lamports out of its
    stakes: whole stakes, of the lamports the cluster reported, and parts. *)
Inductive takes (t : TenderizeProgram) (v : ValidatorInfo) (free : Z)
  : list UnstakeItem → Z → Prop :=
  | takes_nil : takes t v free [] 0
  | takes_stake us n i l :
      takes t v free us n → 0 <= i < stakeCount v → 0 <= l →
      reported (stake_key t (votePubkey v) i) l → takes t v free (us ++ [whole_item v i]) (n + l)
  | takes_part us n i a :
      takes t v free us n → 0 <= i < stakeCount v → 0 <= a < 2 ^ 53 →
      takes t v free (us ++ [split_item v i free a]) (n + a).

(** The loop's state while it goes on, with [left] of [amount] still to take. *)
Definition unstaking t v free (amount : option Z) (c0 : Client W)
    (st : option num * list UnstakeItem) (c : Client W) : Prop :=
  unsent c0 c ∧ ∃ left n, st.1 = num_of_Z <$> left ∧ takes t v free st.2 n ∧
    match amount, left with
    | None, None => True
    | Some a, Some l => 0 <= l < 2 ^ 53 ∧ n + l <= a
    | _, _ => False
    end.

Definition unstaken t v free (amount : option Z) (c0 : Client W)
    (st : option num * list UnstakeItem) (c : Client W) : Prop :=
  unsent c0 c ∧ ∃ n, takes t v free st.2 n ∧ ∀ a, amount = Some a → n <= a.

Lemma unstake_decision_takes t v free i d l amount left n us :
  takes t v free us n → 0 <= i < stakeCount v → 0 <= l < 2 ^ 53 →
  reported (stake_key t (votePubkey v) i) l →
  match amount, left with
  | None, None => True
  | Some a, Some l => 0 <= l < 2 ^ 53 ∧ n + l <= a
  | _, _ => False
  end →
  ∀ c c1 : Client W, unsent c c1 →
  match unstake_decision v free i d (num_of_Z l) (num_of_Z <$> left) us with
  | Continue st => unstaking t v free amount c st c1
  | Break st => unstaken t v free amount c st c1
  end.
Proof.
  intros Ht Hi Hl Hrep Ham c c1 Hc. unfold unstake_decision.
  destruct left as [al|]; cbn [takes_whole fmap option_fmap option_map];
    destruct amount as [a|]; try done.
  - destruct Ham as [Hal Ha]. rewrite num_leb_exact by safe_lia.
    destruct (Z.leb_spec l al) as [Hle|Hlt].
    + split; [done|]. rewrite num_sub_exact by safe_lia.
      destruct (_ && _); cbn [fst snd].
      * exists (Some (al - l)), (n + l). split_and!; [done|apply takes_stake; (done || lia)|lia|lia|lia].
      * exists (Some (al - l)), n. split_and!; [done|done|lia|lia|lia].
    + split; [done|]. destruct (_ && _); cbn [snd].
      * exists (n + al). split; [by apply takes_part|]. intros a' [= <-]. lia.
      * exists n. split; [done|]. intros a' [= <-]. lia.
  - split; [done|]. destruct (_ && _); cbn [fst snd].
    + exists None, (n + l). split_and!; [done|apply takes_stake; (done || lia)|done].
    + exists None, n. done.
Qed.

Lemma unstake_turn_run t v free amount c0 st i (c : Client W) :
  u32 (stakeCount v) → 0 <= i < stakeCount v → unstaking t v free amount c0 st c →
  ∃ r c', unstake_turn t v free st i c = (Ok r, c') ∧
    match r with
    | Continue st' => unstaking t v free amount c0 st' c'
    | Break st' => unstaken t v free amount c0 st' c'
    end.
Proof.
  destruct st as [al us]. intros Hv Hi Hst. pose proof Hst as (Hc & left & n & Hal & Ht & Ham).
  cbn [fst snd] in *. unfold unstake_turn. rewrite lift_bind, getStake_ok by (unfold u32 in *; lia).
  set (k := stake_key t (votePubkey v) i).
  unfold catch, getStakeActivation, getAccountInfo, query, mbind, M_bind.
  destruct (rpc_getStakeActivation k _ (world c)) as [[d|e] w] eqn:Hd; cbn [world].
  2:{ eexists _, _. split; [done|]. split; [done|]. by exists left, n. }
  destruct (rpc_getAccountInfo k _ w) as [[[a|]|e] w'] eqn:Ha.
  2,3: eexists _, _; split; [done|]; split; [done|]; by exists left, n.
  destruct (lamports_exact _ _ _ _ _ Ha) as (l & Hl & Hlr). cbn [not_null mret M_ret]. rewrite Hl, Hal.
  eexists _, _. split; [done|]. apply (unstake_decision_takes t v free i d l amount left n us); try done.
  - by eexists _, _, _, _.
  - by destruct amount, left.
Qed.

Lemma unstake_items_run t v amount (c : Client W) :
  u32 (stakeCount v) → (∀ a, amount = Some a → 0 <= a < 2 ^ 53) →
  ∃ us c' free n, unstake_items t v (num_of_Z <$> amount) c = (Ok us, c') ∧ unsent c c' ∧
    0 <= free <= stakeCount v ∧ takes t v free us n ∧ ∀ a, amount = Some a → n <= a.
Proof.
  intros Hv Ham. unfold unstake_items.
  destruct (free_index_run t v c Hv) as (free & c1 & Hf & Hfr & Hc1). erewrite bind_run by done.
  destruct (for_of_run_break (unstaking t v free amount c) (unstaken t v free amount c)
    (seqZ 0 (stakeCount v)) (num_of_Z <$> amount, []) c1 (unstake_turn t v free))
    as ([al us] & c2 & Hr & Hc2 & n & Ht & Hn).
  - split; [done|]. exists amount, 0. split_and!; [done|constructor|].
    destruct amount as [a|]; [|done]. specialize (Ham a eq_refl). lia.
  - intros st c2 (Hc2 & left & n & Hl & Ht & Hn). split; [done|]. exists n. split; [done|].
    intros a ->. destruct left; [lia|done].
  - intros st c2 i Hi%elem_of_seqZ Hst. apply unstake_turn_run; [done|lia|done].
  - erewrite bind_run by done. exists us, c2, free, n. done.
Qed.

(** ** What reaches the program *)

Definition carries_unstakes (t : TenderizeProgram) (l : list UnstakeInstruction) (s : submission)
  : Prop :=
  ∃ ix, submitted s = [ix] ∧ signers s = [payerAccount t; owner t] ∧
        deserialize_instruction (ix_data ix) = inr (Unstake l).

(** The amount of an item on the wire. *)
Definition item_amount (u : UnstakeItem) : Z :=
  match BigInt (num_or_zero (unstake_amount u)) with Ok z => z | Err _ => 0 end.

Definition unstake_instructions (us : list UnstakeItem) : list UnstakeInstruction :=
  dec_unstake item_amount <$> us.

(** An item for a validator with [n] stakes. *)
Definition item_in_range (v : ValidatorInfo) (u : UnstakeItem) : Prop :=
  unstake_item_ok item_amount u ∧ unstake_validator u = votePubkey v ∧
  0 <= sourceIndex u < stakeCount v ∧ (∀ i, splitIndex u = Some i → 0 <= i <= stakeCount v).

Lemma num_or_zero_safe a : safe a → num_or_zero (Some (num_of_Z a)) = num_of_Z a.
Proof.
  intros Ha. simpl. rewrite truthy_num_of_Z by done. by destruct (Z.eqb_spec a 0) as [->|].
Qed.

Lemma takes_in_range t v free us n :
  takes t v free us n → u32 (stakeCount v) → 0 <= free <= stakeCount v →
  Forall (item_in_range v) us.
Proof.
  intros Ht Hv Hf. induction Ht as [|us n i l Ht IH Hi Hl Hrep|us n i a Ht IH Hi Ha].
  - constructor.
  - apply Forall_app. split; [done|]. constructor; [|constructor].
    split_and!; try done; simpl; try (unfold u32 in *; lia).
    split_and!; try done; simpl; unfold u32 in *; lia.
  - apply Forall_app. split; [done|]. constructor; [|constructor].
    assert (Hb : BigInt (num_or_zero (Some (num_of_Z a))) = Ok a).
    { rewrite num_or_zero_safe, BigInt_num_of_Z by safe_lia. done. }
    split_and!; simpl; try done; [|lia|lia|intros ? [= <-]; lia].
    unfold unstake_item_ok, item_amount. cbn [unstake_amount split_item]. rewrite Hb.
    split_and!; unfold u32, u64 in *; simpl; try done; try lia. intros ? [= <-]. lia.
Qed.

(** Unstakes of a validator pass the checks at any count from its own up, wherever it is
    in the list: the count only grows. *)
Lemma unstakes_pass v us :
  Forall (item_in_range v) us → ∀ pre post n, toBuffer (votePubkey v) ∉ pre.*1 → stakeCount v <= n →
  ∃ n', process_unstakes (unstake_instructions us) (pre ++ (toBuffer (votePubkey v), n) :: post) =
        inr (pre ++ (toBuffer (votePubkey v), n') :: post).
Proof.
  induction 1 as [|u us (_ & Hval & Hs & Hi) _ IH]; intros pre post n Hpre Hn; [by exists n|].
  cbn [unstake_instructions fmap list_fmap process_unstakes].
  assert (Hu : ∃ n1, unstake_count (dec_unstake item_amount u) n = inr n1 ∧ stakeCount v <= n1).
  { unfold unstake_count. cbn [dec_unstake ui_source_index ui_split_index].
    rewrite (proj2 (Z.leb_gt _ _)) by lia.
    assert (Hspl : index_or (splitIndex u) (sourceIndex u) <= stakeCount v).
    { unfold index_or. destruct (splitIndex u) as [i|]; [|lia]. specialize (Hi i eq_refl).
      destruct (i =? 0); lia. }
    rewrite (proj2 (Z.ltb_ge _ _)) by lia.
    destruct (_ =? sourceIndex u); [by exists n|]. destruct (_ =? n); eexists; (split; [done|lia]). }
  destruct Hu as (n1 & Hu & Hn1).
  pose proof (update_count_at (toBuffer (votePubkey v)) _ n n1 pre post Hpre Hu) as Hat.
  cbn [dec_unstake ui_validator_address]. rewrite Hval, Hat. by apply IH.
Qed.

(** A turn adds at most one item. *)
Lemma unstake_turn_adds t v free st i (c c' : Client W) r :
  unstake_turn t v free st i c = (Ok r, c') →
  (length (match r with Continue st' | Break st' => snd st' end) ≤ S (length (snd st)))%nat.
Proof.
  destruct st as [al us]. cbn [snd]. unfold unstake_turn, catch, mbind, M_bind, lift.
  assert (Hdec : ∀ d l, (length (match unstake_decision v free i d l al us with
    Continue st' | Break st' => snd st' end) ≤ S (length us))%nat).
  { intros d l. unfold unstake_decision. repeat case_match; simplify_eq; cbn [snd]; rewrite ?length_app; cbn; lia. }
  destruct (getStakeForValidator _ _ _); [|done].
  destruct (getStakeActivation _ _ c) as [[d|e] c1]; [|intros [= <- _]; cbn; lia].
  destruct (getAccountInfo _ _ c1) as [[[?|]|?] c2]; [|intros [= <- _]; cbn; lia..].
  cbn. intros [= <- _]. apply Hdec.
Qed.

Lemma unstake_items_length t v amount (c c' : Client W) us :
  unstake_items t v amount c = (Ok us, c') → (length us ≤ Z.to_nat (stakeCount v))%nat.
Proof.
  unfold unstake_items, mbind, M_bind. destruct (free_index t v c) as [[free|e] c1]; [|done].
  assert (Hfor : ∀ idx st (c c' : Client W) st', for_of idx st (unstake_turn t v free) c = (Ok st', c') →
    (length (snd st') ≤ length (snd st) + length idx)%nat).
  { clear. induction idx as [|i idx IH]; intros st c c' st'; cbn [for_of].
    { intros [= <- _]. cbn. lia. }
    unfold mbind, M_bind. destruct (unstake_turn t v free st i c) as [[r|e] c1] eqn:E; [|done].
    apply unstake_turn_adds in E. destruct r as [st1|st1].
    - intros Hf%IH. cbn. lia.
    - intros [= <- _]. cbn. lia. }
  destruct (for_of _ _ _ c1) as [[[al us']|e] c2] eqn:E; [|done]. apply Hfor in E.
  rewrite length_seqZ in E. cbn in *. intros [= <- _]. lia.
Qed.

Lemma chunk_unstakes t us :
  Forall (unstake_item_ok item_amount) us →
  ∃ g, ∀ ch, ch ∈ chunk us 4 → (0 < length ch ≤ 4)%nat ∧
    unstakeInstruction t ch = Ok (g ch) ∧
    deserialize_instruction (ix_data (g ch)) = inr (Unstake (unstake_instructions ch)).
Proof.
  intros Hus.
  exists (λ ch, match unstakeInstruction t ch with
                | Ok ix => ix
                | Err _ => {| ix_keys := []; ix_programId := programId t; ix_data := [] |}
                end).
  intros ch Hch. assert (Hlen : (0 < length ch ≤ 4)%nat) by (eapply length_chunk; [lia|done]).
  split; [done|]. edestruct (unstake_wire t ch item_amount) as (ix & Hix & Hd & _).
  { intros u Hu. rewrite Forall_forall in Hus. apply Hus.
    rewrite <- (concat_chunk _ us 4) by lia. by apply (elem_of_concat _ ch). }
  { unfold u32. lia. }
  { by destruct ch; [simpl in Hlen; lia|]. }
  by rewrite Hix.
Qed.

(** The batches of unstakes the client submits: items that take at most the requested
    amount, in order, in batches of one to four that the program decodes, all of them when
    the call returns, which pass the index checks wherever the validator is in the list. *)
Lemma unstake_batches t v amount (c : Client W) :
  u32 (stakeCount v) → (∀ a, amount = Some a → 0 <= a < 2 ^ 53) →
  ∃ us free n batches subs,
    takes t v free us n ∧ (∀ a, amount = Some a → n <= a) ∧
    sent (snd (unstake t v (num_of_Z <$> amount) c)) = sent c ++ subs ∧
    Forall2 (carries_unstakes t) batches subs ∧ Forall (λ b, 0 < length b ≤ 4)%nat batches ∧
    concat batches `prefix_of` unstake_instructions us ∧
    (fst (unstake t v (num_of_Z <$> amount) c) = Ok tt → concat batches = unstake_instructions us) ∧
    (length us ≤ Z.to_nat (stakeCount v))%nat ∧
    ∀ pre post, toBuffer (votePubkey v) ∉ pre.*1 →
      ∃ cs, process_unstakes (concat batches) (pre ++ (toBuffer (votePubkey v), stakeCount v) :: post) = inr cs.
Proof.
  intros Hv Ham. destruct (unstake_items_run t v amount c Hv Ham) as (us & c1 & free & n & Hr & Hc & Hf & Ht & Hn).
  pose proof (takes_in_range _ _ _ _ _ Ht Hv Hf) as Hitems.
  destruct (chunk_unstakes t us) as [g Hg]; [by eapply Forall_impl; [done|intros u [? _]]|].
  unfold unstake. erewrite bind_run by done.
  destruct (for_each_send (unstakeInstruction t) g [payerAccount t; owner t] (chunk us 4) c1)
    as (front & back & subs & Hfb & Hsent & Hall & Hend); [intros ch Hch; by apply Hg|].
  assert (Hfront : ∀ ch, ch ∈ front → ch ∈ chunk us 4) by (rewrite Hfb; set_solver).
  assert (Hcf : concat (unstake_instructions <$> front) = unstake_instructions (concat front)).
  { clear. unfold unstake_instructions. induction front as [|x l IHl]; [done|].
    rewrite fmap_cons. cbn [concat]. by rewrite fmap_app, IHl. }
  apply chunk_concat_prefix in Hfb as Hus.
  exists us, free, n, (unstake_instructions <$> front), subs. rewrite Hcf. split_and!; [done|done| | | | | | |].
  - unfold unsent in Hc. by rewrite <- Hc.
  - apply Forall2_fmap_l. eapply Forall2_impl_in; [done|].
    intros ch s Hch [Hs1 Hs2]. exists (g ch). split_and!; [done|done|]. by apply Hg, Hfront.
  - apply Forall_fmap, Forall_forall. intros ch Hch. unfold compose, unstake_instructions.
    rewrite length_fmap. by apply Hg, Hfront.
  - exists (unstake_instructions (concat back)). unfold unstake_instructions. by rewrite <- fmap_app, <- Hus.
  - intros Hok. rewrite (Hend Hok) in Hus. rewrite Hus at 1. simpl. by rewrite app_nil_r.
  - by eapply unstake_items_length.
  - rewrite Hus in Hitems. apply Forall_app in Hitems as [Hitems _]. intros pre post Hpre.
    destruct (unstakes_pass v _ Hitems pre post (stakeCount v) Hpre) as [n' Hn']; [lia|]. by eexists.
Qed.

End Unstaking.

(** ** On a cluster nobody else changes *)

Section Stable.
Context `{KeysLaws} `{!AddressesDerive} {W : Type} `{!Connection W} `{!StableCluster}
        `{!Lodash} `{!LodashLaws}.

Definition slot_free (t : TenderizeProgram) (v : ValidatorInfo) (w : W) (i : Z) : bool :=
  is_free (info_at w (stake_key t (votePubkey v) i)).

Lemma stable_getAccountInfo k cm (c : Client W) :
  getAccountInfo k cm c = (Ok (info_at (world c) k), c).
Proof. unfold getAccountInfo, query. rewrite stable_info. by destruct c. Qed.

Lemma stable_getStakeActivation k cm (c : Client W) :
  getStakeActivation k cm c = (activation_at (world c) k, c).
Proof. unfold getStakeActivation, query. rewrite stable_activation. by destruct c. Qed.

(** The loop without the cluster: the last free slot, if there is one. *)
Lemma free_index_stable t v (c : Client W) :
  u32 (stakeCount v) →
  free_index t v c =
  (Ok (foldl (λ r i, if slot_free t v (world c) i then i else r) (stakeCount v)
             (seqZ 0 (stakeCount v))), c).
Proof.
  intros Hv. unfold free_index.
  assert (Hall : ∀ i, i ∈ seqZ 0 (stakeCount v) → u32 i).
  { intros i ?%elem_of_seqZ. unfold u32 in *. lia. }
  generalize (stakeCount v) at 2 3 as r. induction (seqZ 0 (stakeCount v)) as [|i l IH]; intros r; [done|].
  cbn [for_of foldl]. unfold mbind at 1, M_bind at 1.
  rewrite lift_bind, getStake_ok by (apply Hall; set_solver).
  erewrite bind_run by apply stable_getAccountInfo. cbn [mret M_ret].
  rewrite IH by (intros; apply Hall; set_solver). done.
Qed.

Lemma foldl_last (p : Z → bool) l r :
  let x := foldl (λ r i, if p i then i else r) r l in
  (x = r ∧ Forall (λ i, p i = false) l) ∨
  (∃ l1 l2, l = l1 ++ x :: l2 ∧ p x = true ∧ Forall (λ i, p i = false) l2).
Proof.
  induction l as [|i l IH] using rev_ind; simpl; [by left|]. rewrite foldl_snoc.
  destruct (p i) eqn:Hp.
  - right. exists l, []. done.
  - destruct IH as [[Hx Hl]|(l1 & l2 & Hl & Hx & Hl2)].
    + left. split; [done|]. apply Forall_app. by repeat constructor.
    + right. exists l1, (l2 ++ [i]). rewrite Hl at 1. rewrite <- app_assoc. split_and!; [done|done|].
      apply Forall_app. by repeat constructor.
Qed.

(** The loop for the first free slot finds the last one: it does not stop at
    the first.  It returns a free slot with no free slot after it, or the stake
    count when no slot is free. *)
Theorem free_index_is_last t v (c : Client W) :
  u32 (stakeCount v) →
  ∃ i, free_index t v c = (Ok i, c) ∧
    ((i = stakeCount v ∧ ∀ j, 0 <= j < stakeCount v → slot_free t v (world c) j = false) ∨
     (0 <= i < stakeCount v ∧ slot_free t v (world c) i = true ∧
      ∀ j, i < j < stakeCount v → slot_free t v (world c) j = false)).
Proof.
  intros Hv. rewrite free_index_stable by done. eexists. split; [done|].
  pose proof (foldl_last (slot_free t v (world c)) (seqZ 0 (stakeCount v)) (stakeCount v)) as Hl.
  cbv zeta in Hl. destruct Hl as [[-> Hall]|(l1 & l2 & Hl & Hx & Hall)].
  - left. split; [done|]. intros j Hj. rewrite Forall_forall in Hall. apply Hall, elem_of_seqZ. lia.
  - right. set (x := foldl _ _ _) in *.
    assert (Hin : x ∈ seqZ 0 (stakeCount v)) by (rewrite Hl; set_solver).
    apply elem_of_seqZ in Hin. split_and!; [lia|lia|done|]. intros j Hj.
    assert (Hjin : j ∈ seqZ 0 (stakeCount v)) by (apply elem_of_seqZ; lia).
    pose proof (seqZ_sorted 0 (stakeCount v)) as Hs. rewrite Hl in Hs, Hjin.
    change (x :: l2) with ([x] ++ l2) in Hs. rewrite app_assoc in Hs.
    apply StronglySorted_app in Hs as (Hlt & Hs & _). apply StronglySorted_app in Hs as (Hlt1 & _ & _).
    apply elem_of_app in Hjin as [Hjin|Hjin].
    { specialize (Hlt1 j x Hjin ltac:(set_solver)). lia. }
    apply elem_of_cons in Hjin as [->|Hjin]; [lia|]. rewrite Forall_forall in Hall. by apply Hall.
Qed.

(** A stake that [unstakeAll] stops: some of it is active, it is not on its way
    out, and the cluster knows it. *)
Definition stoppable (t : TenderizeProgram) (v : ValidatorInfo) (w : W) (i : Z) : bool :=
  match activation_at w (stake_key t (votePubkey v) i), info_at w (stake_key t (votePubkey v) i) with
  | Ok d, Some _ =>
      num_ltb (num_of_Z 0) (activation_active d)
      && (bool_decide (activation_state d = active_) || bool_decide (activation_state d = activating_))
  | _, _ => false
  end.

Lemma unstake_turn_all t v free us i (c : Client W) :
  u32 i →
  unstake_turn t v free (None, us) i c =
  (Ok (Continue (None, if stoppable t v (world c) i then us ++ [whole_item v i] else us)), c).
Proof.
  intros Hi. unfold unstake_turn. rewrite lift_bind, getStake_ok by done. unfold stoppable, catch.
  unfold mbind, M_bind. rewrite stable_getStakeActivation.
  destruct (activation_at (world c) _) as [d|e]; [|done]. rewrite stable_getAccountInfo.
  destruct (info_at (world c) _) as [a|]; [|done]. cbn [not_null mret M_ret].
  unfold unstake_decision. cbn [takes_whole]. done.
Qed.

(** The items of an unlimited [unstake]: one for every stake that can be stopped. *)
Lemma unstake_items_all t v (c : Client W) :
  u32 (stakeCount v) →
  unstake_items t v None c =
  (Ok (whole_item v <$> filter (λ i, stoppable t v (world c) i = true) (seqZ 0 (stakeCount v))), c).
Proof.
  intros Hv. unfold unstake_items. erewrite bind_run by (by apply free_index_stable).
  generalize (foldl (λ r i, if slot_free t v (world c) i then i else r) (stakeCount v)
    (seqZ 0 (stakeCount v))) as free. intros free.
  assert (Hall : ∀ i, i ∈ seqZ 0 (stakeCount v) → u32 i).
  { intros i ?%elem_of_seqZ. unfold u32 in *. lia. }
  assert (Hloop : ∀ us, for_of (seqZ 0 (stakeCount v)) (None, us) (unstake_turn t v free) c =
    (Ok (None, us ++ (whole_item v <$> filter (λ i, stoppable t v (world c) i = true)
                                             (seqZ 0 (stakeCount v)))), c)).
  { induction (seqZ 0 (stakeCount v)) as [|i l IH]; intros us; [by rewrite app_nil_r|].
    cbn [for_of]. erewrite bind_run by (by apply unstake_turn_all, Hall; set_solver).
    cbv beta iota. rewrite IH by (intros; apply Hall; set_solver). rewrite filter_cons.
    destruct (stoppable t v (world c) i) eqn:Hst.
    - rewrite decide_True by done. by rewrite <- app_assoc.
    - by rewrite decide_False. }
  erewrite bind_run by apply Hloop. done.
Qed.

(** C15: unstaking without an amount, on a stable cluster, stops exactly the stakes
    of the validator that can be stopped, each as a whole, in index order and in
    batches of four. *)
Theorem unstake_everything t v (c : Client W) :
  u32 (stakeCount v) →
  unstake t v None c =
  for_each (chunk (whole_item v <$> filter (λ i, stoppable t v (world c) i = true)
                                           (seqZ 0 (stakeCount v))) 4)
    (λ ch, send_built (unstakeInstruction t ch) [payerAccount t; owner t]) c.
Proof. intros Hv. unfold unstake. by erewrite bind_run by (by apply unstake_items_all). Qed.

End Stable.

(** ** On a concrete pool *)

(** A validator with three active stakes and one without any. *)
Definition staked_client : Client SampleCluster :=
  sample_client [sample_validator 0 9000000000 3; sample_validator 1 0 0] []
    [(sample_stake 0 0, 3000000000, active_stake 3000000000);
     (sample_stake 0 1, 2000000000, active_stake 2000000000);
     (sample_stake 0 2, 4000000000, active_stake 4000000000)].

Lemma mergeAllStakes_indices_pass_witness :
  ∃ batches subs,
    sent (snd (mergeAllStakes sample_pool staked_client)) = [] ++ subs ∧
    Forall2 (carries_merges sample_pool) batches subs ∧ Forall (λ b, 0 < length b ≤ 4)%nat batches ∧
    ∀ flags, length flags = length (concat batches) →
      ∃ cs, process_merges (zip (concat batches) flags)
              (counts_of [sample_info 0 9000000000 3; sample_info 1 0 0]) = inr cs.
Proof.
  apply (mergeAllStakes_indices_pass sample_pool staked_client staked_client
           [sample_info 0 9000000000 3; sample_info 1 0 0]).
  - reflexivity.
  - apply (bool_decide_unpack _). reflexivity.
Defined.

(** The instructions of the submitted batches of unstakes. *)
Definition submitted_unstakes (subs : list submission) : list UnstakeInstruction :=
  concat ((λ s, concat ((λ ix, match deserialize_instruction (ix_data ix) with
                               | inr (Unstake l) => l
                               | _ => []
                               end) <$> submitted s)) <$> subs).

Lemma free_index_is_last_witness :
  ∃ i, free_index sample_pool (sample_info 0 0 3)
         (sample_client [] [] [(sample_stake 0 1, 1, active_stake 1)]) =
       (Ok i, sample_client [] [] [(sample_stake 0 1, 1, active_stake 1)]) ∧
    ((i = 3 ∧ ∀ j, 0 <= j < 3 → slot_free sample_pool (sample_info 0 0 3)
        (world (sample_client [] [] [(sample_stake 0 1, 1, active_stake 1)])) j = false) ∨
     (0 <= i < 3 ∧ slot_free sample_pool (sample_info 0 0 3)
        (world (sample_client [] [] [(sample_stake 0 1, 1, active_stake 1)])) i = true ∧
      ∀ j, i < j < 3 → slot_free sample_pool (sample_info 0 0 3)
        (world (sample_client [] [] [(sample_stake 0 1, 1, active_stake 1)])) j = false)).
Proof.
  apply (free_index_is_last sample_pool (sample_info 0 0 3)). unfold u32. simpl. lia.
Defined.

Lemma unstake_everything_witness :
  unstake sample_pool (sample_info 0 9000000000 3) None staked_client =
  for_each (chunk (whole_item (sample_info 0 9000000000 3) <$>
                   filter (λ i, stoppable sample_pool (sample_info 0 9000000000 3) (world staked_client) i = true)
                          (seqZ 0 3)) 4)
    (λ ch, send_built (unstakeInstruction sample_pool ch) [payerAccount sample_pool; owner sample_pool])
    staked_client.
Proof. apply (unstake_everything sample_pool (sample_info 0 9000000000 3)). unfold u32. simpl. lia. Defined.

(** A validator whose slot 0 was emptied; 10 SOL are staked in slot 1. *)
Definition hollow_client : Client SampleCluster :=
  sample_client [sample_validator 0 10000000000 2] []
    [(sample_stake 0 1, 10000000000, active_stake 10000000000)].

