(* ===== verification/Creditors.v ===== *)
(** * Paying the creditors (experiment/tenderize.ts)

    [payCreditorsInstruction], [payCreditors] and [payAllCreditors], against the loop of
    the processor ([pay_credits] of Processor.v) that pays the listed accounts: the
    client lists the targets of the first creditors, the program walks its list along
    them. *)

From Stdlib Require Import ZArith Lia.
From stdpp Require Import base list strings sets.
From coqutil Require Import Byte.
From S2P Require Import Prelude JsNumber Buffers Program Chain Processor Web3 Sample Instructions SamplePool.
From S2P Require Import Wire Readers Operations Accounts.

Open Scope Z_scope.

Section Creditors.
Context `{Keys} {W : Type} `{!Connection W}.

(** [for (let i = 0; ((maxCount <= 0) || (i < maxCount)) && (i < creditors.length); ++i)]. *)
Fixpoint creditor_keys (maxCount i : Z) (creditors : list Creditor) : list AccountMeta :=
  match creditors with
  | [] => []
  | c :: cs =>
      if (maxCount <=? 0) || (i <? maxCount)
      then writable (target c) :: creditor_keys maxCount (i + 1) cs else []
  end.

Definition payCreditorsInstruction (t : TenderizeProgram) (maxCount : Z)
  : M (Client W) TransactionInstruction :=
  '(data, _) ← lift (writeUInt8 (alloc 1) 15 0);
  state ← readState t false;
  withdrawAuthority ← lift (getWithdrawAuthority t);
  reserve ← lift (getReserveAddress t);
  s ← not_null state;
  let keys :=
    [writable (publicKey (stakePool t)); writable (publicKey (creditListAccount t));
     readonly withdrawAuthority; writable reserve; writable (state_creditReserve s);
     writable (poolMintToken t); readonly SYSVAR_RENT_PUBKEY; readonly SYSVAR_CLOCK_PUBKEY;
     readonly (val SystemProgram_programId); readonly SPL_TOKEN_PROGRAM_ID] in
  creditors ← readCreditors t;
  mret {| ix_keys := keys ++ creditor_keys maxCount 0 creditors; ix_programId := programId t;
          ix_data := data |}.

Definition payCreditors (t : TenderizeProgram) (maxCount : Z) : M (Client W) unit :=
  ix ← payCreditorsInstruction t maxCount;
  sendAndConfirmTransaction [ix] [payerAccount t].

(** The loop of [payAllCreditors]; [None] when the fuel is used up. *)
Fixpoint pay_loop (fuel : nat) (t : TenderizeProgram) (creditors : list Creditor)
  : M (Client W) (option unit) :=
  if (length creditors =? 0)%nat then mret (Some tt)
  else match fuel with
  | O => mret None
  | S fuel' =>
      let oldLength := length creditors in
      _ ← payCreditors t 30;
      creditors' ← readCreditors t;
      if (length creditors' =? oldLength)%nat then mret (Some tt)
      else pay_loop fuel' t creditors'
  end.

Definition payAllCreditors (fuel : nat) (t : TenderizeProgram) : M (Client W) (option unit) :=
  creditors ← readCreditors t;
  pay_loop fuel t creditors.

End Creditors.

(** ** The accounts of the instruction *)

Section Paying.
Context `{KeysLaws} `{!AddressesDerive} {W : Type} `{!Connection W}.

Lemma creditor_keys_take maxCount i cs :
  creditor_keys maxCount i cs =
  (λ c, writable (target c)) <$>
    (if maxCount <=? 0 then cs else take (Z.to_nat (maxCount - i)) cs).
Proof.
  revert i; induction cs as [|c cs IH]; intros i; [by destruct (maxCount <=? 0); rewrite ?take_nil|].
  cbn [creditor_keys]. rewrite IH. destruct (Z.leb_spec maxCount 0); [done|]. cbn [orb].
  destruct (Z.ltb_spec i maxCount).
  - replace (Z.to_nat (maxCount - i)) with (S (Z.to_nat (maxCount - (i + 1)))) by lia. done.
  - replace (Z.to_nat (maxCount - i)) with 0%nat by lia. done.
Qed.

(** The roles of the instruction's accounts; the credit reserve is the one the
    pool's state names. *)
Definition pay_role (t : TenderizeProgram) (s : State) (ro : AccountRole) : option PublicKey :=
  match ro with
  | R_CreditReserve => Some (state_creditReserve s)
  | _ => role_key t RUpdatePool ro
  end.

(** The instruction, once the state and the credit list have been read. *)
Lemma payCreditors_built t maxCount (c c1 c2 : Client W) s cs :
  readState t false c = (Ok (Some s), c1) → readCreditors t c1 = (Ok cs, c2) →
  ∃ ix, payCreditorsInstruction t maxCount c = (Ok ix, c2) ∧
    deserialize_instruction (ix_data ix) = inr PayCreditors ∧
    accounts_served (pay_role t s) PayCreditors ix ∧
    drop 10 (ix_keys ix) =
      (λ cr, writable (target cr)) <$>
        (if maxCount <=? 0 then cs else take (Z.to_nat maxCount) cs).
Proof.
  intros Hs Hc. unfold payCreditorsInstruction. rewrite lift_bind, write_tag by lia.
  erewrite bind_run by done. rewrite lift_bind, getWithdraw_ok, lift_bind, getReserve_ok.
  cbn [not_null]. rewrite ret_bind. erewrite bind_run by done. eexists. split; [done|].
  rewrite creditor_keys_take, Z.sub_0_r.
  split_and!; [done| |done]. unfold accounts_served. by repeat constructor.
Qed.

(** Once the pool's state and the credit list have been read, paying creditors
    submits exactly one transaction, which the program decodes as such: its fixed
    accounts are the ones the program takes, with their privileges, the credit reserve
    being the one the pool's state names; and they are followed by the targets of the
    first creditors of the list, writable, in the order of the list: all of them, or
    the first [maxCount] if that is positive. *)
Theorem payCreditors_accounts t maxCount (c c1 c2 : Client W) s cs :
  readState t false c = (Ok (Some s), c1) → readCreditors t c1 = (Ok cs, c2) →
  ∃ ix ok, sent (snd (payCreditors t maxCount c)) =
      sent c ++ [{| submitted := [ix]; signers := [payerAccount t]; confirmed := ok |}] ∧
    (ok = true ↔ fst (payCreditors t maxCount c) = Ok tt) ∧
    deserialize_instruction (ix_data ix) = inr PayCreditors ∧
    accounts_served (pay_role t s) PayCreditors ix ∧
    drop 10 (ix_keys ix) =
      (λ cr, writable (target cr)) <$>
        (if maxCount <=? 0 then cs else take (Z.to_nat maxCount) cs).
Proof.
  intros Hs Hc. destruct (payCreditors_built t maxCount c c1 c2 s cs Hs Hc) as (ix & Hix & Hrest).
  pose proof (readState_quiet t false c) as Hq1. rewrite Hs in Hq1.
  pose proof (readCreditors_quiet t c1) as Hq2. rewrite Hc in Hq2. cbn [snd] in *.
  unfold payCreditors. erewrite bind_run by done.
  destruct (send_always [ix] [payerAccount t] c2) as (ok & Hsent & Hok).
  exists ix, ok. split; [by rewrite Hsent, Hq2, Hq1|]. split; [exact Hok|exact Hrest].
Qed.

(** The accounts the program gets for creditors, given which of them the system
    program owns. *)
Definition users_of (cs : list Creditor) (system : PublicKey → bool) : list (buffer * bool) :=
  (λ cr, (toBuffer (target cr), system (target cr))) <$> cs.

(** Along the list the client read, the program never meets an account it does not
    expect. *)
Lemma pay_credits_in_order sp available system ps cs n total invalid :
  Forall2 creditor_view ps cs →
  pay_credits sp available (users_of (take n cs) system) ps total invalid ≠ inl InvalidArgument.
Proof.
  intros Hv. revert sp n total invalid.
  induction Hv as [|p c ps cs (Ht & _) _ IH]; intros sp n total invalid.
  { by rewrite take_nil. }
  destruct n as [|n]; [done|]. cbn [take users_of fmap list_fmap pay_credits].
  rewrite (proj2 (bytes_eqb_true _ _)) by done. cbn [negb].
  destruct (negb _); [apply IH|]. destruct (calc_lamports_amount _ _) as [a|]; [|done].
  destruct (_ <? _); [done|]. unfold users_of in IH.
  set (r := pay_credits _ _ _ ps _ _). assert (Hr : r ≠ inl InvalidArgument) by apply IH.
  by destruct r as [[]|[]].
Qed.

(** C17: the creditors the client lists are the ones the program expects: if the
    credit list is the one the client read, the program does not reject the
    accounts, however many of them are listed and whoever owns them. *)
Theorem payCreditors_order_accepted t maxCount (c c1 c2 c' : Client W) s cs ps ix sp available
    (system : PublicKey → bool) :
  readState t false c = (Ok (Some s), c1) → readCreditors t c1 = (Ok cs, c2) →
  payCreditorsInstruction t maxCount c = (Ok ix, c') → Forall2 creditor_view ps cs →
  pay_credits sp available
    ((λ m, (toBuffer (pubkey m), system (pubkey m))) <$> drop 10 (ix_keys ix)) ps 0 []
  ≠ inl InvalidArgument.
Proof.
  intros Hs Hc Hix Hv. destruct (payCreditors_built t maxCount c c1 c2 s cs Hs Hc) as (ix' & Hix' & _ & _ & Hk).
  rewrite Hix in Hix'. injection Hix' as <- <-. rewrite Hk.
  rewrite <- list_fmap_compose. destruct (maxCount <=? 0).
  - rewrite <- (take_ge cs (length cs)) at 1 by lia. by apply pay_credits_in_order.
  - by apply pay_credits_in_order.
Qed.

(** ** The loop over all creditors *)

(** Paying does not make the list longer (nobody adds a credit meanwhile). *)
Definition paying_shrinks (t : TenderizeProgram) : Prop :=
  ∀ (c c1 c2 c3 : Client W) cs cs',
    readCreditors t c = (Ok cs, c1) → payCreditors t 30 c1 = (Ok tt, c2) →
    readCreditors t c2 = (Ok cs', c3) → (length cs' ≤ length cs)%nat.

Lemma pay_loop_ends t fuel cs (c c0 : Client W) :
  paying_shrinks t → readCreditors t c0 = (Ok cs, c) → (length cs ≤ fuel)%nat →
  fst (pay_loop fuel t cs c) ≠ Ok None.
Proof.
  intros Hsh. revert cs c c0. induction fuel as [|fuel IH]; intros cs c c0 Hread Hf.
  { by destruct cs; [|simpl in Hf; lia]. }
  cbn [pay_loop]. destruct (Nat.eqb_spec (length cs) 0) as [|Hz]; [done|].
  unfold mbind, M_bind. destruct (payCreditors t 30 c) as [[[]|e] c1] eqn:Hpay; [|done].
  destruct (readCreditors t c1) as [[cs'|e] c2] eqn:Hread'; [|done].
  destruct (Nat.eqb_spec (length cs') (length cs)) as [|Hne]; [done|].
  pose proof (Hsh _ _ _ _ _ _ Hread Hpay Hread'). by apply (IH _ _ c1); [|lia].
Qed.

(** C16: paying all creditors ends: while nobody adds credits, the loop makes at
    most one turn per creditor, so the run does not use up that much fuel. *)
Theorem payAllCreditors_ends t (c c1 : Client W) cs :
  paying_shrinks t → readCreditors t c = (Ok cs, c1) →
  fst (payAllCreditors (length cs) t c) ≠ Ok None.
Proof.
  intros Hsh Hread. unfold payAllCreditors. erewrite bind_run by done.
  by apply (pay_loop_ends t _ cs c1 c).
Qed.

End Paying.

(** ** On a concrete pool *)

(** The sample pool with enough in it for the creditors. *)
Definition large_pool : StakePool := with_totals 20000000000 20000000000 sample_pool_state.

Definition three_creditors : Client SampleCluster :=
  sample_client [] [(201, 5000000000); (202, 6000000000); (203, 7000000000)] [].

Definition ok_or {A} (x : A) (r : result A) : A := match r with Ok a => a | Err _ => x end.

Definition sample_state : State :=
  {| version := 1; state_owner := publicKey (owner sample_pool);
     validatorStakeList := publicKey (validatorStakeListAccount sample_pool);
     creditList := publicKey (creditListAccount sample_pool); poolMint := poolMintToken sample_pool;
     ownerFeeAccount := ownersFee sample_pool; state_creditReserve := creditReserve sample_pool;
     tokenProgram := SPL_TOKEN_PROGRAM_ID; stakeTotal := 4000000000; poolTotal := 3900000000;
     lastEpochUpdate := 7; state_feeDenominator := 1000; state_feeNumerator := 1 |}.

Definition sample_pay_ix (n : Z) : TransactionInstruction :=
  ok_or {| ix_keys := []; ix_programId := programId sample_pool; ix_data := [] |}
        (fst (payCreditorsInstruction sample_pool n three_creditors)).

Lemma payCreditors_accounts_witness :
  ∃ ix ok, sent (snd (payCreditors sample_pool 2 three_creditors)) =
      [] ++ [{| submitted := [ix]; signers := [payerAccount sample_pool]; confirmed := ok |}] ∧
    (ok = true ↔ fst (payCreditors sample_pool 2 three_creditors) = Ok tt) ∧
    deserialize_instruction (ix_data ix) = inr PayCreditors ∧
    accounts_served (pay_role sample_pool sample_state) PayCreditors ix ∧
    drop 10 (ix_keys ix) =
      (λ cr, writable (target cr)) <$>
        take 2 [sample_owed 201 5000000000; sample_owed 202 6000000000; sample_owed 203 7000000000].
Proof.
  apply (payCreditors_accounts sample_pool 2 three_creditors three_creditors three_creditors
    sample_state [sample_owed 201 5000000000; sample_owed 202 6000000000;
              sample_owed 203 7000000000]); reflexivity.
Defined.

Lemma payCreditors_order_accepted_witness :
  pay_credits large_pool 100000000000
    ((λ m, (toBuffer (pubkey m), true)) <$> drop 10 (ix_keys (sample_pay_ix 2)))
    [sample_credit_record 201 5000000000; sample_credit_record 202 6000000000; sample_credit_record 203 7000000000] 0 []
  ≠ inl InvalidArgument.
Proof.
  apply (payCreditors_order_accepted sample_pool 2 three_creditors three_creditors three_creditors
    three_creditors sample_state [sample_owed 201 5000000000; sample_owed 202 6000000000;
              sample_owed 203 7000000000] _ (sample_pay_ix 2) large_pool 100000000000 (λ _, true));
    [reflexivity|reflexivity|reflexivity|].
  repeat (apply Forall2_cons; split; [split_and!; unfold u64_of; simpl; (done || lia)|]).
  constructor.
Defined.

(** The sample cluster never changes, so a computation that only asks gives the same
    answer at any time. *)
Definition steady {A} (m : M (Client SampleCluster) A) : Prop :=
  ∀ c, world (snd (m c)) = world c ∧ ∀ c', world c' = world c → fst (m c') = fst (m c).

Lemma steady_bind {A B} (m : M (Client SampleCluster) A) (f : A → M (Client SampleCluster) B) :
  steady m → (∀ a, steady (f a)) → steady (m ≫= f).
Proof.
  intros Hm Hf c. unfold mbind, M_bind. destruct (Hm c) as [Hw Hr].
  destruct (m c) as [r c1] eqn:Hc. cbn [fst snd] in *.
  assert (Hsame : ∀ c', world c' = world c →
    match m c' with (Ok a, s') => fst (f a s') | (Err e, s') => Err e end =
    match r with Ok a => fst (f a c1) | Err e => Err e end).
  { intros c' Hc'. destruct (Hm c') as [Hw' _]. specialize (Hr c' Hc').
    destruct (m c') as [r' c1']. cbn [fst snd] in *. subst r'. destruct r as [a|e]; [|done].
    apply (Hf a c1). congruence. }
  split.
  - destruct r as [a|e]; [|done]. destruct (Hf a c1) as [Hw1 _]. congruence.
  - intros c' Hc'. specialize (Hsame c' Hc'). by destruct (m c') as [[]?], r.
Qed.

Lemma steady_query {A} (f : SampleCluster → result A * SampleCluster) :
  (∀ w, snd (f w) = w) → steady (query f).
Proof.
  intros Hf c. unfold query. split.
  - specialize (Hf (world c)). by destruct (f (world c)).
  - intros c' ->. by destruct (f (world c)).
Qed.

Lemma steady_const {A} (r : result A) : steady (λ c, (r, c)).
Proof. by intros c. Qed.

Lemma steady_not_null {A} (x : option A) : steady (not_null x).
Proof. destruct x; apply steady_const. Qed.

Lemma steady_readState t : steady (readState t false).
Proof.
  apply steady_bind; [by apply steady_query|]. intros a.
  apply steady_bind; [apply steady_const|]. intros _.
  destruct a as [i|]; [|apply steady_const].
  destruct (length (account_data i) =? 0)%nat; [apply steady_const|].
  apply steady_bind; [apply steady_const|]. intros s. apply steady_const.
Qed.

Lemma steady_readCreditors t : steady (readCreditors t).
Proof.
  apply steady_bind; [apply steady_readState|]. intros s.
  apply steady_bind; [apply steady_not_null|]. intros st.
  apply steady_bind; [by apply steady_query|]. intros a.
  apply steady_bind; [apply steady_not_null|]. intros i. apply steady_const.
Qed.

Lemma steady_payCreditorsInstruction t n : steady (payCreditorsInstruction t n).
Proof.
  apply steady_bind; [apply steady_const|]. intros [d p].
  apply steady_bind; [apply steady_readState|]. intros s.
  apply steady_bind; [apply steady_const|]. intros k.
  apply steady_bind; [apply steady_const|]. intros k'.
  apply steady_bind; [apply steady_not_null|]. intros st.
  apply steady_bind; [apply steady_readCreditors|]. intros cs. apply steady_const.
Qed.

Lemma sample_paying_shrinks : paying_shrinks (W := SampleCluster) sample_pool.
Proof.
  intros c c1 c2 c3 cs cs' Hread Hpay Hread'.
  destruct (steady_readCreditors sample_pool c) as [Hw Hr]. rewrite Hread in Hw, Hr.
  unfold payCreditors in Hpay. inv_bind Hpay.
  assert (Hw2 : world c2 = world s) by (injection Hpay as <-; reflexivity).
  destruct (steady_payCreditorsInstruction sample_pool 30 c1) as [Hw1 _]. rewrite E in Hw1.
  cbn [fst snd] in *. assert (Hw3 : world c2 = world c) by congruence.
  specialize (Hr c2 Hw3). rewrite Hread' in Hr. cbn [fst] in Hr. by simplify_eq.
Qed.

Lemma payAllCreditors_ends_witness :
  fst (payAllCreditors 3 sample_pool three_creditors) ≠ Ok None.
Proof.
  apply (payAllCreditors_ends sample_pool three_creditors three_creditors
    [sample_owed 201 5000000000; sample_owed 202 6000000000; sample_owed 203 7000000000]);
    [apply sample_paying_shrinks|reflexivity].
Defined.

