(* ===== verification/OnChain.v ===== *)
(** * The client's messages on the chain

    The client composed with the program: the bytes of the messages it submits, through
    the dispatcher, to what the handlers do with the accounts. *)

From Stdlib Require Import ZArith Lia.
From stdpp Require Import base list strings sets.
From coqutil Require Import Byte Word.LittleEndianList.
From S2P Require Import Prelude JsNumber Buffers Web3 Sample Program Chain Processor StakeChain StakeProcessor.
From S2P Require Import Effects SampleChain Pool SampleStakes StakeEffects.
From S2P Require Import Instructions SamplePool Wire Readers Operations Delegation Stakes.

Open Scope Z_scope.

(** Messages processed one after another, each with the accounts passed to it. *)
Fixpoint process_all `{Runtime} `{!StakeRuntime} (program_id : buffer)
    (messages : list (list Chain.AccountInfo * buffer)) : P unit :=
  match messages with
  | [] => mret tt
  | (accounts, data) :: messages' =>
      _ ← process program_id accounts data; process_all program_id messages'
  end.

Lemma raw_parts_forall {A} (Q : A → Prop) size n get b :
  (∀ d, Q (get d)) → Forall Q (raw_parts size n get b).
Proof. intros HQ. revert b; induction n as [|n IH]; intros b; constructor; [apply HQ|apply IH]. Qed.

Lemma unpack_vec_forall {A} (Q : A → Prop) size get input l :
  (∀ d, Q (get d)) → unpack_vec size get input = inr l → Forall Q l.
Proof.
  intros HQ. unfold unpack_vec. destruct (unpack _ _ _); [done|]. destruct (_ <? _); [done|].
  destruct (_ <=? _)%nat; [done|]. intros Hl. apply (inj inr) in Hl as <-. by apply raw_parts_forall.
Qed.

(** Decoded indices are unsigned. *)
Lemma merges_unsigned data l :
  deserialize_instruction data = inr (MergeStakes l) →
  Forall (λ i, 0 <= msi_main_index i ∧ 0 <= msi_additional_index i) l.
Proof.
  unfold deserialize_instruction. destruct data as [|tag d]; [done|]. intros Hd.
  destruct (unpack_vec 40 get_MergeStakesInstruction (tag :: d)) as [e|l'] eqn:E.
  { exfalso. unfold map_inr in Hd. repeat case_match; by simplify_eq. }
  assert (l' = l) as <- by (unfold map_inr in Hd; repeat case_match; by simplify_eq).
  eapply unpack_vec_forall, E. intros b. cbn -[u_at]. split; apply (u_at_range 4).
Qed.

Section Merges.
#[local] Remove Hints SampleKeys SampleKeysLaws SampleConnection SampleRuntime SampleRuntimeLaws
  SampleStakeRuntime SampleStakeLaws : typeclass_instances.
Context `{KeysLaws} `{!AddressesDerive} {W : Type} `{!Connection W} `{!Lodash} `{!LodashLaws}.
Context `{RuntimeLaws} `{!StakeRuntime} `{!StakeLaws}.

(** The accounts of a message begin with the pool and the validator list. *)
Definition about_pool (pool : buffer) (accounts : list Chain.AccountInfo) : Prop :=
  ∃ pi vl rest, accounts = pi :: vl :: rest ∧ ai_key pi = pool.

Lemma zip_app_l {A B} (l l' : list A) (k k' : list B) :
  length l = length k → zip (l ++ l') (k ++ k') = zip l k ++ zip l' k'.
Proof. apply zip_with_app. Qed.

(** Batches the specification accepts for every choice of the pairs that are merged are
    never rejected by the index checks when they are processed one after another. *)
Lemma process_all_merges p pool batches : ∀ messages b sp l,
  pool_accounts p pool b sp l →
  Forall2 (λ batch m, deserialize_instruction (snd m) = inr (MergeStakes batch)) batches messages →
  Forall (λ m, about_pool pool (fst m)) messages →
  (∀ flags, length flags = length (concat batches) →
     ∃ cs, process_merges (zip (concat batches) flags) (stake_counts (vsl_validators l)) = inr cs) →
  ∀ e, process_all p messages b = inl e → index_error e = None.
Proof.
  induction batches as [|batch batches IH]; intros messages b sp l Hpa HF Hab Hok e He.
  { inversion HF; subst. done. }
  apply Forall2_cons_inv_l in HF as ([infos data] & messages' & Hd & HF & ->).
  apply Forall_cons in Hab as [(pi & vl & rest & Hi & <-) Hab]. cbn [fst snd] in *. subst infos.
  cbn [process_all] in He. unfold mbind, P_bind in He.
  pose proof (merge_stakes_outcome p pi vl rest batch b sp l Hpa (merges_unsigned _ _ Hd)) as Ho.
  assert (Hpr : process p (pi :: vl :: rest) data b = process_merge_stakes p (pi :: vl :: rest) batch b).
  { unfold process. rewrite Hd. done. }
  rewrite Hpr in He. destruct (process_merge_stakes _ _ _ _) as [e'|[[] b']].
  - injection He as ->. destruct (index_error e) as [x|] eqn:Hx; [|done]. exfalso.
    destruct (Ho x eq_refl) as (flags & Hfl & Hm).
    destruct (Hok (flags ++ replicate (length (concat batches)) true)) as [cs Hcs].
    { cbn. rewrite !length_app, length_replicate. lia. }
    cbn in Hcs. rewrite zip_app_l, process_merges_app, Hm in Hcs by done. done.
  - destruct Ho as (l' & flags & Hpa' & Hfl & Hm & _).
    eapply IH; [exact Hpa'|exact HF|exact Hab| |exact He].
    intros flags' Hfl'. destruct (Hok (flags ++ flags')) as [cs Hcs].
    { cbn. rewrite !length_app. lia. }
    cbn in Hcs. rewrite zip_app_l, process_merges_app, Hm in Hcs by done. eauto.
Qed.

(** Each message carries the batch of its transaction. *)
Lemma messages_carry {A} (I : list A → StakePoolInstruction) (carries : list A → submission → Prop)
    batches subs (messages : list (list Chain.AccountInfo * buffer)) :
  (∀ batch s, carries batch s →
     ∃ ix, submitted s = [ix] ∧ deserialize_instruction (ix_data ix) = inr (I batch)) →
  Forall2 carries batches subs → snd <$> messages = ix_data <$> concat (submitted <$> subs) →
  Forall2 (λ batch m, deserialize_instruction (snd m) = inr (I batch)) batches messages.
Proof.
  intros Hc Hcarry. revert messages.
  induction Hcarry as [|batch s batches subs Hs _ IH]; intros messages Hmsg.
  - destruct messages; [constructor|done].
  - destruct (Hc _ _ Hs) as (ix & Hs' & Hd). cbn in Hmsg. rewrite Hs' in Hmsg.
    destruct messages as [|m messages]; [done|]. cbn in Hmsg. injection Hmsg as Hm Hmsg.
    constructor; [by rewrite Hm|by apply IH].
Qed.

Lemma views_counts ps vs :
  Forall2 validator_view ps vs → counts_of vs = stake_counts ps.
Proof.
  induction 1 as [|q v ps vs (Hk & _ & _ & Hc & _) _ IH]; [done|].
  unfold counts_of, stake_counts in *. cbn. by rewrite IH, Hk, Hc.
Qed.

(** C5: merging all stakes, from the client to the chain.  When the client's view of the
    validator list is the list the program has, the messages [mergeAllStakes] submits,
    processed by the program one after another with any accounts after the pool and the
    list, are never rejected because a validator is unknown or an index is out of range,
    whichever stakes the program merges and although the counts fall on the way. *)
Theorem mergeAllStakes_on_chain t (c c1 : Client W) vs p pool b sp l :
  readValidators t c = (Ok vs, c1) → NoDup (votePubkey <$> vs) →
  pool_accounts p pool b sp l → Forall2 validator_view (vsl_validators l) vs →
  ∃ subs, sent (snd (mergeAllStakes t c)) = sent c ++ subs ∧
    ∀ messages, snd <$> messages = ix_data <$> concat (submitted <$> subs) →
      Forall (λ m, about_pool pool (fst m)) messages →
      ∀ e, process_all p messages b = inl e →
        e ≠ Custom InvalidStakeIndex ∧ e ≠ Custom ValidatorNotFound.
Proof.
  intros Hread Hnd Hpa Hviews.
  destruct (mergeAllStakes_batches t c c1 vs Hread Hnd) as (batches & subs & Hsent & Hcarry & _ & Hok).
  exists subs. split; [done|]. intros messages Hmsg Hab e He.
  assert (Hnone : index_error e = None).
  { eapply (process_all_merges p pool batches); [exact Hpa| |exact Hab| |exact He].
    - eapply messages_carry; [|exact Hcarry|exact Hmsg]. intros batch s (ix & Hs & _ & Hd). eauto.
    - intros flags Hfl. rewrite <- (views_counts _ _ Hviews). by apply Hok. }
  split; intros ->; done.
Qed.

(** *** Unstakes *)

Context `{!ClusterAnswers} `{!LamportsExact}.

Lemma process_unstakes_app l k cs :
  process_unstakes (l ++ k) cs =
  match process_unstakes l cs with inl e => inl e | inr cs' => process_unstakes k cs' end.
Proof.
  revert cs; induction l as [|i l IH]; intros cs; [done|]. cbn. destruct (update_count _ _ _); auto.
Qed.

(** Every unstake adds at most one to one count. *)
Definition room_counts (n : nat) (cs : counts) : Prop :=
  Forall (λ x, 0 <= snd x ∧ snd x + Z.of_nat n < 2 ^ 32) cs.

Lemma room_stake_counts n vs : room n vs ↔ room_counts n (stake_counts vs).
Proof. unfold room, room_counts, stake_counts. by rewrite Forall_fmap. Qed.

Lemma room_update i n cs cs' :
  update_count (ui_validator_address i) (unstake_count i) cs = inr cs' → room_counts (S n) cs → room_counts n cs'.
Proof.
  revert cs'. induction cs as [|[k m] cs IH]; intros cs'; [done|]. cbn [update_count].
  intros Hu [[Hz Hm] Hcs]%Forall_cons. cbn [snd] in *.
  assert (Hrest : room_counts n cs) by (eapply Forall_impl; [exact Hcs|cbn; lia]).
  destruct (decide _) as [Hd|Hd].
  - assert (Hc : ∀ m', unstake_count i m = inr m' → m' = m ∨ m' = m + 1).
    { unfold unstake_count. intros m'. repeat case_match; intros; simplify_eq; auto. }
    destruct (unstake_count i m) as [e|m']; [done|]. injection Hu as <-.
    constructor; [|done]. cbn. destruct (Hc m' eq_refl); lia.
  - destruct (update_count _ _ cs) as [e|cs''] eqn:E; [done|]. injection Hu as <-.
    constructor; [cbn; lia|]. by apply IH.
Qed.

Lemma room_unstakes l n cs cs' :
  process_unstakes l cs = inr cs' → room_counts (length l + n) cs → room_counts n cs'.
Proof.
  revert cs. induction l as [|i l IH]; intros cs; cbn [process_unstakes length Nat.add].
  - by intros [= <-].
  - destruct (update_count _ _ cs) as [e|cs1] eqn:E; [done|]. intros Hl Hr. eapply IH; [done|].
    by eapply room_update.
Qed.

(** The accounts of an unstake begin with the pool, its owner and the validator list. *)
Definition about_stakes (pool : buffer) (accounts : list Chain.AccountInfo) : Prop :=
  ∃ pi owner vl rest, accounts = pi :: owner :: vl :: rest ∧ ai_key pi = pool.

(** Batches the specification accepts are never rejected by the index checks. *)
Lemma process_all_unstakes p pool batches : ∀ messages b sp l,
  pool_accounts p pool b sp l →
  Forall2 (λ batch m, deserialize_instruction (snd m) = inr (Unstake batch)) batches messages →
  Forall (λ m, about_stakes pool (fst m)) messages → room (length (concat batches)) (vsl_validators l) →
  (∃ cs, process_unstakes (concat batches) (stake_counts (vsl_validators l)) = inr cs) →
  ∀ e, process_all p messages b = inl e → index_error e = None.
Proof.
  induction batches as [|batch batches IH]; intros messages b sp l Hpa HF Hab Hroom [cs Hcs] e He.
  { inversion HF; subst. done. }
  apply Forall2_cons_inv_l in HF as ([infos data] & messages' & Hd & HF & ->).
  apply Forall_cons in Hab as [(pi & ow & vl & rest & Hi & <-) Hab]. cbn [fst snd] in *. subst infos.
  cbn [concat] in *. rewrite length_app in Hroom. rewrite process_unstakes_app in Hcs.
  cbn [process_all] in He. unfold mbind, P_bind in He.
  assert (Hr1 : room (length batch) (vsl_validators l)) by (eapply Forall_impl; [exact Hroom|cbn; lia]).
  pose proof (unstake_outcome p pi ow vl rest batch b sp l Hpa Hr1) as Ho.
  assert (Hpr : process p (pi :: ow :: vl :: rest) data b = process_unstake p (pi :: ow :: vl :: rest) batch b).
  { unfold process. rewrite Hd. done. }
  rewrite Hpr in He. destruct (process_unstake _ _ _ _) as [e'|[[] b']].
  - injection He as ->. destruct (index_error e) as [x|] eqn:Hx; [|done]. exfalso.
    by rewrite (Ho x eq_refl) in Hcs.
  - destruct Ho as (l' & Hpa' & _ & _ & Hm & _). rewrite Hm in Hcs.
    eapply IH; [exact Hpa'|exact HF|exact Hab| |by exists cs|exact He].
    apply room_stake_counts. eapply room_unstakes; [exact Hm|]. by apply room_stake_counts.
Qed.


End Merges.

(** ** A withdrawal *)

(** The client's keys and the runtime's addresses are the same 32 bytes. *)
Class SameAddresses `{Keys} `{Runtime} : Prop := {
  same_find : ∀ seeds q k, findProgramAddress seeds q = Ok k →
    fst (find_program_address seeds (toBuffer q)) = toBuffer k;
  same_token : toBuffer SPL_TOKEN_PROGRAM_ID = spl_token_id;
}.

Section Withdrawal.
#[local] Remove Hints SampleKeys SampleKeysLaws SampleConnection SampleRuntime SampleRuntimeLaws
  SampleStakeRuntime SampleStakeLaws : typeclass_instances.
Context `{KeysLaws} `{!AddressesDerive} `{RuntimeLaws} `{!StakeRuntime} `{!SameAddresses}.

(** The accounts the runtime passes for the keys of an instruction. *)
Definition infos_of (b : Bank) (keys : list AccountMeta) : list Chain.AccountInfo :=
  (λ m, {| ai_key := toBuffer (pubkey m); ai_is_signer := isSigner m;
           ai_owner := ac_owner (b (toBuffer (pubkey m))) |}) <$> keys.

Lemma seed_toBuffer k : seed (toBuffer k) = toBuffer k.
Proof. unfold seed. apply take_ge. by rewrite length_toBuffer. Qed.

Lemma reserve_same t :
  Pool.reserve (toBuffer (programId t)) (toBuffer (publicKey (stakePool t))) = toBuffer (Wire.reserve_key t).
Proof.
  unfold Pool.reserve, get_reserve_adderess. rewrite seed_toBuffer.
  apply same_find. exact (getReserve_ok t).
Qed.

Lemma withdraw_same t :
  fst (find_authority_bump_seed (toBuffer (programId t)) (toBuffer (publicKey (stakePool t))) AUTHORITY_WITHDRAW)
  = toBuffer (withdraw_key t).
Proof. unfold find_authority_bump_seed. rewrite seed_toBuffer. apply same_find. exact (getWithdraw_ok t). Qed.

(** What a withdrawal needs of the bank: the pool of the client, whose bump seed is the
    one [Initialize] found; a reserve that keeps its minimum; and [n] pool tokens in the
    user's account that the withdraw authority may spend. *)
Record can_withdraw (t : TenderizeProgram) (params : WithdrawParams) (n : Z) (b : Bank)
    (sp : StakePool) (x : Z) (r : Rent) (a : TokenAccount) : Prop := {
  cw_program : toBuffer (programId t) ≠ spl_token_id;
  cw_pool : ac_owner (b (toBuffer (publicKey (stakePool t)))) = toBuffer (programId t) ∧
    pool_at b (toBuffer (publicKey (stakePool t))) = Some sp ∧ is_initialized (sp_version sp) = true;
  cw_setup : sp_token_program_id sp = spl_token_id ∧ sp_pool_mint sp = toBuffer (poolMintToken t) ∧
    sp_withdraw_bump_seed sp = snd (find_authority_bump_seed (toBuffer (programId t))
      (toBuffer (publicKey (stakePool t))) AUTHORITY_WITHDRAW);
  cw_reserve : ac_owner (b (toBuffer (Wire.reserve_key t))) = system_program_id ∧
    ac_data (b (toBuffer (Wire.reserve_key t))) = [] ∧
    withdraw_userSolTarget params ≠ Wire.reserve_key t;
  cw_rent : ∀ i, ai_key i = toBuffer SYSVAR_RENT_PUBKEY → Rent_from_account_info i b = inr r;
  cw_lamports : calc_lamports_amount sp n = Some x ∧
    Z.max MIN_RESERVE_BALANCE (minimum_balance r 0) <= lam b (toBuffer (Wire.reserve_key t)) - x ∧
    lam b (toBuffer (withdraw_userSolTarget params)) + x < u64_max_plus_1;
  cw_tokens : token_at b (toBuffer (withdraw_userTokenSource params)) = Some a ∧
    ta_mint a = toBuffer (poolMintToken t) ∧ ta_is_native a = false ∧
    may_spend (toBuffer (withdraw_key t)) n a;
  cw_supply : n <= sup b (toBuffer (poolMintToken t)) <= sp_pool_total sp;
}.

(** C7: a withdrawal, from the client to the chain.  The message the client builds is
    accepted by the program on every bank in which the user may withdraw: the user gets
    exactly the lamports the tokens are worth out of the reserve, the tokens are burnt,
    and the totals of the pool fall by just as much. *)
Theorem withdraw_on_chain t params ix n b sp x r a :
  withdrawInstruction t params = Ok ix → BigInt (withdraw_amount params) = Ok n → 0 < n < 2 ^ 63 →
  bank_ok b → can_withdraw t params n b sp x r a →
  ∃ b', process (toBuffer (programId t)) (infos_of b (ix_keys ix)) (ix_data ix) b = inr (tt, b') ∧
    lam b' (toBuffer (withdraw_userSolTarget params))
      = lam b (toBuffer (withdraw_userSolTarget params)) + x ∧
    lam b' (toBuffer (Wire.reserve_key t)) = lam b (toBuffer (Wire.reserve_key t)) - x ∧
    pool_at b' (toBuffer (publicKey (stakePool t)))
      = Some (with_totals (sp_stake_total sp - x) (sp_pool_total sp - n) sp) ∧
    tok b' (toBuffer (withdraw_userTokenSource params))
      = tok b (toBuffer (withdraw_userTokenSource params)) - n ∧
    sup b' (toBuffer (poolMintToken t)) = sup b (toBuffer (poolMintToken t)) - n.
Proof.
  intros Hix Hn Hr Hok [Hprog (Hpo & Hp & Hv) (Htok & Hmint & Hbump) (Hro & Hrd & Htar) Hrent (Hx & Hleft & Hfit)
    (Ha & Ham & Hnat & Hsp) Hsup].
  destruct (withdraw_message t params n Hn ltac:(unfold i64; lia)) as (ix' & Hix' & Hd & Hkeys).
  rewrite Hix in Hix'. injection Hix' as <-. rewrite Z.mod_small in Hd by lia.
  set (p := toBuffer (programId t)) in *. set (pool := toBuffer (publicKey (stakePool t))) in *.
  pose proof (reserve_same t) as Hres. fold p pool in Hres.
  destruct (find_authority_bump_seed p pool AUTHORITY_WITHDRAW) as [wd z] eqn:Hfind.
  pose proof (withdraw_same t) as Hwd. fold p pool in Hwd. rewrite Hfind in Hwd. cbn in Hwd, Hbump. subst wd.
  apply find_creates in Hfind as [_ Hcreate].
  assert (Hm : ∃ m, mint_at b (toBuffer (poolMintToken t)) = Some m ∧ n <= mi_supply m).
  { unfold sup in Hsup. destruct (mint_at b _) as [m|]; [exists m; split; [done|lia]|lia]. }
  destruct Hm as (m & Hm & Hms).
  assert (Hc : ∀ i1 wd res src mint target ri sys token,
    infos_of b (ix_keys ix) = [i1; wd; res; src; mint; target; ri; sys; token] →
    withdraw_conditions p pool n i1 wd res src mint target ri sys token b sp x r a m).
  { intros *. rewrite Hkeys. unfold infos_of. cbn. intros [= <- <- <- <- <- <- <- <- <-].
    split; cbn [ai_key ai_owner]; rewrite ?Hres, ?same_token; try done; try lia.
    - rewrite Hbump. exact Hcreate.
    - by apply Hrent. }
  rewrite Hkeys in *. unfold infos_of in *. cbn [fmap list_fmap pubkey writable readonly] in *.
  specialize (Hc _ _ _ _ _ _ _ _ _ eq_refl).
  destruct (withdraw_accepted p pool Hprog n _ _ _ _ _ _ _ _ _ [] b sp x r a m Hok Hc) as [b' Hrun].
  exists b'. split; [unfold process; by rewrite Hd|].
  pose proof (bo_lamports _ Hok) as Hu. pose proof (pool_at_wf _ _ _ Hp) as Hwf.
  destruct (withdraw_inv _ _ _ _ _ _ _ _ _ _ _ _ _ _ Hrun eq_refl Hp Htok Hu ltac:(lia)) as [y Hw].
  pose proof (wd_stake_amount _ _ _ _ _ _ _ _ _ _ _ Hw) as Hy. rewrite Hx in Hy. injection Hy as <-.
  destruct (withdraw_price sp n x Hwf ltac:(lia) Hx) as (Hx0 & _ & _ & Hxs).
  destruct (pool_totals_u64 sp Hwf) as [Hst Hpt]. unfold is_u64 in Hst, Hpt. specialize (Hxs ltac:(lia)).
  destruct Hw as [_ _ _ _ _ _ _ He Hp']. cbn [ai_key] in He, Hp'. fold pool in He, Hp'.
  assert (Hsrc : toBuffer (withdraw_userTokenSource params) ≠ pool) by (intros E; apply token_owner in Ha; congruence).
  assert (Hmi : toBuffer (poolMintToken t) ≠ pool) by (intros E; apply mint_owner in Hm; congruence).
  assert (Hne : toBuffer (withdraw_userSolTarget params) ≠ toBuffer (Wire.reserve_key t)).
  { intros E. by apply toBuffer_inj in E. }
  rewrite !(ef_lam _ _ _ _ _ _ _ He). unfold both.
  rewrite !at_eq, (at_ne (toBuffer (Wire.reserve_key t))), (at_ne (toBuffer (withdraw_userSolTarget params))) by done.
  rewrite (effect_tok _ _ _ _ _ _ _ _ He), (effect_sup _ _ _ _ _ _ _ _ He) by set_solver.
  rewrite !at_eq, Hp', !wsub_small by lia. split_and!; (done || lia).
Qed.

(** ** A deposit *)

(** What a deposit needs of the bank: the pool of the client, with a fee that is no more
    than the whole; [n] lamports in the user's account; a reserve that is left with its
    minimum; a mint that the withdraw authority mints, and totals, a supply and token
    accounts with room for the tokens. *)
Record can_deposit (t : TenderizeProgram) (params : DepositParams) (n : Z) (b : Bank)
    (sp : StakePool) (r : Rent) : Prop := {
  cd_program : toBuffer (programId t) ≠ spl_token_id;
  cd_pool : ac_owner (b (toBuffer (publicKey (stakePool t)))) = toBuffer (programId t) ∧
    pool_at b (toBuffer (publicKey (stakePool t))) = Some sp ∧ is_initialized (sp_version sp) = true;
  cd_setup : sp_token_program_id sp = spl_token_id ∧
    sp_owner_fee_account sp = toBuffer (ownersFee t) ∧
    sp_withdraw_bump_seed sp = snd (find_authority_bump_seed (toBuffer (programId t))
      (toBuffer (publicKey (stakePool t))) AUTHORITY_WITHDRAW) ∧
    sp_fee_numerator sp <= sp_fee_denominator sp;
  cd_rent : ∀ i, ai_key i = toBuffer SYSVAR_RENT_PUBKEY → Rent_from_account_info i b = inr r;
  cd_reserve : min_reserve_balance r <= lam b (toBuffer (Wire.reserve_key t)) + n;
  cd_source : ac_owner (b (toBuffer (publicKey (userSource params)))) = system_program_id ∧
    ac_data (b (toBuffer (publicKey (userSource params)))) = [] ∧
    n <= lam b (toBuffer (publicKey (userSource params))) ∧
    publicKey (userSource params) ≠ Wire.reserve_key t;
  cd_tokens : userToken params ≠ ownersFee t ∧
    mintable (toBuffer (poolMintToken t)) (toBuffer (withdraw_key t)) (toBuffer (userToken params))
      (issued sp n) b ∧
    mintable (toBuffer (poolMintToken t)) (toBuffer (withdraw_key t)) (toBuffer (ownersFee t))
      (issued sp n) b;
  cd_totals : sp_stake_total sp + n < u64_max_plus_1 ∧ sp_pool_total sp + issued sp n < u64_max_plus_1;
}.

Lemma infos_coherent b keys : coherent b (infos_of b keys).
Proof. intros i Hi. unfold infos_of in Hi. by apply list_elem_of_fmap in Hi as (m & -> & _). Qed.

Lemma mintable_not mint authority k n b k' :
  mintable mint authority k n b → ac_owner (b k') ≠ spl_token_id → k ≠ k' ∧ mint ≠ k'.
Proof.
  intros (m & a & Hm & _ & _ & Ha & _) Ho. apply mint_owner in Hm. apply token_owner in Ha.
  split; intros ->; done.
Qed.

(** The accounts the client names are those the processor asks for. *)
Lemma can_deposit_conditions t params n b sp r ix :
  0 < n < 2 ^ 63 → can_deposit t params n b sp r →
  ix_keys ix = [writable (publicKey (stakePool t)); readonly (withdraw_key t); writable (Wire.reserve_key t);
    signer_writable (publicKey (userSource params)); writable (userToken params);
    writable (ownersFee t); writable (poolMintToken t);
    readonly SYSVAR_RENT_PUBKEY; readonly (val SystemProgram_programId);
    readonly SPL_TOKEN_PROGRAM_ID] →
  ∀ i1 wd res src dst fee mint ri sys token,
    infos_of b (ix_keys ix) = [i1; wd; res; src; dst; fee; mint; ri; sys; token] →
    deposit_conditions (toBuffer (programId t)) (toBuffer (publicKey (stakePool t))) n
      i1 wd res src dst fee mint ri sys token b sp (issued sp n) (fee_of sp (issued sp n)) r.
Proof.
  intros Hn [Hprog (Hpo & Hp & Hv) (Htok & Hfee & Hbump & Hfr) Hrent Hres (Hso & Hsd & Hsl & _)
    (_ & Hmu & Hmf) (Hts & Htp)] Hkeys i1 wd res src dst fee mint ri sys token Hi.
  pose proof (pool_at_wf _ _ _ Hp) as Hwf. destruct (pool_totals_u64 sp Hwf) as [_ Hpt].
  destruct (issued_computed sp n Hwf) as [Hx Hx0];
    [unfold is_u64, u64_max_plus_1; lia|unfold is_u64 in Hpt; lia|].
  destruct (fee_computed sp (issued sp n) Hwf Hfr) as [Hf Hf0]; [unfold is_u64 in *; lia|].
  destruct (find_authority_bump_seed (toBuffer (programId t)) _ AUTHORITY_WITHDRAW) as [wk z] eqn:Hfind.
  pose proof (withdraw_same t) as Hwd. rewrite Hfind in Hwd. cbn in Hwd, Hbump. subst wk.
  apply find_creates in Hfind as [_ Hcreate].
  rewrite Hkeys in Hi. unfold infos_of in Hi. cbn in Hi. injection Hi as <- <- <- <- <- <- <- <- <- <-.
  split; cbn [ai_key ai_owner ai_is_signer]; rewrite ?same_token, ?reserve_same; try done.
  - rewrite Hbump. exact Hcreate.
  - by apply Hrent.
Qed.

(** C6: a deposit, from the client to the chain.  The message the client builds is
    accepted by the program on every bank in which the user may deposit: exactly the
    amount goes from the user's account to the reserve; the tokens issued for it at the
    price of the pool are minted, the owner's fee to the owner and the rest to the user;
    and the totals of the pool rise by just as much. *)
Theorem deposit_on_chain t params ix n b sp r :
  depositInstruction t params = Ok ix → BigInt (deposit_amount params) = Ok n → 0 < n < 2 ^ 63 →
  bank_ok b → can_deposit t params n b sp r →
  ∃ b', process (toBuffer (programId t)) (infos_of b (ix_keys ix)) (ix_data ix) b = inr (tt, b') ∧
    lam b' (toBuffer (publicKey (userSource params)))
      = lam b (toBuffer (publicKey (userSource params))) - n ∧
    lam b' (toBuffer (Wire.reserve_key t)) = lam b (toBuffer (Wire.reserve_key t)) + n ∧
    pool_at b' (toBuffer (publicKey (stakePool t)))
      = Some (with_totals (sp_stake_total sp + n) (sp_pool_total sp + issued sp n) sp) ∧
    tok b' (toBuffer (userToken params))
      = tok b (toBuffer (userToken params)) + (issued sp n - fee_of sp (issued sp n)) ∧
    tok b' (toBuffer (ownersFee t)) = tok b (toBuffer (ownersFee t)) + fee_of sp (issued sp n) ∧
    sup b' (toBuffer (poolMintToken t)) = sup b (toBuffer (poolMintToken t)) + issued sp n.
Proof.
  intros Hix Hn Hr Hok Hcan.
  destruct (deposit_message t params n Hn ltac:(unfold i64; lia)) as (ix' & Hix' & Hd & Hkeys).
  rewrite Hix in Hix'. injection Hix' as <-. rewrite Z.mod_small in Hd by lia.
  pose proof (can_deposit_conditions t params n b sp r ix Hr Hcan Hkeys) as Hc.
  pose proof (infos_coherent b (ix_keys ix)) as Hco.
  destruct Hcan as [Hprog (Hpo & Hp & _) (Htok & _) _ _ (Hso & _ & _ & Hne) (Huf & Hmu & Hmf) (Hts & Htp)].
  rewrite Hkeys in *. unfold infos_of in *. cbn [fmap list_fmap pubkey writable readonly signer_writable] in *.
  specialize (Hc _ _ _ _ _ _ _ _ _ _ eq_refl).
  destruct (deposit_accepted _ _ Hprog n _ _ _ _ _ _ _ _ _ _ [] b sp _ _ r Hok Hc) as [b' Hrun].
  exists b'. split; [unfold process; by rewrite Hd|].
  destruct (deposit_inv _ _ _ _ _ _ _ _ _ _ _ _ _ _ _ Hrun eq_refl Hp Htok (bo_native _ Hok) Hco) as (x & f & Hdep).
  destruct (dc_tokens _ _ _ _ _ _ _ _ _ _ _ _ _ _ _ _ _ _ Hc) as (Hx & Hf & Hfx).
  destruct Hdep as [_ Hx' Hf' _ _ _ _ _ _ _ _ He Hp'].
  rewrite Hx in Hx'. injection Hx' as <-. rewrite Hf in Hf'. injection Hf' as <-.
  unfold deposit_temp, deposit_tokens in He. cbn [ai_owner ai_key] in He, Hp'.
  rewrite !decide_True in He by done.
  destruct (mintable_not _ _ _ _ _ (toBuffer (publicKey (stakePool t))) Hmu) as [Hu1 Hm1]; [congruence|].
  destruct (mintable_not _ _ _ _ _ (toBuffer (publicKey (stakePool t))) Hmf) as [Hf1 _]; [congruence|].
  pose proof (pool_at_wf _ _ _ Hp) as Hwf. destruct (pool_totals_u64 sp Hwf) as [Hst Hpt]. unfold is_u64 in Hst, Hpt.
  assert (Hnb : toBuffer (publicKey (userSource params)) ≠ toBuffer (Wire.reserve_key t)) by (by intros E%toBuffer_inj).
  assert (Hub : toBuffer (userToken params) ≠ toBuffer (ownersFee t)) by (by intros E%toBuffer_inj).
  rewrite !(ef_lam _ _ _ _ _ _ _ He), !(effect_tok _ _ _ _ _ _ _ _ He), (effect_sup _ _ _ _ _ _ _ _ He) by set_solver.
  unfold both, none. rewrite !at_eq, !at_ne by done.
  rewrite Hp', !wadd_small by lia. split_and!; (done || lia).
Qed.

End Withdrawal.

(** ** On concrete banks *)

(** A bank whose validator list is the one the client of Stakes.v reads. *)
Definition list8 : ValidatorStakeList :=
  {| vsl_version := 1; vsl_validators := [sample_validator 0 9000000000 3; sample_validator 1 0 0] |}.

Definition bank8 : Bank :=
  bank_of
    [(POOL, {| ac_lamports := 2784000; ac_data := stake_pool_bytes (alloc 5) (pool_value 9000000000 9000000000);
               ac_owner := PROG |});
     (VALIDATORS, {| ac_lamports := 40000000;
                     ac_data := written (serialize_validator_stake_list (λ _, alloc 4) list8
                                           (alloc VALIDATOR_STAKE_LIST_LEN));
                     ac_owner := PROG |})].

Lemma bank8_accounts : pool_accounts PROG POOL bank8 (pool_value 9000000000 9000000000) list8.
Proof. sample_accounts. Qed.

Lemma mergeAllStakes_on_chain_witness :
  ∃ subs, sent (snd (mergeAllStakes sample_pool staked_client)) = [] ++ subs ∧
    ∀ messages, snd <$> messages = ix_data <$> concat (submitted <$> subs) →
      Forall (λ m, about_pool POOL (fst m)) messages →
      ∀ e, process_all PROG messages bank8 = inl e →
        e ≠ Custom InvalidStakeIndex ∧ e ≠ Custom ValidatorNotFound.
Proof.
  apply (mergeAllStakes_on_chain sample_pool staked_client staked_client
           [sample_info 0 9000000000 3; sample_info 1 0 0] PROG POOL bank8 (pool_value 9000000000 9000000000) list8).
  - reflexivity.
  - apply (bool_decide_unpack _). reflexivity.
  - exact bank8_accounts.
  - repeat (apply Forall2_cons; split; [split_and!; unfold u64_of; simpl; (done || lia)|]). constructor.
Defined.


(** Keys of 32 bytes, whose derived addresses are those of the concrete runtime. *)
Definition ChainKey : Type := dsig (λ b : buffer, length b = 32%nat).

Definition chain_key (b : buffer) : result ChainKey :=
  match decide (length b = 32%nat) with
  | left Hb => Ok (dexist b Hb)
  | right _ => Err (JsError "Invalid public key input" [])
  end.

Definition numbered (z : Z) : ChainKey := dexist (ckey z) (length_le_split 32 z).

#[local] Instance ChainKey_eq_dec : EqDecision ChainKey.
Proof. intros x y. destruct (decide (`x = `y)) as [E|E]; [left; by apply dsig_eq|right; by intros ->]. Defined.

Definition ChainKeys : Keys := {|
  PublicKey := ChainKey;
  PublicKey_eq_dec := _;
  Account := ChainKey;
  publicKey := λ a, a;
  new_PublicKey := chain_key;
  toBuffer := λ k, `k;
  toBase58 := λ _, EmptyString;
  PublicKey_of_string := λ _, Err (JsError "Invalid public key input" []);
  key_literal := λ s, if decide (s = "TokenkegQfeZyiNwAJbNbGKPFXCWuBvf9Ss623VQ5DA"%string)
                      then numbered 1 else numbered 99;
  findProgramAddress := λ seeds q, chain_key (fst (sample_find seeds (`q)));
  SystemProgram_programId := Build_obj 0 (numbered 0);
  StakeProgram_programId := numbered 3;
  SYSVAR_CLOCK_PUBKEY := numbered 20;
  SYSVAR_RENT_PUBKEY := numbered 19;
  SYSVAR_STAKE_HISTORY_PUBKEY := numbered 23;
|}.

Lemma chain_key_ok b : length b = 32%nat → ∃ k : ChainKey, chain_key b = Ok k ∧ `k = b.
Proof.
  intros Hb. unfold chain_key. destruct (decide _) as [Hl|]; [|done]. by eexists.
Qed.

Lemma sample_find_length seeds q : length (fst (sample_find seeds q)) = 32%nat.
Proof. apply length_le_split. Qed.

Definition ChainKeysLaws : @KeysLaws ChainKeys.
Proof.
  split.
  - intros k. exact (proj2_dsig k).
  - intros k. destruct (chain_key_ok (`k) (proj2_dsig k)) as (k' & Hk & He).
    etransitivity; [exact Hk|]. f_equal. by apply dsig_eq.
Qed.

Definition ChainAddressesDerive : @AddressesDerive ChainKeys.
Proof.
  split. intros seeds q. destruct (chain_key_ok _ (sample_find_length seeds (`q))) as (k & Hk & _). by exists k.
Qed.

Definition ChainSame : @SameAddresses ChainKeys SampleRuntime.
Proof.
  split; [|done]. intros seeds q k Hk.
  destruct (chain_key_ok _ (sample_find_length seeds (`q))) as (k' & Hk' & He).
  assert (Ok k' = Ok k) as [= <-] by (rewrite <- Hk'; exact Hk). done.
Qed.

(** The client of the pool of Pool.v, and a withdrawal of the user's tokens. *)
Definition chain_client : @TenderizeProgram ChainKeys :=
  @Build_TenderizeProgram ChainKeys (numbered 60) (numbered 10) (numbered 11) (numbered 21) (numbered 12)
    (numbered 13) (numbered 14) (numbered 15) (numbered 16).

Definition chain_withdrawal : @WithdrawParams ChainKeys :=
  @Build_WithdrawParams ChainKeys (numbered 17) (num_of_Z 900000000) (numbered 18).

Definition chain_message : @TransactionInstruction ChainKeys :=
  match @withdrawInstruction ChainKeys chain_client chain_withdrawal with
  | Ok ix => ix
  | Err _ => @Build_TransactionInstruction ChainKeys [] (numbered 10) []
  end.

Definition user_tokens1 : TokenAccount :=
  {| ta_mint := MINT; ta_owner := USER; ta_amount := 1000000000; ta_delegate := Some WITHDRAW;
     ta_state := Initialized; ta_is_native := false; ta_delegated_amount := 1000000000;
     ta_close_authority := None |}.

Lemma chain_can_withdraw :
  @can_withdraw ChainKeys SampleRuntime chain_client chain_withdrawal 900000000 bank1 sp1 923076923 tt user_tokens1.
Proof.
  split.
  - intros E. vm_compute in E. discriminate.
  - split; [reflexivity|]. split; [vm_compute; reflexivity|reflexivity].
  - split; [reflexivity|]. split; [reflexivity|]. vm_compute. reflexivity.
  - split; [vm_compute; reflexivity|]. split; [vm_compute; reflexivity|].
    intros E. apply (f_equal (λ k : ChainKey, `k)) in E. vm_compute in E. discriminate.
  - reflexivity.
  - split; [vm_compute; reflexivity|]. split; [apply Z.leb_le|apply Z.ltb_lt]; vm_compute; reflexivity.
  - split; [vm_compute; reflexivity|]. split; [reflexivity|]. split; [reflexivity|].
    split; [reflexivity|]. split; [apply Z.leb_le; reflexivity|].
    destruct (decide _) as [_|E]; [apply Z.leb_le; reflexivity|]. exfalso. apply E. vm_compute. reflexivity.
  - split; apply Z.leb_le; vm_compute; reflexivity.
Qed.

Lemma chain_message_ok : @withdrawInstruction ChainKeys chain_client chain_withdrawal = Ok chain_message.
Proof.
  destruct (@withdraw_message ChainKeys ChainAddressesDerive chain_client chain_withdrawal 900000000)
    as (ix & Hix & _); [reflexivity|split; [apply Z.leb_le|apply Z.ltb_lt]; reflexivity|].
  unfold chain_message. by rewrite Hix.
Qed.

Lemma withdraw_on_chain_witness :
  ∃ b', process PROG (@infos_of ChainKeys bank1 (@ix_keys ChainKeys chain_message))
          (@ix_data ChainKeys chain_message) bank1 = inr (tt, b') ∧
    lam b' USER = lam bank1 USER + 923076923.
Proof.
  destruct (@withdraw_on_chain ChainKeys ChainKeysLaws ChainAddressesDerive SampleRuntime _ _ ChainSame
    chain_client chain_withdrawal chain_message 900000000 bank1 sp1 923076923 tt user_tokens1)
    as (b' & H1 & H2 & _).
  - exact chain_message_ok.
  - reflexivity.
  - split; reflexivity.
  - exact bank1_ok.
  - exact chain_can_withdraw.
  - exists b'. split; [exact H1|exact H2].
Defined.

(** A deposit of one SOL by the same user. *)
Definition chain_deposit : @DepositParams ChainKeys :=
  @Build_DepositParams ChainKeys (numbered 18) (num_of_Z 1000000000) (numbered 17).

Definition deposit_message1 : @TransactionInstruction ChainKeys :=
  match @depositInstruction ChainKeys chain_client chain_deposit with
  | Ok ix => ix
  | Err _ => @Build_TransactionInstruction ChainKeys [] (numbered 10) []
  end.

Lemma deposit_message1_ok : @depositInstruction ChainKeys chain_client chain_deposit = Ok deposit_message1.
Proof.
  destruct (@deposit_message ChainKeys ChainAddressesDerive chain_client chain_deposit 1000000000)
    as (ix & Hix & _); [reflexivity|split; [apply Z.leb_le|apply Z.ltb_lt]; reflexivity|].
  unfold deposit_message1. by rewrite Hix.
Qed.

(** Decides what a concrete bank has at two addresses. *)
Definition mintable_check (mint authority k : buffer) (n : Z) (b : Bank) : bool :=
  match sample_mint_at b mint, sample_token_at b k with
  | Some m, Some a =>
      bool_decide (mi_authority m = Some authority) && (mi_supply m + n <? u64_max_plus_1)
      && bytes_eqb (ta_mint a) mint && bool_decide (ta_state a = Initialized) && negb (ta_is_native a)
      && (ta_amount a + n <? u64_max_plus_1)
  | _, _ => false
  end.

Lemma mintable_checked mint authority k n b :
  mintable_check mint authority k n b = true → @mintable SampleRuntime mint authority k n b.
Proof.
  unfold mintable_check. rewrite sample_mint_of, sample_token_of.
  destruct (mint_at b mint) as [m|] eqn:Hm; [|done]. destruct (token_at b k) as [a|] eqn:Ha; [|done].
  rewrite !andb_true_iff, negb_true_iff, !bool_decide_eq_true, bytes_eqb_true, !Z.ltb_lt.
  intros [[[[[? ?] ?] ?] ?] ?]. exists m, a. by split_and!.
Qed.

Lemma chain_can_deposit :
  @can_deposit ChainKeys SampleRuntime chain_client chain_deposit 1000000000 bank1 sp1 tt.
Proof.
  split.
  - intros E. vm_compute in E. discriminate.
  - split; [reflexivity|]. split; [vm_compute; reflexivity|reflexivity].
  - split; [reflexivity|]. split; [reflexivity|]. split; [vm_compute; reflexivity|].
    apply Z.leb_le. vm_compute. reflexivity.
  - reflexivity.
  - apply Z.leb_le. vm_compute. reflexivity.
  - split; [vm_compute; reflexivity|]. split; [vm_compute; reflexivity|].
    split; [apply Z.leb_le; vm_compute; reflexivity|].
    intros E. apply (f_equal (λ k : ChainKey, `k)) in E. vm_compute in E. discriminate.
  - split; [intros E; apply (f_equal (λ k : ChainKey, `k)) in E; vm_compute in E; discriminate|].
    split; apply mintable_checked; vm_compute; reflexivity.
  - split; apply Z.ltb_lt; vm_compute; reflexivity.
Qed.

(** The user gives 1 SOL and gets 0.975 tokens less the fee of one percent. *)
Lemma deposit_on_chain_witness :
  ∃ b', process PROG (@infos_of ChainKeys bank1 (@ix_keys ChainKeys deposit_message1))
          (@ix_data ChainKeys deposit_message1) bank1 = inr (tt, b') ∧
    lam b' USER = lam bank1 USER - 1000000000 ∧
    tok b' USER_TOKENS = tok bank1 USER_TOKENS + 965250000 ∧ tok b' FEE = tok bank1 FEE + 9750000.
Proof.
  destruct (@deposit_on_chain ChainKeys ChainKeysLaws ChainAddressesDerive SampleRuntime _ _ ChainSame
    chain_client chain_deposit deposit_message1 1000000000 bank1 sp1 tt)
    as (b' & H1 & H2 & _ & _ & H3 & H4 & _).
  - exact deposit_message1_ok.
  - reflexivity.
  - split; reflexivity.
  - exact bank1_ok.
  - exact chain_can_deposit.
  - exists b'. split; [exact H1|]. split; [exact H2|]. split; [exact H3|exact H4].
Defined.
