(* ===== verification/Cli.v ===== *)
(** * The command line (experiment/cli.ts, util/shell.ts)

    [run]: reading the Solana configuration, bringing the pool up to date, filling
    the reserve, paying creditors, listing, and the commands.  The argument parser
    is a library: its result is the record [Args].  Console output is not
    modelled, but everything that is evaluated for it is. *)

From Stdlib Require Import ZArith Lia SpecFloat.
From Stdlib Require Import String Ascii.
From stdpp Require Import base list strings sets.
From coqutil Require Import Byte.
From S2P Require Import Prelude JsNumber Buffers Web3 Sample Program Instructions SamplePool.
From S2P Require Import Wire Readers Operations Accounts Delegation Stakes Creditors.

Open Scope Z_scope.

(** ** The Solana configuration *)

(** ASCII white space, as [trimRight] removes it. *)
Definition is_space (c : ascii) : bool :=
  let n := nat_of_ascii c in ((9 <=? n) && (n <=? 13) || (n =? 32))%nat.

Fixpoint drop_spaces (l : list ascii) : list ascii :=
  match l with
  | c :: l' => if is_space c then drop_spaces l' else l
  | [] => []
  end.

Definition trimRight (line : list ascii) : list ascii := reverse (drop_spaces (reverse line)).

(** Letters compared without case, as the flag [i] asks. *)
Definition lower (c : ascii) : ascii :=
  let n := nat_of_ascii c in
  if ((65 <=? n) && (n <=? 90))%nat then ascii_of_nat (n + 32) else c.

(** [line.match] of a prefix at the start and a group up to the end: the group,
    which contains no line terminator. *)
Fixpoint match_rest (same : ascii → ascii → bool) (prefix line : list ascii) : option (list ascii) :=
  match prefix, line with
  | [], _ => if existsb (λ c, (nat_of_ascii c =? 10)%nat || (nat_of_ascii c =? 13)%nat) line
             then None else Some line
  | p :: ps, c :: cs => if same p c then match_rest same ps cs else None
  | _ :: _, [] => None
  end.

Definition same_char (a b : ascii) : bool := Ascii.eqb a b.
Definition same_letter (a b : ascii) : bool := Ascii.eqb (lower a) (lower b).

Definition RPC_URL : list ascii := list_ascii_of_string "RPC URL: ".
Definition KEYPAIR_PATH : list ascii := list_ascii_of_string "Keypair Path: ".

(** One turn of the loop over the lines: the variables are [defaultUrl] and
    [defaultPayerAccount]. *)
Definition config_line (st : option (list ascii) * option (list ascii)) (line : list ascii)
  : option (list ascii) * option (list ascii) :=
  let '(url, payer) := st in
  let line := trimRight line in
  let url := match match_rest same_letter RPC_URL line with Some m => Some m | None => url end in
  let payer := match match_rest same_char KEYPAIR_PATH line with Some m => Some m | None => payer end in
  (url, payer).

(** [assert.ok]: [null] and the empty string fail. *)
Definition assert_ok (x : option (list ascii)) (msg : string) : result (list ascii) :=
  match x with
  | Some (c :: s) => Ok (c :: s)
  | _ => Err (JsError msg [])
  end.

(** The part of [run] that reads the output of [solana config get]. *)
Definition solana_config (lines : list (list ascii)) : result (list ascii * list ascii) :=
  let '(defaultUrl, defaultPayerAccount) := foldl config_line (None, None) lines in
  url ← assert_ok defaultUrl "Can't parse solana config RPC URL";
  payer ← assert_ok defaultPayerAccount "Can't parse solana config account";
  mret (url, payer).

(** ** The commands *)

Inductive Command :=
  | Show
  | Vadd (votes : list string)
  | Vrem (votes : list string)
  | Del (amount : option num)
  | Update
  | UnstakeCmd (vote : option string) (amount : option num)
  | NoCommand.

Record Args := {
  arg_url : string;
  arg_payer : string;
  arg_program : string;
  arg_stake_pool : string;
  arg_owner : string;
  arg_validator_list : string;
  arg_credit_list : string;
  fee_denominator : num;
  fee_numerator : num;
  min_reserve : num;
  arg_tSOL : string;
  arg_owners_fee : string;
  arg_credit_reserve : string;
  command : Command;
}.

(** The arguments when only a command is given: the defaults, of which the URL and
    the payer come from the Solana configuration. *)
Definition default_args (url payer : list ascii) (cmd : Command) : Args :=
  {| arg_url := string_of_list_ascii url; arg_payer := string_of_list_ascii payer;
     arg_program := "../keys/solana_bpf_tenderize-keypair.json";
     arg_stake_pool := "../keys/stake_pool.json"; arg_owner := string_of_list_ascii payer;
     arg_validator_list := "../keys/validator_list.json";
     arg_credit_list := "../keys/credit_list.json";
     fee_denominator := num_of_Z 100; fee_numerator := num_of_Z 3; min_reserve := num_of_Z 5;
     arg_tSOL := "../keys/tSOL_token.json"; arg_owners_fee := "../keys/owners_fee.json";
     arg_credit_reserve := "../keys/credit_reserve.json"; command := cmd |}.

Definition LAMPORTS_PER_SOL : num := num_of_Z 1000000000.

(** [b < x] of a [bigint] and a [number]: compared as real numbers. *)
Definition bigint_ltb (b : Z) (x : num) : bool :=
  match x with
  | S754_zero _ => b <? 0
  | S754_infinity s => negb s
  | S754_nan => false
  | S754_finite s m e => b <? ceil_Z s m e
  end.

(** A shell: a command produces output and may change the world; a command that
    fails produces output too. *)
Class Shell (W : Type) := { shell : string → W → string * W }.

(** Reading and writing key files, and fresh key pairs. *)
Class KeyFiles `{Keys} (W : Type) := {
  read_key : string → W → result Account * W;
  write_key : string → Account → W → result unit * W;
  new_key : W → Account * W;
}.

(** [connection.requestAirdrop]. *)
Class Faucet `{Keys} (W : Type) := { rpc_requestAirdrop : PublicKey → num → W → result unit * W }.

Section Cli.
Context `{Keys} {W : Type} `{!Connection W} `{!Lodash} `{!Shell W}.

Definition readAccount `{!KeyFiles W} (fileName : string) : M (Client W) Account :=
  query (read_key fileName).

(** The client of the pool, with the accounts of the arguments. *)
Definition open_client `{!KeyFiles W} (args : Args) : M (Client W) TenderizeProgram :=
  payer ← readAccount (arg_payer args);
  program ← readAccount (arg_program args);
  pool ← readAccount (arg_stake_pool args);
  own ← readAccount (arg_owner args);
  validator_list ← readAccount (arg_validator_list args);
  credit_list ← readAccount (arg_credit_list args);
  tSOL ← readAccount (arg_tSOL args);
  fee ← readAccount (arg_owners_fee args);
  reserve ← readAccount (arg_credit_reserve args);
  mret {| payerAccount := payer; programAccount := program; stakePool := pool; owner := own;
          validatorStakeListAccount := validator_list; creditListAccount := credit_list;
          poolMintToken := publicKey tSOL; ownersFee := publicKey fee;
          creditReserve := publicKey reserve |}.

(** [execShellCommand] resolves whatever the command does. *)
Definition execShellCommand (cmd : string) : M (Client W) string :=
  query (λ w, let '(out, w') := shell cmd w in (Ok out, w')).

Definition create_token_command (args : Args) : string :=
  ("spl-token create-token " ++ arg_tSOL args)%string.
Definition authorize_command (t : TenderizeProgram) (authority : PublicKey) : string :=
  ("spl-token authorize " ++ toBase58 (poolMintToken t) ++ " mint " ++ toBase58 authority)%string.
Definition create_account_command (t : TenderizeProgram) (file : string) : string :=
  ("spl-token create-account " ++ toBase58 (poolMintToken t) ++ " " ++ file)%string.

(** [await tenderize.mergeAllStakes(); await tenderize.updatePool();
    state = await tenderize.readState();] *)
Definition refresh_pool (t : TenderizeProgram) : M (Client W) (option State) :=
  _ ← mergeAllStakes t;
  _ ← updatePool t;
  readState t false.

(** The tokens and accounts of a new pool, and the pool. *)
Definition create_pool (t : TenderizeProgram) (args : Args) : M (Client W) (option State) :=
  _ ← execShellCommand (create_token_command args);
  authority ← lift (getWithdrawAuthority t);
  _ ← execShellCommand (authorize_command t authority);
  _ ← execShellCommand (create_account_command t (arg_owners_fee args));
  _ ← execShellCommand (create_account_command t (arg_credit_reserve args));
  _ ← createStakePool t {| feeDenominator := fee_denominator args;
                           feeNumerator := fee_numerator args |};
  readState t false.

(** [!state || state.version == 0]. *)
Definition initialized (state : option State) : option State :=
  match state with Some s => if version s =? 0 then None else Some s | None => None end.

(** A pool that is not there is created; one of an earlier epoch is updated.  The
    result is [state] and [wasUpdated]. *)
Definition prepare_pool (t : TenderizeProgram) (args : Args) : M (Client W) (option State * bool) :=
  state ← readState t false;
  match initialized state with
  | None => state ← create_pool t args; mret (state, false)
  | Some s =>
      epoch ← getEpoch;
      if bigint_ltb (lastEpochUpdate s) epoch
      then state ← refresh_pool t; mret (state, true)
      else mret (Some s, false)
  end.

(** [account ? account.lamports : 0]; [account?.lamports || 0] is the same number. *)
Definition lamports_or_zero (a : option AccountInfo) : num :=
  match a with Some i => lamports i | None => num_of_Z 0 end.

(** The loop of [ensureFunds]: as long as the balance is too low, 10 SOL are asked for and
    the balance is looked up again. *)
Fixpoint airdrops `{!Faucet W} (fuel : nat) (payer : PublicKey) (amount balance : num) : M (Client W) (option num) :=
  if num_ltb balance amount then
    match fuel with
    | O => mret None
    | S fuel' =>
        _ ← query (rpc_requestAirdrop payer (num_mul (num_of_Z 10) LAMPORTS_PER_SOL));
        account ← getAccountInfo payer None;
        airdrops fuel' payer amount (lamports_or_zero account)
    end
  else mret (Some balance).

Definition ensureFunds `{!Faucet W} (fuel : nat) (payer : PublicKey) (amount : num) : M (Client W) (option num) :=
  account ← getAccountInfo payer None;
  airdrops fuel payer amount (lamports_or_zero account).

(** [x || 0] on a number: [NaN] and the zeros give 0. *)
Definition or_zero (x : num) : num := if truthy x then x else num_of_Z 0.

(** The reserve is filled up to the minimum from the payer's account. *)
Definition fill_reserve (t : TenderizeProgram) (args : Args) : M (Client W) unit :=
  reserveAddress ← lift (getReserveAddress t);
  reserve ← getAccountInfo reserveAddress None;
  rent0 ← getMinimumBalanceForRentExemption 0;
  rent1 ← getMinimumBalanceForRentExemption 10000;
  let minReserve := Math_max (num_mul LAMPORTS_PER_SOL (min_reserve args)) (num_add rent0 rent1) in
  let low := match reserve with None => true | Some r => num_ltb (lamports r) minReserve end in
  if low then
    let amount := num_sub minReserve (lamports_or_zero reserve) in
    account ← getAccountInfo (publicKey (payerAccount t)) None;
    let balance := or_zero (lamports_or_zero account) in
    if num_ltb balance amount then
      throw (JsError "Not enough fund in your account. Needed found"
               [ANum (num_div amount LAMPORTS_PER_SOL); ANum (num_div balance LAMPORTS_PER_SOL)])
    else
      deposit t {| userSource := payerAccount t; deposit_amount := amount;
                   userToken := ownersFee t |}
  else mret tt.

(** The listing: the queries made for it and the dereferences that may throw.  The
    result is [reserve]. *)
Definition list_pool (t : TenderizeProgram) (state : option State) : M (Client W) (option AccountInfo) :=
  reserveAddress ← lift (getReserveAddress t);
  reserve ← getAccountInfo reserveAddress None;
  _ ← lift (getReserveAddress t);
  _ ← not_null reserve;
  _ ← not_null state;
  validators ← readValidators t;
  _ ← for_each validators (λ validator,
        for_each (seqZ 0 (stakeCount validator)) (λ i,
          stake ← lift (getStakeForValidator t (votePubkey validator) i);
          catch (_ ← getAccountInfo stake None; _ ← getStakeActivation stake None; mret tt)
                (λ _, mret tt)));
  _ ← readCreditors t;
  mret reserve.

(** ** Commands *)

(** The validators [vadd] adds: the given ones, or all current ones that are not in
    the list. *)
Definition validators_to_add (t : TenderizeProgram) (votes : list string)
  : M (Client W) (list PublicKey) :=
  if (length votes =? 0)%nat then
    currentValidators ← readValidators t;
    current ← getVoteAccounts (Some singleGossip);
    keys ← lift (map_result PublicKey_of_string current);
    mret (filter (λ v, v ∉ votePubkey <$> currentValidators) keys)
  else lift (map_result PublicKey_of_string votes).

(** The validators [vrem] removes: the given ones, or all without stakes. *)
Definition validators_to_remove (t : TenderizeProgram) (votes : list string)
  : M (Client W) (list PublicKey) :=
  if (length votes =? 0)%nat then
    validators ← readValidators t;
    mret (votePubkey <$> filter (λ v, stakeCount v = 0) validators)
  else lift (map_result PublicKey_of_string votes).

(** The amount of [del], in lamports: the given one is in SOL. *)
Definition delegation_amount (amount : option num) (reserve : option AccountInfo) : M (Client W) num :=
  match amount with
  | Some a =>
      if truthy a then mret (num_mul a LAMPORTS_PER_SOL)
      else r ← not_null reserve;
           mret (Math_round (num_mul (num_div (num_of_Z 9) (num_of_Z 10)) (lamports r)))
  | None => r ← not_null reserve;
            mret (Math_round (num_mul (num_div (num_of_Z 9) (num_of_Z 10)) (lamports r)))
  end.

(** An empty string is falsy. *)
Definition given (s : option string) : option string :=
  match s with Some EmptyString | None => None | Some v => Some v end.

Definition process_command (t : TenderizeProgram) (cmd : Command) (reserve : option AccountInfo)
    (wasUpdated : bool) : M (Client W) unit :=
  match cmd with
  | Vadd votes =>
      validators ← validators_to_add t votes;
      for_each validators (λ validator, addValidator t validator)
  | Vrem votes =>
      validators ← validators_to_remove t votes;
      for_each validators (λ validator, removeValidator t validator)
  | Del a =>
      amount ← delegation_amount a reserve;
      delegateReserveBatch t amount
  | Update =>
      if wasUpdated then mret tt else _ ← refresh_pool t; mret tt
  | UnstakeCmd vote amount =>
      match given vote with
      | Some vote =>
          validators ← readValidators t;
          match head (filter (λ v, toBase58 (votePubkey v) = vote) validators) with
          | None => throw (JsError "Invalid validator" [AStr vote])
          | Some v => unstake t v amount
          end
      | None => unstakeAll t
      end
  | Show | NoCommand => mret tt
  end.

(** [run], once the client is there; [fuel] bounds the turns
    of [payAllCreditors], and [None] is the result when it is used up. *)
Definition run_client (fuel : nat) (t : TenderizeProgram) (args : Args) : M (Client W) (option unit) :=
  '(state, wasUpdated) ← prepare_pool t args;
  _ ← fill_reserve t args;
  paid ← payAllCreditors fuel t;
  match paid with
  | None => mret None
  | Some _ =>
      reserve ← list_pool t state;
      _ ← process_command t (command args) reserve wasUpdated;
      mret (Some tt)
  end.

(** [run]: [parse] is the argument parser, given the defaults. *)
Definition run `{!KeyFiles W} (fuel : nat) (config : list (list ascii))
    (parse : list ascii → list ascii → result Args) : M (Client W) (option unit) :=
  '(defaultUrl, defaultPayerAccount) ← lift (solana_config config);
  args ← lift (parse defaultUrl defaultPayerAccount);
  t ← open_client args;
  run_client fuel t args.

End Cli.

(** ** Reading the configuration *)

Definition no_terminator (s : list ascii) : Prop :=
  existsb (λ c, (nat_of_ascii c =? 10)%nat || (nat_of_ascii c =? 13)%nat) s = false.

(** A value as the configuration prints it: not empty, on one line, with no white
    space at the end. *)
Definition clean_value (s : list ascii) : Prop :=
  no_terminator s ∧ ∃ pre c, s = pre ++ [c] ∧ is_space c = false.

(** A line that says nothing about the two settings. *)
Definition other_line (line : list ascii) : Prop :=
  match_rest same_letter RPC_URL (trimRight line) = None ∧
  match_rest same_char KEYPAIR_PATH (trimRight line) = None.

Lemma trimRight_clean pre s : clean_value s → trimRight (pre ++ s) = pre ++ s.
Proof.
  intros (_ & l & c & -> & Hc). unfold trimRight. rewrite app_assoc, reverse_snoc.
  cbn [drop_spaces]. rewrite Hc. rewrite <- reverse_snoc. apply reverse_involutive.
Qed.

Lemma trimRight_spaces l n : trimRight (l ++ replicate n " "%char) = trimRight l.
Proof.
  unfold trimRight. rewrite reverse_app, reverse_replicate. f_equal.
  induction n as [|n IH]; [done|]. simpl. done.
Qed.

Lemma match_rest_prefix same p s :
  (∀ c, same c c = true) → no_terminator s → match_rest same p (p ++ s) = Some s.
Proof.
  intros Hsame Hs. induction p as [|c p IH]; simpl.
  - unfold no_terminator in Hs. destruct s; [done|]. by rewrite Hs.
  - by rewrite Hsame.
Qed.

Lemma other_lines lines st : Forall other_line lines → foldl config_line st lines = st.
Proof.
  intros Hl. revert st. induction Hl as [|l ls [H1 H2] _ IH]; intros [u p]; [done|].
  cbn [foldl config_line]. rewrite H1, H2. apply IH.
Qed.

Lemma url_line st u n :
  clean_value u → config_line st (RPC_URL ++ u ++ replicate n " "%char) = (Some u, snd st).
Proof.
  intros Hu. destruct st as [u0 p]. unfold config_line.
  rewrite app_assoc, trimRight_spaces, trimRight_clean by done.
  rewrite (match_rest_prefix same_letter); [done| |apply Hu].
  intros c. unfold same_letter. apply Ascii.eqb_refl.
Qed.

Lemma keypair_line st p n :
  clean_value p → config_line st (KEYPAIR_PATH ++ p ++ replicate n " "%char) = (fst st, Some p).
Proof.
  intros Hp. destruct st as [u p0]. unfold config_line.
  rewrite app_assoc, trimRight_spaces, trimRight_clean by done.
  rewrite (match_rest_prefix same_char); [done| |apply Hp].
  intros c. unfold same_char. apply Ascii.eqb_refl.
Qed.

(** The configuration is read back: among any other lines, and with any number of
    blanks at the end of the lines, the URL and the key pair path that the
    configuration prints are the ones [run] uses. *)
Theorem solana_config_reads before between after url path n m :
  Forall other_line before → Forall other_line between → Forall other_line after →
  clean_value url → clean_value path →
  solana_config (before ++ [RPC_URL ++ url ++ replicate n " "%char] ++ between
                 ++ [KEYPAIR_PATH ++ path ++ replicate m " "%char] ++ after) = Ok (url, path).
Proof.
  intros Hb Hm Ha Hu Hp. unfold solana_config. rewrite !foldl_app, other_lines by done.
  cbn [foldl]. rewrite url_line by done. rewrite (other_lines between) by done.
  rewrite keypair_line by done. rewrite other_lines by done. cbn [fst snd].
  destruct Hu as (_ & u & c & -> & _), Hp as (_ & p & d & -> & _).
  by destruct u, p.
Qed.

(** A configuration without a line for the URL, or without one for the key pair,
    is refused with the message for it. *)
Theorem solana_config_refuses lines :
  (Forall (λ l, match_rest same_letter RPC_URL (trimRight l) = None) lines →
   solana_config lines = Err (JsError "Can't parse solana config RPC URL" [])) ∧
  (Forall (λ l, match_rest same_char KEYPAIR_PATH (trimRight l) = None) lines →
   ∃ msg, solana_config lines = Err (JsError msg [])).
Proof.
  unfold solana_config. split; intros Hl.
  - assert (Hf : ∀ st, fst (foldl config_line st lines) = fst st).
    { induction Hl as [|l ls Hm _ IH]; intros [u p]; [done|]. cbn [foldl config_line].
      rewrite Hm. by rewrite IH. }
    specialize (Hf (None, None)). destruct (foldl _ _ _) as [u p]. simpl in Hf. by subst u.
  - assert (Hf : ∀ st, snd (foldl config_line st lines) = snd st).
    { induction Hl as [|l ls Hm _ IH]; intros [u p]; [done|]. cbn [foldl config_line].
      rewrite Hm. by rewrite IH. }
    specialize (Hf (None, None)). destruct (foldl _ _ _) as [u p]. simpl in Hf. subst p.
    destruct u as [[|c u]|]; by eexists.
Qed.

(** ** Filling the reserve *)

Section Filling.
Context `{KeysLaws} `{!AddressesDerive} {W : Type} `{!Connection W} `{!StableCluster} `{!Lodash}
        `{!Shell W}.

Lemma deposit_amount_exact t a :
  safe a →
  ∃ ix, depositInstruction t {| userSource := payerAccount t; deposit_amount := num_of_Z a;
                                userToken := ownersFee t |} = Ok ix ∧
        (0 <= a → deserialize_instruction (ix_data ix) = inr (Deposit a)).
Proof.
  intros Ha. unfold depositInstruction. rewrite write_tag by lia. cbn [mbind result_bind].
  cbn [deposit_amount]. rewrite BigInt_num_of_Z by done. cbn [mbind result_bind].
  unfold writeBigInt64LE. rewrite write_le_append by (done || lia || safe_lia).
  cbn [mbind result_bind]. rewrite getWithdraw_ok, getReserve_ok. cbn [mbind result_bind].
  eexists. split; [reflexivity|]. intros Hpos. cbn [ix_data]. rewrite app_nil_r.
  apply deserialize_u64; [unfold u64; safe_lia|lia|done].
Qed.

(** Filling the reserve.  With the minimum [m], [r] lamports in the reserve and
    [b] in the payer's account: a reserve that holds the minimum is left alone; one
    that does not gets a deposit, decoded by the program as exactly the difference;
    and if the payer cannot pay it, the call fails and nothing is submitted. *)
Theorem fill_reserve_exact t args (c c' : Client W) res m r b rent0 rent1 :
  fill_reserve t args c = (res, c') →
  (∀ n, n = 0 ∨ n = 10000 → rpc_getMinimumBalanceForRentExemption n (world c) =
     (Ok (if n =? 0 then rent0 else rent1), world c)) →
  Math_max (num_mul LAMPORTS_PER_SOL (min_reserve args)) (num_add rent0 rent1) = num_of_Z m →
  lamports_or_zero (info_at (world c) (reserve_key t)) = num_of_Z r →
  lamports_or_zero (info_at (world c) (publicKey (payerAccount t))) = num_of_Z b →
  0 <= r < 2 ^ 53 → 0 <= b < 2 ^ 53 → 0 < m < 2 ^ 53 →
  if m <=? r then res = Ok tt ∧ c' = c
  else if b <? m - r then (∃ e, res = Err e) ∧ c' = c
  else ∃ ix ok, sent c' = sent c ++ [{| submitted := [ix]; signers := [payerAccount t]; confirmed := ok |}] ∧
       (ok = true ↔ is_ok res = true) ∧
       deserialize_instruction (ix_data ix) = inr (Deposit (m - r)).
Proof.
  intros Hrun Hrent Hmax Hr Hb Hr53 Hb53 Hm53. revert Hrun. unfold fill_reserve.
  rewrite lift_bind, getReserve_ok. erewrite bind_run by apply stable_getAccountInfo.
  assert (Hq : ∀ n, n = 0 ∨ n = 10000 → getMinimumBalanceForRentExemption n c =
    (Ok (if n =? 0 then rent0 else rent1), c)).
  { intros n Hn. unfold getMinimumBalanceForRentExemption, query. rewrite Hrent by done. by destruct c. }
  erewrite bind_run by (apply Hq; lia). erewrite bind_run by (apply Hq; lia). cbv zeta.
  change (0 =? 0) with true. change (10000 =? 0) with false. cbv iota. rewrite Hmax.
  set (low := match info_at (world c) (reserve_key t) with Some _ => _ | None => true end).
  assert (low = (r <? m)) as ->.
  { unfold low. destruct (info_at (world c) (reserve_key t)) as [i|]; cbn [lamports_or_zero] in Hr.
    - by rewrite Hr, num_ltb_exact by safe_lia.
    - assert (r = 0) as ->; [|symmetry; apply Z.ltb_lt; lia].
      apply (f_equal BigInt) in Hr. rewrite !BigInt_num_of_Z in Hr by safe_lia. congruence. }
  rewrite Hr, num_sub_exact by safe_lia.
  destruct (Z.leb_spec m r), (Z.ltb_spec r m); try lia; [by intros [= <- <-]|].
  erewrite bind_run by apply stable_getAccountInfo. rewrite Hb.
  assert (or_zero (num_of_Z b) = num_of_Z b) as ->.
  { unfold or_zero. rewrite truthy_num_of_Z by safe_lia. by destruct (Z.eqb_spec b 0) as [->|]. }
  rewrite num_ltb_exact by safe_lia.
  destruct (Z.ltb_spec b (m - r)); [intros [= <- <-]; split; [by eexists|done]|].
  destruct (deposit_amount_exact t (m - r)) as (ix & Hix & Hd); [safe_lia|].
  unfold deposit.
  pose proof (send_built_run (depositInstruction t {| userSource := payerAccount t;
    deposit_amount := num_of_Z (m - r); userToken := ownersFee t |}) [payerAccount t] c) as Hs.
  rewrite Hix in Hs |- *. destruct Hs as (ok & Hsent & Hok). intros Hrun. rewrite Hrun in Hsent, Hok.
  exists ix, ok. split_and!; [done|done|]. apply Hd. lia.
Qed.

End Filling.

(** ** Airdrops *)

Section Airdrops.
Context `{Keys} {W : Type} `{!Connection W} `{!StableCluster} `{!Faucet W}.

Definition balance_at (w : W) (k : PublicKey) : num := lamports_or_zero (info_at w k).

(** What the faucet is asked for arrives at once. *)
Class FaucetPays : Prop := {
  airdrop_arrives : ∀ k a b w, balance_at w k = num_of_Z b → 0 <= b → 0 <= a → a + b < 2 ^ 53 →
    ∃ w', rpc_requestAirdrop k (num_of_Z a) w = (Ok tt, w') ∧ balance_at w' k = num_of_Z (a + b);
}.

Lemma airdrops_end `{!FaucetPays} fuel k amount b (c : Client W) :
  balance_at (world c) k = num_of_Z b → 0 <= b < 2 ^ 52 → 0 <= amount < 2 ^ 51 → amount - b <= Z.of_nat fuel * 10 ^ 10 →
  ∃ n c', airdrops fuel k (num_of_Z amount) (num_of_Z b) c = (Ok (Some (num_of_Z (b + n * 10 ^ 10))), c') ∧
    0 <= n ∧ amount <= b + n * 10 ^ 10 ∧ (0 < n → b + (n - 1) * 10 ^ 10 < amount) ∧
    balance_at (world c') k = num_of_Z (b + n * 10 ^ 10) ∧ sent c' = sent c.
Proof.
  revert b c. induction fuel as [|fuel IH]; intros b c Hbal Hb Ha Hf; cbn [airdrops];
    rewrite num_ltb_exact by safe_lia; destruct (Z.ltb_spec b amount) as [Hlt|Hge]; try lia.
  1,3: exists 0, c; rewrite Z.mul_0_l, Z.add_0_r; split_and!; done || lia.
  destruct (airdrop_arrives k (10 ^ 10) b (world c) Hbal) as (w' & Hw' & Hbal'); [lia..|].
  set (c1 := Build_Client w' (sent c) (watched c)).
  change (num_mul (num_of_Z 10) LAMPORTS_PER_SOL) with (num_of_Z (10 ^ 10)).
  erewrite bind_run by (unfold query; rewrite Hw'; reflexivity). fold c1.
  erewrite bind_run by apply stable_getAccountInfo.
  change (lamports_or_zero (info_at (world c1) k)) with (balance_at w' k). rewrite Hbal'.
  destruct (IH (10 ^ 10 + b) c1 Hbal') as (n & c' & Hrun & Hn & Hen & Hlast & Hb' & Hs); [lia..|].
  exists (n + 1), c'. replace (b + (n + 1) * 10 ^ 10) with (10 ^ 10 + b + n * 10 ^ 10) by lia.
  split_and!; [done|lia|lia|lia|done|done].
Qed.

(** Enough money.  If what the faucet is asked for arrives, [ensureFunds] ends, one turn per
    10 SOL that are missing being enough; the payer then has the amount asked for, and no
    airdrop was requested that was not needed. *)
Theorem ensureFunds_ends `{!FaucetPays} fuel k amount b (c : Client W) :
  balance_at (world c) k = num_of_Z b → 0 <= b < 2 ^ 52 → 0 <= amount < 2 ^ 51 → amount - b <= Z.of_nat fuel * 10 ^ 10 →
  ∃ n c', ensureFunds fuel k (num_of_Z amount) c = (Ok (Some (num_of_Z (b + n * 10 ^ 10))), c') ∧
    0 <= n ∧ amount <= b + n * 10 ^ 10 ∧ (0 < n → b + (n - 1) * 10 ^ 10 < amount) ∧
    balance_at (world c') k = num_of_Z (b + n * 10 ^ 10) ∧ sent c' = sent c.
Proof.
  intros Hbal Hb Ha Hf. unfold ensureFunds. erewrite bind_run by apply stable_getAccountInfo.
  change (lamports_or_zero _) with (balance_at (world c) k). rewrite Hbal. by apply airdrops_end.
Qed.

End Airdrops.

(** ** Adding validators *)

Section Adding.
Context `{KeysLaws} `{!AddressesDerive} {W : Type} `{!Connection W} `{!Lodash} `{!Shell W}.

(** An instruction that adds a validator, or removes it. *)
Definition adds_validator (k : PublicKey) (ix : TransactionInstruction) : Prop :=
  deserialize_instruction (ix_data ix) = inr AddValidator ∧ pubkey <$> ix_keys ix !! 3%nat = Some k.

Definition removes_validator (k : PublicKey) (ix : TransactionInstruction) : Prop :=
  deserialize_instruction (ix_data ix) = inr RemoveValidator ∧ pubkey <$> ix_keys ix !! 3%nat = Some k.

Definition validator_ix (tag : Z) (t : TenderizeProgram) (v : PublicKey) : TransactionInstruction :=
  {| ix_keys := [readonly (publicKey (stakePool t)); signer (publicKey (owner t));
                 writable (publicKey (validatorStakeListAccount t)); readonly v;
                 readonly SYSVAR_CLOCK_PUBKEY];
     ix_programId := programId t; ix_data := [byte.of_Z tag] |}.

Lemma validators_to_add_quiet t votes : submits_nothing (validators_to_add t votes : M (Client W) _).
Proof.
  unfold validators_to_add. destruct (length votes =? 0)%nat; [|done].
  apply bind_submits_nothing; [apply readValidators_quiet|]. intros vs.
  apply bind_submits_nothing; [apply query_submits_nothing|]. intros cur.
  by apply bind_submits_nothing.
Qed.

(** A loop over validators submits their instructions. *)
Lemma validators_in_order t (build : PublicKey → result TransactionInstruction) tag ks :
  (∀ k, build k = Ok (validator_ix tag t k)) →
  in_order [payerAccount t; owner t] (validator_ix tag t <$> ks)
    (for_each ks (λ k, send_built (W := W) (build k) [payerAccount t; owner t])).
Proof.
  intros Hb. apply for_each_in_order. apply Forall2_fmap_each. intros k. by apply send_in_order.
Qed.

(** [vadd] without arguments, once the list and the cluster's vote accounts have been
    read, submits one addition, signed by the owner and decoded as such, for every
    current vote account that is not in the list yet, in the order of the cluster's
    answer, and nothing else: all of them, or up to the first that is rejected, which
    makes the command fail. *)
Theorem vadd_adds_missing t (c c1 c2 : Client W) vs current keys reserve upd :
  readValidators t c = (Ok vs, c1) → getVoteAccounts (Some singleGossip) c1 = (Ok current, c2) →
  map_result PublicKey_of_string current = Ok keys →
  ∃ ks ixs new,
    sent (snd (process_command t (Vadd []) reserve upd c)) = sent c ++ new ∧
    runs_through [payerAccount t; owner t] ixs (fst (process_command t (Vadd []) reserve upd c)) new ∧
    Forall2 adds_validator ks ixs ∧ ks `sublist_of` keys ∧
    (∀ k, k ∈ ks ↔ k ∈ keys ∧ k ∉ votePubkey <$> vs).
Proof.
  intros Hvs Hcur Hkeys. cbn [process_command].
  set (ks := filter (λ v, v ∉ votePubkey <$> vs) keys) in *.
  assert (Hto : validators_to_add t [] c = (Ok ks, c2)).
  { unfold validators_to_add. cbn [length Nat.eqb]. erewrite bind_run by done.
    erewrite bind_run by done. by rewrite lift_bind, Hkeys. }
  pose proof (validators_to_add_quiet t [] c) as Hq. rewrite Hto in Hq. cbn [snd] in Hq.
  erewrite bind_run by done.
  destruct (validators_in_order t (addValidatorInstruction t) 2 ks (λ _, eq_refl) c2) as (new & Hs & Hrun).
  exists ks, (validator_ix 2 t <$> ks), new. rewrite <- Hq. split_and!; [done|done| | |].
  - by apply Forall2_fmap_each.
  - apply sublist_filter.
  - intros k. unfold ks. rewrite list_elem_of_filter. tauto.
Qed.

(** [vrem] without arguments, once the list has been read, submits one removal, signed
    by the owner and decoded as such, for every validator of the list without stakes,
    in the order of the list, and none for a validator that has stakes: all of them,
    or up to the first that is rejected, which makes the command fail. *)
Theorem vrem_removes_unstaked t (c c1 : Client W) vs reserve upd :
  readValidators t c = (Ok vs, c1) →
  ∃ ks ixs new,
    sent (snd (process_command t (Vrem []) reserve upd c)) = sent c ++ new ∧
    runs_through [payerAccount t; owner t] ixs (fst (process_command t (Vrem []) reserve upd c)) new ∧
    Forall2 removes_validator ks ixs ∧ ks `sublist_of` (votePubkey <$> vs) ∧
    (∀ k, k ∈ ks ↔ ∃ v, v ∈ vs ∧ votePubkey v = k ∧ stakeCount v = 0).
Proof.
  intros Hvs. cbn [process_command].
  set (ks := votePubkey <$> filter (λ v, stakeCount v = 0) vs) in *.
  assert (Hto : validators_to_remove t [] c = (Ok ks, c1)).
  { unfold validators_to_remove. cbn [length Nat.eqb]. by erewrite bind_run by done. }
  pose proof (readValidators_quiet t c) as Hq. rewrite Hvs in Hq. cbn [snd] in Hq.
  erewrite bind_run by done.
  destruct (validators_in_order t (removeValidatorInstruction t) 3 ks (λ _, eq_refl) c1) as (new & Hs & Hrun).
  exists ks, (validator_ix 3 t <$> ks), new. rewrite <- Hq. split_and!; [done|done| | |].
  - by apply Forall2_fmap_each.
  - unfold ks. clear. induction vs as [|v vs IH]; [constructor|]. rewrite filter_cons.
    destruct (decide _); rewrite !fmap_cons; by constructor.
  - intros k. unfold ks. rewrite list_elem_of_fmap. setoid_rewrite list_elem_of_filter. naive_solver.
Qed.

End Adding.

(** ** On a concrete pool *)

#[global] Instance SampleShell : Shell SampleCluster := {| shell := λ _ w, (EmptyString, w) |}.

Definition sample_args (cmd : Command) : Args := default_args [] [] cmd.

Definition chars (s : string) : list ascii := list_ascii_of_string s.

Lemma solana_config_reads_witness :
  solana_config ([chars "Config File: /home/u/config.yml"] ++ [RPC_URL ++ chars "http://localhost:8899" ++ chars " "]
    ++ [chars "WebSocket URL: ws://localhost:8900/ (computed)"]
    ++ [KEYPAIR_PATH ++ chars "/home/u/id.json" ++ []] ++ [chars "Commitment: singleGossip"]) =
  Ok (chars "http://localhost:8899", chars "/home/u/id.json").
Proof.
  apply (solana_config_reads [chars "Config File: /home/u/config.yml"]
    [chars "WebSocket URL: ws://localhost:8900/ (computed)"] [chars "Commitment: singleGossip"]
    (chars "http://localhost:8899") (chars "/home/u/id.json") 1 0).
  1-3: constructor; [split; reflexivity|constructor].
  - split; [reflexivity|]. by exists (chars "http://localhost:889"), "9"%char.
  - split; [reflexivity|]. by exists (chars "/home/u/id.jso"), "n"%char.
Defined.

Lemma solana_config_refuses_witness :
  solana_config [chars "Config File: /home/u/config.yml"] =
    Err (JsError "Can't parse solana config RPC URL" []).
Proof.
  apply (solana_config_refuses [chars "Config File: /home/u/config.yml"]).
  constructor; [reflexivity|constructor].
Defined.

(** A reserve of 2 SOL and a payer with 9. *)
Definition reserve_client : Client SampleCluster :=
  sample_client [] [] [(reserve_key sample_pool, 2000000000, active_stake 0);
                       (publicKey (payerAccount sample_pool), 9000000000, active_stake 0)].

Lemma fill_reserve_exact_witness :
  ∃ ix ok, sent (snd (fill_reserve sample_pool (sample_args Show) reserve_client)) =
      [] ++ [{| submitted := [ix]; signers := [payerAccount sample_pool]; confirmed := ok |}] ∧
    (ok = true ↔ is_ok (fst (fill_reserve sample_pool (sample_args Show) reserve_client)) = true) ∧
    deserialize_instruction (ix_data ix) = inr (Deposit 3000000000).
Proof.
  apply (fill_reserve_exact sample_pool (sample_args Show) reserve_client
    (snd (fill_reserve sample_pool (sample_args Show) reserve_client))
    (fst (fill_reserve sample_pool (sample_args Show) reserve_client))
    5000000000 2000000000 9000000000 (num_of_Z (128 * 6960)) (num_of_Z (10128 * 6960))).
  - apply surjective_pairing.
  - intros n [-> | ->]; reflexivity.
  - reflexivity.
  - reflexivity.
  - reflexivity.
  - lia.
  - lia.
  - lia.
Defined.

(** A faucet of the sample cluster: the account with the lamports added comes first. *)
#[global] Instance SampleFaucet : Faucet SampleCluster := {|
  rpc_requestAirdrop := λ k a w,
    (Ok tt, {| sc_accounts := (k, {| lamports := num_add a (lamports_or_zero (whole_lamports <$> assoc k (sc_accounts w)));
                                     account_owner := Build_obj 1 k; account_data := [] |}) :: sc_accounts w;
               sc_activations := sc_activations w; sc_votes := sc_votes w; sc_epoch := sc_epoch w |});
|}.

#[global] Instance SampleFaucetPays : FaucetPays (W := SampleCluster).
Proof.
  split. intros k a b w Hb Hb0 Ha0 Hab. eexists. split; [reflexivity|].
  change (lamports_or_zero (whole_lamports <$> assoc k (sc_accounts w)) = num_of_Z b) in Hb.
  unfold balance_at. cbn [info_at SampleStableCluster sc_accounts]. unfold assoc at 1. rewrite Hb.
  rewrite filter_cons_True by reflexivity. cbn [head fmap option_fmap option_map snd lamports_or_zero whole_lamports lamports].
  rewrite num_add_exact by safe_lia. rewrite BigInt_num_of_Z by safe_lia. rewrite Z.mod_small by lia. reflexivity.
Qed.

(** 9 SOL are there, 25 are needed. *)
Lemma ensureFunds_ends_witness :
  ∃ n c', ensureFunds 2 (publicKey (payerAccount sample_pool)) (num_of_Z (25 * 10 ^ 9)) reserve_client =
      (Ok (Some (num_of_Z (9 * 10 ^ 9 + n * 10 ^ 10))), c') ∧
    0 <= n ∧ 25 * 10 ^ 9 <= 9 * 10 ^ 9 + n * 10 ^ 10 ∧ (0 < n → 9 * 10 ^ 9 + (n - 1) * 10 ^ 10 < 25 * 10 ^ 9) ∧
    balance_at (world c') (publicKey (payerAccount sample_pool)) = num_of_Z (9 * 10 ^ 9 + n * 10 ^ 10) ∧
    sent c' = sent reserve_client.
Proof. apply (ensureFunds_ends 2 (publicKey (payerAccount sample_pool)) (25 * 10 ^ 9) (9 * 10 ^ 9)); [reflexivity|lia..]. Defined.

(** One of the two current validators is in the list, without stakes. *)
Definition listed_client : Client SampleCluster := sample_client [sample_validator 1 0 0] [] [].

Lemma vadd_adds_missing_witness :
  ∃ ks ixs new,
    sent (snd (process_command sample_pool (Vadd []) None false listed_client)) = [] ++ new ∧
    runs_through [payerAccount sample_pool; owner sample_pool] ixs
      (fst (process_command sample_pool (Vadd []) None false listed_client)) new ∧
    Forall2 adds_validator ks ixs ∧ ks `sublist_of` [sample_vote 0; sample_vote 1] ∧
    (∀ k, k ∈ ks ↔ k ∈ [sample_vote 0; sample_vote 1] ∧ k ∉ votePubkey <$> [sample_info 1 0 0]).
Proof.
  apply (vadd_adds_missing sample_pool listed_client listed_client listed_client
    [sample_info 1 0 0] [toBase58 (sample_vote 0); toBase58 (sample_vote 1)] _ None false); reflexivity.
Defined.

Lemma vrem_removes_unstaked_witness :
  ∃ ks ixs new,
    sent (snd (process_command sample_pool (Vrem []) None false listed_client)) = [] ++ new ∧
    runs_through [payerAccount sample_pool; owner sample_pool] ixs
      (fst (process_command sample_pool (Vrem []) None false listed_client)) new ∧
    Forall2 removes_validator ks ixs ∧ ks `sublist_of` (votePubkey <$> [sample_info 1 0 0]) ∧
    (∀ k, k ∈ ks ↔ ∃ v, v ∈ [sample_info 1 0 0] ∧ votePubkey v = k ∧ stakeCount v = 0).
Proof.
  apply (vrem_removes_unstaked sample_pool listed_client listed_client
    [sample_info 1 0 0] None false); reflexivity.
Defined.

(** The two amounts of the command line are in different units.  [del --amount 2]
    delegates 2 SOL; [unstake --amount 2] of a stake of 3 SOL asks the program to
    unstake 2 lamports. *)
Theorem cli_amounts_differ :
  submitted_amounts (sent (snd (process_command sample_pool (Del (Some (num_of_Z 2))) None false
                                  staked_client))) = [2000000000] ∧
  submitted_unstakes (sent (snd (process_command sample_pool
      (UnstakeCmd (Some (toBase58 (sample_vote 0))) (Some (num_of_Z 2))) None false staked_client))) =
  [{| ui_validator_address := toBuffer (sample_vote 0); ui_source_index := 0; ui_split_index := 3;
      ui_amount := 2 |}].
Proof. vm_compute. split; reflexivity. Qed.
