(* ===== verification/Scripts.v ===== *)
(** * The experiment's driver (experiment/tester.ts, experiment/main.ts)

    [Tester] holds a connection, a payer and a client of the pool; [main] drives the
    client through its operations.  Key files and fresh key pairs are an interface
    of the environment. *)

From Stdlib Require Import ZArith Lia.
From Stdlib Require Import String Ascii.
From stdpp Require Import base list strings sets.
From coqutil Require Import Byte.
From S2P Require Import Prelude JsNumber Buffers Web3 Sample Program Instructions SamplePool.
From S2P Require Import Wire Readers Operations Accounts Delegation Stakes Creditors Cli.

Open Scope Z_scope.

Section Scripts.
Context `{Keys} {W : Type} `{!Connection W} `{!Lodash} `{!Shell W} `{!KeyFiles W}.

Record Tester := {
  tester_payer : Account;
  userTokenAccount : Account;
  tenderize : option TenderizeProgram;
}.

(** [new Account()]. *)
Definition new_Account : M (Client W) Account :=
  query (λ w, let '(a, w') := new_key w in (Ok a, w')).

(** [path.join('..', 'keys', name + '.json')]. *)
Definition key_file (name : string) : string := ("../keys/" ++ name ++ ".json")%string.

Definition loadAccount (name : string) : M (Client W) Account := query (read_key (key_file name)).

Definition saveAccount (name : string) (a : Account) : M (Client W) unit :=
  query (write_key (key_file name) a).

Definition loadOrNewAccount (name : string) : M (Client W) Account :=
  catch (loadAccount name)
        (λ _, account ← new_Account; _ ← saveAccount name account; mret account).

Definition initTenderize (s : Tester) : M (Client W) Tester :=
  program ← loadAccount "solana_bpf_tenderize-keypair";
  pool ← loadAccount "stake_pool";
  validator_list ← loadAccount "validator_list";
  credit_list ← loadAccount "credit_list";
  tSOL ← loadAccount "tSOL_token";
  fee ← loadAccount "owners_fee";
  reserve ← loadAccount "credit_reserve";
  mret {| tester_payer := tester_payer s; userTokenAccount := userTokenAccount s;
          tenderize := Some {| payerAccount := tester_payer s; programAccount := program;
                               stakePool := pool; owner := tester_payer s;
                               validatorStakeListAccount := validator_list;
                               creditListAccount := credit_list; poolMintToken := publicKey tSOL;
                               ownersFee := publicKey fee; creditReserve := publicKey reserve |} |}.

Definition runProgram (s : Tester) (id : PublicKey) (stateAccount : Account) : M (Client W) unit :=
  sendAndConfirmTransaction
    [{| ix_keys := [signer_writable (publicKey stateAccount)]; ix_programId := id; ix_data := alloc 0 |}]
    [tester_payer s; stateAccount].

Definition makeAccount (s : Tester) (own : PublicKey) (l : num) (sp : Z) : M (Client W) Account :=
  account ← new_Account;
  _ ← sendAndConfirmTransaction
        [createAccount {| fromPubkey := publicKey (tester_payer s); newAccountPubkey := publicKey account;
                          create_lamports := l; space := sp; create_programId := own |}]
        [tester_payer s; account];
  _ ← getBalance (publicKey account);
  mret account.

Definition tester_createStakePool (t : TenderizeProgram) : M (Client W) unit :=
  createStakePool t {| feeDenominator := num_of_Z 100; feeNumerator := num_of_Z 3 |}.

(** One turn of the loop of [Tester.build]: the key pair is read as soon as its line is
    found. *)
Definition build_line (st : option (list ascii) * option Account) (line : list ascii)
  : M (Client W) (step (option (list ascii) * option Account)) :=
  let '(url, payer) := st in
  let line := trimRight line in
  let url := match match_rest same_letter RPC_URL line with Some m => Some m | None => url end in
  match match_rest same_char KEYPAIR_PATH line with
  | Some m => a ← query (read_key (string_of_list_ascii m)); mret (Continue (url, Some a))
  | None => mret (Continue (url, payer))
  end.

Definition tester_build (config : list (list ascii)) : M (Client W) Tester :=
  '(url, payer) ← for_of config (None, None) build_line;
  _ ← lift (assert_ok url "Can't parse solana config RPC URL");
  match payer with
  | None => throw (JsError "Can't parse solana config account" [])
  | Some p => _ ← getVersion;
              _ ← getBalance (publicKey p);
              user ← loadAccount "user_tokens";
              mret {| tester_payer := p; userTokenAccount := user; tenderize := None |}
  end.

Definition getValidators : M (Client W) (list PublicKey) :=
  current ← getVoteAccounts (Some singleGossip);
  lift (map_result PublicKey_of_string current).

(** ** [main] *)

Definition approve_command (s : Tester) (authority : PublicKey) : string :=
  ("spl-token approve " ++ toBase58 (publicKey (userTokenAccount s)) ++ " 1 " ++ toBase58 authority)%string.

(** The creation of the pool, the first deposit and the first validators. *)
Definition main_setup (s : Tester) (t : TenderizeProgram) (validators : list PublicKey)
  : M (Client W) unit :=
  state ← readState t false;
  _ ← match initialized state with
      | None => _ ← tester_createStakePool t; _ ← readState t false; mret tt
      | Some _ => mret tt
      end;
  reserveAddress ← lift (getReserveAddress t);
  reserve ← getAccountInfo reserveAddress None;
  let low := match reserve with
             | None => true
             | Some r => num_ltb (lamports r) (num_of_Z 100000000000)
             end in
  _ ← (if low then
         _ ← deposit t {| userSource := tester_payer s; deposit_amount := num_of_Z 100000000000;
                          userToken := publicKey (userTokenAccount s) |};
         _ ← readState t false; mret tt
       else mret tt);
  listed ← readValidators t;
  if (length listed =? 0)%nat then
    _ ← updatePool t;
    _ ← readState t false;
    for_each validators (λ validator, addValidator t validator)
  else mret tt.

(** A credit of 0.01 SOL worth of tokens, of which a fifth is cancelled. *)
Definition main_credit (s : Tester) (t : TenderizeProgram) : M (Client W) unit :=
  authority ← lift (getWithdrawAuthority t);
  _ ← execShellCommand (approve_command s authority);
  cancelAuthority ← new_Account;
  let params a k := {| credit_userTokenSource := publicKey (userTokenAccount s);
                       credit_amount := num_of_Z a;
                       credit_userSolTarget := publicKey (tester_payer s);
                       credit_cancelAuthority := k |} in
  _ ← credit t (params 10000000 (IsKey (publicKey cancelAuthority)));
  _ ← credit t (params (-2000000) (IsAccount cancelAuthority));
  _ ← readState t false;
  mret tt.

Definition main_cycle (t : TenderizeProgram) : M (Client W) unit :=
  _ ← updatePool t;
  _ ← readState t false;
  _ ← payCreditors t 0;
  _ ← delegateReserveBatch t (num_of_Z 10000000000);
  _ ← readState t false;
  _ ← mergeAllStakes t;
  _ ← updatePool t;
  _ ← readState t false;
  _ ← unstakeAll t;
  _ ← readState t false;
  mret tt.

Definition main (config : list (list ascii)) : M (Client W) unit :=
  tester ← tester_build config;
  tester ← initTenderize tester;
  validators ← getValidators;
  t ← not_null (tenderize tester);
  _ ← main_setup tester t validators;
  _ ← main_credit tester t;
  main_cycle t.

(** ** Key files *)

(** What was written can be read: nobody else changes key files. *)
Class KeyFilesLaws : Prop := {
  read_after_write : ∀ f a w w', write_key f a w = (Ok tt, w') → ∀ g, read_key g w' =
    if decide (f = g) then (Ok a, w') else (fst (read_key g w), w');
  read_keeps : ∀ f w r w', read_key f w = (r, w') → w' = w;
}.

End Scripts.

Section ScriptFacts.
Context `{KeysLaws} `{!AddressesDerive} {W : Type} `{!Connection W} `{!Lodash} `{!Shell W}
        `{!KeyFiles W}.

(** An account that was loaded or made is there the next time: [loadOrNewAccount]
    followed by [loadAccount] gives the same account. *)
Theorem loadOrNewAccount_stable `{!KeyFilesLaws} name (c c' : Client W) a :
  loadOrNewAccount name c = (Ok a, c') → fst (loadAccount name c') = Ok a.
Proof.
  unfold loadOrNewAccount, catch, loadAccount, query.
  destruct (read_key (key_file name) (world c)) as [[b|e] w] eqn:Hr.
  - intros [= <- <-]. cbn [world]. pose proof (read_keeps _ _ _ _ Hr) as ->. by rewrite Hr.
  - intros Hn. inv_bind Hn. inv_bind Hn. injection Hn as <- <-.
    unfold saveAccount, query in E0. destruct a1.
    destruct (write_key (key_file name) a0 (world s)) as [[[]|e'] w'] eqn:Hw; simplify_eq.
    cbn [world]. rewrite (read_after_write _ _ _ _ Hw). by rewrite decide_True.
Qed.

(** The credit step of the driver, if it returns, has submitted two messages: the
    program decodes them as a credit of 10000000 and the cancellation of 2000000 of
    it, with the same account as cancel authority, which signs the second only. *)
Theorem main_credit_messages s t (c c' : Client W) :
  main_credit s t c = (Ok tt, c') →
  ∃ a ix1 ix2,
    sent c' = sent c ++
      [{| submitted := [ix1]; signers := [payerAccount t]; confirmed := true |};
       {| submitted := [ix2]; signers := [payerAccount t; a]; confirmed := true |}] ∧
    deserialize_instruction (ix_data ix1) = inr (Credit 10000000) ∧
    deserialize_instruction (ix_data ix2) = inr (Uncredit 2000000) ∧
    ix_keys ix1 !! 6%nat = Some (readonly (publicKey a)) ∧
    ix_keys ix2 !! 6%nat = Some (signer (publicKey a)).
Proof.
  unfold main_credit. rewrite lift_bind, getWithdraw_ok. intros Hr.
  inv_bind Hr. inv_bind Hr. cbv zeta in Hr. inv_bind Hr. inv_bind Hr. inv_bind Hr. injection Hr as <-.
  pose proof (readState_quiet t false s3) as Hq. rewrite E3 in Hq. cbn [snd] in Hq.
  assert (Hq0 : sent s1 = sent c).
  { unfold new_Account, execShellCommand, query in *.
    destruct (shell _ (world c)), (new_key (world s0)); by simplify_eq. }
  set (p1 := {| credit_userTokenSource := _; credit_amount := num_of_Z 10000000;
                credit_userSolTarget := _; credit_cancelAuthority := _ |}) in E1.
  set (p2 := {| credit_userTokenSource := _; credit_amount := num_of_Z (-2000000);
                credit_userSolTarget := _; credit_cancelAuthority := _ |}) in E2.
  destruct (credit_message t p1 10000000) as (ix1 & k1 & Hix1 & Hk1 & Hd1 & H61);
    [done|unfold safe; lia|by eexists|].
  destruct (credit_message t p2 (-2000000)) as (ix2 & k2 & Hix2 & Hk2 & Hd2 & H62);
    [done|unfold safe; lia|by eexists|].
  simpl in Hk1, Hk2. simplify_eq.
  exists a0, ix1, ix2. unfold credit in E1, E2. rewrite lift_bind, Hix1 in E1. rewrite lift_bind, Hix2 in E2.
  change (num_ltb (credit_amount p1) (num_of_Z 0)) with false in E1.
  change (num_ltb (credit_amount p2) (num_of_Z 0)) with true in E2.
  destruct a1, a2. apply send_run in E1 as [E1 _]. apply send_run in E2 as [E2 _].
  split_and!; try done. by rewrite Hq, E2, E1, Hq0, <- app_assoc.
Qed.

End ScriptFacts.

(** ** On concrete environments *)

(** A directory of key files: the latest write of a name counts. *)
Abbreviation Directory := (list (string * SampleKey)).

Definition find_file (f : string) (d : Directory) : option SampleKey :=
  snd <$> head (filter (λ e, e.1 = f) d).

#[global] Instance DirectoryKeyFiles : KeyFiles Directory := {|
  read_key := λ f d, (match find_file f d with Some a => Ok (a : Account) | None => Err (Rejected 2) end, d);
  write_key := λ f (a : Account) d, (Ok tt, (f, a : SampleKey) :: d);
  new_key := λ d, (sample_account 77, d);
|}.

#[global] Instance DirectoryKeyFilesLaws : KeyFilesLaws (W := Directory).
Proof.
  split.
  - intros f a w w' Hw g. injection Hw as <-. cbn [read_key DirectoryKeyFiles].
    assert (Hf : find_file g ((f, a) :: w) = if decide (f = g) then Some a else find_file g w).
    { unfold find_file. rewrite filter_cons. cbn [fst]. by destruct (decide (f = g)). }
    etrans; [apply (f_equal (λ x, (match x with Some a => Ok a | None => Err (Rejected 2) end, _)) Hf)|].
    by destruct (decide (f = g)).
  - intros f w r w' Hr. cbn [read_key DirectoryKeyFiles] in Hr. congruence.
Qed.

Definition empty_directory : Client Directory := {| world := []; sent := []; watched := [] |}.

Lemma loadOrNewAccount_stable_witness :
  fst (loadAccount "user_tokens" (snd (loadOrNewAccount "user_tokens" empty_directory))) =
  Ok (sample_account 77).
Proof.
  apply (loadOrNewAccount_stable "user_tokens" empty_directory). reflexivity.
Defined.

(** On the sample cluster every key file holds a key that depends on its name. *)
#[global] Instance SampleKeyFiles : KeyFiles SampleCluster := {|
  read_key := λ f w, (Ok (literal_key f : Account), w);
  write_key := λ _ _ w, (Err (Rejected 13), w);
  new_key := λ w, (sample_account 77, w);
|}.

Definition sample_tester : Tester :=
  {| tester_payer := sample_account 1; userTokenAccount := sample_account 40;
     tenderize := Some sample_pool |}.

Lemma main_credit_messages_witness :
  ∃ a ix1 ix2,
    sent (snd (main_credit sample_tester sample_pool empty_client)) = [] ++
      [{| submitted := [ix1]; signers := [payerAccount sample_pool]; confirmed := true |};
       {| submitted := [ix2]; signers := [payerAccount sample_pool; a]; confirmed := true |}] ∧
    deserialize_instruction (ix_data ix1) = inr (Credit 10000000) ∧
    deserialize_instruction (ix_data ix2) = inr (Uncredit 2000000) ∧
    ix_keys ix1 !! 6%nat = Some (readonly (publicKey a)) ∧
    ix_keys ix2 !! 6%nat = Some (signer (publicKey a)).
Proof. apply (main_credit_messages sample_tester sample_pool empty_client). reflexivity. Defined.
