(* ===== verification/Ledger.v ===== *)
(** * The Ledger wallet (src/wallet-adapters/ledger)

    [core.ts]: the chunked transfer of a payload to the device, the derivation path
    and the two requests; [index.tsx]: the adapter's connection as a state machine.
    The device behind the transport is an interface. *)

From Stdlib Require Import ZArith Lia.
From Stdlib Require Import String.
From stdpp Require Import base list strings sets.
From coqutil Require Import Byte Word.LittleEndianList.
From S2P Require Import Prelude JsNumber Buffers Web3 Sample.

Open Scope Z_scope.

(** ** Transport *)

Record APDU := {
  apdu_cla : Z;
  apdu_ins : Z;
  apdu_p1 : Z;
  apdu_p2 : Z;
  apdu_data : buffer;
}.

(** [transport.send], [TransportWebUSB.create] and [transport.close]. *)
Class Transport (D : Type) := {
  exchange : APDU → D → result buffer * D;
  create_transport : D → result unit * D;
  close_transport : D → result unit * D;
}.

(** The device and the requests it got. *)
Record Ledger (D : Type) := { device : D; apdus : list APDU }.
Arguments device {D} l.
Arguments apdus {D} l.
Arguments Build_Ledger {D} device apdus.

Definition INS_GET_PUBKEY : Z := 5.
Definition INS_SIGN_MESSAGE : Z := 6.
Definition P1_NON_CONFIRM : Z := 0.
Definition P1_CONFIRM : Z := 1.
Definition P2_EXTEND : Z := 1.
Definition P2_MORE : Z := 2.
Definition MAX_PAYLOAD : nat := 255.
Definition LEDGER_CLA : Z := 224.

Section Core.
Context {D : Type} `{!Transport D}.

Definition transport_send (ins p1 p2 : Z) (chunk : buffer) : M (Ledger D) buffer :=
  λ l, let a := {| apdu_cla := LEDGER_CLA; apdu_ins := ins; apdu_p1 := p1; apdu_p2 := p2;
                   apdu_data := chunk |} in
       let '(r, d) := exchange a (device l) in (r, Build_Ledger d (apdus l ++ [a])).

(** The loop of [ledgerSend]: the variables are [p2] and [payloadOffset]; [None] when
    the fuel is used up. *)
Fixpoint send_more (fuel : nat) (ins p1 : Z) (payload : buffer) (p2 : Z) (payloadOffset : nat)
  : M (Ledger D) (option (Z * nat)) :=
  if (MAX_PAYLOAD <? length payload - payloadOffset)%nat then
    match fuel with
    | O => mret None
    | S fuel' =>
        let chunk := slice payload payloadOffset (payloadOffset + MAX_PAYLOAD) in
        reply ← transport_send ins p1 (Z.lor p2 P2_MORE) chunk;
        if negb (length reply =? 2)%nat then throw (JsError "Received unexpected reply payload" [])
        else send_more fuel' ins p1 payload (Z.lor p2 P2_EXTEND) (payloadOffset + MAX_PAYLOAD)
    end
  else mret (Some (p2, payloadOffset)).

Definition ledgerSend (fuel : nat) (ins p1 : Z) (payload : buffer) : M (Ledger D) (option buffer) :=
  st ← (if (MAX_PAYLOAD <? length payload)%nat then send_more fuel ins p1 payload 0 0
        else mret (Some (0, 0%nat)));
  match st with
  | None => mret None
  | Some (p2, payloadOffset) =>
      reply ← transport_send ins p1 p2 (drop payloadOffset payload);
      mret (Some (take (length reply - 2) reply))
  end.

(** ** Derivation path *)

(** JavaScript's bitwise operators: 32-bit two's complement, and [x >>> 0]. *)
Definition to_int32 (z : Z) : Z := (z + 2 ^ 31) mod 2 ^ 32 - 2 ^ 31.
Definition js_or (a b : Z) : Z := to_int32 (Z.lor (to_int32 a) (to_int32 b)).
Definition js_shl (a n : Z) : Z := to_int32 (Z.shiftl (to_int32 a) n).
Definition ushr0 (z : Z) : Z := z mod 2 ^ 32.

Definition BIP32_HARDENED_BIT : Z := ushr0 (js_shl 1 31).
Definition harden (n : Z) : Z := ushr0 (js_or n BIP32_HARDENED_BIT).

Definition getSolanaDerivationPath (account change : option Z) : result buffer :=
  let len := match account, change with
             | Some _, Some _ => 4
             | Some _, None => 3
             | None, _ => 2
             end in
  let derivationPath := alloc (1 + Z.to_nat len * 4) in
  '(derivationPath, offset) ← writeUInt8 derivationPath len 0;
  '(derivationPath, offset) ← writeUInt32BE derivationPath (harden 44) offset;
  '(derivationPath, offset) ← writeUInt32BE derivationPath (harden 501) offset;
  match account with
  | None => mret derivationPath
  | Some a =>
      '(derivationPath, offset) ← writeUInt32BE derivationPath (harden a) offset;
      match change with
      | None => mret derivationPath
      | Some c =>
          '(derivationPath, _) ← writeUInt32BE derivationPath (harden c) offset;
          mret derivationPath
      end
  end.

(** ** Requests *)

Definition signBytes (fuel : nat) (bytes derivationPath : buffer) : M (Ledger D) (option buffer) :=
  '(numPaths, _) ← lift (writeUInt8 (alloc 1) 1 0);
  ledgerSend fuel INS_SIGN_MESSAGE P1_CONFIRM (numPaths ++ derivationPath ++ bytes).

(** [message] is the serialised transaction. *)
Definition signTransaction (fuel : nat) (message derivationPath : buffer)
  : M (Ledger D) (option buffer) := signBytes fuel message derivationPath.

Definition getPublicKey `{Keys} (fuel : nat) (derivationPath : buffer)
  : M (Ledger D) (option PublicKey) :=
  publicKeyBytes ← ledgerSend fuel INS_GET_PUBKEY P1_NON_CONFIRM derivationPath;
  match publicKeyBytes with
  | None => mret None
  | Some b => k ← lift (new_PublicKey b); mret (Some k)
  end.

End Core.

(** ** The protocol

    What the chunks mean: a chunk without [P2_EXTEND] starts a payload, one with it
    continues the payload, and the payload is complete at a chunk without
    [P2_MORE]. *)
Fixpoint reassemble (received : option buffer) (l : list APDU) : option buffer :=
  match l with
  | [] => None
  | a :: l' =>
      let start := if Z.testbit (apdu_p2 a) 0 then received else Some [] in
      match start with
      | None => None
      | Some b =>
          let b := b ++ apdu_data a in
          if Z.testbit (apdu_p2 a) 1 then reassemble (Some b) l'
          else match l' with [] => Some b | _ :: _ => None end
      end
  end.

Section Protocol.
Context {D : Type} `{!Transport D}.

Definition wf_apdu (ins p1 : Z) (a : APDU) : Prop :=
  apdu_cla a = LEDGER_CLA ∧ apdu_ins a = ins ∧ apdu_p1 a = p1 ∧ (length (apdu_data a) ≤ MAX_PAYLOAD)%nat.

Lemma transport_send_run ins p1 p2 chunk (l l' : Ledger D) r :
  transport_send ins p1 p2 chunk l = (r, l') →
  apdus l' = apdus l ++ [{| apdu_cla := LEDGER_CLA; apdu_ins := ins; apdu_p1 := p1; apdu_p2 := p2;
                            apdu_data := chunk |}].
Proof. unfold transport_send. destruct (exchange _ _). by intros [= _ <-]. Qed.

(** The end of [ledgerSend]: the last chunk, after the loop. *)
Definition send_last (ins p1 : Z) (payload : buffer) (st : option (Z * nat))
  : M (Ledger D) (option buffer) :=
  match st with
  | None => mret None
  | Some (p2, payloadOffset) =>
      reply ← transport_send ins p1 p2 (drop payloadOffset payload);
      mret (Some (take (length reply - 2) reply))
  end.

Lemma send_last_run ins p1 payload p2 off (l l' : Ledger D) r :
  send_last ins p1 payload (Some (p2, off)) l = (Ok r, l') →
  r ≠ None ∧ apdus l' = apdus l ++ [{| apdu_cla := LEDGER_CLA; apdu_ins := ins; apdu_p1 := p1;
                                       apdu_p2 := p2; apdu_data := drop off payload |}].
Proof.
  cbn [send_last]. intros Hr. inv_bind Hr. apply transport_send_run in E.
  injection Hr as <- <-. done.
Qed.

(** From an offset on, the loop and the last chunk send the rest of the payload. *)
Lemma send_rest fuel ins p1 payload p2 off (l l' : Ledger D) r :
  (length payload ≤ off + MAX_PAYLOAD * S fuel)%nat → (off ≤ length payload)%nat → p2 = 0 ∨ p2 = 1 →
  (send_more fuel ins p1 payload p2 off ≫= send_last ins p1 payload) l = (Ok r, l') →
  r ≠ None ∧ ∃ sent, apdus l' = apdus l ++ sent ∧ Forall (wf_apdu ins p1) sent ∧
    ∀ received b, (if p2 =? 0 then b = [] else received = Some b) →
      reassemble received sent = Some (b ++ drop off payload).
Proof.
  revert p2 off l. induction fuel as [|fuel IH]; intros p2 off l Hf Hoff Hp2 Hr; cbn [send_more] in Hr.
  all: destruct (Nat.ltb_spec MAX_PAYLOAD (length payload - off)) as [Hmore|Hlast].
  1: unfold MAX_PAYLOAD in *; lia.
  2: { inv_bind Hr. inv_bind E. apply transport_send_run in E0.
    destruct (negb (length a0 =? 2)%nat); [done|].
    edestruct (IH (Z.lor p2 P2_EXTEND) (off + MAX_PAYLOAD)%nat s0) as (Hn & sent & Hs & Hwf & Hre);
      [unfold MAX_PAYLOAD in *; lia|unfold MAX_PAYLOAD in *; lia|destruct Hp2; subst; by right| |].
    { unfold mbind, M_bind. by rewrite E. }
    split; [done|]. eexists (_ :: sent). rewrite Hs, E0, <- app_assoc. split; [done|]. split.
    { constructor; [|done]. split_and!; try done. unfold slice. simpl apdu_data. rewrite length_take. lia. }
    intros received b Hb. cbn [reassemble apdu_p2 apdu_data].
    assert (Hstart : (if Z.testbit (Z.lor p2 P2_MORE) 0 then received else Some []) = Some b).
    { destruct Hp2 as [-> | ->]; simpl in Hb; by rewrite Hb. }
    assert (Hbit : Z.testbit (Z.lor p2 P2_MORE) 1 = true) by (destruct Hp2 as [-> | ->]; done).
    assert (Hp1 : Z.lor p2 P2_EXTEND = 1) by (destruct Hp2 as [-> | ->]; done).
    rewrite Hstart, Hbit, (Hre _ (b ++ slice payload off (off + MAX_PAYLOAD))) by (by rewrite Hp1).
    unfold slice. rewrite <- app_assoc, Nat.add_comm, Nat.add_sub. f_equal. f_equal.
    rewrite Nat.add_comm, <- drop_drop. apply take_drop. }
  all: rewrite ret_bind in Hr; apply send_last_run in Hr as [Hn Hs]; (split; [done|]);
    eexists; (split; [exact Hs|]); split.
  1, 3: constructor; [|constructor]; split_and!; try done; simpl apdu_data; rewrite length_drop; lia.
  all: intros received b Hb; destruct Hp2 as [-> | ->]; simpl in Hb; rewrite Hb; done.
Qed.

Lemma ledgerSend_runs fuel ins p1 payload (l l' : Ledger D) r :
  (length payload ≤ MAX_PAYLOAD * S fuel)%nat →
  ledgerSend fuel ins p1 payload l = (Ok r, l') →
  r ≠ None ∧ ∃ sent, apdus l' = apdus l ++ sent ∧ Forall (wf_apdu ins p1) sent ∧
    reassemble None sent = Some payload.
Proof.
  intros Hf Hr.
  assert (Hr' : (send_more fuel ins p1 payload 0 0 ≫= send_last ins p1 payload) l = (Ok r, l')).
  { unfold ledgerSend in Hr. destruct (Nat.ltb_spec MAX_PAYLOAD (length payload)); [done|].
    assert (Hm : ∀ l1, send_more fuel ins p1 payload 0 0 l1 = (Ok (Some (0, 0%nat)), l1)).
    { intros l1. destruct fuel; cbn [send_more]; by rewrite (proj2 (Nat.ltb_ge _ _)) by lia. }
    unfold mbind, M_bind. rewrite Hm. done. }
  destruct (send_rest fuel ins p1 payload 0 0 l l' r) as (Hn & sent & Hs & Hwf & Hre);
    [lia|lia|by left|done|].
  split; [done|]. exists sent. split_and!; [done|done|]. by apply (Hre None []).
Qed.

(** A device that answers every chunk, and one that is followed by more with its two
    status bytes only. *)
Definition acknowledges : Prop :=
  ∀ a (d : D), ∃ reply d', exchange a d = (Ok reply, d') ∧
    (Z.testbit (apdu_p2 a) 1 = true → length reply = 2%nat).

Lemma transport_answered ins p1 p2 chunk (l : Ledger D) :
  acknowledges → ∃ reply l', transport_send ins p1 p2 chunk l = (Ok reply, l') ∧
    (Z.testbit p2 1 = true → length reply = 2%nat).
Proof.
  intros Hd. unfold transport_send. cbv zeta. set (a := Build_APDU _ _ _ _ _).
  destruct (Hd a (device l)) as (reply & d & Hx & Hl). rewrite Hx. eexists _, _. split; [done|exact Hl].
Qed.

Lemma send_more_returns fuel ins p1 payload p2 off (l : Ledger D) :
  acknowledges → (length payload ≤ off + MAX_PAYLOAD * S fuel)%nat → p2 = 0 ∨ p2 = 1 →
  ∃ st l', send_more fuel ins p1 payload p2 off l = (Ok (Some st), l').
Proof.
  intros Hd. revert p2 off l. induction fuel as [|fuel IH]; intros p2 off l Hf Hp2; cbn [send_more].
  all: destruct (Nat.ltb_spec MAX_PAYLOAD (length payload - off)) as [Hmore|Hlast];
    [|by eexists _, _].
  - unfold MAX_PAYLOAD in *; lia.
  - edestruct (transport_answered ins p1 (Z.lor p2 P2_MORE)) as (reply & l1 & Hx & Hl); [done|].
    erewrite bind_run by done. rewrite Hl by (destruct Hp2; by subst). apply IH.
    + unfold MAX_PAYLOAD in *; lia.
    + right. destruct Hp2; by subst.
Qed.

Lemma ledgerSend_returns fuel ins p1 payload (l : Ledger D) :
  acknowledges → (length payload ≤ MAX_PAYLOAD * S fuel)%nat →
  ∃ reply l', ledgerSend fuel ins p1 payload l = (Ok (Some reply), l').
Proof.
  intros Hd Hf. unfold ledgerSend.
  assert (Hst : ∃ st l', (if (MAX_PAYLOAD <? length payload)%nat
    then send_more fuel ins p1 payload 0 0 else mret (Some (0, 0%nat))) l = (Ok (Some st), l')).
  { destruct (_ <? _)%nat; [|by eexists _, _]. apply send_more_returns; [done|lia|by left]. }
  destruct Hst as ([p2 off] & l1 & Hst). erewrite bind_run by done.
  edestruct (transport_answered ins p1 p2) as (reply & l2 & Hx & _); [done|].
  erewrite bind_run by done. by eexists _, _.
Qed.

End Protocol.

(** ** Requests reach the device *)

Section Requests.
Context {D : Type} `{!Transport D}.

(** C33: a signature request delivers the message: whatever the device answers, if the
    request succeeds, the chunks sent to the device are signing requests of at most 255
    bytes each that reassemble under the protocol to the byte 1, the derivation path
    and the message; the loop ends within the fuel; and with a device that answers the
    request succeeds. *)
Theorem signBytes_delivers fuel bytes path (l : Ledger D) :
  (1 + length path + length bytes ≤ MAX_PAYLOAD * S fuel)%nat →
  (∀ r l', signBytes fuel bytes path l = (Ok r, l') →
     r ≠ None ∧ ∃ sent, apdus l' = apdus l ++ sent ∧
       Forall (wf_apdu INS_SIGN_MESSAGE P1_CONFIRM) sent ∧
       reassemble None sent = Some (Byte.x01 :: path ++ bytes)) ∧
  (acknowledges → ∃ signature l', signBytes fuel bytes path l = (Ok (Some signature), l')).
Proof.
  intros Hf. unfold signBytes. rewrite lift_bind, write_tag by lia.
  assert (Hlen : (length (([byte.of_Z 1] ++ alloc 0) ++ path ++ bytes) ≤ MAX_PAYLOAD * S fuel)%nat)
    by (rewrite !length_app, length_alloc; cbn [length]; lia).
  split; [intros r l' Hr; by apply ledgerSend_runs in Hr|intros Hd; by apply ledgerSend_returns].
Qed.

(** A request for the public key delivers the derivation path, and returns the key
    of the device's reply without its two status bytes; with a device that answers, it
    fails only if the reply is not a key. *)
Theorem getPublicKey_delivers `{Keys} fuel path (l : Ledger D) :
  (length path ≤ MAX_PAYLOAD * S fuel)%nat →
  (∀ r l', getPublicKey fuel path l = (Ok r, l') →
     ∃ k reply sent, r = Some k ∧ new_PublicKey reply = Ok k ∧ apdus l' = apdus l ++ sent ∧
       Forall (wf_apdu INS_GET_PUBKEY P1_NON_CONFIRM) sent ∧ reassemble None sent = Some path) ∧
  (acknowledges → ∃ reply l', getPublicKey fuel path l = (k ← new_PublicKey reply; mret (Some k), l')).
Proof.
  intros Hf. unfold getPublicKey. split.
  - intros r l' Hr. inv_bind Hr. apply ledgerSend_runs in E as (Hn & sent & Hs & Hwf & Hre); [|done].
    destruct a as [b|]; [|done]. unfold lift, mbind, M_bind in Hr.
    destruct (new_PublicKey b) as [k|e] eqn:Hk; [|done]. injection Hr as <- <-.
    exists k, b, sent. by split_and!.
  - intros Hd. edestruct ledgerSend_returns as (reply & l1 & Hx); [done|done|].
    erewrite bind_run by done. exists reply, l1. unfold lift, mbind, M_bind. by destruct (new_PublicKey reply).
Qed.

End Requests.

(** ** The path *)

Lemma to_int32_id z : - 2 ^ 31 <= z < 2 ^ 31 → to_int32 z = z.
Proof. intros Hz. unfold to_int32. rewrite Z.mod_small by lia. lia. Qed.

Lemma to_int32_range z : - 2 ^ 31 <= to_int32 z < 2 ^ 31.
Proof. unfold to_int32. pose proof (Z.mod_pos_bound (z + 2 ^ 31) (2 ^ 32)). lia. Qed.

Lemma to_int32_mod z : to_int32 z mod 2 ^ 31 = z mod 2 ^ 31.
Proof.
  unfold to_int32. rewrite (Z.mod_eq (z + 2 ^ 31) (2 ^ 32)) by lia.
  replace (z + 2 ^ 31 - 2 ^ 32 * ((z + 2 ^ 31) / 2 ^ 32) - 2 ^ 31)
    with (z + (- 2 * ((z + 2 ^ 31) / 2 ^ 32)) * 2 ^ 31) by lia.
  apply Z.mod_add. lia.
Qed.

(** Setting the upper half of a 32-bit number. *)
Lemma lor_high x : Z.lor x (- 2 ^ 31) = x mod 2 ^ 31 - 2 ^ 31.
Proof.
  pose proof (Z.add_lor_land x (- 2 ^ 31)) as Hadd.
  change (- 2 ^ 31) with (Z.lnot (Z.ones 31)) in Hadd at 2.
  rewrite <- Z.ldiff_land, Z.ldiff_ones_r, Z.shiftl_mul_pow2, Z.shiftr_div_pow2 in Hadd by lia.
  rewrite (Z.mod_eq x (2 ^ 31)) by lia. lia.
Qed.

(** The hardened index: the low 31 bits with the top bit set, whatever the number. *)
Lemma harden_eq n : harden n = n mod 2 ^ 31 + 2 ^ 31.
Proof.
  unfold harden, js_or. change (to_int32 BIP32_HARDENED_BIT) with (- 2 ^ 31).
  rewrite lor_high, to_int32_mod. pose proof (Z.mod_pos_bound n (2 ^ 31) ltac:(lia)).
  rewrite to_int32_id by lia. unfold ushr0.
  replace (n mod 2 ^ 31 - 2 ^ 31) with (n mod 2 ^ 31 + 2 ^ 31 + (-1) * 2 ^ 32) by lia.
  rewrite Z.mod_add by lia. apply Z.mod_small. lia.
Qed.

Definition u32_be (z : Z) : buffer := reverse (le_split 4 z).

Lemma writeUInt32BE_append pre n v p :
  p = length pre → 0 <= v < 2 ^ 32 → (4 <= n)%nat →
  writeUInt32BE (pre ++ alloc n) v p = Ok ((pre ++ u32_be v) ++ alloc (n - 4), length (pre ++ u32_be v)).
Proof.
  intros Hp Hv Hn. unfold writeUInt32BE. rewrite (proj2 (in_range_true _ _ _)) by done.
  assert (Hl : length (reverse (le_split 4 v)) = 4%nat) by (by rewrite length_reverse, length_le_split).
  rewrite put_bytes_append by (done || lia). by rewrite Hl.
Qed.

Lemma harden_range n : 0 <= harden n < 2 ^ 32.
Proof. rewrite harden_eq. pose proof (Z.mod_pos_bound n (2 ^ 31) ltac:(lia)). lia. Qed.

(** The indices of a path, [m/44'/501'] and what follows. *)
Definition path_indices (account change : option Z) : list Z :=
  match account, change with
  | Some a, Some c => [44; 501; a; c]
  | Some a, None => [44; 501; a]
  | None, _ => [44; 501]
  end.

(** A derivation path is always produced, for any account and change numbers: the
    number of its indices in a byte, and each index, reduced to 31 bits and with the
    hardening bit set, as four bytes, the highest first.  A change number without an
    account number is ignored. *)
Theorem derivation_path_bytes account change :
  getSolanaDerivationPath account change =
  Ok (byte.of_Z (Z.of_nat (length (path_indices account change)))
      :: concat ((λ n, u32_be (n mod 2 ^ 31 + 2 ^ 31)) <$> path_indices account change)).
Proof.
  unfold getSolanaDerivationPath. destruct account as [a|]; [destruct change as [c|]|];
    cbv zeta; [change (1 + Z.to_nat 4 * 4)%nat with 17%nat|change (1 + Z.to_nat 3 * 4)%nat with 13%nat|
               change (1 + Z.to_nat 2 * 4)%nat with 9%nat];
    rewrite write_tag by lia; cbn [mbind result_bind];
    repeat (rewrite writeUInt32BE_append by (done || lia || apply harden_range); cbn [mbind result_bind]).
  all: cbn [path_indices fmap list_fmap concat length]; rewrite !harden_eq, !app_nil_r, <- ?app_assoc; done.
Qed.

(** ** The adapter *)

Inductive AdapterEvent (K : Type) := ConnectEvent (k : K) | DisconnectEvent | NotifyError.
Arguments ConnectEvent {K} k.
Arguments DisconnectEvent {K}.
Arguments NotifyError {K}.

Section Adapter.
Context `{Keys} {D : Type} `{!Transport D}.

(** The fields of [LedgerWalletAdapter] ([_transport] is whether it is set), what was
    emitted, and the device. *)
Record Wallet := {
  connecting : bool;
  wallet_key : option PublicKey;
  transport : bool;
  emitted : list (AdapterEvent PublicKey);
  ledger : Ledger D;
}.

Definition new_wallet (l : Ledger D) : Wallet :=
  {| connecting := false; wallet_key := None; transport := false; emitted := []; ledger := l |}.

Definition set_connecting (b : bool) : M Wallet unit :=
  λ w, (Ok tt, {| connecting := b; wallet_key := wallet_key w; transport := transport w;
                  emitted := emitted w; ledger := ledger w |}).
Definition set_key (k : option PublicKey) : M Wallet unit :=
  λ w, (Ok tt, {| connecting := connecting w; wallet_key := k; transport := transport w;
                  emitted := emitted w; ledger := ledger w |}).
Definition set_transport (b : bool) : M Wallet unit :=
  λ w, (Ok tt, {| connecting := connecting w; wallet_key := wallet_key w; transport := b;
                  emitted := emitted w; ledger := ledger w |}).
Definition emit (e : AdapterEvent PublicKey) : M Wallet unit :=
  λ w, (Ok tt, {| connecting := connecting w; wallet_key := wallet_key w; transport := transport w;
                  emitted := emitted w ++ [e]; ledger := ledger w |}).

(** A computation on the device. *)
Definition on_ledger {A} (m : M (Ledger D) A) : M Wallet A :=
  λ w, let '(r, l) := m (ledger w) in
       (r, {| connecting := connecting w; wallet_key := wallet_key w; transport := transport w;
              emitted := emitted w; ledger := l |}).

Definition device_op (f : D → result unit * D) : M (Ledger D) unit :=
  λ l, let '(r, d) := f (device l) in (r, Build_Ledger d (apdus l)).

Definition get_wallet : M Wallet Wallet := λ w, (Ok w, w).

(** [try { m } finally { f }]. *)
Definition finally {S A} (m : M S A) (f : M S unit) : M S A :=
  λ s, match m s with (r, s') => match f s' with (Ok _, s'') => (r, s'') | (Err e, s'') => (Err e, s'') end end.

Definition disconnect : M Wallet unit :=
  w ← get_wallet;
  opened ← (if transport w then
              _ ← on_ledger (device_op close_transport);
              _ ← set_transport false;
              mret true
            else mret false);
  _ ← set_connecting false;
  _ ← set_key None;
  if opened : bool then emit DisconnectEvent else mret tt.

(** The default path fits one chunk, so the request needs no fuel. *)
Definition read_key_of_device : M Wallet PublicKey :=
  path ← lift (getSolanaDerivationPath None None);
  k ← on_ledger (getPublicKey 0 path);
  match k with Some k => mret k | None => throw TypeError end.

Definition connect : M Wallet unit :=
  w ← get_wallet;
  if connecting w then mret tt
  else
    _ ← set_connecting true;
    finally
      (catch (_ ← on_ledger (device_op create_transport);
              _ ← set_transport true;
              k ← read_key_of_device;
              _ ← set_key (Some k);
              emit (ConnectEvent k))
             (λ _, _ ← emit NotifyError; disconnect))
      (set_connecting false).

(** [message] is the serialised transaction; the result is the signature that is added
    for the wallet's key. *)
Definition adapter_signTransaction (fuel : nat) (message : buffer)
  : M Wallet (option (PublicKey * buffer)) :=
  w ← get_wallet;
  match transport w, wallet_key w with
  | true, Some k =>
      path ← lift (getSolanaDerivationPath None None);
      signature ← on_ledger (signTransaction fuel message path);
      mret (match signature with Some s => Some (k, s) | None => None end)
  | _, _ => throw (JsError "Not connected to Ledger" [])
  end.

(** ** The connection as a state machine *)

Inductive adapter_op := OpConnect | OpDisconnect | OpSign (fuel : nat) (message : buffer).

Definition run_op (o : adapter_op) (w : Wallet) : Wallet :=
  match o with
  | OpConnect => snd (connect w)
  | OpDisconnect => snd (disconnect w)
  | OpSign fuel m => snd (adapter_signTransaction fuel m w)
  end.

(** The states reached by calls that each run to their end. *)
Inductive reachable : Wallet → Prop :=
  | reachable_new l : reachable (new_wallet l)
  | reachable_op o w : reachable w → reachable (run_op o w).

Definition wallet_ok (w : Wallet) : Prop :=
  connecting w = false ∧ (wallet_key w ≠ None → transport w = true).

Lemma disconnect_run w :
  match disconnect w with
  | (Ok _, w') => connecting w' = false ∧ wallet_key w' = None ∧ transport w' = false ∧
                  emitted w' = emitted w ++ (if transport w then [DisconnectEvent] else [])
  | (Err _, w') => transport w = true ∧ transport w' = true ∧ wallet_key w' = wallet_key w ∧
                   connecting w' = connecting w ∧ emitted w' = emitted w
  end.
Proof.
  unfold disconnect, get_wallet, on_ledger, device_op, set_transport, set_connecting, set_key, emit,
    mbind, M_bind, mret, M_ret.
  destruct (transport w) eqn:Ht; cbn.
  - destruct (close_transport (device (ledger w))) as [[[]|e] d]; cbn; by rewrite ?Ht.
  - by rewrite Ht, app_nil_r.
Qed.

(** Fields other than the device. *)
Definition same_fields (w w' : Wallet) : Prop :=
  connecting w' = connecting w ∧ wallet_key w' = wallet_key w ∧ transport w' = transport w ∧
  emitted w' = emitted w.

Lemma on_ledger_same {A} (m : M (Ledger D) A) w : same_fields w (snd (on_ledger m w)).
Proof. unfold on_ledger. by destruct (m (ledger w)). Qed.

Lemma read_key_same w : same_fields w (snd (read_key_of_device w)).
Proof.
  unfold read_key_of_device, lift, mbind, M_bind. destruct (getSolanaDerivationPath None None) as [p|e]; [|done].
  pose proof (on_ledger_same (getPublicKey 0 p) w) as Hs.
  destruct (on_ledger (getPublicKey 0 p) w) as [[[k|]|e] w']; done.
Qed.

(** The outcomes of [connect] when no call is under way. *)
Lemma connect_cases w r w' :
  connecting w = false → connect w = (r, w') →
  connecting w' = false ∧
  match r with
  | Ok _ =>
      (∃ k, wallet_key w' = Some k ∧ transport w' = true ∧
            emitted w' = emitted w ++ [ConnectEvent k]) ∨
      (wallet_key w' = None ∧ transport w' = false ∧
       ∃ l, emitted w' = emitted w ++ NotifyError :: l ∧ (l = [] ∧ transport w = false ∨ l = [DisconnectEvent]))
  | Err _ => transport w' = true ∧ wallet_key w' = wallet_key w ∧ emitted w' = emitted w ++ [NotifyError]
  end.
Proof.
  intros Hc. unfold connect, get_wallet, mbind, M_bind. rewrite Hc. cbn [set_connecting].
  set (w1 := {| connecting := true |}). unfold finally, catch.
  pose proof (on_ledger_same (device_op create_transport) w1) as (_ & Hk1 & Ht1 & He1).
  assert (Hfail : ∀ w2, emitted w2 = emitted w → wallet_key w2 = wallet_key w →
    (transport w2 = false → transport w = false) →
    (∀ r w', (match (_ ← emit NotifyError; disconnect) w2 with
     | (r, s') => match set_connecting false s' with
                  | (Ok _, s'') => (r, s'') | (Err e, s'') => (Err e, s'') end
     end) = (r, w') →
     connecting w' = false ∧
     match r with
     | Ok _ => wallet_key w' = None ∧ transport w' = false ∧
               ∃ l, emitted w' = emitted w ++ NotifyError :: l ∧ (l = [] ∧ transport w = false ∨ l = [DisconnectEvent])
     | Err _ => transport w' = true ∧ wallet_key w' = wallet_key w ∧ emitted w' = emitted w ++ [NotifyError]
     end)).
  { intros w2 He2 Hk2 Ht2 r0 w0. unfold mbind, M_bind, emit at 1. set (w3 := {| connecting := connecting w2 |}).
    pose proof (disconnect_run w3) as Hd. destruct (disconnect w3) as [[[]|e] w4].
    - destruct Hd as (_ & Hk & Ht & He). cbn [set_connecting]. intros [= <- <-]. cbn. split; [done|].
      split_and!; [done|done|]. rewrite He. cbn [emitted w3]. rewrite He2, <- app_assoc.
      eexists. split; [done|]. destruct (transport w3) eqn:Htr; auto.
    - destruct Hd as (_ & Ht & Hk & _ & He). cbn [set_connecting]. intros [= <- <-]. cbn. split; [done|].
      rewrite He, Hk. cbn [emitted wallet_key w3]. by rewrite He2. }
  destruct (on_ledger (device_op create_transport) w1) as [[[]|e] w2].
  2:{ cbn [snd] in *. intros Hr. destruct (Hfail w2 He1 Hk1 ltac:(by rewrite Ht1) _ _ Hr) as [? Hm].
      split; [done|]. destruct r; auto. }
  unfold set_transport at 1. set (w3 := {| connecting := connecting w2; transport := true |}).
  pose proof (read_key_same w3) as (_ & Hk3 & Ht3 & He3).
  destruct (read_key_of_device w3) as [[k|e] w4].
  - cbn [set_key emit set_connecting]. intros [= <- <-]. cbn in *. split; [done|]. left. exists k.
    split_and!; [done|done|]. by rewrite He3, He1.
  - intros Hr. cbn [fst snd] in *. destruct (Hfail w4) with (r := r) (w' := w') as [? Hm]; [| | |done|].
    + rewrite He3. cbn [emitted w3]. by rewrite He1.
    + rewrite Hk3. cbn [wallet_key w3]. by rewrite Hk1.
    + by rewrite Ht3.
    + split; [done|]. destruct r; auto.
Qed.

Lemma sign_same fuel m w : same_fields w (snd (adapter_signTransaction fuel m w)).
Proof.
  unfold adapter_signTransaction, get_wallet, lift, mbind, M_bind.
  destruct (transport w), (wallet_key w) as [k|]; try done.
  destruct (getSolanaDerivationPath None None) as [p|e]; [|done].
  pose proof (on_ledger_same (signTransaction fuel m p) w) as Hs.
  by destruct (on_ledger (signTransaction fuel m p) w) as [[o|e] w'].
Qed.

Lemma run_op_ok o w : wallet_ok w → wallet_ok (run_op o w).
Proof.
  intros [Hc Hk]. destruct o as [| |fuel m]; cbn [run_op].
  - destruct (connect w) as [r w'] eqn:Hr. destruct (connect_cases w r w' Hc Hr) as [Hc' Hm].
    split; [done|]. simpl. destruct r as [[]|e]; [|tauto].
    destruct Hm as [(k & _ & Ht & _)|(Hn & _)]; [done|]. by rewrite Hn.
  - pose proof (disconnect_run w) as Hd. destruct (disconnect w) as [[[]|e] w'].
    + destruct Hd as (Hc' & Hk' & _). split; [done|]. simpl. by rewrite Hk'.
    + destruct Hd as (_ & Ht & _ & Hc' & _). split; [simpl; congruence|done].
  - destruct (sign_same fuel m w) as (Hc' & Hk' & Ht' & _). split; [congruence|]. rewrite Hk', Ht'. done.
Qed.

Lemma reachable_ok w : reachable w → wallet_ok w.
Proof. induction 1; [done|by apply run_op_ok]. Qed.

(** Whatever calls were made one after the other, whatever the device answered and
    whichever calls failed, the adapter is not left connecting and has a key only
    while its transport is open.  Connecting then either succeeds, with a key and an
    open transport, and announces the connection; or reports the error and leaves the
    adapter disconnected, without a key and with the transport closed; or the
    transport could not be closed and the error is passed on. *)
Theorem adapter_connects w r w' :
  reachable w → connect w = (r, w') →
  connecting w = false ∧ (wallet_key w ≠ None → transport w = true) ∧ connecting w' = false ∧
  match r with
  | Ok _ =>
      (∃ k, wallet_key w' = Some k ∧ transport w' = true ∧
            emitted w' = emitted w ++ [ConnectEvent k]) ∨
      (wallet_key w' = None ∧ transport w' = false ∧
       ∃ l, emitted w' = emitted w ++ NotifyError :: l ∧ (l = [] ∨ l = [DisconnectEvent]))
  | Err _ => transport w' = true ∧ emitted w' = emitted w ++ [NotifyError]
  end.
Proof.
  intros Hw%reachable_ok Hr. destruct Hw as [Hc Hk]. split; [done|]. split; [done|].
  destruct (connect_cases w r w' Hc Hr) as [Hc' Hm]. split; [done|]. destruct r; [|tauto].
  destruct Hm as [Hm|(Hk' & Ht' & l & He & Hl)]; [by left|]. right. split_and!; [done|done|]. exists l. tauto.
Qed.

(** Signing needs a connection.  Without a key the call throws and nothing is sent
    to the device; with one, if the call succeeds, the device got the byte 1, the path
    [m/44'/501'] and the message, and the signature is for that key; and with a device
    that answers the call succeeds. *)
Theorem adapter_signs fuel m w r w' :
  reachable w → adapter_signTransaction fuel m w = (r, w') →
  (10 + length m ≤ MAX_PAYLOAD * S fuel)%nat →
  match wallet_key w with
  | None => r = Err (JsError "Not connected to Ledger" []) ∧ w' = w
  | Some k =>
      (∀ o, r = Ok o → ∃ signature sent, o = Some (k, signature) ∧
         apdus (ledger w') = apdus (ledger w) ++ sent ∧
         reassemble None sent =
           Some (Byte.x01 :: Byte.x02 :: u32_be (44 + 2 ^ 31) ++ u32_be (501 + 2 ^ 31) ++ m)) ∧
      (acknowledges (D := D) → ∃ o, r = Ok o)
  end.
Proof.
  intros Hw%reachable_ok Hr Hf. destruct Hw as [_ Hk]. revert Hr.
  unfold adapter_signTransaction, get_wallet, mbind, M_bind.
  destruct (wallet_key w) as [k|]; [rewrite Hk by done|destruct (transport w); by intros [= <- <-]].
  assert (Hpath : getSolanaDerivationPath None None =
    Ok (Byte.x02 :: u32_be (44 + 2 ^ 31) ++ u32_be (501 + 2 ^ 31))) by reflexivity.
  unfold lift. rewrite Hpath. set (path := Byte.x02 :: _). unfold on_ledger.
  destruct (signTransaction fuel m path (ledger w)) as [r1 l1] eqn:Hs. intros Hr.
  unfold signTransaction, signBytes in Hs. rewrite lift_bind, write_tag in Hs by lia.
  set (payload := ([byte.of_Z 1] ++ alloc 0) ++ path ++ m) in Hs.
  assert (Hlen : (length payload ≤ MAX_PAYLOAD * S fuel)%nat)
    by (unfold payload; rewrite !length_app, length_alloc; cbn [length path]; rewrite length_app;
        unfold u32_be; rewrite !length_reverse, !length_le_split; lia).
  split.
  - intros o ->. destruct r1 as [o1|e]; [|done]. injection Hr as <- <-.
    apply ledgerSend_runs in Hs as (Hn & sent & Hsent & _ & Hre); [|done].
    destruct o1 as [sig|]; [|done]. exists sig, sent. split_and!; [done|done|]. rewrite Hre.
    unfold payload, path. cbn [app alloc replicate]. by rewrite <- !app_assoc.
  - intros Hd. edestruct (ledgerSend_returns fuel INS_SIGN_MESSAGE P1_CONFIRM payload (ledger w))
      as (reply & l2 & Hx); [done|done|]. rewrite Hx in Hs. injection Hs as <- _.
    injection Hr as <- _. by eexists.
Qed.

End Adapter.

(** ** A concrete device *)

Definition OK_STATUS : buffer := [byte.of_Z 144; byte.of_Z 0].

(** It acknowledges a chunk that is followed by more with its status, and answers a
    complete request with its key or a signature. *)
#[global] Instance SampleDevice : Transport unit := {|
  exchange := λ a d,
    (Ok (if Z.testbit (apdu_p2 a) 1 then OK_STATUS
         else if apdu_ins a =? INS_GET_PUBKEY then sample_toBuffer (sample_key 500) ++ OK_STATUS
         else alloc 64 ++ OK_STATUS), d);
  create_transport := λ d, (Ok tt, d);
  close_transport := λ d, (Ok tt, d);
|}.

Definition fresh_ledger : Ledger unit := {| device := tt; apdus := [] |}.

Definition connected_wallet : Wallet := run_op OpConnect (new_wallet fresh_ledger).

Lemma sample_acknowledges : acknowledges (D := unit).
Proof.
  intros a d. eexists _, _. split; [reflexivity|]. intros Hb. by rewrite Hb.
Qed.

Lemma signBytes_delivers_witness :
  ∃ signature l', signBytes 2 (alloc 600) [Byte.x07] fresh_ledger = (Ok (Some signature), l').
Proof.
  apply (signBytes_delivers 2 (alloc 600) [Byte.x07] fresh_ledger).
  - rewrite length_alloc. cbn [length]. unfold MAX_PAYLOAD. lia.
  - apply sample_acknowledges.
Defined.

Lemma getPublicKey_delivers_witness :
  ∃ k reply sent, Some (sample_key 500 : PublicKey) = Some k ∧ new_PublicKey reply = Ok k ∧
    apdus (snd (getPublicKey 0 [Byte.x07] fresh_ledger)) = [] ++ sent ∧
    Forall (wf_apdu INS_GET_PUBKEY P1_NON_CONFIRM) sent ∧ reassemble None sent = Some [Byte.x07].
Proof.
  apply (getPublicKey_delivers 0 [Byte.x07] fresh_ledger).
  - cbn [length]. unfold MAX_PAYLOAD. lia.
  - reflexivity.
Defined.

Lemma adapter_connects_witness :
  connecting (new_wallet fresh_ledger) = false ∧
  (wallet_key (new_wallet fresh_ledger) ≠ None → transport (new_wallet fresh_ledger) = true) ∧
  connecting connected_wallet = false ∧
  ((∃ k, wallet_key connected_wallet = Some k ∧ transport connected_wallet = true ∧
         emitted connected_wallet = [] ++ [ConnectEvent k]) ∨
   (wallet_key connected_wallet = None ∧ transport connected_wallet = false ∧
    ∃ l, emitted connected_wallet = [] ++ NotifyError :: l ∧ (l = [] ∨ l = [DisconnectEvent]))).
Proof.
  apply (adapter_connects (new_wallet fresh_ledger) (Ok tt) connected_wallet).
  - apply reachable_new.
  - reflexivity.
Defined.

Lemma adapter_signs_witness :
  (∀ o, fst (adapter_signTransaction 1 (alloc 300) connected_wallet) = Ok o → ∃ signature sent,
    o = Some (sample_key 500, signature) ∧
    apdus (ledger (snd (adapter_signTransaction 1 (alloc 300) connected_wallet))) =
      apdus (ledger connected_wallet) ++ sent ∧
    reassemble None sent =
      Some (Byte.x01 :: Byte.x02 :: u32_be (44 + 2 ^ 31) ++ u32_be (501 + 2 ^ 31) ++ alloc 300)) ∧
  (acknowledges (D := unit) → ∃ o, fst (adapter_signTransaction 1 (alloc 300) connected_wallet) = Ok o).
Proof.
  assert (Hk : wallet_key connected_wallet = Some (sample_key 500)) by reflexivity.
  pose proof (adapter_signs 1 (alloc 300) connected_wallet _ _
    (reachable_op OpConnect _ (reachable_new fresh_ledger)) (surjective_pairing _)) as Hs.
  rewrite Hk in Hs. apply Hs. rewrite length_alloc. unfold MAX_PAYLOAD. lia.
Defined.
