(* ===== verification/Layouts.v ===== *)
(** * Binary layouts of the web client (src/utils/layout.ts, src/models/lending)

    The web client describes messages and accounts with the library buffer-layout
    and with big numbers of bn.js; both are interfaces here, with what their
    documentation says as laws.  The layouts of the repository are built on them,
    and the accounts and messages they describe are compared with those of the
    experiment's client. *)

From Stdlib Require Import ZArith Lia.
From Stdlib Require Import String Ascii.
From stdpp Require Import base list strings sets.
From coqutil Require Import Byte Word.LittleEndianList.
From S2P Require Import Prelude JsNumber Buffers Web3 Sample Program Instructions SamplePool.
From S2P Require Import Wire Readers.

Open Scope Z_scope.

(** ** The libraries *)

(** A layout: its size, and reading and writing a value at an offset. *)
Record Layout (A : Type) := {
  span : nat;
  decode : buffer → nat → result A;
  encode : A → buffer → nat → result (buffer * nat);
}.
Arguments span {A} l.
Arguments decode {A} l b off.
Arguments encode {A} l a b off.

(** The layouts of buffer-layout the sources build on; a [struct] of several fields is
    the pairing of the first with the rest. *)
Class BufferLayout := {
  blob : nat → Layout buffer;
  u8 : Layout Z;
  struct : ∀ {A B : Type}, Layout A → Layout B → Layout (A * B);
}.

Class BufferLayoutLaws `{BufferLayout} : Prop := {
  span_blob : ∀ n, span (blob n) = n;
  span_u8 : span u8 = 1%nat;
  span_struct : ∀ A B (l : Layout A) (k : Layout B), span (struct l k) = (span l + span k)%nat;
  decode_blob : ∀ n b off, (off + n ≤ length b)%nat → decode (blob n) b off = Ok (slice b off (off + n));
  encode_blob : ∀ n src b off, length src = n → (off + n ≤ length b)%nat →
    encode (blob n) src b off = put_bytes b src off;
  decode_u8 : ∀ b off, (off + 1 ≤ length b)%nat → decode u8 b off = readUInt8 b off;
  encode_u8 : ∀ v b off, encode u8 v b off = writeUInt8 b v off;
  decode_struct : ∀ A B (l : Layout A) (k : Layout B) b off,
    decode (struct l k) b off = (x ← decode l b off; y ← decode k b (off + span l); mret (x, y));
  encode_struct : ∀ A B (l : Layout A) (k : Layout B) x y b off,
    encode (struct l k) (x, y) b off = ('(b, off) ← encode l x b off; encode k y b off);
}.

(** Hexadecimal digits, and the number a string of them denotes. *)
Definition hex_digit (n : Z) : ascii :=
  ascii_of_nat (Z.to_nat (if n <? 10 then 48 + n else 87 + n)).
Definition digit_value (c : ascii) : Z :=
  let n := Z.of_nat (nat_of_ascii c) in if n <? 58 then n - 48 else n - 87.
Definition hex_value (s : list ascii) : Z := foldl (λ a c, a * 16 + digit_value c) 0 s.

(** bn.js: a big number is an integer. *)
Class BigNumbers := {
  (** [new BN(x)] of a number and [new BN(s, 16)] of a string. *)
  new_BN : num → result Z;
  BN_of_hex : list ascii → Z;
  (** [n.toArray()]: the bytes of the absolute value, the highest first. *)
  toArray : Z → list byte;
}.

Class BigNumbersLaws `{BigNumbers} : Prop := {
  new_BN_safe : ∀ z, 0 <= z < 2 ^ 53 → new_BN (num_of_Z z) = Ok z;
  BN_of_hex_value : ∀ s, Forall (λ c, ∃ n, 0 <= n < 16 ∧ c = hex_digit n) s → BN_of_hex s = hex_value s;
  toArray_value : ∀ z, 0 <= z → le_combine (reverse (toArray z)) = z;
  toArray_short : ∀ z n, (0 < n)%nat → 0 <= z < 2 ^ (8 * Z.of_nat n) → (length (toArray z) ≤ n)%nat;
}.

(** ** src/utils/layout.ts *)

Section Layouts.
Context `{Keys} `{BufferLayout} `{BigNumbers}.

Definition publicKeyLayout : Layout PublicKey :=
  let layout := blob 32 in
  {| span := span layout;
     decode := λ b off, data ← decode layout b off; new_PublicKey data;
     encode := λ key b off, encode layout (toBuffer key) b off |}.

(** [i.toString(16)] of a byte. *)
Definition toString16 (i : Z) : list ascii :=
  if i <? 16 then [hex_digit i] else [hex_digit (i / 16); hex_digit (i mod 16)].

(** A string's [slice(-2)]. *)
Definition last_two (s : list ascii) : list ascii := drop (length s - 2) s.

Definition hex_byte (b : byte) : list ascii :=
  last_two ("0"%char :: "0"%char :: toString16 (byte.unsigned b)).

(** [[...data].reverse().map(...).join("")]. *)
Definition hex_of (data : buffer) : list ascii := concat (hex_byte <$> reverse data).

(** [uint64] and [uint128]: a number in [n] bytes, the lowest first. *)
Definition uint (n : nat) : Layout Z :=
  let layout := blob n in
  {| span := span layout;
     decode := λ b off, data ← decode layout b off; mret (BN_of_hex (hex_of data));
     encode := λ num b off,
       let a := reverse (toArray num) in
       let a := if (length a =? n)%nat then a else (copy_to a (alloc n) 0).1 in
       encode layout a b off |}.

Definition uint64 : Layout Z := uint 8.
Definition uint128 : Layout Z := uint 16.

End Layouts.

(** ** Properties *)

Section LayoutFacts.
Context `{KeysLaws} `{BufferLayoutLaws} `{BigNumbersLaws}.

Lemma hex_value_app s t : hex_value (s ++ t) = hex_value s * 16 ^ Z.of_nat (length t) + hex_value t.
Proof.
  unfold hex_value. rewrite foldl_app. generalize (foldl (λ a c, a * 16 + digit_value c) 0 s) as x.
  induction t as [|c t IH] using rev_ind; intros x; [simpl; lia|].
  rewrite !foldl_snoc, IH, length_app, Nat2Z.inj_add. cbn [length].
  change (Z.of_nat 1) with 1. rewrite Z.pow_add_r by lia. lia.
Qed.

Lemma digit_round n : 0 <= n < 16 → digit_value (hex_digit n) = n.
Proof.
  intros Hn. assert (n ∈ seqZ 0 16) as Hin by (apply elem_of_seqZ; lia). revert Hin. clear. cbv -[digit_value hex_digit elem_of].
  intros Hin. repeat (apply elem_of_cons in Hin as [->|Hin]; [reflexivity|]). by apply elem_of_nil in Hin.
Qed.

(** Two digits per byte. *)
Lemma hex_byte_digits b :
  hex_byte b = [hex_digit (byte.unsigned b / 16); hex_digit (byte.unsigned b mod 16)].
Proof.
  unfold hex_byte, toString16, last_two. pose proof (byte.unsigned_range b) as Hb.
  destruct (Z.ltb_spec (byte.unsigned b) 16) as [Hl|Hl]; [|done]. cbn [length Nat.sub drop].
  rewrite Z.div_small, Z.mod_small by lia. done.
Qed.

Lemma lor_shift_add a b k : 0 <= k → 0 <= a < 2 ^ k → Z.lor a (Z.shiftl b k) = a + b * 2 ^ k.
Proof.
  intros Hk Ha. pose proof (Z.add_lor_land a (Z.shiftl b k)) as Hadd.
  assert (Z.land a (Z.shiftl b k) = 0) as Hz.
  { apply Z.bits_inj'. intros n Hn. rewrite Z.land_spec, Z.bits_0, Z.shiftl_spec by done.
    destruct (Z.lt_ge_cases n k) as [Hlt|Hge].
    - rewrite (Z.testbit_neg_r b) by lia. apply andb_false_r.
    - assert (2 ^ k <= 2 ^ n) by (apply Z.pow_le_mono_r; lia).
      rewrite (Z.testbit_eqb a n), Z.div_small by lia. done. }
  rewrite Z.shiftl_mul_pow2 in * by lia. lia.
Qed.

Lemma hex_of_value data : hex_value (hex_of data) = le_combine data.
Proof.
  induction data as [|b data IH]; [done|]. unfold hex_of in *. rewrite reverse_cons, fmap_app, concat_app.
  rewrite hex_value_app, IH. cbn [fmap list_fmap concat]. rewrite app_nil_r, hex_byte_digits.
  pose proof (byte.unsigned_range b) as Hb. cbn [length]. unfold hex_value. cbn [foldl].
  rewrite !digit_round by (try apply Z.mod_pos_bound; try (split; [apply Z.div_pos|apply Z.div_lt_upper_bound]); lia).
  change (b :: data) with ([b] ++ data). rewrite le_combine_app, le_combine_1. cbn [length].
  rewrite lor_shift_add by (simpl; lia). change (16 ^ Z.of_nat 2) with 256.
  change (2 ^ (Z.of_nat 1 * 8)) with 256.
  pose proof (Z.div_mod (byte.unsigned b) 16). lia.
Qed.

Lemma hex_of_digits data : Forall (λ c, ∃ n, 0 <= n < 16 ∧ c = hex_digit n) (hex_of data).
Proof.
  unfold hex_of. induction (reverse data) as [|b l IH]; [constructor|]. cbn [fmap list_fmap concat].
  apply Forall_app. split; [|done]. rewrite hex_byte_digits. pose proof (byte.unsigned_range b) as Hb.
  repeat constructor; eexists; (split; [|done]);
    [split; [apply Z.div_pos|apply Z.div_lt_upper_bound]; lia|apply Z.mod_pos_bound; lia].
Qed.

Lemma span_uint n : span (uint n) = n.
Proof. apply span_blob. Qed.

Lemma span_key : span publicKeyLayout = 32%nat.
Proof. apply span_blob. Qed.

Lemma decode_uint n b off :
  (off + n ≤ length b)%nat → decode (uint n) b off = Ok (u_at n b off).
Proof.
  intros Hl. cbn [uint decode]. rewrite decode_blob by done. cbn [mbind result_bind].
  by rewrite BN_of_hex_value, hex_of_value by apply hex_of_digits.
Qed.

Lemma decode_key b off :
  (off + 32 ≤ length b)%nat → decode publicKeyLayout b off = new_PublicKey (slice b off (off + 32)).
Proof. intros Hl. cbn [publicKeyLayout decode]. by rewrite decode_blob by done. Qed.

Lemma replicate_is_repeat {A} n (x : A) : replicate n x = List.repeat x n.
Proof. induction n as [|n IH]; [done|]. simpl. by rewrite IH. Qed.

Lemma le_combine_take n (a : list byte) :
  (n ≤ length a)%nat → le_combine a mod 2 ^ (8 * Z.of_nat n) = le_combine (take n a).
Proof.
  intros Hn. rewrite <- (take_drop n a) at 1. rewrite le_combine_app.
  assert (Hl : length (take n a) = n) by (rewrite length_take; lia).
  pose proof (le_combine_bound (take n a)) as Hb. rewrite Hl in *.
  rewrite (Z.mul_comm 8) in *. rewrite lor_shift_add, Z.mod_add by lia. by apply Z.mod_small.
Qed.

(** The bytes [encode] prepares: padded with zeros, or cut off when the number is too
    large. *)
Lemma uint_bytes n z :
  0 <= z →
  let a := reverse (toArray z) in
  (if (length a =? n)%nat then a else (copy_to a (alloc n) 0).1) = le_split n (z mod 2 ^ (8 * Z.of_nat n)).
Proof.
  intros Hz a. set (r := if (length a =? n)%nat then a else _).
  assert (Hr : length r = n ∧ le_combine r = z mod 2 ^ (8 * Z.of_nat n)).
  { pose proof (toArray_value z Hz) as Hv. fold a in Hv. unfold r.
    destruct (Nat.eqb_spec (length a) n) as [<-|Hn].
    { split; [done|]. rewrite Z.mod_small, Hv; [done|]. rewrite <- Hv. apply le_combine_bound. }
    destruct (Nat.lt_ge_cases (length a) n) as [Hlt|Hge].
    - change (alloc n) with ([] ++ alloc n). rewrite copy_to_append by (done || lia). cbn [fst app].
      split; [rewrite length_app, length_alloc; lia|]. unfold alloc.
      rewrite replicate_is_repeat, le_combine_app_0, Hv. symmetry. apply Z.mod_small. rewrite <- Hv.
      pose proof (le_combine_bound a).
      assert (2 ^ (8 * Z.of_nat (length a)) <= 2 ^ (8 * Z.of_nat n)) by (apply Z.pow_le_mono_r; lia).
      lia.
    - unfold copy_to. rewrite length_alloc, Nat.sub_0_r, Nat.min_r, Nat.add_0_l by lia. cbn [fst].
      rewrite take_0, drop_ge, app_nil_r, app_nil_l by (rewrite length_alloc; lia). split.
      + rewrite length_take. lia.
      + rewrite <- Hv. symmetry. apply le_combine_take. lia. }
  destruct Hr as [Hl Hc]. rewrite <- Hc, <- Hl. symmetry. apply split_le_combine.
Qed.

Lemma encode_uint n z b off :
  0 <= z → (off + n ≤ length b)%nat →
  encode (uint n) z b off = put_bytes b (le_split n (z mod 2 ^ (8 * Z.of_nat n))) off.
Proof.
  intros Hz Hl. cbn [uint encode]. rewrite uint_bytes by done.
  apply encode_blob; [apply length_le_split|done].
Qed.

(** A 64-bit or 128-bit number that was written is read back; one that does not
    fit is written without an error and read back modulo the size of the field. *)
Theorem uint_round_trip n z b off :
  0 <= z → (off + n ≤ length b)%nat →
  ∃ b' off', encode (uint n) z b off = Ok (b', off') ∧ length b' = length b ∧ off' = (off + n)%nat ∧
    decode (uint n) b' off = Ok (z mod 2 ^ (8 * Z.of_nat n)).
Proof.
  intros Hz Hl. rewrite encode_uint by done. unfold put_bytes. rewrite length_le_split.
  rewrite (proj2 (Nat.leb_le _ _)) by lia. eexists _, _. split; [done|].
  assert (Hlen : length (take off b) = off) by (rewrite length_take; lia).
  split; [|split; [done|]].
  { rewrite !length_app, Hlen, length_le_split, length_drop. lia. }
  rewrite decode_uint by (rewrite !length_app, Hlen, length_le_split, length_drop; lia).
  f_equal. apply u_at_split; [done|]. rewrite Z.mul_comm. apply Z.mod_pos_bound. lia.
Qed.

(** A public key that was written is read back. *)
Theorem publicKey_round_trip k b off :
  (off + 32 ≤ length b)%nat →
  ∃ b' off', encode publicKeyLayout k b off = Ok (b', off') ∧ decode publicKeyLayout b' off = Ok k.
Proof.
  intros Hl. cbn [publicKeyLayout encode]. rewrite encode_blob by (done || apply length_toBuffer).
  unfold put_bytes. rewrite length_toBuffer, (proj2 (Nat.leb_le _ _)) by lia. eexists _, _. split; [done|].
  assert (Hlen : length (take off b) = off) by (rewrite length_take; lia).
  rewrite decode_key by (rewrite !length_app, Hlen, length_toBuffer, length_drop; lia).
  rewrite slice_app by (rewrite ?Hlen, ?length_toBuffer; done). apply new_PublicKey_toBuffer.
Qed.

End LayoutFacts.

(** ** Concrete libraries *)

#[global] Instance SampleBufferLayout : BufferLayout := {|
  blob := λ n, {| span := n; decode := λ b off, Ok (slice b off (off + n));
                  encode := λ src b off,
                    if (length src =? n)%nat then put_bytes b src off else Err TypeError |};
  u8 := {| span := 1; decode := readUInt8; encode := λ v b off, writeUInt8 b v off |};
  struct := λ A B l k,
    {| span := span l + span k;
       decode := λ b off, x ← decode l b off; y ← decode k b (off + span l); mret (x, y);
       encode := λ v b off, '(b, off) ← encode l v.1 b off; encode k v.2 b off |};
|}.

#[global] Instance SampleBufferLayoutLaws : BufferLayoutLaws.
Proof.
  split; try done. intros n src b off Hn Hoff. simpl. by rewrite (proj2 (Nat.eqb_eq _ _) Hn).
Qed.

(** The number of bytes of a number. *)
Definition byte_count (z : Z) : nat := Z.to_nat (Z.log2 z / 8 + 1).

#[global] Instance SampleBigNumbers : BigNumbers := {|
  new_BN := BigInt;
  BN_of_hex := hex_value;
  toArray := λ z, reverse (le_split (byte_count (Z.abs z)) (Z.abs z));
|}.

Lemma byte_count_fits z : 0 <= z → z < 2 ^ (Z.of_nat (byte_count z) * 8).
Proof.
  intros Hz. unfold byte_count. pose proof (Z.log2_nonneg z) as Hl.
  pose proof (Z.div_mod (Z.log2 z) 8). pose proof (Z.mod_pos_bound (Z.log2 z) 8).
  rewrite Z2Nat.id by lia. destruct (Z.eq_dec z 0) as [->|Hnz]; [by apply Z.pow_pos_nonneg; vm_compute|].
  destruct (Z.log2_spec z) as [_ Hs]; [lia|]. eapply Z.lt_le_trans; [exact Hs|].
  apply Z.pow_le_mono_r; lia.
Qed.

#[global] Instance SampleBigNumbersLaws : BigNumbersLaws.
Proof.
  split; [|done| |].
  - intros z Hz. apply BigInt_num_of_Z. unfold safe. lia.
  - intros z Hz. simpl. rewrite Z.abs_eq, reverse_involutive by done.
    apply le_combine_split_small. split; [done|]. by apply byte_count_fits.
  - intros z n Hn Hz. simpl. rewrite length_reverse, length_le_split, Z.abs_eq by lia. unfold byte_count.
    assert (Z.log2 z / 8 + 1 <= Z.of_nat n); [|lia].
    destruct (Z.eq_dec z 0) as [->|Hnz]; [change (Z.log2 0 / 8) with 0; lia|].
    assert (Z.log2 z < 8 * Z.of_nat n) by (apply Z.log2_lt_pow2; lia).
    pose proof (Z.div_lt_upper_bound (Z.log2 z) 8 (Z.of_nat n)). lia.
Qed.

(** The largest 64-bit number, between two bytes. *)
Lemma uint_round_trip_witness :
  ∃ b' off', encode uint64 (2 ^ 64 - 1) (alloc 10) 1 = Ok (b', off') ∧ length b' = length (alloc 10) ∧
    off' = 9%nat ∧ decode uint64 b' 1 = Ok ((2 ^ 64 - 1) mod 2 ^ (8 * Z.of_nat 8)).
Proof. apply (uint_round_trip 8); [lia|]. vm_compute. lia. Defined.

Lemma publicKey_round_trip_witness :
  ∃ b' off', encode publicKeyLayout (sample_vote 77) (alloc 40) 8 = Ok (b', off') ∧
    decode publicKeyLayout b' 8 = Ok (sample_vote 77).
Proof. apply (publicKey_round_trip (sample_vote 77)). vm_compute. lia. Defined.
