(* ===== verification/Lending.v ===== *)
(** * The web client's view of the pool (src/models/lending, src/utils/ids.ts)

    The layout with which the web client reads the pool's account, and the
    deposit, withdrawal and credit messages it builds for the pool it is deployed
    with.  They are compared with the experiment's client, which derives the
    addresses and writes the bytes itself. *)

From Stdlib Require Import ZArith Lia.
From Stdlib Require Import String.
From stdpp Require Import base list strings sets.
From coqutil Require Import Byte Word.LittleEndianList.
From S2P Require Import Prelude JsNumber Buffers Web3 Sample Program Instructions SamplePool.
From S2P Require Import Wire Readers Layouts.

Open Scope Z_scope.

(** ** The deployment (src/utils/ids.ts) *)

Section Ids.
Context `{Keys}.

Definition TENDERIZE_PROGRAM_ID : PublicKey :=
  key_literal "YiLSwwu3yBwaSHoaAooERKNeQ64BSbRuv7wXTZ5Uprf".
Definition TOKEN_PROGRAM_ID : PublicKey :=
  key_literal "TokenkegQfeZyiNwAJbNbGKPFXCWuBvf9Ss623VQ5DA".
Definition TENDERIZED_SOL_MINT_ID : PublicKey :=
  key_literal "Do41x7Uza6cQeJ2VhVyJU6QhuRMLxTrLJhpL8MSNFpZm".
Definition STAKE_POOL_ID : PublicKey :=
  key_literal "DKZKU3K8MiBbBfurpaG2ijf6nAGoXvomNysCJZ5jbgiy".
Definition VALIDATORS_LIST_ID : PublicKey :=
  key_literal "7qaWgz27453E5CLPvcvGiLR2GobLPbKWsPmGDNQYRm6U".
Definition WRAPPED_SOL_MINT : PublicKey :=
  key_literal "So11111111111111111111111111111111111111112".
Definition OWNER_FEE_ACCOUNT : PublicKey :=
  key_literal "GAw1CLxsG1YoHG6CG4iiVF6TXB9xLKawkTz1M3xEzxUs".
Definition RESERVE_ADDRESS_PDA : PublicKey :=
  key_literal "J5zPZnPwxxyV2vMSneQy4kasgteR1rHYEokfaa2G9DdQ".
Definition WITHDRAW_AUTHORITY_PDA : PublicKey :=
  key_literal "5es37KhF5VKHtSPXNDzwPNMSndizyNFvHzeFwzEKW3vg".
Definition TEMP_ACCOUNT_PDA : PublicKey :=
  key_literal "GvHtq21JoJr243heSNXh29kWz6unGtCG6stbyKcYM3m1".

End Ids.

Section Lending.
Context `{Keys} `{BufferLayout} `{BigNumbers}.

(** ** The pool's account *)

(** The fields of the interface [Tenderize] are those of the experiment's [State],
    with big numbers for the totals. *)
Definition Tenderize : Type := State.

Definition TenderizeLayout :=
  struct u8
  (struct publicKeyLayout
  (struct (blob 2)
  (struct publicKeyLayout
  (struct publicKeyLayout
  (struct publicKeyLayout
  (struct publicKeyLayout
  (struct publicKeyLayout
  (struct publicKeyLayout
  (struct (blob 5)
  (struct uint64
  (struct uint64
  (struct uint64
  (struct uint64
   uint64))))))))))))).

Definition isTenderize (info : AccountInfo) : bool :=
  (length (account_data info) =? span TenderizeLayout)%nat.

(** The object a decoded structure is; the paddings are not fields of [Tenderize]. *)
Definition tenderize_decode (data : buffer) : result Tenderize :=
  '(v, (o, (_, (vl, (cl, (pm, (ofa, (cr, (tp, (_, (st, (pt, (le, (fd, fn))))))))))))))
    ← decode TenderizeLayout data 0;
  mret {| version := v; state_owner := o; validatorStakeList := vl; creditList := cl;
          poolMint := pm; ownerFeeAccount := ofa; state_creditReserve := cr; tokenProgram := tp;
          stakeTotal := st; poolTotal := pt; lastEpochUpdate := le;
          state_feeDenominator := fd; state_feeNumerator := fn |}.

(** [{ pubkey, account, info }]. *)
Record ParsedTenderize := {
  parsed_pubkey : PublicKey;
  parsed_account : AccountInfo;
  parsed_info : Tenderize;
}.

Definition TenderizeParser (pubKey : PublicKey) (info : option AccountInfo)
  : result (option ParsedTenderize) :=
  match info with
  | None => mret None
  | Some info =>
      if (length (account_data info) =? 0)%nat then mret None
      else data ← tenderize_decode (account_data info);
           mret (Some {| parsed_pubkey := pubKey; parsed_account := info; parsed_info := data |})
  end.

(** ** Messages *)

(** The members of the enumeration [LendingInstruction] that are used. *)
Definition DepositReserveLiquidity : Z := 6.
Definition WithdrawReserveLiquidity : Z := 7.

(** The message of the three instructions: a tag and an amount. *)
Definition amount_message (tag : Z) (amount : num) : result buffer :=
  let dataLayout := struct u8 uint64 in
  let data := alloc (span dataLayout) in
  a ← new_BN amount;
  '(data, _) ← encode dataLayout (tag, a) data 0;
  mret data.

Record WebDepositParams := {
  web_userSource : PublicKey;
  web_deposit_amount : num;
  web_userToken : PublicKey;
}.

Definition web_depositInstruction (params : WebDepositParams) : result TransactionInstruction :=
  data ← amount_message DepositReserveLiquidity (web_deposit_amount params);
  mret {| ix_keys :=
            [writable STAKE_POOL_ID; readonly WITHDRAW_AUTHORITY_PDA; writable RESERVE_ADDRESS_PDA;
             writable (web_userSource params); writable (web_userToken params);
             writable OWNER_FEE_ACCOUNT; writable TENDERIZED_SOL_MINT_ID;
             readonly SYSVAR_RENT_PUBKEY; readonly (val SystemProgram_programId);
             readonly TOKEN_PROGRAM_ID; writable TEMP_ACCOUNT_PDA; writable WRAPPED_SOL_MINT];
          ix_programId := TENDERIZE_PROGRAM_ID;
          ix_data := data |}.

Record WebWithdrawParams := {
  web_withdraw_userTokenSource : PublicKey;
  web_withdraw_userSolTarget : PublicKey;
  web_withdraw_amount : num;
}.

Definition web_withdrawInstruction (params : WebWithdrawParams) (tenderize : Tenderize)
  : result TransactionInstruction :=
  data ← amount_message WithdrawReserveLiquidity (web_withdraw_amount params);
  mret {| ix_keys :=
            [writable STAKE_POOL_ID; readonly WITHDRAW_AUTHORITY_PDA; writable RESERVE_ADDRESS_PDA;
             writable (web_withdraw_userTokenSource params); writable (poolMint tenderize);
             writable (web_withdraw_userSolTarget params);
             readonly SYSVAR_RENT_PUBKEY; readonly (val SystemProgram_programId);
             readonly TOKEN_PROGRAM_ID];
          ix_programId := TENDERIZE_PROGRAM_ID;
          ix_data := data |}.

Record WebCreditParams := {
  web_credit_userTokenSource : PublicKey;
  web_credit_userSolTarget : PublicKey;
  web_credit_cancelAuthority : PublicKey;
  web_credit_amount : num;
}.

Definition web_creditInstruction (params : WebCreditParams) (tenderize : Tenderize)
  : result TransactionInstruction :=
  data ← amount_message 10 (web_credit_amount params);
  mret {| ix_keys :=
            [writable STAKE_POOL_ID; writable (creditList tenderize);
             writable (state_creditReserve tenderize); readonly WITHDRAW_AUTHORITY_PDA;
             writable (web_credit_userTokenSource params);
             writable (web_credit_userSolTarget params);
             readonly (web_credit_cancelAuthority params); readonly TOKEN_PROGRAM_ID];
          ix_programId := TENDERIZE_PROGRAM_ID;
          ix_data := data |}.

End Lending.

(** ** The two clients agree *)

Section Agreement.
Context `{KeysLaws} `{!AddressesDerive} `{BufferLayoutLaws} `{BigNumbersLaws}.

Lemma span_TenderizeLayout : span TenderizeLayout = STAKE_POOL_LEN.
Proof. unfold TenderizeLayout, uint64. by rewrite !span_struct, span_u8, !span_blob, !span_key, !span_uint. Qed.

Lemma readU64_u_at b p : (p + 8 ≤ length b)%nat → readBigUInt64LE b p = Ok (u_at 8 b p).
Proof. intros Hp. unfold readBigUInt64LE, read_le. by rewrite (proj2 (Nat.leb_le _ _)) by done. Qed.

Lemma TenderizeParser_parses k info :
  (STAKE_POOL_LEN ≤ length (account_data info))%nat →
  TenderizeParser k (Some info) =
  (s ← parseState (account_data info);
   mret (Some {| parsed_pubkey := k; parsed_account := info; parsed_info := s |})).
Proof.
  unfold STAKE_POOL_LEN. intros Hl. unfold TenderizeParser, tenderize_decode, TenderizeLayout, parseState, uint64.
  rewrite (proj2 (Nat.eqb_neq _ _)) by lia.
  rewrite !decode_struct, span_u8, !span_key, !span_blob, !span_uint, decode_u8 by lia.
  rewrite !decode_key, !decode_blob, !decode_uint, !readU64_u_at by (simpl; lia).
  cbn [Nat.add].
  destruct (readUInt8 (account_data info) 0) as [v|e]; cbn [mbind result_bind]; [|done].
  repeat (match goal with
          | |- context [new_PublicKey ?b] => destruct (new_PublicKey b) as [?|?]; cbn [mbind result_bind]; [|done]
          end).
  done.
Qed.

(** The two clients read the pool's account alike: on every account at least as
    large as a pool's, whatever its bytes, the web client's layout and the
    experiment's offsets give the same state or the same error. *)
Theorem TenderizeParser_agrees k info :
  (STAKE_POOL_LEN ≤ length (account_data info))%nat →
  TenderizeParser k (Some info) =
  (s ← parseState (account_data info);
   mret (Some {| parsed_pubkey := k; parsed_account := info; parsed_info := s |})).
Proof. apply TenderizeParser_parses. Qed.

(** The client of the experiment for the pool the web client is deployed with, in
    the state [s]. *)
Record deployed (t : TenderizeProgram) (s : Tenderize) : Prop := {
  deployed_program : programId t = TENDERIZE_PROGRAM_ID;
  deployed_pool : publicKey (stakePool t) = STAKE_POOL_ID;
  deployed_withdraw : getWithdrawAuthority t = Ok WITHDRAW_AUTHORITY_PDA;
  deployed_reserve : getReserveAddress t = Ok RESERVE_ADDRESS_PDA;
  deployed_fee : ownersFee t = OWNER_FEE_ACCOUNT;
  deployed_mint : poolMintToken t = TENDERIZED_SOL_MINT_ID ∧ poolMint s = TENDERIZED_SOL_MINT_ID;
  deployed_credits : publicKey (creditListAccount t) = creditList s;
  deployed_credit_reserve : creditReserve t = state_creditReserve s;
}.

Lemma amount_message_bytes tag a :
  0 <= tag < 256 → 0 <= a < 2 ^ 53 →
  amount_message tag (num_of_Z a) = Ok ([byte.of_Z tag] ++ le_split 8 a).
Proof.
  intros Ht Ha. unfold amount_message, uint64. rewrite new_BN_safe by done. cbn [mbind result_bind].
  rewrite span_struct, span_u8, span_uint, encode_struct, encode_u8. cbn [Nat.add].
  rewrite write_tag by done. cbn [mbind result_bind].
  rewrite encode_uint by (try lia; vm_compute; lia). rewrite Z.mod_small by lia.
  rewrite put_bytes_append by (done || by rewrite length_le_split). cbn [mbind result_bind].
  rewrite length_le_split. by rewrite app_nil_r.
Qed.

(** The experiment's way to the same bytes. *)
Ltac written Hs :=
  rewrite write_tag by lia; cbn [mbind result_bind]; rewrite BigInt_num_of_Z by exact Hs;
  cbn [mbind result_bind]; unfold writeBigInt64LE; rewrite write_le_append by (done || lia);
  rewrite app_nil_r; cbn [mbind result_bind].

(** For the deployed pool and an amount a number holds exactly, the web client's
    withdrawal is the experiment's, account by account and byte by byte; its deposit
    and its credit differ in these points only: the deposit's source does not sign and
    two unused accounts follow, and the credit's target is writable. *)
Theorem web_messages_agree t s a src tok target cancel :
  deployed t s → 0 <= a < 2 ^ 53 →
  (∃ ix, withdrawInstruction t {| withdraw_userTokenSource := tok; withdraw_amount := num_of_Z a;
                                  withdraw_userSolTarget := target |} = Ok ix ∧
     web_withdrawInstruction {| web_withdraw_userTokenSource := tok; web_withdraw_userSolTarget := target;
                                web_withdraw_amount := num_of_Z a |} s = Ok ix) ∧
  (∃ ix web, depositInstruction t {| userSource := src; deposit_amount := num_of_Z a; userToken := tok |} = Ok ix ∧
     web_depositInstruction {| web_userSource := publicKey src; web_deposit_amount := num_of_Z a;
                               web_userToken := tok |} = Ok web ∧
     ix_data web = ix_data ix ∧ ix_programId web = ix_programId ix ∧
     ix_keys web = <[3%nat := writable (publicKey src)]> (ix_keys ix)
                     ++ [writable TEMP_ACCOUNT_PDA; writable WRAPPED_SOL_MINT]) ∧
  (∃ ix web, creditInstruction t {| credit_userTokenSource := tok; credit_amount := num_of_Z a;
                                    credit_userSolTarget := target;
                                    credit_cancelAuthority := IsKey cancel |} = Ok ix ∧
     web_creditInstruction {| web_credit_userTokenSource := tok; web_credit_userSolTarget := target;
                              web_credit_cancelAuthority := cancel;
                              web_credit_amount := num_of_Z a |} s = Ok web ∧
     ix_data web = ix_data ix ∧ ix_programId web = ix_programId ix ∧
     ix_keys web = <[5%nat := writable target]> (ix_keys ix)).
Proof.
  intros [Hprog Hpool Hw Hr Hfee [Hmint Hmint'] Hcl Hcr] Ha.
  assert (Hs : safe a) by (unfold safe; lia).
  split; [|split].
  - unfold withdrawInstruction, web_withdrawInstruction. cbn [withdraw_amount web_withdraw_amount].
    rewrite amount_message_bytes by done. written Hs. rewrite Hw, Hr. cbn [mbind result_bind].
    eexists. split; [done|]. by rewrite Hprog, Hpool, Hmint, Hmint'.
  - unfold depositInstruction, web_depositInstruction. cbn [deposit_amount web_deposit_amount].
    rewrite amount_message_bytes by done. written Hs. rewrite Hw, Hr. cbn [mbind result_bind].
    eexists _, _. split; [done|]. split; [done|]. cbn [ix_data ix_programId ix_keys].
    by rewrite Hprog, Hpool, Hmint, Hfee.
  - unfold creditInstruction, web_creditInstruction. cbn [credit_amount web_credit_amount].
    rewrite amount_message_bytes by done.
    rewrite num_leb_exact, num_ltb_exact, Math_abs_exact by (done || safe_lia).
    rewrite (proj2 (Z.leb_le 0 a)), (proj2 (Z.ltb_ge a 0)), Z.abs_eq by lia. written Hs.
    rewrite Hw. cbn [mbind result_bind cancel_key credit_cancelAuthority].
    eexists _, _. split; [done|]. split; [done|]. cbn [ix_data ix_programId ix_keys].
    by rewrite Hprog, Hpool, Hcl, Hcr.
Qed.

End Agreement.

(** ** Concrete inputs *)

(** The sample pool's account, with bytes to spare. *)
Definition sample_pool_account : AccountInfo :=
  owned_account (stake_pool_bytes (alloc 5) sample_pool_state ++ alloc 3) 1.

Lemma TenderizeParser_agrees_witness :
  TenderizeParser (sample_vote 3) (Some sample_pool_account) =
  (s ← parseState (account_data sample_pool_account);
   mret (Some {| parsed_pubkey := sample_vote 3; parsed_account := sample_pool_account; parsed_info := s |})).
Proof. apply (TenderizeParser_agrees (sample_vote 3) sample_pool_account). apply Nat.leb_le. reflexivity. Defined.

(** Sample keys in which the two addresses of ids.ts are those derived from the pool. *)
Definition deployed_literal (s : string) : SampleKey :=
  let pool := literal_key "DKZKU3K8MiBbBfurpaG2ijf6nAGoXvomNysCJZ5jbgiy" in
  let program := literal_key "YiLSwwu3yBwaSHoaAooERKNeQ64BSbRuv7wXTZ5Uprf" in
  if (s =? "J5zPZnPwxxyV2vMSneQy4kasgteR1rHYEokfaa2G9DdQ")%string then
    sample_address [sample_toBuffer pool; buffer_from "reserve"] program
  else if (s =? "5es37KhF5VKHtSPXNDzwPNMSndizyNFvHzeFwzEKW3vg")%string then
    sample_address [sample_toBuffer pool; buffer_from "withdraw"] program
  else literal_key s.

Definition DeployedKeys : Keys := {|
  PublicKey := SampleKey;
  PublicKey_eq_dec := _;
  Account := SampleKey;
  publicKey := λ a, a;
  new_PublicKey := sample_new_PublicKey;
  toBuffer := sample_toBuffer;
  toBase58 := λ k, string_of_list_byte [fst k; snd k];
  PublicKey_of_string := sample_of_string;
  key_literal := deployed_literal;
  findProgramAddress := λ seeds p, Ok (sample_address seeds p);
  SystemProgram_programId := Build_obj 0 (literal_key "11111111111111111111111111111111");
  StakeProgram_programId := literal_key "Stake11111111111111111111111111111111111111";
  SYSVAR_CLOCK_PUBKEY := literal_key "SysvarC1ock11111111111111111111111111111111";
  SYSVAR_RENT_PUBKEY := literal_key "SysvarRent111111111111111111111111111111111";
  SYSVAR_STAKE_HISTORY_PUBKEY := literal_key "SysvarStakeHistory1111111111111111111111111";
|}.

Definition deployed_client : @TenderizeProgram DeployedKeys :=
  @Build_TenderizeProgram DeployedKeys (sample_key 1) (@TENDERIZE_PROGRAM_ID DeployedKeys)
    (@STAKE_POOL_ID DeployedKeys) (sample_key 4) (sample_key 5) (sample_key 6)
    (@TENDERIZED_SOL_MINT_ID DeployedKeys) (@OWNER_FEE_ACCOUNT DeployedKeys) (sample_key 9).

Definition deployed_state : @Tenderize DeployedKeys :=
  @Build_State DeployedKeys 1 (sample_key 4) (sample_key 5) (sample_key 6)
    (@TENDERIZED_SOL_MINT_ID DeployedKeys) (@OWNER_FEE_ACCOUNT DeployedKeys) (sample_key 9)
    (@TOKEN_PROGRAM_ID DeployedKeys) 4000000000 3900000000 7 1000 1.

Definition deployed_key (z : Z) : @PublicKey DeployedKeys := sample_key z.

Lemma web_messages_agree_witness :
  ∃ ix, @withdrawInstruction DeployedKeys deployed_client
          (@Build_WithdrawParams DeployedKeys (sample_key 20) (num_of_Z 1500000000) (sample_key 21)) = Ok ix ∧
        @web_withdrawInstruction DeployedKeys _ _
          (@Build_WebWithdrawParams DeployedKeys (sample_key 20) (sample_key 21) (num_of_Z 1500000000))
          deployed_state = Ok ix.
Proof.
  assert (Hd : @deployed DeployedKeys deployed_client deployed_state) by (split; [reflexivity..| |reflexivity|reflexivity]; split; reflexivity).
  exact (proj1 (@web_messages_agree DeployedKeys _ _ _ _ deployed_client deployed_state 1500000000
    (sample_key 19) (deployed_key 20) (deployed_key 21) (deployed_key 22) Hd ltac:(lia))).
Defined.
