(* ===== verification/Actions.v ===== *)
(** * The web client's actions (src/actions, src/models/account.ts, sendTransaction of
      src/contexts/connection.tsx)

    An action drafts a transaction (instructions, cleanup instructions and the key
    pairs that sign beside the wallet), has the wallet sign it and submits it.  The
    browser's state is the cluster, the notifications shown, the transactions the
    wallet was asked to sign and the bytes submitted. *)

From Stdlib Require Import ZArith Lia.
From Stdlib Require Import String Ascii.
From stdpp Require Import base list strings sets.
From coqutil Require Import Byte.
From S2P Require Import Prelude JsNumber Buffers Web3 Sample Program Instructions SamplePool.
From S2P Require Import Wire Readers Layouts Lending.

Open Scope Z_scope.

(** ** The libraries *)

(** @solana/spl-token. *)
Class SplToken `{Keys} := {
  (** [Token.createApproveInstruction(program, account, delegate, owner, [], amount)]. *)
  createApproveInstruction :
    PublicKey → PublicKey → PublicKey → PublicKey → num → result TransactionInstruction;
  (** [Token.createRevokeInstruction(program, account, owner, [])]. *)
  createRevokeInstruction : PublicKey → PublicKey → PublicKey → TransactionInstruction;
  (** [Token.createInitAccountInstruction(program, mint, account, owner)]. *)
  createInitAccountInstruction :
    PublicKey → PublicKey → PublicKey → PublicKey → TransactionInstruction;
  (** [Token.createCloseAccountInstruction(program, account, dest, owner, [])]. *)
  createCloseAccountInstruction :
    PublicKey → PublicKey → PublicKey → PublicKey → TransactionInstruction;
  AccountLayout_span : Z;
  MintLayout_span : Z;
}.

(** The size of a token account, and who has to sign the token program's instructions:
    the owner, if anyone. *)
Class SplTokenLaws `{SplToken} : Prop := {
  account_span : AccountLayout_span = 165;
  approve_signers : ∀ p a d o n ix, createApproveInstruction p a d o n = Ok ix →
    Forall (λ m, isSigner m = true → pubkey m = o) (ix_keys ix);
  revoke_signers : ∀ p a o,
    Forall (λ m, isSigner m = true → pubkey m = o) (ix_keys (createRevokeInstruction p a o));
  init_signers : ∀ p m a o,
    Forall (λ m, isSigner m = false) (ix_keys (createInitAccountInstruction p m a o));
  close_signers : ∀ p a d o,
    Forall (λ m, isSigner m = true → pubkey m = o) (ix_keys (createCloseAccountInstruction p a d o));
}.

(** A transaction before it is signed: its instructions, [recentBlockhash] and the
    keys given to [setSigners], the first of which pays the fee. *)
Record UnsignedTx `{Keys} := {
  tx_instructions : Transaction;
  tx_recentBlockhash : string;
  tx_setSigners : list PublicKey;
}.

(** The wallet, the rest of [Connection], and [new Account()]. *)
Class WebApi `{Keys} (W : Type) := {
  WebTx : Type;
  web_tx : UnsignedTx → WebTx;
  partialSign : list Account → WebTx → result WebTx;
  serialize : WebTx → result buffer;
  wallet_publicKey : W → option PublicKey;
  wallet_signTransaction : WebTx → W → result WebTx * W;
  rpc_getRecentBlockhash : Commitment → W → result string * W;
  rpc_sendRawTransaction : buffer → W → result string * W;
  (** [(await confirmTransaction(txid, commitment)).value]: the error of its status. *)
  rpc_confirmTransaction : string → Commitment → W → result (option string) * W;
  (** [(await getParsedConfirmedTransaction(txid))?.meta?.logMessages]. *)
  rpc_getLogs : string → W → result (option (list string)) * W;
  generate_key : W → Account * W;
}.

(** ** The browser *)

(** A notification: its type, its message and the texts of its description. *)
Record Note := { note_type : string; note_message : string; note_description : list string }.

Record Browser `{Keys} (W : Type) := {
  browser_world : W;
  notes : list Note;
  offered : list UnsignedTx;
  raw_sent : list buffer;
}.
Arguments browser_world {_ W} b.
Arguments notes {_ W} b.
Arguments offered {_ W} b.
Arguments raw_sent {_ W} b.
Arguments Build_Browser {_ W} browser_world notes offered raw_sent.

Section Actions.
Context `{Keys} `{BufferLayout} `{BigNumbers} `{!SplToken} {W : Type} `{!Connection W} `{!WebApi W}.

Definition ask {A} (f : W → result A * W) : M (Browser W) A :=
  λ b, let '(r, w) := f (browser_world b) in
       (r, Build_Browser w (notes b) (offered b) (raw_sent b)).

Definition notify (type message : string) (description : list string) : M (Browser W) unit :=
  λ b, (Ok tt, Build_Browser (browser_world b)
                 (notes b ++ [{| note_type := type; note_message := message; note_description := description |}])
                 (offered b) (raw_sent b)).

(** [wallet.publicKey], or the error of the sources' check of it. *)
Definition connected_key : M (Browser W) PublicKey :=
  λ b, (match wallet_publicKey (browser_world b) with
        | Some k => Ok k
        | None => Err (JsError "Wallet is not connected" [])
        end, b).

Definition fresh_Account : M (Browser W) Account :=
  ask (λ w, let '(a, w') := generate_key w in (Ok a, w')).

(** The wallet is asked to sign [u], possibly with signatures already. *)
Definition ask_wallet (u : UnsignedTx) (tx : WebTx) : M (Browser W) WebTx :=
  λ b, let '(r, w) := wallet_signTransaction tx (browser_world b) in
       (r, Build_Browser w (notes b) (offered b ++ [u]) (raw_sent b)).

Definition sendRawTransaction (raw : buffer) : M (Browser W) string :=
  λ b, let '(r, w) := rpc_sendRawTransaction raw (browser_world b) in
       (r, Build_Browser w (notes b) (offered b) (raw_sent b ++ [raw])).

(** ** src/contexts/connection.tsx *)

Definition newline : ascii := ascii_of_nat 10.
Definition carriage_return : ascii := ascii_of_nat 13.

(** The lines of a string: [.] does not match their ends. *)
Fixpoint log_lines (cur s : list ascii) : list (list ascii) :=
  match s with
  | [] => [cur]
  | c :: s' => if (c =? newline)%char || (c =? carriage_return)%char
               then cur :: log_lines [] s' else log_lines (cur ++ [c]) s'
  end.

(** What follows [pat] in [s], if [s] starts with it. *)
Fixpoint strip_prefix (pat s : list ascii) : option (list ascii) :=
  match pat, s with
  | [], _ => Some s
  | p :: pat', c :: s' => if (p =? c)%char then strip_prefix pat' s' else None
  | _ :: _, [] => None
  end.

(** The group of the leftmost match of the pattern in a line: the rest of the line
    after the first [Error: ]. *)
Fixpoint error_of_line (s : list ascii) : option (list ascii) :=
  match strip_prefix (list_ascii_of_string "Error: ") s with
  | Some rest => Some rest
  | None => match s with [] => None | _ :: s' => error_of_line s' end
  end.

(** The matches of one log message: after a match the search goes on in the next line. *)
Definition errors_of_log (log : string) : list string :=
  string_of_list_ascii <$> omap error_of_line (log_lines [] (list_ascii_of_string log)).

Definition getErrorForTransaction (txid : string) : M (Browser W) (list string) :=
  _ ← ask (rpc_confirmTransaction txid max_);
  logs ← ask (rpc_getLogs txid);
  mret (match logs with Some logs => concat (errors_of_log <$> logs) | None => [] end).

Definition sendTransaction (instructions : Transaction) (signers : list Account)
    (awaitConfirmation : bool) : M (Browser W) string :=
  key ← connected_key;
  hash ← ask (rpc_getRecentBlockhash max_);
  let u := {| tx_instructions := instructions; tx_recentBlockhash := hash;
              tx_setSigners := key :: (publicKey <$> signers) |} in
  tx ← (if (0 <? length signers)%nat then lift (partialSign signers (web_tx u)) else mret (web_tx u));
  tx ← ask_wallet u tx;
  rawTransaction ← lift (serialize tx);
  txid ← sendRawTransaction rawTransaction;
  _ ← (if awaitConfirmation then
         err ← ask (rpc_confirmTransaction txid singleGossip);
         match err with
         | Some status =>
             errors ← getErrorForTransaction txid;
             _ ← notify "error" "Transaction failed..." (errors ++ [txid]);
             throw (JsError "Raw transaction failed" [AStr txid; AStr status])
         | None => mret tt
         end
       else mret tt);
  mret txid.

(** ** Drafts *)

(** The arrays [instructions], [cleanupInstructions] and [signers] of an action,
    which its helpers push to. *)
Record Draft := {
  instructions : Transaction;
  cleanupInstructions : Transaction;
  draft_signers : list Account;
}.

Definition empty_draft : Draft :=
  {| instructions := []; cleanupInstructions := []; draft_signers := [] |}.
Definition push (ix : TransactionInstruction) (d : Draft) : Draft :=
  {| instructions := instructions d ++ [ix]; cleanupInstructions := cleanupInstructions d;
     draft_signers := draft_signers d |}.
Definition push_cleanup (ix : TransactionInstruction) (d : Draft) : Draft :=
  {| instructions := instructions d; cleanupInstructions := cleanupInstructions d ++ [ix];
     draft_signers := draft_signers d |}.
Definition push_signer (a : Account) (d : Draft) : Draft :=
  {| instructions := instructions d; cleanupInstructions := cleanupInstructions d;
     draft_signers := draft_signers d ++ [a] |}.

(** [instructions.concat(cleanupInstructions)]. *)
Definition draft_transaction (d : Draft) : Transaction := instructions d ++ cleanupInstructions d.

(** The part of a [TokenAccount] that is used. *)
Record TokenAccount := {
  ta_pubkey : PublicKey;
  ta_mint : PublicKey;
  ta_owner : PublicKey;
  ta_isNative : bool;
}.

(** ** src/models/account.ts *)

Definition approve (d : Draft) (account own : PublicKey) (amount : num) (autoRevoke : bool)
    (delegate : option PublicKey) : M (Browser W) (Account * Draft) :=
  transferAuthority ← fresh_Account;
  ix ← lift (createApproveInstruction TOKEN_PROGRAM_ID account
               (default (publicKey transferAuthority) delegate) own amount);
  let d := push ix d in
  let d := if autoRevoke then push_cleanup (createRevokeInstruction TOKEN_PROGRAM_ID account own) d
           else d in
  mret (transferAuthority, d).

(** ** src/actions/account.ts *)

(** The common part of the functions that create an account. *)
Definition create_with (d : Draft) (payer : PublicKey) (amount : num) (sp : Z) (own : PublicKey)
  : M (Browser W) (PublicKey * Draft) :=
  account ← fresh_Account;
  let d := push (createAccount {| fromPubkey := payer; newAccountPubkey := publicKey account;
                                  create_lamports := amount; space := sp;
                                  create_programId := own |}) d in
  mret (publicKey account, push_signer account d).

Definition DEFAULT_TEMP_MEM_SPACE : Z := 65548.

Definition createTempMemoryAccount (d : Draft) (payer own : PublicKey) (sp : option Z) :=
  create_with d payer (num_of_Z 0) (default DEFAULT_TEMP_MEM_SPACE sp) own.

Definition createUninitializedMint (d : Draft) (payer : PublicKey) (amount : num) :=
  create_with d payer amount MintLayout_span TOKEN_PROGRAM_ID.

Definition createUninitializedAccount (d : Draft) (payer : PublicKey) (amount : num) :=
  create_with d payer amount AccountLayout_span TOKEN_PROGRAM_ID.

Definition ensureSplAccount (d : Draft) (toCheck : TokenAccount) (payer : PublicKey) (amount : num)
  : M (Browser W) (PublicKey * Draft) :=
  if negb (ta_isNative toCheck) then mret (ta_pubkey toCheck, d)
  else
    '(account, d) ← createUninitializedAccount d payer amount;
    let d := push (createInitAccountInstruction TOKEN_PROGRAM_ID WRAPPED_SOL_MINT account payer) d in
    let d := push_cleanup (createCloseAccountInstruction TOKEN_PROGRAM_ID account payer payer) d in
    mret (account, d).

Definition createTokenAccount (d : Draft) (payer : PublicKey) (accountRentExempt : num)
    (mint own : PublicKey) : M (Browser W) (PublicKey * Draft) :=
  '(account, d) ← createUninitializedAccount d payer accountRentExempt;
  mret (account, push (createInitAccountInstruction TOKEN_PROGRAM_ID mint account own) d).

(** [cached] is [cache.byParser(TokenAccountParser).map((id) => cache.get(id))]. *)
Definition findOrCreateAccountByMint (cached : list (option TokenAccount)) (payer own : PublicKey)
    (d : Draft) (accountRentExempt : num) (mint : PublicKey) (excluded : option (list string))
  : M (Browser W) (PublicKey * Draft) :=
  let accountToFind := toBase58 mint in
  let fits (acc : option TokenAccount) :=
    match acc with
    | None => false
    | Some a =>
        (toBase58 (ta_mint a) =? accountToFind)%string &&
        (toBase58 (ta_owner a) =? toBase58 own)%string &&
        match excluded with
        | None => true
        | Some l => negb (existsb (String.eqb (toBase58 (ta_pubkey a))) l)
        end
    end in
  let account := mjoin (List.find fits cached) in
  let isWrappedSol := (accountToFind =? toBase58 WRAPPED_SOL_MINT)%string in
  match account, isWrappedSol with
  | Some a, false => mret (ta_pubkey a, d)
  | _, _ =>
      '(toAccount, d) ← createTokenAccount d payer accountRentExempt mint own;
      let close := createCloseAccountInstruction TOKEN_PROGRAM_ID toAccount payer payer in
      mret (toAccount, if isWrappedSol then push_cleanup close d else d)
  end.

(** ** The actions *)

Definition web_deposit (cached : list (option TokenAccount)) (from : TokenAccount)
    (amountLamports : num) : M (Browser W) unit :=
  key ← connected_key;
  _ ← notify "warn" "Depositing funds..." ["Please review transactions to approve."%string];
  accountRentExempt ← ask (rpc_getMinimumBalanceForRentExemption AccountLayout_span);
  '(fromAccount, d) ← ensureSplAccount empty_draft from key (num_add amountLamports accountRentExempt);
  '(_, d) ← approve d fromAccount key amountLamports true (Some WITHDRAW_AUTHORITY_PDA);
  '(toAccount, d) ← findOrCreateAccountByMint cached key key d accountRentExempt
                      TENDERIZED_SOL_MINT_ID None;
  ix ← lift (web_depositInstruction {| web_userSource := fromAccount;
                                       web_deposit_amount := amountLamports;
                                       web_userToken := toAccount |});
  let d := push ix d in
  catch (tx ← sendTransaction (draft_transaction d) (draft_signers d) true;
         notify "success" "Funds deposited." [("Transaction - " ++ tx)%string])
        throw.

Definition web_withdraw (from : TokenAccount) (amountLamports : num) (tenderize : Tenderize)
  : M (Browser W) unit :=
  key ← connected_key;
  reserveInfo ← ask (rpc_getAccountInfo RESERVE_ADDRESS_PDA None);
  min0 ← ask (rpc_getMinimumBalanceForRentExemption 0);
  min1 ← ask (rpc_getMinimumBalanceForRentExemption AccountLayout_span);
  let minReserveBalance := num_add min0 min1 in
  if match reserveInfo with
     | None => true
     | Some info => num_ltb (lamports info) (num_add minReserveBalance amountLamports)
     end
  then throw (JsError "Not enough funds" [])
  else
    _ ← notify "warn" "Withdrawing funds..." ["Please review transactions to approve."%string];
    let fromAccount := ta_pubkey from in
    '(_, d) ← approve empty_draft fromAccount key amountLamports true (Some WITHDRAW_AUTHORITY_PDA);
    ix ← lift (web_withdrawInstruction {| web_withdraw_userTokenSource := fromAccount;
                                          web_withdraw_userSolTarget := key;
                                          web_withdraw_amount := amountLamports |} tenderize);
    let d := push ix d in
    catch (tx ← sendTransaction (draft_transaction d) (draft_signers d) true;
           notify "success" "Funds withdrawn." [("Transaction - " ++ tx)%string])
          (λ _, mret tt).

Definition web_credit (from : TokenAccount) (amountLamports : num) (tenderize : Tenderize)
  : M (Browser W) unit :=
  key ← connected_key;
  _ ← notify "warn" "Withdrawing funds..." ["Please review transactions to approve."%string];
  let fromAccount := ta_pubkey from in
  '(_, d) ← approve empty_draft fromAccount key amountLamports true (Some WITHDRAW_AUTHORITY_PDA);
  cancel ← fresh_Account;
  ix ← lift (web_creditInstruction {| web_credit_userTokenSource := fromAccount;
                                      web_credit_userSolTarget := key;
                                      web_credit_cancelAuthority := publicKey cancel;
                                      web_credit_amount := amountLamports |} tenderize);
  let d := push ix d in
  catch (tx ← sendTransaction (draft_transaction d) (draft_signers d) true;
         notify "success" "Requested withdraw in the future" [("Transaction - " ++ tx)%string])
        (λ _, mret tt).

End Actions.

(** ** Properties *)

(** The user keeps the wallet while the client works. *)
Class WalletKept `{WebApi W} `{!Connection W} : Prop := {
  kept_info : ∀ k cm w, wallet_publicKey (snd (rpc_getAccountInfo k cm w)) = wallet_publicKey w;
  kept_rent : ∀ n w, wallet_publicKey (snd (rpc_getMinimumBalanceForRentExemption n w)) = wallet_publicKey w;
  kept_new : ∀ w, wallet_publicKey (snd (generate_key w)) = wallet_publicKey w;
}.

(** The rents of accounts of up to 10 MB are whole numbers a [number] holds exactly. *)
Class RentExact `{Connection W} : Prop := {
  rent_exact : ∀ n w r w', 0 <= n <= 10 * 2 ^ 20 → rpc_getMinimumBalanceForRentExemption n w = (Ok r, w') →
    ∃ z, r = num_of_Z z ∧ 0 <= z < 2 ^ 51;
}.

Section ActionFacts.
Context `{Keys} `{BufferLayout} `{BigNumbers} `{!SplToken} {W : Type} `{!Connection W} `{!WebApi W}
        `{!WalletKept}.

(** A computation that asks the wallet nothing and leaves it connected as it is. *)
Definition calm {A} (m : M (Browser W) A) : Prop :=
  ∀ b, offered (snd (m b)) = offered b ∧
       wallet_publicKey (browser_world (snd (m b))) = wallet_publicKey (browser_world b).

(** What the wallet is asked to sign when [m] runs from [b], and whether [m] ends
    without an error. *)
Definition offers_at {A} (Q : bool → list UnsignedTx → Prop) (m : M (Browser W) A) (b : Browser W) : Prop :=
  ∃ l, offered (snd (m b)) = offered b ++ l ∧ Q (is_ok (fst (m b))) l.

Lemma ask_calm {A} (f : W → result A * W) :
  (∀ w, wallet_publicKey (snd (f w)) = wallet_publicKey w) → calm (ask f).
Proof.
  intros Hf b. unfold ask. specialize (Hf (browser_world b)). by destruct (f (browser_world b)).
Qed.

Lemma ask_inv {A} (f : W → result A * W) b a b' :
  ask f b = (Ok a, b') →
  ∃ w, f (browser_world b) = (Ok a, w) ∧ b' = Build_Browser w (notes b) (offered b) (raw_sent b).
Proof. unfold ask. destruct (f (browser_world b)) as [r w]. intros [= -> <-]. by exists w. Qed.

Lemma notify_calm t m d : calm (notify t m d).
Proof. done. Qed.

Lemma fresh_calm : calm fresh_Account.
Proof.
  apply ask_calm. intros w. pose proof (kept_new w). by destruct (generate_key w).
Qed.

Lemma ret_calm {A} (a : A) : calm (mret a : M (Browser W) A).
Proof. done. Qed.

Lemma lift_calm {A} (r : result A) : calm (lift r : M (Browser W) A).
Proof. done. Qed.

Lemma bind_calm {A B} (m : M (Browser W) A) (f : A → M (Browser W) B) :
  calm m → (∀ a, calm (f a)) → calm (m ≫= f).
Proof.
  intros Hm Hf b. unfold mbind, M_bind. destruct (Hm b) as [H1' H2'].
  destruct (m b) as [[a|e] b']; cbn [snd] in *; [|done]. destruct (Hf a b') as [-> ->]. done.
Qed.

Lemma bind_offers {A B} Q (m : M (Browser W) A) (f : A → M (Browser W) B) b :
  calm m → Q false [] →
  (∀ a b', m b = (Ok a, b') →
     wallet_publicKey (browser_world b') = wallet_publicKey (browser_world b) → offers_at Q (f a) b') →
  offers_at Q (m ≫= f) b.
Proof.
  intros Hm HQ Hf. unfold offers_at, mbind, M_bind in *. destruct (Hm b) as [Ho Hk].
  destruct (m b) as [[a|e] b']; cbn [fst snd] in *.
  - rewrite <- Ho. by apply Hf.
  - exists []. by rewrite app_nil_r.
Qed.

Lemma nothing_offered {A} Q (m : M (Browser W) A) b :
  offered (snd (m b)) = offered b → Q (is_ok (fst (m b))) [] → offers_at Q m b.
Proof. intros Hm HQ. exists []. by rewrite app_nil_r. Qed.

Lemma create_calm d payer amount sp own : calm (create_with d payer amount sp own).
Proof. apply bind_calm; [apply fresh_calm|intros a; apply ret_calm]. Qed.

Lemma approve_calm d account own amount rv del : calm (approve d account own amount rv del).
Proof.
  apply bind_calm; [apply fresh_calm|intros a]. apply bind_calm; [apply lift_calm|intros ix; apply ret_calm].
Qed.

(** A computation that asks the wallet nothing. *)
Definition silent {A} (m : M (Browser W) A) : Prop := ∀ b, offered (snd (m b)) = offered b.

Lemma ask_silent {A} (f : W → result A * W) : silent (ask f).
Proof. intros b. unfold ask. by destruct (f (browser_world b)). Qed.

Lemma bind_silent {A B} (m : M (Browser W) A) (f : A → M (Browser W) B) :
  silent m → (∀ a, silent (f a)) → silent (m ≫= f).
Proof.
  intros Hm Hf b. unfold mbind, M_bind. specialize (Hm b).
  destruct (m b) as [[a|e] b']; cbn [snd] in *; [|done]. by rewrite Hf.
Qed.

Lemma submit_silent tx aw :
  silent (rawTransaction ← lift (serialize tx);
          txid ← sendRawTransaction rawTransaction;
          _ ← (if aw : bool then
                 err ← ask (rpc_confirmTransaction txid singleGossip);
                 match err with
                 | Some status =>
                     errors ← getErrorForTransaction txid;
                     _ ← notify "error" "Transaction failed..." (errors ++ [txid]);
                     throw (JsError "Raw transaction failed" [AStr txid; AStr status])
                 | None => mret tt
                 end
               else mret tt);
          mret txid).
Proof.
  apply bind_silent; [done|intros raw]. apply bind_silent.
  { intros b. unfold sendRawTransaction. by destruct (rpc_sendRawTransaction _ _). }
  intros txid. apply bind_silent; [|done]. destruct aw; [|done].
  apply bind_silent; [apply ask_silent|]. intros [status|]; [|done].
  apply bind_silent; [|done].
  apply bind_silent; [apply ask_silent|intros _]. by apply bind_silent; [apply ask_silent|].
Qed.

Lemma silent_bind_offers {A B} Q (m : M (Browser W) A) (f : A → M (Browser W) B) b :
  silent m → Q false [] → (∀ a b', m b = (Ok a, b') → offers_at Q (f a) b') → offers_at Q (m ≫= f) b.
Proof.
  intros Hm HQ Hf. unfold offers_at, mbind, M_bind in *. specialize (Hm b).
  destruct (m b) as [[a|e] b']; cbn [fst snd] in *.
  - rewrite <- Hm. by apply Hf.
  - exists []. by rewrite app_nil_r.
Qed.

Lemma wallet_bind_offers {A} Q u tx (f : WebTx → M (Browser W) A) b :
  (∀ tx, silent (f tx)) → (∀ ok, Q ok [u]) → offers_at Q (ask_wallet u tx ≫= f) b.
Proof.
  intros Hf Hq. exists [u]. split; [|done]. unfold ask_wallet, mbind, M_bind.
  destruct (wallet_signTransaction tx (browser_world b)) as [[tx'|e] w]; [by rewrite Hf|done].
Qed.

(** The wallet is asked at most once, to sign the given instructions for itself and
    the given key pairs. *)
Lemma sendTransaction_offers Q ixs ss aw b :
  Q false [] →
  (∀ k hash ok, wallet_publicKey (browser_world b) = Some k →
     Q ok [{| tx_instructions := ixs; tx_recentBlockhash := hash; tx_setSigners := k :: (publicKey <$> ss) |}]) →
  offers_at Q (sendTransaction ixs ss aw) b.
Proof.
  intros HQ Hk. unfold sendTransaction. apply bind_offers; [done|done|].
  intros k b1 Hb1 _. unfold connected_key in Hb1.
  destruct (wallet_publicKey (browser_world b)) as [k'|]; [|done]. injection Hb1 as -> <-.
  apply silent_bind_offers; [apply ask_silent|done|]. intros hash b2 _.
  apply silent_bind_offers; [by destruct (_ <? _)%nat|done|]. intros tx b3 _.
  apply wallet_bind_offers; [intros; apply submit_silent|auto].
Qed.

(** An action's last step. *)
Lemma finish_offers Q ixs ss aw (note : string → M (Browser W) unit) h b :
  (∀ tx, silent (note tx)) → (∀ e, silent (h e)) → (∀ e b, Q (is_ok (fst (h e b))) []) →
  (∀ k hash ok, wallet_publicKey (browser_world b) = Some k →
     Q ok [{| tx_instructions := ixs; tx_recentBlockhash := hash; tx_setSigners := k :: (publicKey <$> ss) |}]) →
  offers_at Q (catch (tx ← sendTransaction ixs ss aw; note tx) h) b.
Proof.
  intros Hn Hh Hq Hk.
  destruct (sendTransaction_offers (λ ok l, (ok = false ∧ l = []) ∨ ∀ ok, Q ok l) ixs ss aw b)
    as (l & Hl & Hs); [by left|by right; auto|].
  exists l. rewrite <- Hl. unfold catch, mbind, M_bind.
  destruct (sendTransaction ixs ss aw b) as [[tx|e] b1]; cbn [fst snd is_ok] in *.
  - destruct Hs as [[? ?]|Hs]; [done|]. specialize (Hn tx b1).
    destruct (note tx b1) as [[?|e] b2]; cbn [snd] in *; by rewrite ?Hh.
  - split; [by rewrite Hh|]. destruct Hs as [[_ ->]|Hs]; [apply Hq|apply Hs].
Qed.

(** ** What the helpers push *)

Lemma approve_result d account own amount del b x d' b' :
  approve d account own amount true (Some del) b = (Ok (x, d'), b') →
  ∃ ix, createApproveInstruction TOKEN_PROGRAM_ID account del own amount = Ok ix ∧
        d' = push_cleanup (createRevokeInstruction TOKEN_PROGRAM_ID account own) (push ix d).
Proof.
  unfold approve. intros Hr. inv_bind Hr. inv_bind Hr. unfold lift in E0. injection E0 as E0 <-.
  injection Hr as <- <- <-. by exists a0.
Qed.

(** The instruction that creates a token account. *)
Definition creates (payer : PublicKey) (amount : num) (a : Account) : TransactionInstruction :=
  createAccount {| fromPubkey := payer; newAccountPubkey := publicKey a; create_lamports := amount;
                   space := AccountLayout_span; create_programId := TOKEN_PROGRAM_ID |}.

Lemma create_result d payer amount b k d' b' :
  createUninitializedAccount d payer amount b = (Ok (k, d'), b') →
  ∃ a, k = publicKey a ∧ d' = push_signer a (push (creates payer amount a) d).
Proof.
  unfold createUninitializedAccount, create_with. intros Hr. inv_bind Hr. injection Hr as <- <- <-. by exists a.
Qed.

(** The account money is taken from: the one given, or a new one for wrapped SOL that
    is closed in the end. *)
Definition source_of (key : PublicKey) (amount : num) (from : TokenAccount) (src : PublicKey)
    (setup cleanup : Transaction) (ss : list Account) : Prop :=
  if ta_isNative from then
    ∃ a, src = publicKey a ∧ ss = [a] ∧
      setup = [creates key amount a;
               createInitAccountInstruction TOKEN_PROGRAM_ID WRAPPED_SOL_MINT src key] ∧
      cleanup = [createCloseAccountInstruction TOKEN_PROGRAM_ID src key key]
  else src = ta_pubkey from ∧ ss = [] ∧ setup = [] ∧ cleanup = [].

Lemma ensure_result from payer amount b k d' b' :
  ensureSplAccount empty_draft from payer amount b = (Ok (k, d'), b') →
  source_of payer amount from k (instructions d') (cleanupInstructions d') (draft_signers d').
Proof.
  unfold ensureSplAccount, source_of. destruct (ta_isNative from); simpl negb; cbv iota; intros Hr.
  - inv_bind Hr. destruct a as [k1 d1]. apply create_result in E as (a & -> & ->). exists a.
    injection Hr as <- <- <-. done.
  - injection Hr as <- <- <-. done.
Qed.

Lemma ensure_calm d from payer amount : calm (ensureSplAccount d from payer amount).
Proof.
  unfold ensureSplAccount. destruct (negb _); [apply ret_calm|].
  apply bind_calm; [apply create_calm|by intros []].
Qed.

(** The account tokens are put into: a known one of the wallet, or a new one. *)
Definition target_of (key : PublicKey) (rent : num) (cached : list (option TokenAccount))
    (tok : PublicKey) (setup : Transaction) (ss : list Account) : Prop :=
  (∃ a, Some a ∈ cached ∧ tok = ta_pubkey a ∧ setup = [] ∧ ss = [] ∧
     toBase58 (ta_mint a) = toBase58 TENDERIZED_SOL_MINT_ID ∧ toBase58 (ta_owner a) = toBase58 key) ∨
  (∃ a, tok = publicKey a ∧ ss = [a] ∧
     setup = [creates key rent a;
              createInitAccountInstruction TOKEN_PROGRAM_ID TENDERIZED_SOL_MINT_ID tok key]).

Lemma find_calm cached payer own d rent mint ex :
  calm (findOrCreateAccountByMint cached payer own d rent mint ex).
Proof.
  unfold findOrCreateAccountByMint. cbv zeta.
  destruct (mjoin _), (_ =? _)%string; try apply ret_calm;
    (apply bind_calm; [apply bind_calm; [apply create_calm|by intros []]|by intros []]).
Qed.

Lemma find_result cached key d rent b tok d' b' :
  toBase58 TENDERIZED_SOL_MINT_ID ≠ toBase58 WRAPPED_SOL_MINT →
  findOrCreateAccountByMint cached key key d rent TENDERIZED_SOL_MINT_ID None b = (Ok (tok, d'), b') →
  ∃ setup ss, target_of key rent cached tok setup ss ∧
    d' = {| instructions := instructions d ++ setup; cleanupInstructions := cleanupInstructions d;
            draft_signers := draft_signers d ++ ss |}.
Proof.
  intros Hne. unfold findOrCreateAccountByMint. cbv zeta.
  rewrite (proj2 (String.eqb_neq _ _) Hne). destruct (mjoin _) as [a|] eqn:Hfind; intros Hr.
  - exists [], []. rewrite !app_nil_r. destruct (List.find _ cached) as [o|] eqn:Hf; simpl in Hfind; [|done].
    subst o. apply List.find_some in Hf as [Hin Hp].
    rewrite !andb_true_iff, !String.eqb_eq in Hp. destruct Hp as [[Hm Ho] _].
    injection Hr as <- <- <-. split; [|by destruct d]. left. exists a. by rewrite list_elem_of_In.
  - inv_bind Hr. destruct a as [k1 d1]. injection Hr as <- <- <-.
    unfold createTokenAccount in E. inv_bind E. destruct a as [k2 d2].
    apply create_result in E0 as (a & -> & ->). injection E as <- <- <-.
    eexists [_; _], [a]. split; [right; by exists a|]. unfold push, push_signer. cbn. by rewrite <- app_assoc.
Qed.

(** ** What the actions ask the wallet to sign *)

Ltac calmly :=
  apply bind_offers;
  [first [ apply notify_calm | apply fresh_calm | apply lift_calm | apply approve_calm | apply ensure_calm
         | apply find_calm | apply ask_calm; intros; first [apply kept_info | apply kept_rent] | done ]
  |first [by left | constructor]|].

Lemma connected_offers {A} Q (f : PublicKey → M (Browser W) A) b :
  Q false [] → (∀ k, wallet_publicKey (browser_world b) = Some k → offers_at Q (f k) b) →
  offers_at Q (connected_key ≫= f) b.
Proof.
  intros HQ Hf. unfold offers_at, connected_key, mbind, M_bind.
  destruct (wallet_publicKey (browser_world b)) as [k|]; [by apply Hf|]. exists []. by rewrite app_nil_r.
Qed.

(** A deposit of [amount] from the browser's state [b]: the transaction [u]. *)
Definition deposit_tx (cached : list (option TokenAccount)) (from : TokenAccount) (amount : num)
    (b : Browser W) (u : UnsignedTx) : Prop :=
  ∃ key rent src tok setup1 setup2 cleanup ss1 ss2 ap dep,
    wallet_publicKey (browser_world b) = Some key ∧
    source_of key (num_add amount rent) from src setup1 cleanup ss1 ∧
    target_of key rent cached tok setup2 ss2 ∧
    createApproveInstruction TOKEN_PROGRAM_ID src WITHDRAW_AUTHORITY_PDA key amount = Ok ap ∧
    web_depositInstruction {| web_userSource := src; web_deposit_amount := amount;
                              web_userToken := tok |} = Ok dep ∧
    tx_instructions u = setup1 ++ [ap] ++ setup2 ++ [dep] ++ cleanup ++
                        [createRevokeInstruction TOKEN_PROGRAM_ID src key] ∧
    tx_setSigners u = key :: (publicKey <$> ss1 ++ ss2).

Lemma deposit_shape cached from amount b :
  toBase58 TENDERIZED_SOL_MINT_ID ≠ toBase58 WRAPPED_SOL_MINT →
  offers_at (λ ok l, (ok = false ∧ l = []) ∨ ∃ u, l = [u] ∧ deposit_tx cached from amount b u)
    (web_deposit cached from amount) b.
Proof.
  intros Hne. unfold web_deposit. apply connected_offers; [by left|]. intros key Hkey.
  calmly. intros _ b1 _ H1'. calmly. intros rent b2 _ H2'.
  calmly. intros [src d1] b3 Hsrc%ensure_result H3'.
  calmly. intros [? d2] b4 (ap & Hap & ->)%approve_result H4'.
  calmly. intros [tok d3] b5 (setup & ss & Htok & ->)%find_result H5'; [|done].
  calmly. intros dep b6 Hdep H6'. unfold lift in Hdep.
  apply finish_offers; [done|done|by left|]. intros k hash ok Hk.
  assert (k = key) as -> by congruence. right.
  eexists. split; [done|]. exists key, rent, src, tok, (instructions d1), setup, (cleanupInstructions d1),
    (draft_signers d1), ss, ap, dep.
  split_and!; try done; [by injection Hdep|]. cbn. by rewrite <- !app_assoc.
Qed.

(** A deposit that succeeds asked the wallet to sign one transaction, and no deposit
    asks for more: the transaction sets up the
    account the money comes from, approves exactly the amount for the pool's withdraw
    authority, sets up the token account if the wallet has none, deposits, cleans up,
    and revokes the approval last; it is signed by the wallet and the new accounts.
    For wrapped SOL the cleanup closes the very account whose approval is then
    revoked. *)
Theorem web_deposit_offers cached from amount b :
  toBase58 TENDERIZED_SOL_MINT_ID ≠ toBase58 WRAPPED_SOL_MINT →
  offers_at (λ ok l, (ok = false ∧ l = []) ∨ ∃ u, l = [u] ∧ deposit_tx cached from amount b u)
    (web_deposit cached from amount) b.
Proof. apply deposit_shape. Qed.

(** A withdrawal: the instructions and the signers. *)
Definition withdrawal (key : PublicKey) (from : TokenAccount) (amount : num) (s : Tenderize)
    (u : UnsignedTx) : Prop :=
  ∃ ap wd,
    createApproveInstruction TOKEN_PROGRAM_ID (ta_pubkey from) WITHDRAW_AUTHORITY_PDA key amount = Ok ap ∧
    web_withdrawInstruction {| web_withdraw_userTokenSource := ta_pubkey from;
                               web_withdraw_userSolTarget := key;
                               web_withdraw_amount := amount |} s = Ok wd ∧
    tx_instructions u = [ap; wd; createRevokeInstruction TOKEN_PROGRAM_ID (ta_pubkey from) key] ∧
    tx_setSigners u = [key].

(** A request to be paid later. *)
Definition crediting (key : PublicKey) (from : TokenAccount) (amount : num) (s : Tenderize)
    (u : UnsignedTx) : Prop :=
  ∃ ap cancel cr,
    createApproveInstruction TOKEN_PROGRAM_ID (ta_pubkey from) WITHDRAW_AUTHORITY_PDA key amount = Ok ap ∧
    web_creditInstruction {| web_credit_userTokenSource := ta_pubkey from;
                             web_credit_userSolTarget := key;
                             web_credit_cancelAuthority := publicKey cancel;
                             web_credit_amount := amount |} s = Ok cr ∧
    tx_instructions u = [ap; cr; createRevokeInstruction TOKEN_PROGRAM_ID (ta_pubkey from) key] ∧
    tx_setSigners u = [key].

Lemma withdraw_offers from amount s b :
  offers_at (λ _ l, l = [] ∨ ∃ u key, l = [u] ∧ wallet_publicKey (browser_world b) = Some key ∧
               withdrawal key from amount s u)
    (web_withdraw from amount s) b.
Proof.
  unfold web_withdraw. apply connected_offers; [by left|]. intros key Hkey.
  calmly. intros info b1 _ Hk1. calmly. intros m0 b2 _ Hk2. calmly. intros m1 b3 _ Hk3.
  destruct (match info with Some _ => _ | None => true end); [by apply nothing_offered; [|left]|].
  calmly. intros _ b4 _ H4'. calmly. intros [? d2] b5 (ap & Hap & ->)%approve_result H5'.
  calmly. intros wd b6 Hwd H6'. unfold lift in Hwd.
  apply finish_offers; [done|done|by left|]. intros k hash ok Hk.
  assert (k = key) as -> by congruence. right. eexists _, key. split_and!; [done|done|].
  exists ap, wd. split_and!; try done. by injection Hwd.
Qed.

Lemma credit_offers from amount s b :
  offers_at (λ _ l, l = [] ∨ ∃ u key, l = [u] ∧ wallet_publicKey (browser_world b) = Some key ∧
               crediting key from amount s u)
    (web_credit from amount s) b.
Proof.
  unfold web_credit. apply connected_offers; [by left|]. intros key Hkey.
  calmly. intros _ b1 _ H1'. calmly. intros [? d2] b2 (ap & Hap & ->)%approve_result H2'.
  calmly. intros cancel b3 _ H3'. calmly. intros cr b4 Hcr H4'. unfold lift in Hcr.
  apply finish_offers; [done|done|by left|]. intros k hash ok Hk.
  assert (k = key) as -> by congruence. right. eexists _, key. split_and!; [done|done|].
  exists ap, cancel, cr. split_and!; try done. by injection Hcr.
Qed.

(** A [catch] whose handler never throws always ends well. *)
Lemma caught_ok {A} (m : M (Browser W) A) h b :
  (∀ e b, is_ok (fst (h e b)) = true) → is_ok (fst (catch m h b)) = true.
Proof. intros Hh. unfold catch. by destruct (m b) as [[a|e] b']. Qed.

Lemma swallow_offers ixs ss aw (note : string → M (Browser W) unit) b :
  (∀ tx, silent (note tx)) →
  offers_at (λ ok l, l = [] ∨ ok = true) (catch (tx ← sendTransaction ixs ss aw; note tx) (λ _, mret tt)) b.
Proof.
  intros Hn. destruct (finish_offers (λ _ _, True) ixs ss aw note (λ _, mret tt) b) as (l & Hl & _); [done..|].
  exists l. split; [done|]. right. by apply caught_ok.
Qed.

(** Once the wallet was asked, a withdrawal and a credit end without an error. *)
Lemma withdraw_swallows from amount s b :
  offers_at (λ ok l, l = [] ∨ ok = true) (web_withdraw from amount s) b.
Proof.
  unfold web_withdraw. apply connected_offers; [by left|]. intros key Hkey.
  calmly. intros info b1 _ Hk1. calmly. intros m0 b2 _ Hk2. calmly. intros m1 b3 _ Hk3. cbv zeta.
  destruct (match info with Some _ => _ | None => true end); [by apply nothing_offered; [|left]|].
  calmly. intros _ b4 _ H4'. calmly. intros [? d2] b5 _ H5'. calmly. intros wd b6 _ H6'. by apply swallow_offers.
Qed.

Lemma credit_swallows from amount s b :
  offers_at (λ ok l, l = [] ∨ ok = true) (web_credit from amount s) b.
Proof.
  unfold web_credit. apply connected_offers; [by left|]. intros key Hkey.
  calmly. intros _ b1 _ H1'. calmly. intros [? d2] b2 _ H2'. calmly. intros cancel b3 _ H3'.
  calmly. intros cr b4 _ H4'. by apply swallow_offers.
Qed.

(** A withdrawal asks the wallet to sign at most one transaction, which approves
    exactly the amount, withdraws it and revokes the approval, and it does so only
    when the reserve was seen to hold the amount beside the rent of an empty account
    and of a token account. *)
Theorem web_withdraw_covered `{!LamportsExact} `{!RentExact} `{!SplTokenLaws} from a s b :
  0 <= a < 2 ^ 51 →
  offers_at (λ _ l, l = [] ∨
    ∃ u key info w1 w2 w3 reserve rent0 rent1, l = [u] ∧
      wallet_publicKey (browser_world b) = Some key ∧ withdrawal key from (num_of_Z a) s u ∧
      rpc_getAccountInfo RESERVE_ADDRESS_PDA None (browser_world b) = (Ok (Some info), w1) ∧
      lamports info = num_of_Z reserve ∧
      rpc_getMinimumBalanceForRentExemption 0 w1 = (Ok (num_of_Z rent0), w2) ∧
      rpc_getMinimumBalanceForRentExemption AccountLayout_span w2 = (Ok (num_of_Z rent1), w3) ∧
      rent0 + rent1 + a <= reserve)
    (web_withdraw from (num_of_Z a) s) b.
Proof.
  intros Ha. unfold web_withdraw. apply connected_offers; [by left|]. intros key Hkey.
  calmly. intros info b1 Hb1 Hk1. calmly. intros m0 b2 Hb2 Hk2. calmly. intros m1 b3 Hb3 Hk3.
  apply ask_inv in Hb1 as [w1 (Hi & Hw1)], Hb2 as [w2 (Hm0 & Hw2)], Hb3 as [w3 (Hm1 & Hw3)].
  subst. cbn [browser_world] in *. destruct info as [info|]; [|by apply nothing_offered; [|left]].
  destruct (lamports_exact _ _ _ _ _ Hi) as (l & Hl & Hlr).
  destruct (rent_exact 0 _ _ _ ltac:(lia) Hm0) as (z0 & -> & Hz0).
  destruct (rent_exact AccountLayout_span _ _ _ ltac:(rewrite account_span; lia) Hm1) as (z1 & -> & Hz1).
  rewrite Hl, !num_add_exact, num_ltb_exact by (unfold safe; lia).
  destruct (Z.ltb_spec l (z0 + z1 + a)) as [Hlt|Hge]; [by apply nothing_offered; [|left]|].
  calmly. intros _ b4 _ H4'.
  calmly. intros [? d2] b5 (ap & Hap & ->)%approve_result H5'.
  calmly. intros wd b6 Hwd H6'. unfold lift in Hwd.
  apply finish_offers; [done|done|by left|]. intros k hash ok Hk.
  cbn [browser_world] in *. assert (k = key) as -> by congruence. right. eexists _, key, info, w1, w2, w3, l, z0, z1.
  split_and!; try done. exists ap, wd. split_and!; try done. by injection Hwd.
Qed.

(** ** Signatures *)

Inductive Action :=
  | ADeposit (cached : list (option TokenAccount)) (from : TokenAccount) (amount : num)
  | AWithdraw (from : TokenAccount) (amount : num) (s : Tenderize)
  | ACredit (from : TokenAccount) (amount : num) (s : Tenderize).

Definition run_action (a : Action) : M (Browser W) unit :=
  match a with
  | ADeposit cached from amount => web_deposit cached from amount
  | AWithdraw from amount s => web_withdraw from amount s
  | ACredit from amount s => web_credit from amount s
  end.

(** Every signer an instruction names is among the keys the transaction is signed with. *)
Definition ix_signed (ks : list PublicKey) (ix : TransactionInstruction) : Prop :=
  Forall (λ m, isSigner m = true → pubkey m ∈ ks) (ix_keys ix).
Definition tx_signed (u : UnsignedTx) : Prop := Forall (ix_signed (tx_setSigners u)) (tx_instructions u).

Context `{!SplTokenLaws} `{!SystemProgramLaws}.

Lemma owner_signed k ks ix :
  k ∈ ks → Forall (λ m, isSigner m = true → pubkey m = k) (ix_keys ix) → ix_signed ks ix.
Proof. intros Hk Hf. eapply Forall_impl; [exact Hf|]. intros m Hm Hsig. by rewrite Hm. Qed.

Lemma unsigned_signed ks ix : Forall (λ m, isSigner m = false) (ix_keys ix) → ix_signed ks ix.
Proof. intros Hf. eapply Forall_impl; [exact Hf|]. intros m Hm Hsig. congruence. Qed.

Lemma creates_signed key amount a ks : key ∈ ks → publicKey a ∈ ks → ix_signed ks (creates key amount a).
Proof. intros Hk Ha. unfold ix_signed, creates. rewrite createAccount_keys. by repeat constructor. Qed.

Lemma source_signed key amount from src setup cleanup ss ks :
  source_of key amount from src setup cleanup ss → key ∈ ks → (publicKey <$> ss) ⊆ ks →
  Forall (ix_signed ks) setup ∧ Forall (ix_signed ks) cleanup.
Proof.
  unfold source_of. destruct (ta_isNative from).
  - intros (a & -> & -> & -> & ->) Hk Hs. repeat constructor.
    + apply creates_signed; [done|set_solver].
    + apply unsigned_signed, init_signers.
    + eapply owner_signed, close_signers. done.
  - intros (_ & _ & -> & ->) _ _. by split.
Qed.

Lemma target_signed key rent cached tok setup ss ks :
  target_of key rent cached tok setup ss → key ∈ ks → (publicKey <$> ss) ⊆ ks → Forall (ix_signed ks) setup.
Proof.
  intros [(a & _ & _ & -> & _)|(a & -> & -> & ->)] Hk Hs; [done|]. repeat constructor.
  - apply creates_signed; [done|set_solver].
  - apply unsigned_signed, init_signers.
Qed.

(** The pool's own instructions need no signature. *)
Lemma pool_unsigned ix :
  (∃ p, web_depositInstruction p = Ok ix) ∨ (∃ p s, web_withdrawInstruction p s = Ok ix) ∨
  (∃ p s, web_creditInstruction p s = Ok ix) → ∀ ks, ix_signed ks ix.
Proof.
  intros Hix ks. apply unsigned_signed.
  destruct Hix as [(p & Hp)|[(p & s & Hp)|(p & s & Hp)]]; apply result_bind_Ok in Hp as (data & _ & Hp);
    injection Hp as <-; by repeat constructor.
Qed.

Lemma approved_signed account del key amount ap ix ks :
  createApproveInstruction TOKEN_PROGRAM_ID account del key amount = Ok ap → key ∈ ks →
  ix_signed ks ix → Forall (ix_signed ks) [ap; ix; createRevokeInstruction TOKEN_PROGRAM_ID account key].
Proof.
  intros Hap Hk Hix. repeat constructor; [|done|].
  - eapply owner_signed, approve_signers; done.
  - eapply owner_signed, revoke_signers. done.
Qed.

(** Every transaction an action asks the wallet to sign names, as its signers, the
    wallet and every key pair the transaction needs: no signature its instructions
    require is missing. *)
Theorem web_actions_signed act b :
  toBase58 TENDERIZED_SOL_MINT_ID ≠ toBase58 WRAPPED_SOL_MINT →
  offers_at (λ _, Forall tx_signed) (run_action act) b.
Proof.
  intros Hne. destruct act as [cached from amount|from amount s|from amount s]; cbn [run_action].
  - destruct (deposit_shape cached from amount b Hne) as (l & Hl & Hs). exists l. split; [done|].
    destruct Hs as [[_ ->]|(u & -> & key & rent & src & tok & s1 & s2 & cl & ss1 & ss2 & ap & dep & _ & Hsrc & Htok & Hap & Hdep & Hi & Hk)];
      [done|]. constructor; [|done]. unfold tx_signed. rewrite Hi, Hk.
    destruct (source_signed _ _ _ _ _ _ _ (key :: (publicKey <$> ss1 ++ ss2)) Hsrc) as [H1' H2']; [set_solver..|].
    pose proof (target_signed _ _ _ _ _ _ (key :: (publicKey <$> ss1 ++ ss2)) Htok) as H3'.
    destruct (proj1 (Forall_cons _ _ _) (approved_signed _ _ _ _ _ dep (key :: (publicKey <$> ss1 ++ ss2)) Hap
      ltac:(set_solver) ltac:(apply pool_unsigned; eauto))) as [Ha [Hd Hrv]%Forall_cons].
    rewrite !Forall_app, !Forall_singleton. split_and!; try done; [by apply H3'; set_solver|].
    by apply Forall_cons in Hrv as [Hrv _].
  - unfold web_withdraw. apply connected_offers; [constructor|]. intros key Hkey.
    calmly. intros info b1 _ Hk1. calmly. intros m0 b2 _ Hk2. calmly. intros m1 b3 _ Hk3. cbv zeta.
    destruct (match info with Some _ => _ | None => _ end); [by apply nothing_offered|].
    calmly. intros _ b4 _ H4'. calmly. intros [? d2] b5 (ap & Hap & ->)%approve_result H5'.
    calmly. intros wd b6 Hwd H6'. injection Hwd as Hwd _.
    apply finish_offers; [done|done|constructor|]. intros k hash ok Hk.
    assert (k = key) as -> by congruence. constructor; [|done].
    eapply approved_signed; [done|set_solver|]. apply pool_unsigned; eauto.
  - unfold web_credit. apply connected_offers; [constructor|]. intros key Hkey.
    calmly. intros _ b4 _ H4'. calmly. intros [? d2] b5 (ap & Hap & ->)%approve_result H5'.
    calmly. intros cancel b6 _ H6'. calmly. intros cr b7 Hcr H7'. injection Hcr as Hcr _.
    apply finish_offers; [done|done|constructor|]. intros k hash ok Hk.
    assert (k = key) as -> by congruence. constructor; [|done].
    eapply approved_signed; [done|set_solver|]. apply pool_unsigned; eauto.
Qed.

End ActionFacts.

(** ** Concrete inputs *)

Definition token_ix (keys : list AccountMeta) (tag : Z) : TransactionInstruction :=
  {| ix_keys := keys; ix_programId := TOKEN_PROGRAM_ID; ix_data := [byte.of_Z tag] |}.

#[global] Instance SampleSplToken : SplToken := {|
  createApproveInstruction := λ _ a d o _, Ok (token_ix [writable a; readonly d; signer o] 4);
  createRevokeInstruction := λ _ a o, token_ix [writable a; signer o] 5;
  createInitAccountInstruction := λ _ m a o,
    token_ix [writable a; readonly m; readonly o; readonly SYSVAR_RENT_PUBKEY] 1;
  createCloseAccountInstruction := λ _ a d o, token_ix [writable a; writable d; signer o] 9;
  AccountLayout_span := 165;
  MintLayout_span := 82;
|}.

#[global] Instance SampleSplTokenLaws : SplTokenLaws.
Proof.
  split; [done|..]; intros; simplify_eq/=; repeat constructor; done.
Qed.

(** A wallet that signs everything. *)
#[global] Instance SampleWebApi : WebApi SampleCluster := {|
  WebTx := UnsignedTx;
  web_tx := λ u, u;
  partialSign := λ _ u, Ok u;
  serialize := λ u, Ok (concat (ix_data <$> tx_instructions u));
  wallet_publicKey := λ _, Some (sample_key 50);
  wallet_signTransaction := λ u w, (Ok u, w);
  rpc_getRecentBlockhash := λ _ w, (Ok "hash"%string, w);
  rpc_sendRawTransaction := λ _ w, (Ok "txid"%string, w);
  rpc_confirmTransaction := λ _ _ w, (Ok None, w);
  rpc_getLogs := λ _ w, (Ok None, w);
  generate_key := λ w, (sample_account 51, w);
|}.

#[global] Instance SampleWalletKept : WalletKept.
Proof. by split. Qed.

#[global] Instance SampleRentExact : RentExact.
Proof.
  split. intros n w r w' Hn Hr. cbn in Hr. injection Hr as <- _. eexists. split; [done|]. lia.
Qed.

Definition sample_browser : Browser SampleCluster :=
  Build_Browser
    {| sc_accounts := [(RESERVE_ADDRESS_PDA, owned_account [] 10000000000)];
       sc_activations := []; sc_votes := []; sc_epoch := num_of_Z 7 |} [] [] [].

Definition sample_token_account (native : bool) : TokenAccount :=
  {| ta_pubkey := sample_vote 40; ta_mint := TENDERIZED_SOL_MINT_ID; ta_owner := sample_vote 41;
     ta_isNative := native |}.

Definition sample_tenderize : Tenderize :=
  {| version := 1; state_owner := sample_vote 1; validatorStakeList := sample_vote 2;
     creditList := sample_vote 3; poolMint := TENDERIZED_SOL_MINT_ID; ownerFeeAccount := OWNER_FEE_ACCOUNT;
     state_creditReserve := sample_vote 4; tokenProgram := TOKEN_PROGRAM_ID; stakeTotal := 1;
     poolTotal := 1; lastEpochUpdate := 7; state_feeDenominator := 1000; state_feeNumerator := 1 |}.

(** The two mints of the sample differ. *)
Lemma sample_mints_differ : toBase58 TENDERIZED_SOL_MINT_ID ≠ toBase58 WRAPPED_SOL_MINT.
Proof. apply String.eqb_neq. reflexivity. Qed.

(** A deposit of wrapped SOL, by a wallet without a token account: it succeeds, and the
    account is closed (instruction 9) before the approval of it is revoked (5). *)
Lemma web_deposit_offers_witness :
  offers_at (λ ok l, (ok = false ∧ l = []) ∨
      ∃ u, l = [u] ∧ deposit_tx [] (sample_token_account true) (num_of_Z 5) sample_browser u)
    (web_deposit [] (sample_token_account true) (num_of_Z 5)) sample_browser ∧
  is_ok (fst (web_deposit [] (sample_token_account true) (num_of_Z 5) sample_browser)) = true.
Proof.
  split; [|reflexivity].
  apply (web_deposit_offers [] (sample_token_account true) (num_of_Z 5) sample_browser).
  apply sample_mints_differ.
Defined.

Lemma web_withdraw_covered_witness :
  (length (offered (snd (web_withdraw (sample_token_account false) (num_of_Z 5) sample_tenderize sample_browser)))
     = 1%nat) ∧
  offers_at (λ _ l, l = [] ∨
    ∃ u key info w1 w2 w3 reserve rent0 rent1, l = [u] ∧
      wallet_publicKey (browser_world sample_browser) = Some key ∧
      withdrawal key (sample_token_account false) (num_of_Z 5) sample_tenderize u ∧
      rpc_getAccountInfo RESERVE_ADDRESS_PDA None (browser_world sample_browser) = (Ok (Some info), w1) ∧
      lamports info = num_of_Z reserve ∧
      rpc_getMinimumBalanceForRentExemption 0 w1 = (Ok (num_of_Z rent0), w2) ∧
      rpc_getMinimumBalanceForRentExemption AccountLayout_span w2 = (Ok (num_of_Z rent1), w3) ∧
      rent0 + rent1 + 5 <= reserve)
    (web_withdraw (sample_token_account false) (num_of_Z 5) sample_tenderize) sample_browser.
Proof.
  split; [reflexivity|].
  apply (web_withdraw_covered (sample_token_account false) 5 sample_tenderize sample_browser). lia.
Defined.

Lemma web_actions_signed_witness :
  offers_at (λ _, Forall tx_signed) (run_action (ADeposit [] (sample_token_account true) (num_of_Z 5))) sample_browser.
Proof.
  apply (web_actions_signed (ADeposit [] (sample_token_account true) (num_of_Z 5)) sample_browser).
  apply sample_mints_differ.
Defined.
