(* ===== verification/Cache.v ===== *)
(** * The web client's account cache (src/contexts/accounts.tsx, src/utils/eventEmitter.ts)

    [cache] keeps parsed accounts by address, remembers the queries under way so that
    an address is asked for once, and the parser of every address.  Queries are
    answered later, in any order, while subscriptions add accounts: the cache is a
    state machine whose steps are the calls and the replies. *)

From Stdlib Require Import ZArith Lia.
From Stdlib Require Import String.
From stdpp Require Import base list strings sets gmap.
From coqutil Require Import Byte.
From S2P Require Import Prelude JsNumber Buffers Web3 Sample Program Instructions SamplePool.

Open Scope Z_scope.

(** Parsers are functions, compared by reference; what one returns for an account, or
    the error it throws. *)
Class AccountParsers `{Keys} := {
  AccountParser : Type;
  AccountParser_eq_dec :: EqDecision AccountParser;
  ParsedAccount : Type;
  deserialize : AccountParser → PublicKey → AccountInfo → result (option ParsedAccount);
  (** The parsers a parser registers for other accounts when it has parsed one. *)
  parser_registers : AccountParser → ParsedAccount → list (PublicKey * AccountParser);
}.

(** A JavaScript [Map] that is iterated: entries in the order of their first insertion. *)
Section OrderedMap.
Context {V : Type}.

Fixpoint map_set (k : string) (v : V) (l : list (string * V)) : list (string * V) :=
  match l with
  | [] => [(k, v)]
  | (k', v') :: l' => if decide (k = k') then (k', v) :: l' else (k', v') :: map_set k v l'
  end.

Fixpoint map_get (k : string) (l : list (string * V)) : option V :=
  match l with
  | [] => None
  | (k', v') :: l' => if decide (k = k') then Some v' else map_get k l'
  end.

End OrderedMap.

Section Cache.
Context `{AccountParsers}.

(** [string | PublicKey]. *)
Inductive Address :=
  | IsString (s : string)
  | IsPublicKey (k : PublicKey).

Inductive CallState :=
  | Waiting
  | Fulfilled (r : option ParsedAccount)
  | Failed (e : js_error).

(** A promise of [query]: for which key and parser it was made, and what became of it. *)
Record Call := {
  call_id : PublicKey;
  call_parser : option AccountParser;
  call_state : CallState;
}.

Inductive Event :=
  | CacheUpdated (id : string) (isNew : bool) (parser : AccountParser)
  | CacheDeleted (id : string)
  | CacheCleared.

(** The module's maps, the promises made so far (a promise is its number) and the
    events raised. *)
Record CacheState := {
  genericCache : gmap string ParsedAccount;
  pendingCalls : gmap string nat;
  keyToAccountParser : list (string * AccountParser);
  calls : list Call;
  events : list Event;
}.

Definition empty_cache : CacheState :=
  {| genericCache := ∅; pendingCalls := ∅; keyToAccountParser := []; calls := []; events := [] |}.

Definition set_generic g (s : CacheState) : CacheState :=
  {| genericCache := g; pendingCalls := pendingCalls s; keyToAccountParser := keyToAccountParser s;
     calls := calls s; events := events s |}.
Definition set_pending p (s : CacheState) : CacheState :=
  {| genericCache := genericCache s; pendingCalls := p; keyToAccountParser := keyToAccountParser s;
     calls := calls s; events := events s |}.
Definition set_parsers p (s : CacheState) : CacheState :=
  {| genericCache := genericCache s; pendingCalls := pendingCalls s; keyToAccountParser := p;
     calls := calls s; events := events s |}.
Definition set_calls l (s : CacheState) : CacheState :=
  {| genericCache := genericCache s; pendingCalls := pendingCalls s;
     keyToAccountParser := keyToAccountParser s; calls := l; events := events s |}.
Definition raise e (s : CacheState) : CacheState :=
  {| genericCache := genericCache s; pendingCalls := pendingCalls s;
     keyToAccountParser := keyToAccountParser s; calls := calls s; events := events s ++ [e] |}.

Definition address_of (id : Address) : string :=
  match id with IsString s => s | IsPublicKey k => toBase58 k end.

(** ** Operations *)

Definition registerParser (pubkey : Address) (parser : AccountParser) (s : CacheState) : CacheState :=
  if match pubkey with IsString EmptyString => true | _ => false end then s
  else set_parsers (map_set (address_of pubkey) parser (keyToAccountParser s)) s.

(** [registerParser] for every entry of a list. *)
Definition registerAll (l : list (PublicKey * AccountParser)) (s : CacheState) : CacheState :=
  foldl (λ s e, registerParser (IsPublicKey e.1) e.2 s) s l.

Definition cache_get (pubKey : Address) (s : CacheState) : option ParsedAccount :=
  genericCache s !! address_of pubKey.

Definition byParser (parser : AccountParser) (s : CacheState) : list string :=
  fst <$> filter (λ e, e.2 = parser) (keyToAccountParser s).

(** [parser ? parser : keyToAccountParser.get(address)]. *)
Definition parser_for (address : string) (parser : option AccountParser) (s : CacheState)
  : option AccountParser :=
  match parser with Some p => Some p | None => map_get address (keyToAccountParser s) end.

(** What was changed before the parser throws stays changed. *)
Definition cache_add (id : Address) (obj : AccountInfo) (parser : option AccountParser)
  : M CacheState (option ParsedAccount) := λ s,
  if (length (account_data obj) =? 0)%nat then (Ok None, s)
  else
    let address := address_of id in
    match parser_for address parser s with
    | None => (Err (JsError "Deserializer needs to be registered or passed as a parameter" []), s)
    | Some p =>
        let s := registerParser id p s in
        let s := set_pending (delete address (pendingCalls s)) s in
        match (k ← PublicKey_of_string address; deserialize p k obj) with
        | Err e => (Err e, s)
        | Ok None => (Ok None, s)
        | Ok (Some account) =>
            let s := registerAll (parser_registers p account) s in
            let isNew := negb (bool_decide (is_Some (genericCache s !! address))) in
            let s := set_generic (<[address := account]> (genericCache s)) s in
            (Ok (Some account), raise (CacheUpdated address isNew p) s)
        end
    end.

Definition cache_delete (pubKey : Address) (s : CacheState) : bool * CacheState :=
  let key := address_of pubKey in
  match genericCache s !! key with
  | Some _ => (true, raise (CacheDeleted key) (set_generic (delete key (genericCache s)) s))
  | None => (false, s)
  end.

Definition cache_clear (s : CacheState) : CacheState := raise CacheCleared (set_generic ∅ s).

(** What [query] gives its caller: an account, or the promise of one. *)
Inductive QueryAnswer :=
  | Cached (a : ParsedAccount)
  | Promised (n : nat).

(** A new promise is a new request to the cluster. *)
Definition cache_query (pubKey : Address) (parser : option AccountParser)
  : M CacheState QueryAnswer := λ s,
  match (match pubKey with IsString str => PublicKey_of_string str | IsPublicKey k => Ok k end) with
  | Err e => (Err e, s)
  | Ok id =>
      let address := toBase58 id in
      match genericCache s !! address with
      | Some account => (Ok (Cached account), s)
      | None =>
          match pendingCalls s !! address with
          | Some n => (Ok (Promised n), s)
          | None =>
              let n := length (calls s) in
              let s := set_calls (calls s ++ [{| call_id := id; call_parser := parser;
                                                 call_state := Waiting |}]) s in
              (Ok (Promised n), set_pending (<[address := n]> (pendingCalls s)) s)
          end
      end
  end.

Definition settle (n : nat) (c : Call) (r : CallState) (s : CacheState) : CacheState :=
  set_calls (<[n := {| call_id := call_id c; call_parser := call_parser c; call_state := r |}]> (calls s)) s.

(** The cluster's reply to the request of promise [n]: the function given to [then]. *)
Definition reply_to (n : nat) (reply : result (option AccountInfo)) (s : CacheState) : CacheState :=
  match calls s !! n with
  | Some c =>
      match call_state c with
      | Waiting =>
          match reply with
          | Err e => settle n c (Failed e) s
          | Ok None => settle n c (Failed (JsError "Account not found" [])) s
          | Ok (Some data) =>
              match cache_add (IsPublicKey (call_id c)) data (call_parser c) s with
              | (Ok r, s') => settle n c (Fulfilled r) s'
              | (Err e, s') => settle n c (Failed e) s'
              end
          end
      | _ => s
      end
  | None => s
  end.

(** ** The cache as a state machine *)

(** Promise [n] asks for the address [a] and has no reply yet. *)
Definition outstanding (s : CacheState) (n : nat) (a : string) : Prop :=
  ∃ c, calls s !! n = Some c ∧ call_state c = Waiting ∧ toBase58 (call_id c) = a.

(** A step: a call of the cache or a reply.  Subscriptions add accounts nobody is
    waiting for. *)
Inductive cache_step : CacheState → CacheState → Prop :=
  | step_query id p s : cache_step s (snd (cache_query id p s))
  | step_reply n r s : cache_step s (reply_to n r s)
  | step_add id obj p s :
      (∀ n, ¬ outstanding s n (address_of id)) → cache_step s (snd (cache_add id obj p s))
  | step_delete id s : cache_step s (snd (cache_delete id s))
  | step_clear s : cache_step s (cache_clear s)
  | step_register id p s : cache_step s (registerParser id p s).

Inductive cache_reachable : CacheState → Prop :=
  | cache_init : cache_reachable empty_cache
  | cache_next s s' : cache_reachable s → cache_step s s' → cache_reachable s'.

End Cache.

(** ** Properties *)

(** A key written as a string is read back, only that string is read as the key, and
    no key is written as the empty string. *)
Class Base58Laws `{Keys} : Prop := {
  base58_round : ∀ k, PublicKey_of_string (toBase58 k) = Ok k;
  base58_canonical : ∀ s k, PublicKey_of_string s = Ok k → toBase58 k = s;
  base58_nonempty : ∀ k, toBase58 k ≠ EmptyString;
}.

Lemma map_get_set {V} k (v : V) l : map_get k (map_set k v l) = Some v.
Proof.
  induction l as [|[k' v'] l IH]; cbn; [by rewrite decide_True by done|].
  destruct (decide (k = k')) as [<-|Hne]; cbn; [by rewrite decide_True by done|].
  by rewrite decide_False by done.
Qed.

Lemma map_get_set_ne {V} k j (v : V) l : j ≠ k → map_get j (map_set k v l) = map_get j l.
Proof.
  intros Hne. induction l as [|[k' v'] l IH]; cbn; [by rewrite decide_False by done|].
  destruct (decide (k = k')) as [<-|Hk]; cbn; [by rewrite !decide_False by done|].
  destruct (decide (j = k')); [done|exact IH].
Qed.

Section CacheFacts.
Context `{AccountParsers} `{!Base58Laws}.

(** Registering parsers changes the parsers only, and only those of the accounts named. *)
Lemma registerAll_effect l s :
  calls (registerAll l s) = calls s ∧ pendingCalls (registerAll l s) = pendingCalls s ∧
  genericCache (registerAll l s) = genericCache s ∧ events (registerAll l s) = events s ∧
  (∀ a, Forall (λ e, toBase58 e.1 ≠ a) l →
     map_get a (keyToAccountParser (registerAll l s)) = map_get a (keyToAccountParser s)).
Proof.
  revert s; induction l as [|[k p] l IH]; intros s; [done|]. unfold registerAll. cbn [foldl fst snd].
  destruct (IH (registerParser (IsPublicKey k) p s)) as (H1' & H2' & H3' & H4' & H5'). unfold registerAll in *.
  rewrite H1', H2', H3', H4'. split_and!; try done. intros a [Ha Hl]%Forall_cons. rewrite H5' by done.
  cbn. apply map_get_set_ne. cbn in Ha. congruence.
Qed.

(** What [add] may change: nothing at other addresses, and no promise. *)
Lemma cache_add_effect id obj p s :
  let s' := snd (cache_add id obj p s) in
  calls s' = calls s ∧
  (pendingCalls s' = pendingCalls s ∨ pendingCalls s' = delete (address_of id) (pendingCalls s)) ∧
  (∀ a, a ≠ address_of id → genericCache s' !! a = genericCache s !! a).
Proof.
  unfold cache_add. cbv zeta.
  destruct (length (account_data obj) =? 0)%nat; [split; [done|split; [by left|done]]|].
  destruct (parser_for (address_of id) p s) as [q|]; [|split; [done|split; [by left|done]]].
  assert (Hreg : calls (registerParser id q s) = calls s ∧
    pendingCalls (registerParser id q s) = pendingCalls s ∧
    genericCache (registerParser id q s) = genericCache s).
  { unfold registerParser. by destruct (match id with IsString EmptyString => true | _ => false end). }
  destruct Hreg as (H1' & H2' & H3').
  destruct (PublicKey_of_string (address_of id) ≫= λ k, deserialize q k obj) as [[r|]|e]; cbn [snd];
    try (split; [done|split; [right; cbn; by rewrite H2'|]]; intros a Ha; cbn; by rewrite H3').
  pose proof (registerAll_effect (parser_registers q r)
    (set_pending (delete (address_of id) (pendingCalls (registerParser id q s))) (registerParser id q s)))
    as (R1 & R2 & R3 & _ & _). cbn [calls pendingCalls genericCache set_pending] in R1, R2, R3.
  split; [cbn; by rewrite R1|split; [right; cbn; by rewrite R2, H2'|]]. intros a Ha. cbn. rewrite R3, H3'.
  apply lookup_insert_ne. congruence.
Qed.

(** Every promise that waits is the one recorded for its address, and a recorded promise
    is one for its address. *)
Definition cache_inv (s : CacheState) : Prop :=
  (∀ n a, outstanding s n a → pendingCalls s !! a = Some n) ∧
  (∀ a n, pendingCalls s !! a = Some n → ∃ c, calls s !! n = Some c ∧ toBase58 (call_id c) = a).

Lemma inv_same s s' :
  calls s' = calls s → pendingCalls s' = pendingCalls s → cache_inv s → cache_inv s'.
Proof. unfold cache_inv, outstanding. by intros -> ->. Qed.

Lemma query_inv id p s : cache_inv s → cache_inv (snd (cache_query id p s)).
Proof.
  intros [HA HB]. unfold cache_query.
  destruct (match id with IsString str => _ | IsPublicKey k => _ end) as [k|e]; [|done]. cbv zeta.
  destruct (genericCache s !! toBase58 k) as [acc|]; [done|].
  destruct (pendingCalls s !! toBase58 k) as [n|] eqn:Hp; [done|]. cbn [snd].
  split; cbn [calls pendingCalls set_calls set_pending].
  - intros n a (c & Hc & Hw & Ha). cbn [calls set_pending set_calls] in Hc.
    destruct (decide (n = length (calls s))) as [->|Hn].
    + rewrite lookup_app_r, Nat.sub_diag in Hc by lia. injection Hc as <-. cbn in Ha. subst a.
      apply lookup_insert_eq.
    + rewrite lookup_app_l in Hc by (apply lookup_lt_Some in Hc; rewrite length_app in Hc; simpl in Hc; lia).
      assert (Hout : pendingCalls s !! a = Some n) by (apply HA; by exists c).
      rewrite lookup_insert_ne; [done|]. congruence.
  - intros a n Hn. destruct (decide (a = toBase58 k)) as [->|Hne].
    + rewrite lookup_insert_eq in Hn. injection Hn as <-. eexists. split.
      { rewrite lookup_app_r, Nat.sub_diag by lia. done. }
      done.
    + rewrite lookup_insert_ne in Hn by done. destruct (HB a n Hn) as (c & Hc & Hcd). exists c.
      split; [by apply lookup_app_l_Some|done].
Qed.

(** Settling promise [n], whose address may lose its record. *)
Lemma settle_inv n c r s s' :
  cache_inv s → calls s !! n = Some c → call_state c = Waiting → r ≠ Waiting →
  calls s' = calls s →
  (pendingCalls s' = pendingCalls s ∨ pendingCalls s' = delete (toBase58 (call_id c)) (pendingCalls s)) →
  cache_inv (settle n c r s').
Proof.
  intros [HA HB] Hc Hw Hr Hcalls Hpend. unfold settle.
  assert (Hn : pendingCalls s !! toBase58 (call_id c) = Some n) by (apply HA; by exists c).
  split; unfold outstanding; cbn [calls pendingCalls set_calls]; rewrite Hcalls.
  - intros m a (d & Hd & Hdw & Hda). destruct (decide (m = n)) as [->|Hm].
    { rewrite list_lookup_insert_eq in Hd by (by eapply lookup_lt_Some). injection Hd as <-. done. }
    rewrite list_lookup_insert_ne in Hd by done.
    assert (Hout : pendingCalls s !! a = Some m) by (apply HA; by exists d).
    destruct Hpend as [-> | ->]; [done|]. rewrite lookup_delete_ne; [done|]. congruence.
  - intros a m Hm. assert (Hm' : pendingCalls s !! a = Some m).
    { destruct Hpend as [Hpe | Hpe]; rewrite Hpe in Hm; [done|]. by apply lookup_delete_Some in Hm as [_ Hm]. }
    destruct (HB a m Hm') as (d & Hd & Hda). destruct (decide (m = n)) as [->|Hne].
    + eexists. split; [by apply list_lookup_insert_eq; eapply lookup_lt_Some|]. cbn. congruence.
    + exists d. split; [by rewrite list_lookup_insert_ne|done].
Qed.

Lemma reply_inv n r s : cache_inv s → cache_inv (reply_to n r s).
Proof.
  intros Hinv. unfold reply_to. destruct (calls s !! n) as [c|] eqn:Hc; [|done].
  destruct (call_state c) eqn:Hw; [|done..].
  destruct r as [[data|]|e]; try (eapply settle_inv; eauto; done).
  pose proof (cache_add_effect (IsPublicKey (call_id c)) data (call_parser c) s) as (Hcalls & Hpend & _).
  destruct (cache_add _ _ _ _) as [[r|e] s']; by eapply settle_inv.
Qed.

Lemma add_inv id obj p s :
  cache_inv s → (∀ n, ¬ outstanding s n (address_of id)) → cache_inv (snd (cache_add id obj p s)).
Proof.
  intros [HA HB] Hno. pose proof (cache_add_effect id obj p s) as (Hcalls & Hpend & _).
  split; unfold outstanding in *; rewrite Hcalls.
  - intros n a Hout. pose proof (HA n a Hout) as Hn. destruct Hpend as [-> | ->]; [done|].
    rewrite lookup_delete_ne; [done|]. intros <-. by apply (Hno n).
  - intros a n Hn. apply HB. destruct Hpend as [Hpe | Hpe]; rewrite Hpe in Hn; [done|].
    by apply lookup_delete_Some in Hn as [_ Hn].
Qed.

Lemma cache_reachable_inv s : cache_reachable s → cache_inv s.
Proof.
  induction 1 as [|s s' _ IH Hstep].
  { split; [by intros n a (c & Hc & _)|intros a n Hn; cbn in Hn; by rewrite lookup_empty in Hn]. }
  destruct Hstep as [id p s|n r s|id obj p s Hno|id s|s|id p s].
  - by apply query_inv.
  - by apply reply_inv.
  - by apply add_inv.
  - unfold cache_delete. destruct (genericCache s !! _); [|done]. by eapply inv_same.
  - by eapply inv_same.
  - unfold registerParser. destruct (match id with IsString EmptyString => true | _ => false end); [done|].
    by eapply inv_same.
Qed.

(** The key of an address that is one. *)
Definition key_at (id : Address) : result PublicKey :=
  match id with IsString s => PublicKey_of_string s | IsPublicKey k => Ok k end.


(** What [add] does with an account the parser accepts. *)
Lemma cache_add_accepts k obj p q acc s :
  (0 < length (account_data obj))%nat →
  parser_for (toBase58 k) p s = Some q →
  deserialize q k obj = Ok (Some acc) →
  ∃ s', cache_add (IsPublicKey k) obj p s = (Ok (Some acc), s') ∧
    genericCache s' = <[toBase58 k := acc]> (genericCache s) ∧
    pendingCalls s' = delete (toBase58 k) (pendingCalls s) ∧ calls s' = calls s ∧
    (Forall (λ e, toBase58 e.1 ≠ toBase58 k) (parser_registers q acc) →
     map_get (toBase58 k) (keyToAccountParser s') = Some q) ∧
    events s' = events s ++
      [CacheUpdated (toBase58 k) (negb (bool_decide (is_Some (genericCache s !! toBase58 k)))) q].
Proof.
  intros Hlen Hq Hacc. unfold cache_add. rewrite (proj2 (Nat.eqb_neq _ _)) by lia. cbn [address_of].
  cbv zeta. rewrite Hq, base58_round. cbn [mbind result_bind]. rewrite Hacc.
  set (s0 := set_pending _ _). destruct (registerAll_effect (parser_registers q acc) s0) as (R1 & R2 & R3 & R4 & R5).
  eexists. split; [done|]. cbn. rewrite R1, R2, R3, R4. split_and!; try done.
  intros Hreg. rewrite R5 by done. by apply map_get_set.
Qed.

(** A reply with an account.  For the promise that waits for an address, a reply with
    data its parser accepts fulfils the promise with the parsed account, caches it (every
    later query is answered with it), forgets the promise, registers the parser (unless
    parsing registers another one for the same address) and announces the account, as new
    exactly if the address was not cached. *)
Theorem cache_reply_accepted s n c obj q acc :
  cache_reachable s → calls s !! n = Some c → call_state c = Waiting →
  (0 < length (account_data obj))%nat →
  parser_for (toBase58 (call_id c)) (call_parser c) s = Some q →
  deserialize q (call_id c) obj = Ok (Some acc) →
  Forall (λ e, toBase58 e.1 ≠ toBase58 (call_id c)) (parser_registers q acc) →
  let a := toBase58 (call_id c) in
  let s' := reply_to n (Ok (Some obj)) s in
  (∃ c', calls s' !! n = Some c' ∧ call_state c' = Fulfilled (Some acc)) ∧
  (∀ p, cache_query (IsPublicKey (call_id c)) p s' = (Ok (Cached acc), s')) ∧
  pendingCalls s' !! a = None ∧ (∀ m, ¬ outstanding s' m a) ∧
  map_get a (keyToAccountParser s') = Some q ∧
  events s' = events s ++ [CacheUpdated a (negb (bool_decide (is_Some (genericCache s !! a)))) q].
Proof.
  intros Hreach Hc Hw Hlen Hq Hacc Hreg a s'.
  destruct (cache_add_accepts (call_id c) obj (call_parser c) q acc s Hlen Hq Hacc)
    as (s1 & Hadd & Hgen & Hpend & Hcalls & Hpar & Hev).
  assert (Hs' : s' = settle n c (Fulfilled (Some acc)) s1).
  { unfold s', reply_to. by rewrite Hc, Hw, Hadd. }
  assert (Hinv : cache_inv s').
  { apply cache_reachable_inv. eapply cache_next; [exact Hreach|]. apply step_reply. }
  specialize (Hpar Hreg). rewrite Hs' in *. fold a in Hgen, Hpend, Hpar, Hev. assert (Hnone : pendingCalls (settle n c (Fulfilled (Some acc)) s1) !! a = None).
  { cbn. rewrite Hpend. apply lookup_delete_eq. }
  split_and!; try done.
  - eexists. split; [cbn; rewrite Hcalls; apply list_lookup_insert_eq; by eapply lookup_lt_Some|done].
  - intros p. unfold cache_query. fold a. cbn [genericCache settle set_calls]. by rewrite Hgen, lookup_insert_eq.
  - intros m Hm. pose proof (proj1 Hinv m a Hm). congruence.
Qed.

(** A promise that failed and is still the one recorded for its address. *)
Definition stuck (s : CacheState) (n : nat) (a : string) : Prop :=
  genericCache s !! a = None ∧ pendingCalls s !! a = Some n ∧ ∀ m, ¬ outstanding s m a.

Lemma stuck_same s s' n a :
  genericCache s' !! a = None → calls s' = calls s → pendingCalls s' = pendingCalls s →
  stuck s n a → stuck s' n a.
Proof. unfold stuck, outstanding. by intros Hg -> -> (_ & ? & ?). Qed.

Lemma stuck_query s n a id p :
  stuck s n a → stuck (snd (cache_query id p s)) n a.
Proof.
  intros (Hg & Hp & Ho). unfold cache_query.
  destruct (match id with IsString str => _ | IsPublicKey k => _ end) as [k|e]; [|done]. cbv zeta.
  destruct (genericCache s !! toBase58 k) as [acc|]; [done|].
  destruct (pendingCalls s !! toBase58 k) as [m|] eqn:Hm; [done|]. cbn [snd].
  assert (Hne : toBase58 k ≠ a) by congruence. split_and!; [done|by apply lookup_insert_Some; right|].
  intros m (c & Hc & Hw & Ha). cbn in Hc. apply lookup_app_Some in Hc as [Hc|[_ Hc]]; [apply (Ho m); by exists c|].
  apply list_lookup_singleton_Some in Hc as [_ <-]. done.
Qed.

Lemma stuck_reply s n a m r : stuck s n a → stuck (reply_to m r s) n a.
Proof.
  intros (Hg & Hp & Ho). unfold reply_to. destruct (calls s !! m) as [c|] eqn:Hc; [|done].
  destruct (call_state c) eqn:Hw; [|done..].
  assert (Hne : toBase58 (call_id c) ≠ a) by (intros Ha; apply (Ho m); by exists c).
  assert (Hset : ∀ st s1, st ≠ Waiting → calls s1 = calls s → genericCache s1 !! a = None →
    pendingCalls s1 !! a = Some n → stuck (settle m c st s1) n a).
  { intros st s1 Hst Hcalls Hg1 Hp1. split_and!; [done|done|]. intros k (d & Hd & Hdw & Hda).
    cbn in Hd. rewrite Hcalls in Hd. destruct (decide (k = m)) as [->|Hk].
    - rewrite list_lookup_insert_eq in Hd by (by eapply lookup_lt_Some). injection Hd as <-. done.
    - rewrite list_lookup_insert_ne in Hd by done. apply (Ho k). by exists d. }
  destruct r as [[data|]|e]; try by apply Hset.
  pose proof (cache_add_effect (IsPublicKey (call_id c)) data (call_parser c) s) as (Hcalls & Hpend & Hgen).
  destruct (cache_add _ _ _ _) as [[r|e] s1]; cbn [snd address_of] in *;
    (apply Hset; [done|done|by rewrite Hgen|]); destruct Hpend as [-> | ->]; try done;
    by rewrite lookup_delete_ne.
Qed.

(** A failed request is never repeated.  When the request for an address that is not
    cached fails (an error, no such account, or an account without data), the failed
    promise stays the recorded one: through every further step except an addition of
    that very address, every query for the address is answered with the failed promise
    and no new request is made. *)
Theorem cache_failure_sticks s n c r :
  cache_reachable s → calls s !! n = Some c → call_state c = Waiting →
  genericCache s !! toBase58 (call_id c) = None →
  match r with Ok (Some obj) => length (account_data obj) = 0%nat | _ => True end →
  let a := toBase58 (call_id c) in
  stuck (reply_to n r s) n a ∧
  (∀ s1, stuck s1 n a →
     (∀ p, cache_query (IsPublicKey (call_id c)) p s1 = (Ok (Promised n), s1)) ∧
     (∀ s2, cache_step s1 s2 →
        stuck s2 n a ∨ ∃ id obj p, address_of id = a ∧ s2 = snd (cache_add id obj p s1))).
Proof.
  intros Hreach Hc Hw Hg Hr a. split.
  - assert (Hinv : cache_inv (reply_to n r s)).
    { apply cache_reachable_inv. eapply cache_next; [exact Hreach|]. apply step_reply. }
    apply cache_reachable_inv in Hreach as [HA _]. assert (Hp : pendingCalls s !! a = Some n) by (apply HA; by exists c).
    assert (Hs : ∃ st, st ≠ Waiting ∧ reply_to n r s = settle n c st s).
    { unfold reply_to. rewrite Hc, Hw. destruct r as [[obj|]|e]; [|by eexists (Failed _)..].
      unfold cache_add. rewrite Hr. by eexists (Fulfilled _). }
    destruct Hs as (st & Hst & Hs). rewrite Hs in *. split_and!; [done|done|].
    intros m Hm. assert (m = n) as -> by (pose proof (proj1 Hinv m a Hm) as Hx; cbn in Hx; congruence).
    destruct Hm as (d & Hd & Hdw & _). cbn in Hd.
    rewrite list_lookup_insert_eq in Hd by (by eapply lookup_lt_Some). injection Hd as <-. done.
  - intros s1 Hstuck. split.
    + intros p. destruct Hstuck as (Hg1 & Hp1 & _). unfold cache_query. fold a. by rewrite Hg1, Hp1.
    + intros s2 Hstep. destruct Hstep as [id p s1|m r' s1|id obj p s1 Hno|id s1|s1|id p s1].
      * left. by apply stuck_query.
      * left. by apply stuck_reply.
      * destruct (decide (address_of id = a)) as [Ha|Ha]; [right; by exists id, obj, p|left].
        pose proof (cache_add_effect id obj p s1) as (Hcalls & Hpend & Hgen).
        destruct Hstuck as (Hg1 & Hp1 & Ho). split_and!.
        -- by rewrite Hgen.
        -- destruct Hpend as [-> | ->]; [done|]. by rewrite lookup_delete_ne.
        -- unfold outstanding in *. by rewrite Hcalls.
      * left. unfold cache_delete. destruct (genericCache s1 !! address_of id); [|done].
        apply (stuck_same s1); [|done|done|done]. cbn. destruct Hstuck as (Hg1 & _).
        by rewrite lookup_delete_None; right.
      * left. apply (stuck_same s1); [|done|done|done]. apply lookup_empty.
      * left. unfold registerParser.
        destruct (match id with IsString EmptyString => true | _ => false end); [done|].
        apply (stuck_same s1); [|done|done|done]. by destruct Hstuck.
Qed.

End CacheFacts.

(** ** Asking for many accounts ([getMultipleAccounts], and [chunks] of src/utils/utils.ts) *)

(** [new Array(n)] takes lengths below [2^32]. *)
Definition chunks {A} (array : list A) (size : nat) : result (list (list A)) :=
  n ← BigInt (Math_ceil (num_div (num_of_Z (Z.of_nat (length array))) (num_of_Z (Z.of_nat size))));
  if in_range 0 (2 ^ 32) n
  then mret ((λ index, take size (drop (index * size) array)) <$> seq 0 (Z.to_nat n))
  else Err RangeError.

(** The answer of the RPC call: [error], [result.value], or neither. *)
Inductive MultiReply (A : Type) :=
  | MultiError (message : string)
  | MultiValue (value : list (option A))
  | MultiNothing.
Arguments MultiError {A} message.
Arguments MultiValue {A} value.
Arguments MultiNothing {A}.

Class MultipleAccounts `{Keys} (W : Type) := {
  RawAccount : Type;
  (** The account with its data decoded from base64. *)
  account_of_raw : RawAccount → AccountInfo;
  rpc_getMultipleAccounts : list string → string → W → result (MultiReply RawAccount) * W;
}.

(** [Promise.all]: every computation is run; the error of one is the error of all. *)
Fixpoint promise_all {S A} (ms : list (M S A)) : M S (list A) := λ s,
  match ms with
  | [] => (Ok [], s)
  | m :: ms' =>
      let '(r, s) := m s in
      let '(rs, s) := promise_all ms' s in
      (match r, rs with
       | Ok a, Ok l => Ok (a :: l)
       | Err e, _ => Err e
       | Ok _, Err e => Err e
       end, s)
  end.

Section MultipleAccounts.
Context `{Keys} {W : Type} `{!MultipleAccounts W}.

Definition getMultipleAccountsCore (keys : list string) (commitment : string)
  : M W (list string * list (option RawAccount)) :=
  unsafeRes ← (rpc_getMultipleAccounts keys commitment : M W _);
  match unsafeRes with
  | MultiError message => throw (JsError "failed to get info about account " [AStr message])
  | MultiValue array => mret (keys, array)
  | MultiNothing => throw (JsError EmptyString [])
  end.

(** The accounts that are there, decoded. *)
Definition found_accounts (array : list (option RawAccount)) : list AccountInfo :=
  omap (λ acc : option RawAccount, account_of_raw <$> acc) array.

Definition getMultipleAccounts (keys : list string) (commitment : string)
  : M W (list string * list AccountInfo) :=
  cs ← lift (chunks keys 99);
  res ← promise_all (map (λ chunk, getMultipleAccountsCore chunk commitment) cs);
  mret (keys, concat (map (λ a, found_accounts a.2) res)).

(** A cluster that reports, for every key asked for, the account there or nothing. *)
Class ReportsAccounts := {
  account_at : W → string → option RawAccount;
  reports : ∀ keys cm w, rpc_getMultipleAccounts keys cm w = (Ok (MultiValue (account_at w <$> keys)), w);
}.

Lemma chunks_spec {A} (array : list A) size :
  (0 < size)%nat → Z.of_nat size < 2 ^ 53 → Z.of_nat (length array) < 2 ^ 32 →
  ∃ cs, chunks array size = Ok cs ∧ concat cs = array ∧ Forall (λ c, 0 < length c ≤ size)%nat cs.
Proof.
  intros Hs Hs53 Hl. unfold chunks. rewrite ceil_div_exact by lia.
  pose proof (cdiv_bounds (Z.of_nat (length array)) (Z.of_nat size) ltac:(lia)) as Hc.
  set (n := cdiv _ _) in *. assert (Hn : 0 <= n < 2 ^ 32) by nia.
  rewrite BigInt_num_of_Z by (unfold safe; lia). cbn [mbind result_bind].
  rewrite (proj2 (in_range_true _ _ _)) by done. eexists. split; [done|].
  rewrite <- (Z2Nat.id n) in Hc by lia. set (k := Z.to_nat n) in *. clearbody k. clear Hn n.
  assert (Hle : (length array ≤ k * size)%nat) by nia.
  assert (Hlt : ∀ i, (i < k)%nat → (i * size < length array)%nat) by (intros i Hi; nia). clear Hc.
  split.
  - assert (Hgen : ∀ j m, (j + m = k)%nat →
      concat ((λ i, take size (drop (i * size) array)) <$> seq j m) = drop (j * size) array).
    { intros j m. revert j. induction m as [|m IH]; intros j Hj; cbn [seq fmap list_fmap concat].
      - symmetry. apply drop_ge. assert (j = k) as -> by lia. lia.
      - rewrite IH by lia. replace (S j * size)%nat with (j * size + size)%nat by lia.
        rewrite <- drop_drop. apply take_drop. }
    apply (Hgen 0%nat k). lia.
  - apply Forall_fmap, Forall_forall. intros i Hi%elem_of_seq. cbn. rewrite length_take, length_drop.
    specialize (Hlt i). lia.
Qed.

Lemma core_reports `{!ReportsAccounts} keys cm w :
  getMultipleAccountsCore keys cm w = (Ok (keys, account_at w <$> keys), w).
Proof. unfold getMultipleAccountsCore. by erewrite bind_run by apply reports. Qed.

Lemma omap_app {A B} (f : A → option B) l k : omap f (l ++ k) = omap f l ++ omap f k.
Proof. induction l as [|x l IH]; [done|]. cbn. rewrite IH. by destruct (f x). Qed.

Lemma found_at `{!ReportsAccounts} w keys :
  found_accounts (account_at w <$> keys) = omap (λ k, account_of_raw <$> account_at w k) keys.
Proof.
  induction keys as [|k keys IH]; [done|]. unfold found_accounts in *. cbn.
  destruct (account_at w k); cbn; by rewrite <- IH.
Qed.

Lemma length_omap_full {A B} (f : A → option B) l :
  length (omap f l) = length l ↔ ∀ x, x ∈ l → is_Some (f x).
Proof.
  assert (Hle : ∀ l, (length (omap f l) ≤ length l)%nat).
  { induction l0 as [|x l0 IH]; cbn; [lia|]. destruct (f x); cbn; lia. }
  induction l as [|x l IH]; [split; [set_solver|done]|]. cbn. specialize (Hle l). destruct (f x) as [y|] eqn:Hx; cbn.
  - rewrite Nat.succ_inj_wd, IH. split.
    + intros Hall z [->|Hz]%elem_of_cons; eauto.
    + intros Hall z Hz. apply Hall. set_solver.
  - split; [lia|]. intros Hall. destruct (Hall x) as [y Hy]; [set_solver|]. congruence.
Qed.

(** Asking for many accounts gives those there are, in the order of the keys. *)
Lemma getMultipleAccounts_reports `{!ReportsAccounts} keys cm w :
  Z.of_nat (length keys) < 2 ^ 32 →
  getMultipleAccounts keys cm w = (Ok (keys, omap (λ k, account_of_raw <$> account_at w k) keys), w).
Proof.
  intros Hl. destruct (chunks_spec keys 99 ltac:(lia) ltac:(lia) Hl) as (cs & Hcs & Hcat & _).
  unfold getMultipleAccounts. rewrite lift_bind, Hcs.
  assert (Hall : promise_all (map (λ chunk, getMultipleAccountsCore chunk cm) cs) w =
    (Ok (map (λ chunk, (chunk, account_at w <$> chunk)) cs), w)).
  { clear Hcs Hcat. induction cs as [|c cs IH]; [done|]. cbn [map promise_all].
    by rewrite core_reports, IH. }
  assert (Hfound : concat (map (λ a, found_accounts a.2) (map (λ chunk, (chunk, account_at w <$> chunk)) cs)) =
    omap (λ k, account_of_raw <$> account_at w k) keys).
  { rewrite <- Hcat. clear. induction cs as [|c cs IH]; [done|]. cbn [map concat snd].
    by rewrite omap_app, IH, found_at. }
  erewrite bind_run by done. unfold mret, M_ret. by rewrite Hfound.
Qed.

(** Asking for many accounts, in groups of 99, gives the accounts there are, in the
    order of the keys, and all the keys: keys and accounts correspond one by one exactly
    when every account exists. *)
Theorem getMultipleAccounts_found `{!ReportsAccounts} keys cm w :
  Z.of_nat (length keys) < 2 ^ 32 →
  ∃ array, getMultipleAccounts keys cm w = (Ok (keys, array), w) ∧
    array = omap (λ k, account_of_raw <$> account_at w k) keys ∧
    (length array = length keys ↔ ∀ k, k ∈ keys → is_Some (account_at w k)).
Proof.
  intros Hl. exists (omap (λ k, account_of_raw <$> account_at w k) keys).
  split; [by apply getMultipleAccounts_reports|split; [done|]].
  rewrite length_omap_full. by setoid_rewrite fmap_is_Some.
Qed.

End MultipleAccounts.

(** ** Concrete inputs *)

#[global] Instance SampleBase58Laws : Base58Laws.
Proof.
  split; cbn [PublicKey_of_string toBase58 SampleKeys]; unfold sample_of_string.
  - intros [x y]. by rewrite list_byte_of_string_of_list_byte.
  - intros s k Hs. rewrite <- (string_of_list_byte_of_string s).
    destruct (list_byte_of_string s) as [|x [|y [|? ?]]]; try done. by injection Hs as <-.
  - by intros [x y].
Qed.

(** A parser that keeps the data. *)
#[global] Instance SampleParsers : AccountParsers := {|
  AccountParser := nat;
  ParsedAccount := buffer;
  deserialize := λ _ _ obj, Ok (Some (account_data obj));
  parser_registers := λ _ _, [];
|}.

(** After a query for account 7, which now waits. *)
Definition waiting_cache : CacheState :=
  snd (cache_query (IsPublicKey (sample_vote 7)) (Some 1%nat) empty_cache).

Lemma waiting_reachable : cache_reachable waiting_cache.
Proof. eapply cache_next; [apply cache_init|]. apply step_query. Qed.

Definition waiting_call : Call :=
  {| call_id := sample_vote 7; call_parser := Some 1%nat; call_state := Waiting |}.


Definition sample_object : AccountInfo := owned_account [Byte.x05; Byte.x06] 1.

Lemma cache_reply_accepted_witness :
  let s' := reply_to 0 (Ok (Some sample_object)) waiting_cache in
  let a := toBase58 (sample_vote 7) in
  (∃ c', calls s' !! 0%nat = Some c' ∧ call_state c' = Fulfilled (Some [Byte.x05; Byte.x06])) ∧
  (∀ p, cache_query (IsPublicKey (sample_vote 7)) p s' = (Ok (Cached [Byte.x05; Byte.x06]), s')) ∧
  pendingCalls s' !! a = None ∧ (∀ m, ¬ outstanding s' m a) ∧
  map_get a (keyToAccountParser s') = Some 1%nat ∧
  events s' = events waiting_cache ++
    [CacheUpdated a (negb (bool_decide (is_Some (genericCache waiting_cache !! a)))) 1%nat].
Proof.
  apply (cache_reply_accepted waiting_cache 0 waiting_call sample_object 1%nat [Byte.x05; Byte.x06]);
    [apply waiting_reachable|done|done|cbn; lia|done|done|constructor].
Defined.

Lemma cache_failure_sticks_witness :
  stuck (reply_to 0 (Ok None) waiting_cache) 0 (toBase58 (sample_vote 7)) ∧
  (∀ s1, stuck s1 0 (toBase58 (sample_vote 7)) →
     (∀ p, cache_query (IsPublicKey (sample_vote 7)) p s1 = (Ok (Promised 0), s1)) ∧
     (∀ s2, cache_step s1 s2 → stuck s2 0 (toBase58 (sample_vote 7)) ∨
        ∃ id obj p, address_of id = toBase58 (sample_vote 7) ∧ s2 = snd (cache_add id obj p s1))).
Proof.
  apply (cache_failure_sticks waiting_cache 0 waiting_call (Ok None));
    [apply waiting_reachable|done|done|done|done].
Defined.

(** A cluster that knows the accounts whose name starts with [a]. *)
#[global] Instance SampleMultipleAccounts : MultipleAccounts unit := {|
  RawAccount := buffer;
  account_of_raw := λ b, owned_account b 1;
  rpc_getMultipleAccounts := λ keys _ w,
    (Ok (MultiValue ((λ k : string, if String.prefix "a" k then Some (list_byte_of_string k) else None) <$> keys)), w);
|}.

#[global] Instance SampleReportsAccounts : ReportsAccounts := {|
  account_at := λ _ k, if String.prefix "a" k then Some (list_byte_of_string k) else None;
  reports := λ _ _ _, eq_refl;
|}.

Lemma getMultipleAccounts_found_witness :
  ∃ array, getMultipleAccounts ["a1"%string; "b2"%string; "a3"%string] "single" tt =
      (Ok (["a1"%string; "b2"%string; "a3"%string], array), tt) ∧
    array = omap (λ k, account_of_raw <$> account_at tt k) ["a1"%string; "b2"%string; "a3"%string] ∧
    (length array = 3%nat ↔ ∀ k, k ∈ ["a1"%string; "b2"%string; "a3"%string] → is_Some (account_at tt k)).
Proof. apply (getMultipleAccounts_found ["a1"%string; "b2"%string; "a3"%string] "single" tt). cbn. lia. Defined.
