(* ===== verification/Tokens.v ===== *)
(** * Parsed accounts (parsers of src/contexts/accounts.tsx and src/models/dex/market.ts)

    The parsers the account cache is used with: token accounts and mints of the token
    program, and the markets and order books of the exchange.  The byte layouts belong
    to the libraries @solana/spl-token and @project-serum/serum, which are interfaces;
    what the repository does with the decoded fields is modelled.  The parsers are an
    instance of the cache's interface [AccountParsers]. *)

From Stdlib Require Import ZArith Lia.
From Stdlib Require Import String.
From stdpp Require Import base list strings sets gmap.
From coqutil Require Import Byte Word.LittleEndianList.
From S2P Require Import Prelude JsNumber Buffers Web3 Sample Program Instructions SamplePool.
From S2P Require Import Wire Readers Layouts Lending Actions Cache.

Open Scope Z_scope.

(** ** @solana/spl-token *)

(** The fields of [AccountLayout], as they are decoded: keys and 64-bit numbers are
    bytes. *)
Record RawTokenAccount := {
  raw_mint : buffer;
  raw_owner : buffer;
  raw_amount : buffer;
  raw_delegateOption : Z;
  raw_delegate : buffer;
  raw_state : Z;
  raw_isNativeOption : Z;
  raw_isNative : buffer;
  raw_delegatedAmount : buffer;
  raw_closeAuthorityOption : Z;
  raw_closeAuthority : buffer;
}.

(** The fields of [MintLayout]. *)
Record RawMint := {
  raw_mintAuthorityOption : Z;
  raw_mintAuthority : buffer;
  raw_supply : buffer;
  raw_decimals : Z;
  raw_isInitialized : Z;
  raw_freezeAuthorityOption : Z;
  raw_freezeAuthority : buffer;
}.

Class SplLayouts := {
  AccountLayout_decode : buffer → result RawTokenAccount;
  MintLayout_decode : buffer → result RawMint;
  u64_fromBuffer : buffer → result Z;
}.

(** The bytes of the fields, one after the other: the account formats the token program
    publishes. *)
Definition raw_account_bytes (r : RawTokenAccount) : buffer :=
  raw_mint r ++ raw_owner r ++ raw_amount r ++ le_split 4 (raw_delegateOption r) ++ raw_delegate r ++
  le_split 1 (raw_state r) ++ le_split 4 (raw_isNativeOption r) ++ raw_isNative r ++
  raw_delegatedAmount r ++ le_split 4 (raw_closeAuthorityOption r) ++ raw_closeAuthority r.

Definition raw_mint_bytes (r : RawMint) : buffer :=
  le_split 4 (raw_mintAuthorityOption r) ++ raw_mintAuthority r ++ raw_supply r ++
  le_split 1 (raw_decimals r) ++ le_split 1 (raw_isInitialized r) ++
  le_split 4 (raw_freezeAuthorityOption r) ++ raw_freezeAuthority r.

(** Fields of the right sizes. *)
Definition raw_account_wf (r : RawTokenAccount) : Prop :=
  length (raw_mint r) = 32%nat ∧ length (raw_owner r) = 32%nat ∧ length (raw_amount r) = 8%nat ∧
  0 <= raw_delegateOption r < 2 ^ 32 ∧ length (raw_delegate r) = 32%nat ∧ 0 <= raw_state r < 2 ^ 8 ∧
  0 <= raw_isNativeOption r < 2 ^ 32 ∧ length (raw_isNative r) = 8%nat ∧
  length (raw_delegatedAmount r) = 8%nat ∧ 0 <= raw_closeAuthorityOption r < 2 ^ 32 ∧
  length (raw_closeAuthority r) = 32%nat.

Definition raw_mint_wf (r : RawMint) : Prop :=
  0 <= raw_mintAuthorityOption r < 2 ^ 32 ∧ length (raw_mintAuthority r) = 32%nat ∧
  length (raw_supply r) = 8%nat ∧ 0 <= raw_decimals r < 2 ^ 8 ∧ 0 <= raw_isInitialized r < 2 ^ 8 ∧
  0 <= raw_freezeAuthorityOption r < 2 ^ 32 ∧ length (raw_freezeAuthority r) = 32%nat.

Class SplLayoutLaws `{SplLayouts} `{Keys} `{!SplToken} : Prop := {
  account_decode : ∀ r, raw_account_wf r → AccountLayout_decode (raw_account_bytes r) = Ok r;
  mint_decode : ∀ r, raw_mint_wf r → MintLayout_decode (raw_mint_bytes r) = Ok r;
  mint_span : MintLayout_span = 82;
  u64_bytes : ∀ z, 0 <= z < 2 ^ 64 → u64_fromBuffer (le_split 8 z) = Ok z;
}.

(** ** @project-serum/serum *)

Class Serum `{Keys} := {
  (** [Orderbook.LAYOUT.decode]: the flags and the slab of one side. *)
  OrderbookState : Type;
  Orderbook_decode : buffer → result OrderbookState;
  (** [Market.getLayout(programId).decode]. *)
  MarketState : Type;
  Market_decode : PublicKey → buffer → result MarketState;
  baseMint : MarketState → PublicKey;
  quoteMint : MarketState → PublicKey;
  bids : MarketState → PublicKey;
  asks : MarketState → PublicKey;
  (** The lists of known markets (address, name, program) and tokens (address, name). *)
  MARKETS : list (PublicKey * string * PublicKey);
  TOKEN_MINTS : list (PublicKey * string);
  (** [new Market(state, baseDecimals, quoteDecimals, ...)]: the market, or an error if the
      state is not that of a market. *)
  SerumMarketObject : Type;
  new_Market : MarketState → Z → Z → result SerumMarketObject;
  (** [new Orderbook(market, flags, slab).getL2(1)]: the price and the size of the best
      order, if there is one. *)
  getL2_1 : SerumMarketObject → OrderbookState → result (list (num * num));
}.

(** ** The parsed accounts *)

Section ParsedAccounts.
Context `{Keys} `{Serum}.

(** [AccountInfo] of the token library. *)
Record TokenAccountInfo := {
  ti_mint : PublicKey;
  ti_owner : PublicKey;
  ti_amount : Z;
  ti_delegate : option PublicKey;
  ti_delegatedAmount : Z;
  ti_isInitialized : bool;
  ti_isFrozen : bool;
  ti_isNative : bool;
  ti_rentExemptReserve : option Z;
  ti_closeAuthority : option PublicKey;
}.

Record MintInfo := {
  mi_mintAuthority : option PublicKey;
  mi_supply : Z;
  mi_decimals : Z;
  mi_isInitialized : bool;
  mi_freezeAuthority : option PublicKey;
}.

(** The [info] of a parsed account. *)
Inductive Info :=
  | TokenInfo (i : TokenAccountInfo)
  | MintData (i : MintInfo)
  | GenericInfo (b : buffer)
  | OrderBookInfo (b : OrderbookState)
  | DexMarketInfo (m : MarketState).

Record ParsedAccountBase := {
  pa_pubkey : PublicKey;
  pa_account : AccountInfo;
  pa_info : Info;
}.

(** The functions of type [AccountParser] the client uses, compared by reference. *)
Inductive Parser := MintParser | TokenAccountParser | GenericAccountParser | OrderBookParser | DexMarketParser.

End ParsedAccounts.

#[global] Instance Parser_eq_dec : EqDecision Parser.
Proof. solve_decision. Defined.

Section Parsers.
Context `{Keys} `{BigNumbers} `{!SplToken} `{SplLayouts} `{!Serum}.

(** ** Token accounts and mints *)

Definition deserializeAccount (data : buffer) : result TokenAccountInfo :=
  accountInfo ← AccountLayout_decode data;
  mint ← new_PublicKey (raw_mint accountInfo);
  owner ← new_PublicKey (raw_owner accountInfo);
  amount ← u64_fromBuffer (raw_amount accountInfo);
  '(delegate, delegatedAmount) ←
    (if raw_delegateOption accountInfo =? 0 then mret (None, 0)
     else k ← new_PublicKey (raw_delegate accountInfo);
          n ← u64_fromBuffer (raw_delegatedAmount accountInfo);
          mret (Some k, n));
  '(rentExemptReserve, isNative) ←
    (if raw_isNativeOption accountInfo =? 1
     then n ← u64_fromBuffer (raw_isNative accountInfo); mret (Some n, true)
     else mret (None, false));
  closeAuthority ←
    (if raw_closeAuthorityOption accountInfo =? 0 then mret None
     else k ← new_PublicKey (raw_closeAuthority accountInfo); mret (Some k));
  mret {| ti_mint := mint; ti_owner := owner; ti_amount := amount; ti_delegate := delegate;
          ti_delegatedAmount := delegatedAmount;
          ti_isInitialized := negb (raw_state accountInfo =? 0);
          ti_isFrozen := raw_state accountInfo =? 2;
          ti_isNative := isNative; ti_rentExemptReserve := rentExemptReserve;
          ti_closeAuthority := closeAuthority |}.

Definition deserializeMint (data : buffer) : result MintInfo :=
  if negb (Z.of_nat (length data) =? MintLayout_span) then Err (JsError "Not a valid Mint" [])
  else
    mintInfo ← MintLayout_decode data;
    mintAuthority ←
      (if raw_mintAuthorityOption mintInfo =? 0 then mret None
       else k ← new_PublicKey (raw_mintAuthority mintInfo); mret (Some k));
    supply ← u64_fromBuffer (raw_supply mintInfo);
    freezeAuthority ←
      (if raw_freezeAuthorityOption mintInfo =? 0 then mret None
       else k ← new_PublicKey (raw_freezeAuthority mintInfo); mret (Some k));
    mret {| mi_mintAuthority := mintAuthority; mi_supply := supply;
            mi_decimals := raw_decimals mintInfo;
            mi_isInitialized := negb (raw_isInitialized mintInfo =? 0);
            mi_freezeAuthority := freezeAuthority |}.

(** [{ pubkey, account: { ...info }, info: data }]. *)
Definition details (pubKey : PublicKey) (info : AccountInfo) (data : Info) : ParsedAccountBase :=
  {| pa_pubkey := pubKey; pa_account := info; pa_info := data |}.

Definition parse_mint (pubKey : PublicKey) (info : AccountInfo) : result ParsedAccountBase :=
  data ← deserializeMint (account_data info); mret (details pubKey info (MintData data)).

Definition parse_token_account (pubKey : PublicKey) (info : AccountInfo) : result ParsedAccountBase :=
  data ← deserializeAccount (account_data info); mret (details pubKey info (TokenInfo data)).

Definition parse_generic (pubKey : PublicKey) (info : AccountInfo) : result ParsedAccountBase :=
  mret (details pubKey info (GenericInfo (account_data info))).

(** ** The exchange *)

Definition parse_order_book (id : PublicKey) (acc : AccountInfo) : result ParsedAccountBase :=
  decoded ← Orderbook_decode (account_data acc); mret (details id acc (OrderBookInfo decoded)).

Definition DEFAULT_DEX_ID : PublicKey := key_literal "EUqojwWA2rd19FZrzeBncJsm38Jm1hEhE3zsmX3bRc2o".

Definition parse_dex_market (pubkey : PublicKey) (acc : AccountInfo) : result ParsedAccountBase :=
  let market := List.find (λ m, bool_decide (m.1.1 = pubkey)) MARKETS in
  decoded ← Market_decode (match market with Some m => m.2 | None => DEFAULT_DEX_ID end) (account_data acc);
  mret (details pubkey acc (DexMarketInfo decoded)).

(** The end of [DexMarketParser]: the parsers it registers for the accounts of a market. *)
Definition market_registers (m : MarketState) : list (PublicKey * Parser) :=
  [(baseMint m, MintParser); (quoteMint m, MintParser); (bids m, OrderBookParser); (asks m, OrderBookParser)].

(** ** The cache's interface *)

Definition parse (p : Parser) : PublicKey → AccountInfo → result ParsedAccountBase :=
  match p with
  | MintParser => parse_mint
  | TokenAccountParser => parse_token_account
  | GenericAccountParser => parse_generic
  | OrderBookParser => parse_order_book
  | DexMarketParser => parse_dex_market
  end.

Definition client_deserialize (p : Parser) (k : PublicKey) (obj : AccountInfo)
  : result (option ParsedAccountBase) := acc ← parse p k obj; mret (Some acc).

Definition client_registers (p : Parser) (acc : ParsedAccountBase) : list (PublicKey * Parser) :=
  match pa_info acc with DexMarketInfo m => market_registers m | _ => [] end.

#[global] Instance ClientParsers : AccountParsers := {|
  AccountParser := Parser;
  ParsedAccount := ParsedAccountBase;
  deserialize := client_deserialize;
  parser_registers := client_registers;
|}.

Canonical ClientParsers.

(** The part of a parsed account the actions use, if it is a token account. *)
Definition as_token_account (a : ParsedAccountBase) : option TokenAccount :=
  match pa_info a with
  | TokenInfo i => Some {| ta_pubkey := pa_pubkey a; ta_mint := ti_mint i; ta_owner := ti_owner i;
                           ta_isNative := ti_isNative i |}
  | _ => None
  end.

(** The user's account of lamports, presented as a token account ([wrapNativeAccount]). *)
Definition wrapNativeAccount (pubkey : PublicKey) (account : option AccountInfo)
  : result (option ParsedAccountBase) :=
  match account with
  | None => mret None
  | Some account =>
      amount ← new_BN (lamports account);
      zero ← new_BN (num_of_Z 0);
      mret (Some (details pubkey account (TokenInfo
        {| ti_mint := WRAPPED_SOL_MINT; ti_owner := pubkey; ti_amount := amount;
           ti_delegate := None; ti_delegatedAmount := zero; ti_isInitialized := true;
           ti_isFrozen := false; ti_isNative := true; ti_rentExemptReserve := None;
           ti_closeAuthority := None |})))
  end.

End Parsers.

(** ** Properties *)

Section TokenFacts.
Context `{KeysLaws} `{BigNumbers} `{!SplToken} `{!SplLayouts} `{!SplLayoutLaws} `{!Serum}.

(** A [COption<Pubkey>] of the token program: a tag and, after tag 1, the key. *)
Definition key_packed (k : option PublicKey) (tag : Z) (bytes : buffer) : Prop :=
  match k with None => tag = 0 | Some k => tag = 1 ∧ bytes = toBuffer k end.

Definition u64_packed (z : Z) (bytes : buffer) : Prop := 0 <= z < 2 ^ 64 ∧ bytes = le_split 8 z.

(** The fields [r] of a token account describe [i]: without a delegate there is no
    delegated amount, a frozen account is initialised, and exactly the native accounts
    have a rent reserve. *)
Definition account_packed (i : TokenAccountInfo) (r : RawTokenAccount) : Prop :=
  raw_account_wf r ∧ raw_mint r = toBuffer (ti_mint i) ∧ raw_owner r = toBuffer (ti_owner i) ∧
  u64_packed (ti_amount i) (raw_amount r) ∧
  key_packed (ti_delegate i) (raw_delegateOption r) (raw_delegate r) ∧
  match ti_delegate i with
  | None => ti_delegatedAmount i = 0
  | Some _ => u64_packed (ti_delegatedAmount i) (raw_delegatedAmount r)
  end ∧
  raw_state r = (if ti_isFrozen i then 2 else if ti_isInitialized i then 1 else 0) ∧
  (ti_isFrozen i = true → ti_isInitialized i = true) ∧
  match ti_rentExemptReserve i with
  | None => raw_isNativeOption r = 0 ∧ ti_isNative i = false
  | Some n => raw_isNativeOption r = 1 ∧ u64_packed n (raw_isNative r) ∧ ti_isNative i = true
  end ∧
  key_packed (ti_closeAuthority i) (raw_closeAuthorityOption r) (raw_closeAuthority r).

Definition mint_packed (i : MintInfo) (r : RawMint) : Prop :=
  raw_mint_wf r ∧ key_packed (mi_mintAuthority i) (raw_mintAuthorityOption r) (raw_mintAuthority r) ∧
  u64_packed (mi_supply i) (raw_supply r) ∧ raw_decimals r = mi_decimals i ∧
  raw_isInitialized r = Z.b2z (mi_isInitialized i) ∧
  key_packed (mi_freezeAuthority i) (raw_freezeAuthorityOption r) (raw_freezeAuthority r).

Lemma key_unpacked k tag bytes :
  key_packed k tag bytes →
  (if tag =? 0 then mret None else k' ← new_PublicKey bytes; mret (Some k')) = Ok k.
Proof.
  destruct k as [k|]; cbn; [intros [-> ->]|by intros ->]. cbn. by rewrite new_PublicKey_toBuffer.
Qed.

Lemma u64_unpacked z bytes : u64_packed z bytes → u64_fromBuffer bytes = Ok z.
Proof. intros [Hz ->]. by apply u64_bytes. Qed.

(** An account the token program packed is read as what it packed. *)
Lemma deserializeAccount_packed i r :
  account_packed i r → deserializeAccount (raw_account_bytes r) = Ok i.
Proof.
  intros (Hwf & Hm & Ho & Ha & Hd & Hda & Hst & Hfr & Hn & Hc). unfold deserializeAccount.
  rewrite account_decode by done. cbn [mbind result_bind].
  rewrite Hm, Ho, !new_PublicKey_toBuffer. cbn [mbind result_bind]. rewrite (u64_unpacked _ _ Ha). cbn [mbind result_bind].
  assert (Hdel : (if raw_delegateOption r =? 0 then mret (None, 0)
     else k ← new_PublicKey (raw_delegate r); n ← u64_fromBuffer (raw_delegatedAmount r); mret (Some k, n))
    = Ok (ti_delegate i, ti_delegatedAmount i)).
  { destruct (ti_delegate i) as [d|]; cbn in Hd; [destruct Hd as [-> ->]|rewrite Hd, Hda; done].
    cbn. rewrite new_PublicKey_toBuffer. cbn. by rewrite (u64_unpacked _ _ Hda). }
  rewrite Hdel. cbn [mbind result_bind].
  assert (Hnat : (if raw_isNativeOption r =? 1 then n ← u64_fromBuffer (raw_isNative r); mret (Some n, true)
     else mret (None, false)) = Ok (ti_rentExemptReserve i, ti_isNative i)).
  { destruct (ti_rentExemptReserve i) as [n|]; [destruct Hn as (-> & Hn & ->)|by destruct Hn as [-> ->]].
    cbn. by rewrite (u64_unpacked _ _ Hn). }
  rewrite Hnat. cbn [mbind result_bind]. rewrite (key_unpacked _ _ _ Hc). cbn [mbind result_bind]. rewrite Hst.
  unfold mret, result_ret. f_equal. destruct i as [? ? ? ? ? ini fro ? ? ?]. cbn in *.
  f_equal; destruct fro; cbn; try done; [by rewrite Hfr|by destruct ini|by destruct ini].
Qed.

Lemma deserializeMint_packed i r :
  mint_packed i r → deserializeMint (raw_mint_bytes r) = Ok i.
Proof.
  intros (Hwf & Hma & Hs & Hdec & Hini & Hf). unfold deserializeMint.
  assert (Hlen : Z.of_nat (length (raw_mint_bytes r)) = 82).
  { unfold raw_mint_bytes. destruct Hwf as (_ & L1 & L2 & _ & _ & _ & L3).
    rewrite !length_app, !length_le_split, L1, L2, L3. done. }
  rewrite Hlen, mint_span. cbn [Z.eqb Pos.eqb negb]. rewrite mint_decode by done. cbn [mbind result_bind].
  rewrite (key_unpacked _ _ _ Hma). cbn [mbind result_bind]. rewrite (u64_unpacked _ _ Hs). cbn [mbind result_bind].
  rewrite (key_unpacked _ _ _ Hf). cbn [mbind result_bind]. rewrite Hdec, Hini.
  unfold mret, result_ret. f_equal. destruct i as [? ? ? ini ?]. cbn. by destruct ini.
Qed.

(** What the token program packs, the client reads.  The bytes of a token account and
    of a mint are parsed into exactly the values the token program packed, options and
    states included, and data of any size other than a mint's is refused as a mint. *)
Theorem packed_accounts_parsed k info :
  (∀ i r, account_packed i r → account_data info = raw_account_bytes r →
     parse TokenAccountParser k info = Ok {| pa_pubkey := k; pa_account := info; pa_info := TokenInfo i |}) ∧
  (∀ i r, mint_packed i r → account_data info = raw_mint_bytes r →
     parse MintParser k info = Ok {| pa_pubkey := k; pa_account := info; pa_info := MintData i |}) ∧
  (length (account_data info) ≠ 82%nat →
     parse MintParser k info = Err (JsError "Not a valid Mint" [])).
Proof.
  split_and!.
  - intros i r Hp Hd. cbn. unfold parse_token_account. by rewrite Hd, (deserializeAccount_packed i).
  - intros i r Hp Hd. cbn. unfold parse_mint. by rewrite Hd, (deserializeMint_packed i).
  - intros Hl. cbn. unfold parse_mint, deserializeMint. rewrite mint_span.
    by rewrite (proj2 (Z.eqb_neq _ _)) by lia.
Qed.

End TokenFacts.

(** ** Concrete inputs *)

(** Decoding by the offsets of the fields. *)
Definition sample_account_decode (b : buffer) : result RawTokenAccount :=
  d ← read_le 4 b 72; st ← read_le 1 b 108; n ← read_le 4 b 109; c ← read_le 4 b 129;
  mret {| raw_mint := slice b 0 32; raw_owner := slice b 32 64; raw_amount := slice b 64 72;
          raw_delegateOption := d; raw_delegate := slice b 76 108; raw_state := st;
          raw_isNativeOption := n; raw_isNative := slice b 113 121;
          raw_delegatedAmount := slice b 121 129; raw_closeAuthorityOption := c;
          raw_closeAuthority := slice b 133 165 |}.

Definition sample_mint_decode (b : buffer) : result RawMint :=
  m ← read_le 4 b 0; d ← read_le 1 b 44; i ← read_le 1 b 45; f ← read_le 4 b 46;
  mret {| raw_mintAuthorityOption := m; raw_mintAuthority := slice b 4 36; raw_supply := slice b 36 44;
          raw_decimals := d; raw_isInitialized := i; raw_freezeAuthorityOption := f;
          raw_freezeAuthority := slice b 50 82 |}.

#[global] Instance SampleSplLayouts : SplLayouts := {|
  AccountLayout_decode := sample_account_decode;
  MintLayout_decode := sample_mint_decode;
  u64_fromBuffer := λ b, if decide (length b = 8%nat) then Ok (le_combine b) else Err TypeError;
|}.

#[local] Arguments slice : simpl never.
#[local] Arguments read_le : simpl never.

(** Skips the fields of known length before the one that is read. *)
Ltac skip_fields :=
  repeat first
    [ rewrite slice_here by (done || by rewrite length_le_split)
    | erewrite slice_skip by (first [eassumption | apply length_le_split] || lia)
    | erewrite read_le_skip by (first [eassumption | apply length_le_split] || lia)
    | rewrite read_le_here by done ]; cbn [Nat.sub mbind result_bind].

Lemma slice_whole b n : length b = n → slice b 0 n = b.
Proof. intros <-. unfold slice. rewrite Nat.sub_0_r, drop_0. by apply take_ge. Qed.

#[global] Instance SampleSplLayoutLaws : SplLayoutLaws.
Proof.
  split.
  - intros [m o a dopt d st nopt n da copt c] (L1 & L2 & L3 & R1 & L4 & R2 & R3 & L5 & L6 & R4 & L7).
    cbn in L1, L2, L3, R1, L4, R2, R3, L5, L6, R4, L7. cbn. unfold sample_account_decode, raw_account_bytes. cbn.
    skip_fields. rewrite slice_whole by done. done.
  - intros [mopt m s dec ini fopt f] (R1 & L1 & L2 & R2 & R3 & R4 & L3). cbn in R1, L1, L2, R2, R3, R4, L3.
    cbn. unfold sample_mint_decode, raw_mint_bytes. cbn.
    skip_fields. rewrite slice_whole by done. done.
  - done.
  - intros z Hz. cbn. rewrite decide_True by apply length_le_split. by rewrite le_combine_split_small.
Qed.

(** A market is its four keys, an order book its best price. *)
#[global] Instance SampleSerum : Serum := {|
  OrderbookState := option Z;
  Orderbook_decode := λ b, match b with [] => Err RangeError | x :: _ => Ok (Some (byte.unsigned x)) end;
  MarketState := SampleKey * SampleKey * SampleKey * SampleKey;
  Market_decode := λ _ b,
    match b with
    | [x1; y1; x2; y2; x3; y3; x4; y4] => Ok ((x1, y1), (x2, y2), (x3, y3), (x4, y4))
    | _ => Err RangeError
    end;
  baseMint := λ m, m.1.1.1;
  quoteMint := λ m, m.1.1.2;
  bids := λ m, m.1.2;
  asks := λ m, m.2;
  MARKETS := [(sample_key 300, "TOK/USDC"%string, sample_key 301)];
  TOKEN_MINTS := [(sample_key 302, "TOK"%string); (sample_key 303, "USDC"%string)];
  SerumMarketObject := unit;
  new_Market := λ _ _ _, Ok tt;
  getL2_1 := λ _ b, Ok (match b with Some p => [(num_of_Z p, num_of_Z 1)] | None => [] end);
|}.

(** A frozen account with a delegate. *)
Definition sample_token_info (owner : PublicKey) (mint : PublicKey) (amount : Z) : TokenAccountInfo :=
  {| ti_mint := mint; ti_owner := owner; ti_amount := amount; ti_delegate := Some (sample_key 9);
     ti_delegatedAmount := 5; ti_isInitialized := true; ti_isFrozen := true; ti_isNative := false;
     ti_rentExemptReserve := None; ti_closeAuthority := None |}.

Definition sample_raw_account (owner mint : PublicKey) (amount : Z) : RawTokenAccount :=
  {| raw_mint := toBuffer mint; raw_owner := toBuffer owner; raw_amount := le_split 8 amount;
     raw_delegateOption := 1; raw_delegate := toBuffer (sample_key 9); raw_state := 2;
     raw_isNativeOption := 0; raw_isNative := alloc 8; raw_delegatedAmount := le_split 8 5;
     raw_closeAuthorityOption := 0; raw_closeAuthority := alloc 32 |}.

Lemma sample_account_packed owner mint amount :
  0 <= amount < 2 ^ 64 → account_packed (sample_token_info owner mint amount) (sample_raw_account owner mint amount).
Proof.
  intros Ha. unfold account_packed, raw_account_wf, u64_packed. cbn. rewrite !length_le_split. split_and!; try done; lia.
Qed.

Lemma packed_accounts_parsed_witness :
  let info := owned_account (raw_account_bytes (sample_raw_account (sample_key 50) (sample_key 7) 1000)) 1 in
  parse TokenAccountParser (sample_vote 8) info =
    Ok {| pa_pubkey := sample_vote 8; pa_account := info;
          pa_info := TokenInfo (sample_token_info (sample_key 50) (sample_key 7) 1000) |} ∧
  parse MintParser (sample_vote 8) info = Err (JsError "Not a valid Mint" []).
Proof.
  intros info. destruct (packed_accounts_parsed (sample_vote 8) info) as (Hacc & _ & Hmint). split.
  - apply (Hacc _ (sample_raw_account (sample_key 50) (sample_key 7) 1000)); [|done].
    apply sample_account_packed. lia.
  - apply Hmint. vm_compute. lia.
Defined.
