(* ===== verification/UserAccounts.v ===== *)
(** * The user's accounts (the providers and hooks of src/contexts/accounts.tsx)

    What the client does with its account cache: the user's lamports and token accounts
    are put there, every account that enters it is subscribed to, the accounts of the
    user are selected from it, and the actions look for a token account in it.  The
    caches of mints and of transactions, which the same module keeps, are here too. *)

From Stdlib Require Import ZArith Lia.
From Stdlib Require Import String.
From stdpp Require Import base list strings sets gmap relations.
From coqutil Require Import Byte Word.LittleEndianList.
From S2P Require Import Prelude JsNumber Buffers Web3 Sample Program Instructions SamplePool.
From S2P Require Import Wire Readers Layouts Lending Actions Cache Tokens.

Open Scope Z_scope.

(** A [TokenAccount]. *)
Record UserAccount `{Keys} := {
  ua_pubkey : PublicKey;
  ua_account : AccountInfo;
  ua_info : TokenAccountInfo;
}.

(** The cluster's answer about the token accounts of an owner. *)
Class TokenRpc `{Keys} (W : Type) := {
  rpc_getTokenAccountsByOwner : PublicKey → W → result (list (PublicKey * AccountInfo)) * W;
}.

Section UserAccounts.
#[local] Remove Hints SampleKeys SampleSplToken SampleSerum SampleParsers : typeclass_instances.
Context `{Keys} `{BigNumbers} `{!SplToken} `{SplLayouts} `{!Serum}.

(** ** The user's lamports ([UseNativeAccount]) *)

Definition updateCache (publicKey : option PublicKey) (account : option AccountInfo)
  : M CacheState unit := λ s,
  match publicKey with
  | None => (Ok tt, s)
  | Some k =>
      match wrapNativeAccount k account with
      | Err e => (Err e, s)
      | Ok None => (Ok tt, s)
      | Ok (Some wrapped) =>
          let id := toBase58 k in
          let s := registerParser (IsString id) TokenAccountParser s in
          let s := set_generic (<[id := wrapped]> (genericCache s)) s in
          (Ok tt, raise (CacheUpdated id false TokenAccountParser) s)
      end
  end.

(** The handler of the answer to [getAccountInfo] and of every later change: the cache
    and the state [nativeAccount] of the hook. *)
Definition native_answer (publicKey : option PublicKey) (acc : option AccountInfo)
  : M (CacheState * option AccountInfo) unit := λ '(s, nativeAccount),
  match acc with
  | None => (Ok tt, (s, nativeAccount))
  | Some a =>
      match updateCache publicKey (Some a) s with
      | (Ok _, s) => (Ok tt, (s, Some a))
      | (Err e, s) => (Err e, (s, nativeAccount))
      end
  end.

(** ** The user's token accounts *)

(** What the provider's effects work on: the cluster, the cache and [PRECACHED_OWNERS]. *)
Record ProviderState (W : Type) := {
  c_world : W;
  c_cache : CacheState;
  c_owners : gset string;
}.
#[global] Arguments c_world {W} _.
#[global] Arguments c_cache {W} _.
#[global] Arguments c_owners {W} _.
#[global] Arguments Build_ProviderState {W} c_world c_cache c_owners.

Definition in_cache {W A} (m : M CacheState A) : M (ProviderState W) A := λ c,
  let '(r, s) := m (c_cache c) in (r, Build_ProviderState (c_world c) s (c_owners c)).

Definition add_owner {W} (owner : string) : M (ProviderState W) unit := λ c,
  (Ok tt, Build_ProviderState (c_world c) (c_cache c) ({[owner]} ∪ c_owners c)).

Definition read_owners {W} : M (ProviderState W) (gset string) := λ c, (Ok (c_owners c), c).

Definition call_cluster {W A} (f : W → result A * W) : M (ProviderState W) A := λ c,
  let '(r, w) := f (c_world c) in (r, Build_ProviderState w (c_cache c) (c_owners c)).

Definition precacheUserTokenAccounts {W} `{!TokenRpc W} (owner : option PublicKey) : M (ProviderState W) unit :=
  match owner with
  | None => mret tt
  | Some owner =>
      _ ← add_owner (toBase58 owner);
      accounts ← call_cluster (rpc_getTokenAccountsByOwner owner);
      for_each accounts (λ info,
        _ ← in_cache (cache_add (IsString (toBase58 info.1)) info.2 (Some TokenAccountParser)); mret tt)
  end.

(** [a.info.owner]: only a token account has an owner to compare. *)
Definition user_account (a : ParsedAccountBase) : result UserAccount :=
  match pa_info a with
  | TokenInfo i => Ok {| ua_pubkey := pa_pubkey a; ua_account := pa_account a; ua_info := i |}
  | _ => Err TypeError
  end.

(** [filter((a) => a && a.info.owner.toBase58() === address)]. *)
Fixpoint owned_by (address : string) (l : list (option ParsedAccountBase)) : result (list UserAccount) :=
  match l with
  | [] => mret []
  | None :: l' => owned_by address l'
  | Some a :: l' =>
      u ← user_account a;
      us ← owned_by address l';
      mret (if (toBase58 (ti_owner (ua_info u)) =? address)%string then u :: us else us)
  end.

Definition selectUserAccounts (publicKey : option PublicKey) (s : CacheState) : result (list UserAccount) :=
  match publicKey with
  | None => mret []
  | Some k =>
      owned_by (toBase58 k) ((λ id, cache_get (IsString id) s) <$> byParser TokenAccountParser s)
  end.

(** ** Subscriptions ([AccountsProvider]) *)

(** The listener of the cache's events: for an account that is new, the address and the
    parser of the subscription it makes. *)
Definition on_cache_event (e : Event) : option (string * Parser) :=
  match e with CacheUpdated id true parser => Some (id, parser) | _ => None end.

(** The subscriptions made since the provider was mounted, when there were [m] events;
    none is ever removed. *)
Definition subscriptions (m : nat) (s : CacheState) : list (string * Parser) :=
  omap on_cache_event (drop m (events s)).

(** The handler of a subscription. *)
Definition account_changed (sub : string * Parser) (info : AccountInfo)
  : M CacheState (option ParsedAccountBase) := cache_add (IsString sub.1) info (Some sub.2).

(** The handler of the changes of the token program's accounts; the accounts the provider
    then publishes, if it does. *)
Definition program_account_changed {W} (publicKey : option PublicKey) (id : string) (info : AccountInfo)
  : M (ProviderState W) (option (list UserAccount)) :=
  if Z.of_nat (length (account_data info)) =? AccountLayout_span then
    data ← lift (deserializeAccount (account_data info));
    owners ← read_owners;
    if bool_decide (toBase58 (ti_owner data) ∈ owners) then
      _ ← in_cache (cache_add (IsString id) info (Some TokenAccountParser));
      accounts ← in_cache (λ s, (selectUserAccounts publicKey s, s));
      mret (Some accounts)
    else mret None
  else mret None.

(** ** Hooks *)

(** The query of [useMint] and [useAccount] for an address, made when they are mounted... *)
Definition hook_query (parser : Parser) (id : option string) : M CacheState (option QueryAnswer) :=
  match id with
  | None | Some EmptyString => mret None
  | Some id => answer ← cache_query (IsString id) (Some parser); mret (Some answer)
  end.

(** ... and at every event for the address: deletions arrive as updates. *)
Definition event_id (e : Event) : option string :=
  match e with CacheUpdated id _ _ => Some id | CacheDeleted id => Some id | CacheCleared => None end.

Definition hook_event (parser : Parser) (id : option string) (e : Event)
  : M CacheState (option QueryAnswer) :=
  if decide (is_Some id ∧ event_id e = id) then hook_query parser id else mret None.

Definition useMint := hook_query MintParser.
Definition useAccount := hook_query TokenAccountParser.

(** [userAccounts.findIndex(...)] and the account there. *)
Definition useAccountByMint (mint : option string) (userAccounts : list UserAccount) : option UserAccount :=
  List.find (λ acc, bool_decide (Some (toBase58 (ti_mint (ua_info acc))) = mint)) userAccounts.

(** ** What the actions see of the cache *)

(** [cache.byParser(TokenAccountParser).map((id) => cache.get(id))]. *)
Definition cached_token_accounts (s : CacheState) : list (option TokenAccount) :=
  (λ id, cache_get (IsString id) s ≫= as_token_account) <$> byParser TokenAccountParser s.

(** ** Mints *)

Inductive MintCallState :=
  | MintWaiting
  | MintFulfilled (m : MintInfo)
  | MintFailed (e : js_error).

Record MintCall := { mint_id : PublicKey; mint_state : MintCallState }.

Record MintState := {
  mintCache : gmap string MintInfo;
  pendingMintCalls : gmap string nat;
  mintCalls : list MintCall;
}.

Definition empty_mints : MintState := {| mintCache := ∅; pendingMintCalls := ∅; mintCalls := [] |}.

Inductive MintAnswer :=
  | MintCached (m : MintInfo)
  | MintPromised (n : nat).

Definition queryMint (pubKey : Address) : M MintState MintAnswer := λ s,
  match (match pubKey with IsString str => PublicKey_of_string str | IsPublicKey k => Ok k end) with
  | Err e => (Err e, s)
  | Ok id =>
      let address := toBase58 id in
      match mintCache s !! address with
      | Some mint => (Ok (MintCached mint), s)
      | None =>
          match pendingMintCalls s !! address with
          | Some n => (Ok (MintPromised n), s)
          | None =>
              let n := length (mintCalls s) in
              (Ok (MintPromised n),
               {| mintCache := mintCache s;
                  pendingMintCalls := <[address := n]> (pendingMintCalls s);
                  mintCalls := mintCalls s ++ [{| mint_id := id; mint_state := MintWaiting |}] |})
          end
      end
  end.

(** [getMintInfo], from the cluster's answer on. *)
Definition getMintInfo (info : option AccountInfo) : result MintInfo :=
  match info with
  | None => Err (JsError "Failed to find mint account" [])
  | Some info => deserializeMint (account_data info)
  end.

(** The cluster's reply to the request of promise [n]. *)
Definition mint_reply (n : nat) (reply : result (option AccountInfo)) (s : MintState) : MintState :=
  match mintCalls s !! n with
  | Some {| mint_id := id; mint_state := MintWaiting |} =>
      match (info ← reply; getMintInfo info) with
      | Ok data =>
          {| mintCache := <[toBase58 id := data]> (mintCache s);
             pendingMintCalls := delete (toBase58 id) (pendingMintCalls s);
             mintCalls := <[n := {| mint_id := id; mint_state := MintFulfilled data |}]> (mintCalls s) |}
      | Err e =>
          {| mintCache := mintCache s; pendingMintCalls := pendingMintCalls s;
             mintCalls := <[n := {| mint_id := id; mint_state := MintFailed e |}]> (mintCalls s) |}
      end
  | _ => s
  end.

Definition getMint (pubKey : Address) (s : MintState) : option MintInfo := mintCache s !! address_of pubKey.

Definition addMint (pubKey : PublicKey) (obj : AccountInfo) : M MintState MintInfo := λ s,
  match deserializeMint (account_data obj) with
  | Err e => (Err e, s)
  | Ok mint => (Ok mint, {| mintCache := <[toBase58 pubKey := mint]> (mintCache s);
                            pendingMintCalls := pendingMintCalls s; mintCalls := mintCalls s |})
  end.

(** ** Transactions *)

Section Transactions.
Context {LocalTx : Type} (signature_of : LocalTx → string).

(** A [Map] from signatures to transactions or [null]. *)
Definition TransactionCache : Type := list (string * option LocalTx).

Definition addTransaction (signature : string) (tx : option LocalTx) (c : TransactionCache)
  : TransactionCache := map_set signature tx c.

Definition addBulkTransactions (txs : list LocalTx) (c : TransactionCache) : TransactionCache :=
  foldl (λ c tx, map_set (signature_of tx) (Some tx) c) c txs.

Definition getTransaction (signature : string) (c : TransactionCache) : option (option LocalTx) :=
  map_get signature c.

(** The module's maps together, and [clear]: requests under way stay recorded. *)
Record AccountsModule := {
  am_cache : CacheState;
  am_mints : MintState;
  am_transactions : TransactionCache;
}.

Definition accounts_clear (s : AccountsModule) : AccountsModule :=
  {| am_cache := cache_clear (am_cache s);
     am_mints := {| mintCache := ∅; pendingMintCalls := pendingMintCalls (am_mints s);
                    mintCalls := mintCalls (am_mints s) |};
     am_transactions := [] |}.

End Transactions.

End UserAccounts.

(** ** The types of cached accounts *)

Lemma omap_after_fmap {A B C} (f : A → B) (g : B → option C) (l : list A) : omap g (f <$> l) = omap (λ x, g (f x)) l.
Proof. induction l as [|x l IH]; [done|]. cbn. by rewrite IH. Qed.

Lemma NoDup_fmap_fst_inv {A B} (l : list (A * B)) k x y :
  NoDup (fst <$> l) → (k, x) ∈ l → (k, y) ∈ l → x = y.
Proof.
  induction l as [|[k' z] l IH]; [set_solver|]. cbn. intros [Hn Hl]%NoDup_cons Hx Hy.
  assert (Hno : ∀ v, (k', v) ∉ l) by (intros v Hv; apply Hn, list_elem_of_fmap; by exists (k', v)).
  apply elem_of_cons in Hx as [Hx|Hx], Hy as [Hy|Hy]; simplify_eq; try done; [..|by apply IH];
    exfalso; by eapply Hno.
Qed.

Lemma map_set_keys {V} k (v : V) l :
  fst <$> map_set k v l = if decide (k ∈ fst <$> l) then fst <$> l else (fst <$> l) ++ [k].
Proof.
  induction l as [|[k' v'] l IH]; cbn; [by rewrite decide_False by set_solver|].
  destruct (decide (k = k')) as [<-|Hk]; cbn; [by rewrite decide_True by set_solver|]. rewrite IH.
  destruct (decide (k ∈ fst <$> l)); [by rewrite decide_True by set_solver|by rewrite decide_False by set_solver].
Qed.

Lemma map_set_NoDup {V} k (v : V) l : NoDup (fst <$> l) → NoDup (fst <$> map_set k v l).
Proof.
  intros Hl. rewrite map_set_keys. case_decide as Hk; [done|]. apply NoDup_app. split_and!; [done| |apply NoDup_singleton].
  intros x Hx Hx'. apply list_elem_of_singleton in Hx' as ->. done.
Qed.

(** With distinct keys, the entries are what [get] gives. *)
Lemma map_get_elem {V} k (v : V) l : NoDup (fst <$> l) → map_get k l = Some v ↔ (k, v) ∈ l.
Proof.
  induction l as [|[k' v'] l IH]; cbn; [set_solver|]. intros [Hn Hl]%NoDup_cons. rewrite elem_of_cons.
  destruct (decide (k = k')) as [->|Hk].
  - split; [intros [= ->]; by left|intros [[= ->]|Hin]; [done|]]. exfalso. apply Hn.
    apply list_elem_of_fmap. by exists (k', v).
  - rewrite (IH Hl). split; [by right|intros [[= -> ->]|?]; done].
Qed.

Section Typed.
#[local] Remove Hints SampleKeys SampleSplToken SampleSerum SampleParsers SampleKeysLaws SampleBase58Laws : typeclass_instances.
Context `{Keys} `{!Base58Laws} `{BigNumbers} `{!SplToken} `{SplLayouts} `{!Serum}.

(** The [info] a parser produces. *)
Definition kind_ok (p : Parser) (i : Info) : bool :=
  match p, i with
  | MintParser, MintData _ | TokenAccountParser, TokenInfo _ | GenericAccountParser, GenericInfo _
  | OrderBookParser, OrderBookInfo _ | DexMarketParser, DexMarketInfo _ => true
  | _, _ => false
  end.

(** Each account is of one kind, and is asked for with the parser of its kind. *)
Variable kind : string → Parser.

(** The keys the wallet has had. *)
Variable user : PublicKey → Prop.

(** The accounts of a market are of the kinds its parser registers. *)
Definition markets_typed : Prop :=
  ∀ k obj acc m, kind (toBase58 k) = DexMarketParser → parse DexMarketParser k obj = Ok acc →
    pa_info acc = DexMarketInfo m → Forall (λ e, kind (toBase58 e.1) = e.2) (market_registers m).

Definition agrees (a : string) (p : option Parser) : Prop := ∀ q, p = Some q → q = kind a.

(** The steps of the cache with its parsers, and of the user's lamports. *)
Inductive typed_step : CacheState → CacheState → Prop :=
  | typed_query id p s :
      (∀ k, key_at id = Ok k → agrees (toBase58 k) p) → typed_step s (snd (cache_query id p s))
  | typed_reply n r s : typed_step s (reply_to n r s)
  | typed_add id obj p s : agrees (address_of id) p → typed_step s (snd (cache_add id obj p s))
  | typed_delete id s : typed_step s (snd (cache_delete id s))
  | typed_clear s : typed_step s (cache_clear s)
  | typed_register id p s : p = kind (address_of id) → typed_step s (registerParser id p s)
  | typed_native k acc s :
      user k → kind (toBase58 k) = TokenAccountParser → typed_step s (snd (updateCache (Some k) acc s)).

(** A cached account has the key it is cached under and the [info] of the parser
    registered for it; parsers are registered once per address. *)
Record cache_typed (s : CacheState) : Prop := {
  ct_nodup : NoDup (fst <$> keyToAccountParser s);
  ct_parsers : ∀ a p, map_get a (keyToAccountParser s) = Some p → p = kind a;
  ct_cached : ∀ a (acc : ParsedAccountBase), genericCache s !! a = Some acc →
    toBase58 (pa_pubkey acc) = a ∧ kind_ok (kind a) (pa_info acc) = true ∧
    map_get a (keyToAccountParser s) = Some (kind a);
  ct_calls : ∀ n c, calls s !! n = Some c → agrees (toBase58 (call_id c)) (call_parser c);
}.

Lemma empty_typed : cache_typed empty_cache.
Proof. split; cbn; [constructor|done|intros a acc Ha; by rewrite lookup_empty in Ha|done]. Qed.

Lemma register_typed id p s : p = kind (address_of id) → cache_typed s → cache_typed (registerParser id p s).
Proof.
  intros -> [Hn Hp Hc Hk]. unfold registerParser. destruct (match id with IsString EmptyString => true | _ => false end); [done|].
  set (a := address_of id). split; cbn; [by apply map_set_NoDup| | |done].
  - intros b q Hq. destruct (decide (b = a)) as [->|Hb]; [rewrite map_get_set in Hq; congruence|].
    rewrite map_get_set_ne in Hq by done. by apply Hp.
  - intros b acc Hb. destruct (Hc b acc Hb) as (Hb1 & Hb2 & Hb3). split_and!; [done|done|].
    destruct (decide (b = a)) as [->|Hba]; [apply map_get_set|by rewrite map_get_set_ne].
Qed.

Lemma registerAll_typed l s :
  Forall (λ e, kind (toBase58 e.1) = e.2) l → cache_typed s → cache_typed (registerAll l s).
Proof.
  intros Hl. revert s; induction Hl as [|[k p] l Hk _ IH]; intros s Hs; [done|].
  unfold registerAll. cbn [foldl fst snd]. apply IH, register_typed; [by symmetry|done].
Qed.

Lemma registerAll_keeps l s a :
  Forall (λ e, kind (toBase58 e.1) = e.2) l → map_get a (keyToAccountParser s) = Some (kind a) →
  map_get a (keyToAccountParser (registerAll l s)) = Some (kind a).
Proof.
  intros Hl. revert s; induction Hl as [|[k p] l Hk _ IH]; intros s Hs; [done|].
  unfold registerAll. cbn [foldl fst snd] in *. apply IH. cbn.
  destruct (decide (a = toBase58 k)) as [->|Ha]; [by rewrite map_get_set, Hk|by rewrite map_get_set_ne].
Qed.

(** States that agree on what typing is about. *)
Lemma typed_same s s' :
  keyToAccountParser s' = keyToAccountParser s → (∀ a acc, genericCache s' !! a = Some acc → genericCache s !! a = Some acc) →
  calls s' = calls s → cache_typed s → cache_typed s'.
Proof.
  intros Hp Hg Hc [H1' H2' H3' H4']. split; rewrite ?Hp, ?Hc; [done|done| |done].
  intros a acc Ha. by apply H3', Hg.
Qed.

Lemma parse_kind p k obj acc : parse p k obj = Ok acc → pa_pubkey acc = k ∧ kind_ok p (pa_info acc) = true.
Proof.
  destruct p; cbn; unfold parse_mint, parse_token_account, parse_generic, parse_order_book, parse_dex_market;
    intros Hp; try (apply result_bind_Ok in Hp as (d & _ & Hp)); by injection Hp as <-.
Qed.

(** An account enters the cache under its address with the kind of the address. *)
Lemma insert_typed a acc s :
  toBase58 (pa_pubkey acc) = a → kind_ok (kind a) (pa_info acc) = true →
  map_get a (keyToAccountParser s) = Some (kind a) → cache_typed s →
  cache_typed (set_generic (<[a := acc]> (genericCache s)) s).
Proof.
  intros H1' H2' H3' [Hn Hp Hc Hk]. split; cbn; [done|done| |done].
  intros b acc' Hb. destruct (decide (b = a)) as [->|Hba].
  - rewrite lookup_insert_eq in Hb. by injection Hb as <-.
  - rewrite lookup_insert_ne in Hb by done. by apply Hc.
Qed.

Lemma register_get id p s :
  address_of id ≠ EmptyString → map_get (address_of id) (keyToAccountParser (registerParser id p s)) = Some p.
Proof.
  intros Hne. unfold registerParser. destruct id as [[|x str]|k]; [done|..]; cbn; apply map_get_set.
Qed.

Hypothesis Hmarkets : markets_typed.

Lemma add_typed id obj p s :
  agrees (address_of id) p → cache_typed s → cache_typed (snd (cache_add id obj p s)).
Proof.
  intros Hagree Hs. unfold cache_add. destruct (length (account_data obj) =? 0)%nat; [done|].
  set (a := address_of id) in *. cbv zeta.
  destruct (parser_for a _ s) as [q|] eqn:Hq; [|done].
  assert (q = kind a) as ->.
  { destruct p as [p0|]; [by injection Hq as ->; apply Hagree|by eapply ct_parsers]. }
  set (s1 := registerParser id (kind a) s).
  assert (Hs1 : cache_typed s1) by (by apply register_typed).
  set (s2 := set_pending (delete a (pendingCalls s1)) s1).
  assert (Hs2 : cache_typed s2) by (by apply (typed_same s1)).
  destruct (PublicKey_of_string a) as [k|e] eqn:Ha; cbn [mbind result_bind]; [|done].
  apply base58_canonical in Ha as Hka.
  destruct (deserialize (kind a) k obj) as [[acc|]|e] eqn:Hacc; [|done..]. cbn [snd].
  cbn in Hacc. apply result_bind_Ok in Hacc as (acc' & Hparse & [= <-]).
  pose proof (parse_kind _ _ _ _ Hparse) as [Hpk Hkind].
  assert (Hreg : Forall (λ e, kind (toBase58 e.1) = e.2) (parser_registers (kind a) acc')).
  { cbn. unfold client_registers. destruct (pa_info acc') as [| | | |m] eqn:Hi; [by constructor..|].
    assert (kind a = DexMarketParser) as Hd by (destruct (kind a); done). rewrite Hd in Hparse.
    eapply (Hmarkets k obj acc' m); [congruence|done|done]. }
  assert (Hs3 := registerAll_typed _ s2 Hreg Hs2).
  set (s3 := registerAll (parser_registers (kind a) acc') s2) in *.
  assert (Hne : a ≠ EmptyString) by (rewrite <- Hka; apply base58_nonempty).
  assert (Hget : map_get a (keyToAccountParser s3) = Some (kind a)).
  { apply registerAll_keeps; [done|]. by apply register_get. }
  apply (typed_same (set_generic (<[a := acc']> (genericCache s3)) s3)); [done|done|done|].
  apply insert_typed; [by rewrite Hpk|done|done|done].
Qed.

(** No parser is ever forgotten. *)
Lemma register_grows id p s b :
  is_Some (map_get b (keyToAccountParser s)) → is_Some (map_get b (keyToAccountParser (registerParser id p s))).
Proof.
  intros Hb. unfold registerParser. destruct (match id with IsString EmptyString => true | _ => false end); [done|].
  cbn. destruct (decide (b = address_of id)) as [->|Hne]; [rewrite map_get_set; by eexists|by rewrite map_get_set_ne].
Qed.

Lemma add_grows id obj p s b :
  is_Some (map_get b (keyToAccountParser s)) →
  is_Some (map_get b (keyToAccountParser (snd (cache_add id obj p s)))).
Proof.
  intros Hb. unfold cache_add. destruct (length (account_data obj) =? 0)%nat; [done|]. cbv zeta.
  destruct (parser_for (address_of id) _ s) as [q|]; [|done].
  assert (H1' := register_grows id q s b Hb). set (s2 := set_pending _ _).
  assert (H2' : is_Some (map_get b (keyToAccountParser s2))) by exact H1'.
  destruct (PublicKey_of_string (address_of id) ≫= λ k, deserialize q k obj) as [[acc|]|e]; [|exact H2'..].
  change (is_Some (map_get b (keyToAccountParser (registerAll (parser_registers q acc) s2)))).
  generalize (parser_registers q acc) as l. clearbody s2. clear H1'. revert s2 H2'.
  intros s2 H2' l. revert s2 H2'. induction l as [|[k p'] l IH]; intros s2 H2'; [exact H2'|].
  unfold registerAll. cbn [foldl fst snd]. apply IH, register_grows, H2'.
Qed.

Lemma native_typed k acc s :
  kind (toBase58 k) = TokenAccountParser → cache_typed s → cache_typed (snd (updateCache (Some k) acc s)).
Proof.
  intros Hk Hs. unfold updateCache. destruct (wrapNativeAccount k acc) as [[w|]|e] eqn:Hw; [|done..]. cbn [snd].
  set (s1 := registerParser (IsString (toBase58 k)) TokenAccountParser s).
  assert (Hs1 : cache_typed s1) by (by apply register_typed).
  apply (typed_same (set_generic (<[toBase58 k := w]> (genericCache s1)) s1)); [done|done|done|].
  destruct acc as [acc|]; [|done]. unfold wrapNativeAccount in Hw.
  apply result_bind_Ok in Hw as (n & _ & Hw). apply result_bind_Ok in Hw as (z & _ & Hw). injection Hw as <-.
  apply insert_typed; [done|by rewrite Hk| |done].
  rewrite Hk. apply (register_get (IsString (toBase58 k))). apply base58_nonempty.
Qed.

Lemma query_typed id p s :
  (∀ k, key_at id = Ok k → agrees (toBase58 k) p) → cache_typed s → cache_typed (snd (cache_query id p s)).
Proof.
  intros Hid [Hn Hp Hc Hk]. unfold cache_query. unfold key_at in Hid.
  destruct (match id with IsString str => _ | IsPublicKey k => _ end) as [k|e]; [|done]. cbv zeta.
  destruct (genericCache s !! toBase58 k) as [acc|]; [done|]. destruct (pendingCalls s !! toBase58 k) as [n|]; [done|].
  split; cbn; [done|done|done|]. intros n c Hn'. apply lookup_app_Some in Hn' as [Hn'|[_ Hn']]; [by eapply Hk|].
  apply list_lookup_singleton_Some in Hn' as [_ <-]. cbn. by apply Hid.
Qed.

Lemma settle_typed n c r s : calls s !! n = Some c → cache_typed s → cache_typed (settle n c r s).
Proof.
  intros Hc [H1' H2' H3' H4']. split; cbn; [done|done|done|]. intros m d Hd.
  destruct (decide (m = n)) as [->|Hm].
  - rewrite list_lookup_insert_eq in Hd by (by eapply lookup_lt_Some). injection Hd as <-. exact (H4' n c Hc).
  - rewrite list_lookup_insert_ne in Hd by done. exact (H4' m d Hd).
Qed.

Lemma reply_typed n r s : cache_typed s → cache_typed (reply_to n r s).
Proof.
  intros Hs. unfold reply_to. destruct (calls s !! n) as [c|] eqn:Hc; [|done].
  destruct (call_state c); [|done..]. destruct r as [[obj|]|e]; try by apply settle_typed.
  pose proof (cache_add_effect (IsPublicKey (call_id c)) obj (call_parser c) s) as (Hcalls & _ & _).
  assert (Hadd : cache_typed (snd (cache_add (IsPublicKey (call_id c)) obj (call_parser c) s))).
  { apply add_typed; [|done]. by eapply ct_calls. }
  destruct (cache_add _ _ _ _) as [[r|e] s1]; cbn [snd] in *; (apply settle_typed; [congruence|done]).
Qed.

Lemma step_typed s s' : typed_step s s' → cache_typed s → cache_typed s'.
Proof.
  intros Hstep Hs. destruct Hstep as [id p s Hid|n r s|id obj p s Ha|id s|s|id p s Hp|k acc s _ Hk].
  - by apply query_typed.
  - by apply reply_typed.
  - by apply add_typed.
  - unfold cache_delete. destruct (genericCache s !! address_of id); [|done]. apply (typed_same s); try done.
    cbn. intros a acc Hdel. by apply lookup_delete_Some in Hdel as [_ Hdel].
  - by apply (typed_same s).
  - by apply register_typed.
  - by apply native_typed.
Qed.

Lemma steps_typed s s' : rtc typed_step s s' → cache_typed s → cache_typed s'.
Proof. induction 1; eauto using step_typed. Qed.


(** ** Selecting the user's accounts *)

Lemma byParser_elem p s id :
  cache_typed s → id ∈ byParser p s ↔ map_get id (keyToAccountParser s) = Some p.
Proof.
  intros [Hn _ _ _]. rewrite map_get_elem by done. unfold byParser. rewrite list_elem_of_fmap. split.
  - intros ([k q] & -> & [Hq Hin]%list_elem_of_filter). cbn in *. by subst.
  - intros Hin. exists (id, p). split; [done|]. by apply list_elem_of_filter.
Qed.

Lemma byParser_NoDup p s : cache_typed s → NoDup (byParser p s).
Proof.
  intros [Hn _ _ _]. unfold byParser. eapply sublist_NoDup; [exact Hn|]. apply fmap_sublist, sublist_filter.
Qed.

(** The account a cached entry contributes to the selection. *)
Definition selected (address : string) (o : option ParsedAccountBase) : option UserAccount :=
  match o with
  | Some {| pa_pubkey := k; pa_account := a; pa_info := TokenInfo i |} =>
      if (toBase58 (ti_owner i) =? address)%string
      then Some {| ua_pubkey := k; ua_account := a; ua_info := i |} else None
  | _ => None
  end.

Lemma owned_by_selects address l :
  Forall (λ o, ∀ a, o = Some a → ∃ i, pa_info a = TokenInfo i) l →
  owned_by address l = Ok (omap (selected address) l).
Proof.
  induction 1 as [|[[k acc info]|] l Ho _ IH]; [done| |done]. cbn [owned_by].
  destruct (Ho _ eq_refl) as [i Hi]. cbn in Hi. subst info. unfold user_account. cbn [pa_info mbind result_bind].
  rewrite IH. cbn. by destruct (toBase58 (ti_owner i) =? address)%string.
Qed.

Lemma base58_inj k j : toBase58 k = toBase58 j → k = j.
Proof. intros Hk. pose proof (base58_round k) as H1'. rewrite Hk, base58_round in H1'. by injection H1'. Qed.

Lemma selected_cached s k id u :
  cache_typed s →
  selected (toBase58 k) (genericCache s !! id) = Some u ↔
  toBase58 (ua_pubkey u) = id ∧ ti_owner (ua_info u) = k ∧
  genericCache s !! id =
    Some {| pa_pubkey := ua_pubkey u; pa_account := ua_account u; pa_info := TokenInfo (ua_info u) |}.
Proof.
  intros Hs. split.
  - intros Hu. destruct (genericCache s !! id) as [[q acc info]|] eqn:Hid; [|done].
    destruct (ct_cached s Hs _ _ Hid) as (Hq & _). cbn in Hu, Hq. destruct info as [i| | | |]; try done.
    destruct (String.eqb_spec (toBase58 (ti_owner i)) (toBase58 k)) as [Ho%base58_inj|]; [|done].
    by injection Hu as <-.
  - intros (_ & Ho & ->). destruct u as [q acc i]. cbn in *. by rewrite Ho, String.eqb_refl.
Qed.

(** The accounts registered with the token parser are token accounts. *)
Lemma token_entries s :
  cache_typed s →
  Forall (λ o, ∀ a, o = Some a → ∃ i, pa_info a = TokenInfo i)
    ((λ id, cache_get (IsString id) s) <$> byParser TokenAccountParser s).
Proof.
  intros Hs. apply Forall_fmap, Forall_forall. intros id Hid a Ha. change (genericCache s !! id = Some a) in Ha.
  apply byParser_elem, ct_parsers in Hid as Hk; [|done..].
  apply (ct_cached s Hs) in Ha as (_ & Ha & _). rewrite <- Hk in Ha. destruct (pa_info a); try done. by eexists.
Qed.

Lemma selection_typed s k :
  cache_typed s →
  ∃ us, selectUserAccounts (Some k) s = Ok us ∧ NoDup (ua_pubkey <$> us) ∧
    ∀ u, u ∈ us ↔ ti_owner (ua_info u) = k ∧
      genericCache s !! toBase58 (ua_pubkey u) =
        Some {| pa_pubkey := ua_pubkey u; pa_account := ua_account u; pa_info := TokenInfo (ua_info u) |}.
Proof.
  intros Hs. set (ids := byParser TokenAccountParser s).
  set (g := λ id, selected (toBase58 k) (genericCache s !! id)).
  exists (omap g ids). split_and!.
  - unfold selectUserAccounts. rewrite owned_by_selects.
    + by rewrite omap_after_fmap.
    + by apply token_entries.
  - assert (Hnd := byParser_NoDup TokenAccountParser s Hs). fold ids in Hnd. clearbody ids.
    induction Hnd as [|id ids Hid _ IH]; [constructor|]. cbn.
    destruct (g id) as [u|] eqn:Hu; [|exact IH]. cbn. constructor; [|exact IH].
    intros (v & Hv & (id' & Hid' & Hg)%list_elem_of_omap)%list_elem_of_fmap.
    apply (selected_cached s k id u Hs) in Hu as (Hu & _). apply (selected_cached s k id' v Hs) in Hg as (Hg & _). congruence.
  - intros u. rewrite list_elem_of_omap. split.
    + intros (id & _ & Hu). apply (selected_cached s k id u Hs) in Hu as (<- & Ho & Hc). done.
    + intros [Ho Hc]. exists (toBase58 (ua_pubkey u)). split; [|by apply (selected_cached s k _ u Hs)].
      apply byParser_elem; [done|]. destruct (ct_cached s Hs _ _ Hc) as (_ & Hk & ->). f_equal.
      cbn in Hk. by destruct (kind (toBase58 (ua_pubkey u))).
Qed.

(** C29: the user's accounts.  In every state the cache can reach, selecting the accounts of
    a user never fails, gives each account once, and gives exactly the cached token
    accounts, the user's lamports included, that the user owns. *)
Theorem selectUserAccounts_exact s k :
  rtc typed_step empty_cache s →
  ∃ us, selectUserAccounts (Some k) s = Ok us ∧ NoDup (ua_pubkey <$> us) ∧
    ∀ u, u ∈ us ↔ ti_owner (ua_info u) = k ∧
      genericCache s !! toBase58 (ua_pubkey u) =
        Some {| pa_pubkey := ua_pubkey u; pa_account := ua_account u; pa_info := TokenInfo (ua_info u) |}.
Proof. intros Hs. apply selection_typed, (steps_typed empty_cache); [done|apply empty_typed]. Qed.

(** ** Loading and following the user's token accounts *)

Lemma cache_add_string k obj p s :
  cache_add (IsString (toBase58 k)) obj p s = cache_add (IsPublicKey k) obj p s.
Proof.
  unfold cache_add, registerParser. cbn [address_of]. pose proof (base58_nonempty k) as Hne.
  by destruct (toBase58 k).
Qed.

(** Adding the data of a token account. *)
Lemma add_token_account k info i s :
  (0 < length (account_data info))%nat → deserializeAccount (account_data info) = Ok i →
  ∃ s', cache_add (IsString (toBase58 k)) info (Some TokenAccountParser) s =
      (Ok (Some {| pa_pubkey := k; pa_account := info; pa_info := TokenInfo i |}), s') ∧
    genericCache s' =
      <[toBase58 k := {| pa_pubkey := k; pa_account := info; pa_info := TokenInfo i |}]> (genericCache s).
Proof.
  intros Hlen Hi. rewrite cache_add_string.
  destruct (cache_add_accepts k info (Some TokenAccountParser) TokenAccountParser
    {| pa_pubkey := k; pa_account := info; pa_info := TokenInfo i |} s) as (s' & Hadd & Hg & _); [done|done| |].
  - cbn. unfold client_deserialize. cbn. unfold parse_token_account. by rewrite Hi.
  - by exists s'.
Qed.

(** The data of token accounts of [owner]. *)
Definition owner_accounts (owner : PublicKey) (l : list (PublicKey * AccountInfo)) : Prop :=
  Forall (λ e, (0 < length (account_data e.2))%nat ∧ kind (toBase58 e.1) = TokenAccountParser ∧
               ∃ i, deserializeAccount (account_data e.2) = Ok i ∧ ti_owner i = owner) l.

Lemma add_all {W} owner l (c : ProviderState W) :
  owner_accounts owner l → NoDup (fst <$> l) →
  ∃ s', for_each l (λ info, _ ← in_cache (cache_add (IsString (toBase58 info.1)) info.2 (Some TokenAccountParser));
                            mret tt) c = (Ok tt, Build_ProviderState (c_world c) s' (c_owners c)) ∧
    rtc typed_step (c_cache c) s' ∧
    (∀ k info, (k, info) ∈ l → ∃ i, deserializeAccount (account_data info) = Ok i ∧ ti_owner i = owner ∧
       genericCache s' !! toBase58 k = Some {| pa_pubkey := k; pa_account := info; pa_info := TokenInfo i |}) ∧
    (∀ a, a ∉ toBase58 <$> (fst <$> l) → genericCache s' !! a = genericCache (c_cache c) !! a).
Proof.
  intros Hl. revert c; induction Hl as [|[k info] l (Hlen & Hk & i & Hi & Ho) _ IH]; intros c Hnd.
  { exists (c_cache c). destruct c. split_and!; [done|constructor|set_solver|done]. }
  apply NoDup_cons in Hnd as [Hk1 Hnd].
  destruct (add_token_account k info i (c_cache c) Hlen Hi) as (s1 & Hadd & Hg). cbn [fst snd] in *.
  destruct (IH (Build_ProviderState (c_world c) s1 (c_owners c)) Hnd) as (s' & Hrun & Hsteps & Hin & Hout).
  assert (Hk' : toBase58 k ∉ toBase58 <$> (fst <$> l)).
  { intros (k' & Hkk & Hk')%list_elem_of_fmap. apply base58_inj in Hkk as <-. done. }
  exists s'. split_and!.
  - cbn [for_each fst snd]. erewrite bind_run; [exact Hrun|]. erewrite bind_run; [done|].
    unfold in_cache. by rewrite Hadd.
  - eapply rtc_l; [|exact Hsteps]. assert (s1 = snd (cache_add (IsString (toBase58 k)) info (Some TokenAccountParser) (c_cache c))) as ->.
    { by rewrite Hadd. }
    apply typed_add. intros q [= <-]. cbn. congruence.
  - intros j jnfo [[= -> ->]|Hj]%elem_of_cons; [|by apply Hin]. exists i. split_and!; [done|done|].
    rewrite Hout by done. cbn. rewrite Hg. apply lookup_insert_eq.
  - intros a Ha. cbn in Ha. apply not_elem_of_cons in Ha as [Ha1 Ha2]. rewrite Hout by done. cbn. rewrite Hg.
    by apply lookup_insert_ne.
Qed.

(** Loading the user's token accounts.  When the cluster answers with token accounts of
    the owner, loading them records the owner, leaves a well-typed cache, and the accounts
    selected for the owner are exactly those the cluster listed, with their present data,
    and those cached before that it did not list. *)
Theorem precacheUserTokenAccounts_loads {W} `{!TokenRpc W} (c : ProviderState W) owner accounts w :
  rtc typed_step empty_cache (c_cache c) →
  rpc_getTokenAccountsByOwner owner (c_world c) = (Ok accounts, w) →
  owner_accounts owner accounts → NoDup (fst <$> accounts) →
  ∃ s' us,
    precacheUserTokenAccounts (Some owner) c =
      (Ok tt, Build_ProviderState w s' ({[toBase58 owner]} ∪ c_owners c)) ∧
    rtc typed_step empty_cache s' ∧ selectUserAccounts (Some owner) s' = Ok us ∧
    ∀ u, u ∈ us ↔
      ((ua_pubkey u, ua_account u) ∈ accounts ∧ deserializeAccount (account_data (ua_account u)) = Ok (ua_info u)) ∨
      ((ua_pubkey u ∉ fst <$> accounts) ∧ ti_owner (ua_info u) = owner ∧
       genericCache (c_cache c) !! toBase58 (ua_pubkey u) =
         Some {| pa_pubkey := ua_pubkey u; pa_account := ua_account u; pa_info := TokenInfo (ua_info u) |}).
Proof.
  intros Hc Hrpc Hacc Hnd.
  destruct (add_all owner accounts (Build_ProviderState w (c_cache c) ({[toBase58 owner]} ∪ c_owners c)) Hacc Hnd)
    as (s' & Hrun & Hsteps & Hin & Hout). cbn [c_cache c_world c_owners] in *.
  assert (Hs' : rtc typed_step empty_cache s') by (by etransitivity).
  destruct (selection_typed s' owner) as (us & Hsel & _ & Hus); [apply (steps_typed empty_cache); [done|apply empty_typed]|].
  exists s', us. split_and!; [|done|done|].
  { unfold precacheUserTokenAccounts. erewrite bind_run by done. erewrite bind_run; [exact Hrun|].
    unfold call_cluster. cbn. by rewrite Hrpc. }
  intros u. rewrite Hus. destruct (decide (ua_pubkey u ∈ fst <$> accounts)) as [Hu|Hu].
  - apply list_elem_of_fmap in Hu as ([k info] & Hk & Hu). cbn in Hk.
    destruct (Hin k info Hu) as (i & Hi & Ho & Hcached). rewrite Hk, Hcached. split.
    + intros [_ [= Hinfo Hii]]. left. rewrite <- Hinfo, <- Hii. done.
    + intros [[Hu' Hd]|[Hu' _]]; [|exfalso; apply Hu'; apply list_elem_of_fmap; by exists (k, info)].
      assert (ua_account u = info) as Hinfo.
      { apply (NoDup_fmap_fst_inv accounts k); [done|done|done]. }
      rewrite Hinfo, Hi in Hd. injection Hd as Hd. rewrite Hinfo, <- Hd. done.
  - rewrite Hout; [set_solver|]. intros (k & Hk%base58_inj & Hk')%list_elem_of_fmap. by subst k.
Qed.

(** Following the token program.  A change of an account of the token program reaches
    the cache exactly if its data is that of a token account and its owner was loaded;
    then the accounts published for the owner contain it with its new data. *)
Theorem token_change_published {W} `{!SplTokenLaws} (c : ProviderState W) k info i owner :
  rtc typed_step empty_cache (c_cache c) → kind (toBase58 k) = TokenAccountParser →
  length (account_data info) = 165%nat → deserializeAccount (account_data info) = Ok i →
  if decide (toBase58 (ti_owner i) ∈ c_owners c) then
    ∃ s' us, program_account_changed (Some owner) (toBase58 k) info c =
        (Ok (Some us), Build_ProviderState (c_world c) s' (c_owners c)) ∧
      rtc typed_step empty_cache s' ∧
      (ti_owner i = owner → {| ua_pubkey := k; ua_account := info; ua_info := i |} ∈ us) ∧
      (∀ u, u ∈ us → ua_pubkey u = k → u = {| ua_pubkey := k; ua_account := info; ua_info := i |})
  else program_account_changed (Some owner) (toBase58 k) info c = (Ok None, c).
Proof.
  intros Hc Hk Hlen Hi. unfold program_account_changed. rewrite Hlen, account_span. change (Z.of_nat 165 =? 165) with true. cbn match.
  rewrite lift_bind, Hi. erewrite bind_run by done. case_decide as Ho.
  - rewrite bool_decide_true by done.
    destruct (add_token_account k info i (c_cache c)) as (s' & Hadd & Hg); [lia|done|].
    assert (Hs' : rtc typed_step empty_cache s').
    { eapply rtc_r; [exact Hc|]. replace s' with (snd (cache_add (IsString (toBase58 k)) info (Some TokenAccountParser) (c_cache c))) by (by rewrite Hadd).
      apply typed_add. intros q [= <-]. cbn. congruence. }
    destruct (selection_typed s' owner) as (us & Hsel & _ & Hus); [apply (steps_typed empty_cache); [done|apply empty_typed]|].
    exists s', us. split_and!; [|done|..].
    + erewrite bind_run; [|unfold in_cache; by rewrite Hadd]. erewrite bind_run; [done|].
      unfold in_cache. cbn [c_cache c_world c_owners]. by rewrite Hsel.
    + intros Hoi. apply Hus. split; [done|]. cbn. rewrite Hg. apply lookup_insert_eq.
    + intros u [_ Hu]%Hus Huk. rewrite Huk, Hg, lookup_insert_eq in Hu. destruct u. cbn in *. congruence.
  - by rewrite bool_decide_false.
Qed.

(** ** Every cached account is followed *)

(** What a step may add to the cache: an account it announces as new, or a user's. *)
Definition announces (s s' : CacheState) : Prop :=
  ∃ l, events s' = events s ++ l ∧
    ∀ a, is_Some (genericCache s' !! a) → is_Some (genericCache s !! a) ∨
      (∃ p, CacheUpdated a true p ∈ l) ∨ (∃ k, user k ∧ a = toBase58 k).

Lemma announces_same s s' :
  events s' = events s → (∀ a, is_Some (genericCache s' !! a) → is_Some (genericCache s !! a)) → announces s s'.
Proof. intros He Hg. exists []. rewrite app_nil_r. split; [done|]. intros a Ha. left. by apply Hg. Qed.

Lemma add_announces id obj p s : announces s (snd (cache_add id obj p s)).
Proof.
  unfold cache_add. destruct (length (account_data obj) =? 0)%nat; [by apply announces_same|]. cbv zeta.
  destruct (parser_for (address_of id) _ s) as [q|]; [|by apply announces_same].
  set (s1 := registerParser id q s).
  assert (H1' : events s1 = events s ∧ genericCache s1 = genericCache s).
  { unfold s1, registerParser. by destruct (match id with IsString EmptyString => true | _ => false end). }
  destruct H1' as [He Hg]. set (s2 := set_pending _ s1).
  destruct (PublicKey_of_string (address_of id) ≫= λ k, deserialize q k obj) as [[acc|]|e]; cbn [snd];
    try (apply announces_same; [done|cbn; by rewrite Hg]).
  destruct (registerAll_effect (parser_registers q acc) s2) as (_ & _ & R3 & R4 & _).
  eexists [CacheUpdated (address_of id) _ q]. cbn [events genericCache raise set_generic].
  rewrite R3, R4. cbn [events genericCache s2 set_pending]. rewrite He, Hg. split; [done|]. intros a Ha.
  destruct (decide (a = address_of id)) as [->|Hne].
  - destruct (decide (is_Some (genericCache s !! address_of id))) as [Hs|Hs]; [by left|right; left].
    exists q. rewrite bool_decide_false by done. by apply list_elem_of_singleton.
  - left. by rewrite lookup_insert_ne in Ha.
Qed.

Lemma step_announces s s' : typed_step s s' → announces s s'.
Proof.
  intros Hstep. destruct Hstep as [id p s Hid|n r s|id obj p s Ha|id s|s|id p s Hp|k acc s Hu Hk].
  - unfold cache_query. destruct (match id with IsString str => _ | IsPublicKey k => _ end); [|by apply announces_same].
    cbv zeta. destruct (genericCache s !! _); [by apply announces_same|].
    destruct (pendingCalls s !! _); by apply announces_same.
  - unfold reply_to. destruct (calls s !! n) as [c|]; [|by apply announces_same].
    destruct (call_state c); [|by apply announces_same..]. destruct r as [[obj|]|e]; [|by apply announces_same..].
    pose proof (add_announces (IsPublicKey (call_id c)) obj (call_parser c) s) as Hadd.
    by destruct (cache_add _ _ _ _) as [[r|e] s1].
  - apply add_announces.
  - unfold cache_delete. destruct (genericCache s !! address_of id); [|by apply announces_same].
    eexists [_]. split; [done|]. intros a Ha. left. cbn in Ha. destruct Ha as [x Hx].
    apply lookup_delete_Some in Hx as [_ Hx]. by exists x.
  - eexists [_]. split; [done|]. intros a Ha. cbn in Ha. rewrite lookup_empty in Ha. by destruct Ha.
  - unfold registerParser. destruct (match id with IsString EmptyString => true | _ => false end); by apply announces_same.
  - unfold updateCache. destruct (wrapNativeAccount k acc) as [[w|]|e]; [|by apply announces_same..]. cbn [snd].
    assert (Hreg : events (registerParser (IsString (toBase58 k)) TokenAccountParser s) = events s ∧
      genericCache (registerParser (IsString (toBase58 k)) TokenAccountParser s) = genericCache s).
    { unfold registerParser. by destruct (toBase58 k). }
    destruct Hreg as [He Hg]. exists [CacheUpdated (toBase58 k) false TokenAccountParser]. cbn [events genericCache raise set_generic].
    rewrite He, Hg. split; [done|]. intros a Ha.
    destruct (decide (a = toBase58 k)) as [->|Hne]; [right; right; by exists k|left].
    by rewrite lookup_insert_ne in Ha.
Qed.

Lemma subscriptions_app m s s' l :
  (m ≤ length (events s))%nat → events s' = events s ++ l →
  subscriptions m s' = subscriptions m s ++ omap on_cache_event l.
Proof. intros Hm He. unfold subscriptions. rewrite He, drop_app_le by done. apply omap_app. Qed.

Lemma steps_followed s0 s :
  genericCache s0 = ∅ → rtc typed_step s0 s →
  (length (events s0) ≤ length (events s))%nat ∧
  ∀ a, is_Some (genericCache s !! a) →
    (∃ p, (a, p) ∈ subscriptions (length (events s0)) s) ∨ (∃ k, user k ∧ a = toBase58 k).
Proof.
  intros H0' Hsteps. pattern s. revert s Hsteps. apply rtc_ind_r; [|intros s s' _ Hstep [Hlen IH]].
  { split; [done|]. intros a Ha. rewrite H0', lookup_empty in Ha. by destruct Ha. }
  destruct (step_announces s s' Hstep) as (l & He & Hl).
  split; [rewrite He, length_app; lia|]. intros a Ha. rewrite (subscriptions_app _ s s' l) by done.
  destruct (Hl a Ha) as [Hs|[[p Hp]|Hu]]; [|left|by right].
  - destruct (IH a Hs) as [[p Hp]|Hu]; [left|by right]. exists p. apply elem_of_app. by left.
  - exists p. apply elem_of_app. right. apply list_elem_of_omap. by exists (CacheUpdated a true p).
Qed.

(** C28: cached accounts are followed.  From the moment the provider is mounted on an empty
    cache, every account in the cache is the user's own, which has a subscription of its
    own, or is subscribed to; and a change reported through the subscription, if its
    parser accepts it, is what the cache then holds: it is announced, and every hook that
    asks for the address, with whatever parser, is answered with it at once. *)
Theorem cached_accounts_followed s0 s a acc :
  cache_typed s0 → genericCache s0 = ∅ → rtc typed_step s0 s → genericCache s !! a = Some acc →
  (∃ k, user k ∧ a = toBase58 k) ∨
  ∃ p, (a, p) ∈ subscriptions (length (events s0)) s ∧
    ∀ info acc', (0 < length (account_data info))%nat → parse p (pa_pubkey acc) info = Ok acc' →
      ∃ s', account_changed (a, p) info s = (Ok (Some acc'), s') ∧
        events s' = events s ++ [CacheUpdated a false p] ∧
        ∀ q, hook_event q (Some a) (CacheUpdated a false p) s' = (Ok (Some (Cached acc')), s').
Proof.
  intros Ht H0' Hsteps Ha. destruct (steps_followed s0 s H0' Hsteps) as [_ Hf].
  destruct (Hf a (mk_is_Some _ _ Ha)) as [[p Hp]|Hu]; [right|by left]. exists p. split; [done|]. intros info acc' Hlen Hparse.
  assert (Hs := steps_typed s0 s Hsteps Ht). destruct (ct_cached s Hs a acc Ha) as (Hka & _ & _).
  destruct (cache_add_accepts (pa_pubkey acc) info (Some p) p acc' s) as (s' & Hadd & Hg & _ & _ & _ & He); [done|done| |].
  { cbn. unfold client_deserialize. by rewrite Hparse. }
  rewrite Hka in Hg, He. rewrite bool_decide_true in He by done. exists s'. split_and!.
  - unfold account_changed. cbn [fst snd]. by rewrite <- Hka, cache_add_string.
  - done.
  - intros q. unfold hook_event. rewrite decide_True by done. unfold hook_query.
    assert (Hne := base58_nonempty (pa_pubkey acc)). rewrite Hka in Hne. destruct a as [|x a']; [done|].
    unfold mbind, M_bind, cache_query. rewrite <- Hka, base58_round, Hka. by rewrite Hg, lookup_insert_eq.
Qed.

(** ** The account a deposit is credited to *)

(** The search of the action in the cache and that of [useAccountByMint] in the user's
    accounts find the same account. *)
Lemma find_same (cached : string → option ParsedAccountBase) own mint ids :
  mjoin (List.find (λ acc, match acc with
      | None => false
      | Some a => (toBase58 (ta_mint a) =? mint)%string && (toBase58 (ta_owner a) =? own)%string && true
      end) ((λ id, cached id ≫= as_token_account) <$> ids)) =
  (λ u, {| ta_pubkey := ua_pubkey u; ta_mint := ti_mint (ua_info u); ta_owner := ti_owner (ua_info u);
           ta_isNative := ti_isNative (ua_info u) |}) <$>
  useAccountByMint (Some mint) (omap (λ id, selected own (cached id)) ids).
Proof.
  induction ids as [|id ids IH]; [done|]. cbn. destruct (cached id) as [[k acc info]|]; [|exact IH].
  destruct info as [i| | | |]; [|exact IH..]. cbn.
  destruct (String.eqb_spec (toBase58 (ti_owner i)) own) as [Ho|Ho]; cbn; [|by rewrite andb_false_r].
  rewrite !andb_true_r. destruct (String.eqb_spec (toBase58 (ti_mint i)) mint) as [Hm|Hm]; cbn.
  - by rewrite bool_decide_true by (by f_equal).
  - rewrite bool_decide_false by (by intros [= ?]). exact IH.
Qed.

(** C30: the account a deposit is credited to.  In every state the cache can reach, for any
    mint but wrapped SOL, the action uses the very account the hooks show for the user
    and the mint, adding no instruction, and creates an account exactly if there is none. *)
Theorem deposit_target_from_cache {W} `{!Connection W} `{!WebApi W} s own us mint d payer rent (b : Browser W) :
  rtc typed_step empty_cache s → selectUserAccounts (Some own) s = Ok us → mint ≠ WRAPPED_SOL_MINT →
  findOrCreateAccountByMint (cached_token_accounts s) payer own d rent mint None b =
  match useAccountByMint (Some (toBase58 mint)) us with
  | Some u => (Ok (ua_pubkey u, d), b)
  | None => createTokenAccount d payer rent mint own b
  end.
Proof.
  intros Hs Hus Hm. unfold findOrCreateAccountByMint.
  assert (Hids : us = omap (λ id, selected (toBase58 own) (cache_get (IsString id) s)) (byParser TokenAccountParser s)).
  { unfold selectUserAccounts in Hus. rewrite owned_by_selects, omap_after_fmap in Hus; [by injection Hus as <-|].
    apply token_entries, (steps_typed empty_cache); [done|apply empty_typed]. }
  unfold cached_token_accounts. rewrite (find_same (λ id, cache_get (IsString id) s) (toBase58 own)), <- Hids.
  assert (Hw : (toBase58 mint =? toBase58 WRAPPED_SOL_MINT)%string = false).
  { apply String.eqb_neq. intros He%base58_inj. done. }
  rewrite Hw. destruct (useAccountByMint _ us) as [u|]; [done|]. cbn.
  unfold mbind, M_bind. by destruct (createTokenAccount d payer rent mint own b) as [[[a d']|e] b'].
Qed.

End Typed.

(** ** Mints and transactions *)

Section Mints.
#[local] Remove Hints SampleKeys SampleSplToken SampleSerum SampleParsers SampleKeysLaws SampleBase58Laws : typeclass_instances.
Context `{Keys} `{!SplToken} `{SplLayouts} `{!Serum}.

Inductive mint_step : MintState → MintState → Prop :=
  | mstep_query id s : mint_step s (snd (queryMint id s))
  | mstep_reply n r s : mint_step s (mint_reply n r s)
  | mstep_add k obj s : mint_step s (snd (addMint k obj s))
  | mstep_clear s : mint_step s {| mintCache := ∅; pendingMintCalls := pendingMintCalls s; mintCalls := mintCalls s |}.

Definition mint_waits (s : MintState) (n : nat) (a : string) : Prop :=
  ∃ k, mintCalls s !! n = Some {| mint_id := k; mint_state := MintWaiting |} ∧ toBase58 k = a.

(** A waiting promise is the recorded one of its address; a recorded promise is one for
    its address. *)
Definition mint_inv (s : MintState) : Prop :=
  (∀ n a, mint_waits s n a → pendingMintCalls s !! a = Some n) ∧
  (∀ a n, pendingMintCalls s !! a = Some n → ∃ c, mintCalls s !! n = Some c ∧ toBase58 (mint_id c) = a).

Lemma queryMint_inv id s : mint_inv s → mint_inv (snd (queryMint id s)).
Proof.
  intros [HA HB]. unfold queryMint. destruct (match id with IsString str => _ | IsPublicKey k => _ end) as [k|e]; [|done].
  cbv zeta. destruct (mintCache s !! toBase58 k); [done|]. destruct (pendingMintCalls s !! toBase58 k) as [n|] eqn:Hp; [done|].
  split; cbn.
  - intros n a (j & Hj & Ha). cbn in Hj. apply lookup_app_Some in Hj as [Hj|[Hl Hj]].
    + assert (Hn : pendingMintCalls s !! a = Some n) by (apply HA; by exists j). rewrite lookup_insert_ne; [done|congruence].
    + apply list_lookup_singleton_Some in Hj as [Hn [= <-]]. subst a. rewrite lookup_insert_eq. f_equal. lia.
  - intros a n Hn. destruct (decide (a = toBase58 k)) as [->|Ha].
    + rewrite lookup_insert_eq in Hn. injection Hn as <-. eexists. split; [by apply list_lookup_middle|done].
    + rewrite lookup_insert_ne in Hn by done. destruct (HB a n Hn) as (c & Hc & Hca). exists c.
      split; [by apply lookup_app_l_Some|done].
Qed.

Lemma mint_reply_inv n r s : mint_inv s → mint_inv (mint_reply n r s).
Proof.
  intros [HA HB]. unfold mint_reply. destruct (mintCalls s !! n) as [[k [| |]]|] eqn:Hn; [|done..].
  assert (Hp : pendingMintCalls s !! toBase58 k = Some n) by (apply HA; by exists k).
  assert (Hlt : (n < length (mintCalls s))%nat) by (by eapply lookup_lt_Some).
  assert (HA' : ∀ st m a, st ≠ MintWaiting →
    mint_waits {| mintCache := ∅; pendingMintCalls := ∅; mintCalls := <[n := {| mint_id := k; mint_state := st |}]> (mintCalls s) |} m a →
    m ≠ n ∧ pendingMintCalls s !! a = Some m).
  { intros st m a Hst (j & Hj & Ha). cbn in Hj. destruct (decide (m = n)) as [->|Hm].
    - rewrite list_lookup_insert_eq in Hj by done. by injection Hj.
    - split; [done|]. apply HA. exists j. by rewrite list_lookup_insert_ne in Hj. }
  assert (HB' : ∀ st a m, pendingMintCalls s !! a = Some m →
    ∃ c, <[n := {| mint_id := k; mint_state := st |}]> (mintCalls s) !! m = Some c ∧ toBase58 (mint_id c) = a).
  { intros st a m Hm. destruct (decide (m = n)) as [->|Hmn].
    - eexists. split; [by apply list_lookup_insert_eq|]. destruct (HB a n Hm) as (c & Hc & Hca). rewrite Hn in Hc. by injection Hc as <-.
    - rewrite list_lookup_insert_ne by done. by apply HB. }
  destruct (r ≫= λ info, getMintInfo info) as [data|e]; split; cbn [pendingMintCalls mintCalls].
  - intros m a Hm. destruct (HA' (MintFulfilled data) m a) as [Hne Hma]; [done|exact Hm|].
    rewrite lookup_delete_ne; [done|congruence].
  - intros a m [_ Hm]%lookup_delete_Some. by apply HB'.
  - intros m a Hm. by destruct (HA' (MintFailed e) m a).
  - by apply HB'.
Qed.

Lemma mint_step_inv s s' : mint_step s s' → mint_inv s → mint_inv s'.
Proof.
  intros [id s1|n r s1|k obj s1|s1] Hs; [by apply queryMint_inv|by apply mint_reply_inv| |done].
  unfold addMint. by destruct (deserializeMint (account_data obj)).
Qed.

(** One request per mint.  In every state reachable by any interleaving of queries,
    replies, additions and clearing, at most one request per mint is under way; a query
    for the mint is answered from the cache or with that request's promise; and a reply
    with the mint's data is cached and forgets the promise, so that the next query is
    answered from the cache. *)
Theorem queryMint_single_flight s n k :
  rtc mint_step empty_mints s → mint_waits s n (toBase58 k) →
  (∀ m, mint_waits s m (toBase58 k) → m = n) ∧
  snd (queryMint (IsPublicKey k) s) = s ∧
  (fst (queryMint (IsPublicKey k) s) = Ok (MintPromised n) ∨
   ∃ mint, getMint (IsPublicKey k) s = Some mint ∧ fst (queryMint (IsPublicKey k) s) = Ok (MintCached mint)) ∧
  (∀ info mint, deserializeMint (account_data info) = Ok mint →
     let s' := mint_reply n (Ok (Some info)) s in
     queryMint (IsPublicKey k) s' = (Ok (MintCached mint), s') ∧ pendingMintCalls s' !! toBase58 k = None).
Proof.
  intros Hs Hn. assert (Hinv : mint_inv s).
  { clear Hn. pattern s. revert s Hs. apply rtc_ind_r; [|intros; by eapply mint_step_inv].
    split; [by intros m a (j & Hj & _)|intros a m Hm; cbn in Hm; by rewrite lookup_empty in Hm]. }
  destruct Hinv as [HA _]. pose proof (HA n _ Hn) as Hp. split_and!.
  - intros m Hm. pose proof (HA m _ Hm). congruence.
  - unfold queryMint. destruct (mintCache s !! toBase58 k); [done|]. by rewrite Hp.
  - unfold queryMint, getMint. cbn. destruct (mintCache s !! toBase58 k) as [mint|]; [right; by exists mint|left]. by rewrite Hp.
  - intros info mint Hmint s'. destruct Hn as (j & Hj & Hjk).
    assert (Hs' : s' = {| mintCache := <[toBase58 k := mint]> (mintCache s);
      pendingMintCalls := delete (toBase58 k) (pendingMintCalls s);
      mintCalls := <[n := {| mint_id := j; mint_state := MintFulfilled mint |}]> (mintCalls s) |}).
    { unfold s', mint_reply. rewrite Hj. cbn. by rewrite Hmint, Hjk. }
    rewrite Hs'. split; [|apply lookup_delete_eq]. unfold queryMint. cbn. by rewrite lookup_insert_eq.
Qed.

(** The last of several transactions with a signature is the one that is kept, and
    transactions with other signatures are not touched. *)
Lemma addBulkTransactions_get {LocalTx} (signature_of : LocalTx → string) txs c sig :
  getTransaction sig (addBulkTransactions signature_of txs c) =
  match last (filter (λ tx, signature_of tx = sig) txs) with
  | Some tx => Some (Some tx)
  | None => getTransaction sig c
  end.
Proof.
  unfold getTransaction, addBulkTransactions. induction txs as [|tx txs IH] using rev_ind; [done|].
  rewrite foldl_snoc, filter_app. destruct (decide (signature_of tx = sig)) as [<-|Hne].
  - rewrite filter_cons_True, filter_nil by done. rewrite last_snoc. apply map_get_set.
  - rewrite filter_cons_False, filter_nil by done. rewrite app_nil_r, map_get_set_ne by done. exact IH.
Qed.

End Mints.

(** ** Concrete inputs *)

#[local] Remove Hints SampleParsers : typeclass_instances.

(** A user with a token account of the pool's mint; every account is a token account. *)
Definition sample_user : PublicKey := sample_key 50.
Definition sample_wallet_account : PublicKey := sample_key 160.
Definition sample_kind (a : string) : Parser := TokenAccountParser.
Definition is_sample_user (k : PublicKey) : Prop := k = sample_user.
Definition sample_token_data (amount : Z) : AccountInfo :=
  owned_account (raw_account_bytes (sample_raw_account sample_user TENDERIZED_SOL_MINT_ID amount)) 1.
Definition sample_token (amount : Z) : TokenAccountInfo :=
  sample_token_info sample_user TENDERIZED_SOL_MINT_ID amount.

#[global] Instance SampleTokenRpc : TokenRpc unit := {|
  rpc_getTokenAccountsByOwner := λ _ w, (Ok [(sample_wallet_account, sample_token_data 1000)], w);
|}.

Lemma sample_markets_typed : markets_typed sample_kind.
Proof. intros k obj acc m Hk. discriminate. Qed.

Lemma sample_deserialized amount :
  0 <= amount < 2 ^ 64 → deserializeAccount (account_data (sample_token_data amount)) = Ok (sample_token amount).
Proof. intros Ha. apply deserializeAccount_packed. by apply sample_account_packed. Qed.

Lemma sample_data_length amount : length (account_data (sample_token_data amount)) = 165%nat.
Proof. unfold sample_token_data, raw_account_bytes. cbn -[le_split]. by rewrite !length_app, !length_le_split. Qed.

(** The cache after the account was loaded. *)
Definition sample_loaded : CacheState :=
  snd (cache_add (IsString (toBase58 sample_wallet_account)) (sample_token_data 1000) (Some TokenAccountParser) empty_cache).

Lemma sample_loaded_reachable : rtc (typed_step sample_kind is_sample_user) empty_cache sample_loaded.
Proof. apply rtc_once, typed_add. by intros q [= <-]. Qed.

Definition sample_parsed : ParsedAccountBase :=
  {| pa_pubkey := sample_wallet_account; pa_account := sample_token_data 1000; pa_info := TokenInfo (sample_token 1000) |}.

Lemma sample_loaded_cached : genericCache sample_loaded !! toBase58 sample_wallet_account = Some sample_parsed.
Proof.
  destruct (add_token_account sample_wallet_account (sample_token_data 1000) (sample_token 1000) empty_cache)
    as (s' & Hadd & Hg); [rewrite sample_data_length; lia|by apply sample_deserialized|].
  unfold sample_loaded. rewrite Hadd. cbn [snd]. rewrite Hg. apply lookup_insert_eq.
Qed.


Lemma selectUserAccounts_exact_witness :
  ∃ us, selectUserAccounts (Some sample_user) sample_loaded = Ok us ∧ NoDup (ua_pubkey <$> us) ∧
    ∀ u, u ∈ us ↔ ti_owner (ua_info u) = sample_user ∧
      genericCache sample_loaded !! toBase58 (ua_pubkey u) =
        Some {| pa_pubkey := ua_pubkey u; pa_account := ua_account u; pa_info := TokenInfo (ua_info u) |}.
Proof.
  apply (selectUserAccounts_exact sample_kind is_sample_user sample_markets_typed sample_loaded sample_user).
  apply sample_loaded_reachable.
Defined.

Definition sample_provider (s : CacheState) (owners : gset string) : ProviderState unit := Build_ProviderState tt s owners.

Lemma precacheUserTokenAccounts_loads_witness :
  ∃ s' us,
    precacheUserTokenAccounts (Some sample_user) (sample_provider empty_cache ∅) =
      (Ok tt, sample_provider s' ({[toBase58 sample_user]} ∪ ∅)) ∧
    rtc (typed_step sample_kind is_sample_user) empty_cache s' ∧
    selectUserAccounts (Some sample_user) s' = Ok us ∧
    ∀ u, u ∈ us ↔
      ((ua_pubkey u, ua_account u) ∈ [(sample_wallet_account, sample_token_data 1000)] ∧
       deserializeAccount (account_data (ua_account u)) = Ok (ua_info u)) ∨
      ((ua_pubkey u ∉ fst <$> [(sample_wallet_account, sample_token_data 1000)]) ∧ ti_owner (ua_info u) = sample_user ∧
       genericCache empty_cache !! toBase58 (ua_pubkey u) =
         Some {| pa_pubkey := ua_pubkey u; pa_account := ua_account u; pa_info := TokenInfo (ua_info u) |}).
Proof.
  apply (precacheUserTokenAccounts_loads sample_kind is_sample_user sample_markets_typed (sample_provider empty_cache ∅)
    sample_user [(sample_wallet_account, sample_token_data 1000)] tt).
  - constructor.
  - reflexivity.
  - constructor; [|constructor]. cbn [fst snd]. split; [rewrite sample_data_length; lia|]. split; [done|].
    exists (sample_token 1000). split; [by apply sample_deserialized|done].
  - apply NoDup_singleton.
Defined.

Lemma token_change_published_witness :
  ∃ s' us, program_account_changed (Some sample_user) (toBase58 sample_wallet_account) (sample_token_data 2000)
        (sample_provider sample_loaded {[toBase58 sample_user]}) =
      (Ok (Some us), sample_provider s' {[toBase58 sample_user]}) ∧
    rtc (typed_step sample_kind is_sample_user) empty_cache s' ∧
    (ti_owner (sample_token 2000) = sample_user →
       {| ua_pubkey := sample_wallet_account; ua_account := sample_token_data 2000; ua_info := sample_token 2000 |} ∈ us) ∧
    (∀ u, u ∈ us → ua_pubkey u = sample_wallet_account →
       u = {| ua_pubkey := sample_wallet_account; ua_account := sample_token_data 2000; ua_info := sample_token 2000 |}).
Proof.
  assert (Hw := token_change_published sample_kind is_sample_user sample_markets_typed
    (sample_provider sample_loaded {[toBase58 sample_user]}) sample_wallet_account
    (sample_token_data 2000) (sample_token 2000) sample_user sample_loaded_reachable eq_refl (sample_data_length 2000)).
  rewrite decide_True in Hw by (apply elem_of_singleton; done). apply Hw. by apply sample_deserialized.
Defined.

Lemma cached_accounts_followed_witness :
  (∃ k, is_sample_user k ∧ toBase58 sample_wallet_account = toBase58 k) ∨
  ∃ p, (toBase58 sample_wallet_account, p) ∈ subscriptions (length (events empty_cache)) sample_loaded ∧
    ∀ info acc', (0 < length (account_data info))%nat → parse p (pa_pubkey sample_parsed) info = Ok acc' →
      ∃ s', account_changed (toBase58 sample_wallet_account, p) info sample_loaded = (Ok (Some acc'), s') ∧
        events s' = events sample_loaded ++ [CacheUpdated (toBase58 sample_wallet_account) false p] ∧
        ∀ q, hook_event q (Some (toBase58 sample_wallet_account))
               (CacheUpdated (toBase58 sample_wallet_account) false p) s' = (Ok (Some (Cached acc')), s').
Proof.
  apply (cached_accounts_followed sample_kind is_sample_user sample_markets_typed empty_cache sample_loaded
    (toBase58 sample_wallet_account) sample_parsed).
  - apply empty_typed.
  - reflexivity.
  - apply sample_loaded_reachable.
  - apply sample_loaded_cached.
Defined.

Definition sample_browser : Browser SampleCluster :=
  Build_Browser {| sc_accounts := []; sc_activations := []; sc_votes := []; sc_epoch := num_of_Z 3 |} [] [] [].

Definition sample_user_account : UserAccount :=
  {| ua_pubkey := sample_wallet_account; ua_account := sample_token_data 1000; ua_info := sample_token 1000 |}.

Lemma sample_selected : selectUserAccounts (Some sample_user) sample_loaded = Ok [sample_user_account].
Proof. reflexivity. Qed.

Lemma deposit_target_from_cache_witness :
  findOrCreateAccountByMint (cached_token_accounts sample_loaded) sample_user sample_user empty_draft (num_of_Z 7)
    TENDERIZED_SOL_MINT_ID None sample_browser = (Ok (sample_wallet_account, empty_draft), sample_browser).
Proof.
  rewrite (deposit_target_from_cache sample_kind is_sample_user sample_markets_typed sample_loaded sample_user
    [sample_user_account] TENDERIZED_SOL_MINT_ID);
    [reflexivity|apply sample_loaded_reachable|apply sample_selected|by vm_compute].
Defined.

Definition sample_mint_key : PublicKey := sample_key 9.
Definition sample_mint_waiting : MintState := snd (queryMint (IsPublicKey sample_mint_key) empty_mints).

Lemma queryMint_single_flight_witness :
  (∀ m, mint_waits sample_mint_waiting m (toBase58 sample_mint_key) → m = 0%nat) ∧
  snd (queryMint (IsPublicKey sample_mint_key) sample_mint_waiting) = sample_mint_waiting ∧
  (fst (queryMint (IsPublicKey sample_mint_key) sample_mint_waiting) = Ok (MintPromised 0) ∨
   ∃ mint, getMint (IsPublicKey sample_mint_key) sample_mint_waiting = Some mint ∧
     fst (queryMint (IsPublicKey sample_mint_key) sample_mint_waiting) = Ok (MintCached mint)) ∧
  (∀ info mint, deserializeMint (account_data info) = Ok mint →
     let s' := mint_reply 0 (Ok (Some info)) sample_mint_waiting in
     queryMint (IsPublicKey sample_mint_key) s' = (Ok (MintCached mint), s') ∧
     pendingMintCalls s' !! toBase58 sample_mint_key = None).
Proof.
  apply (queryMint_single_flight sample_mint_waiting 0 sample_mint_key).
  - apply rtc_once, mstep_query.
  - by exists sample_mint_key.
Defined.
