(* ===== verification/Market.v ===== *)
(** * Markets and prices (src/contexts/market.tsx)

    The provider of prices: it loads the markets of the tokens it is told about and the
    accounts they refer to into the account cache, keeps the order books somebody
    subscribed to up to date, and computes a token's price from the best orders. *)

From Stdlib Require Import ZArith Lia.
From Stdlib Require Import String.
From stdpp Require Import base list strings sets gmap gmultiset relations.
From coqutil Require Import Byte Word.LittleEndianList.
From S2P Require Import Prelude JsNumber Buffers Web3 Sample Program Instructions SamplePool.
From S2P Require Import Wire Readers Layouts Lending Actions Cache Tokens UserAccounts.

Open Scope Z_scope.

(** A JavaScript [Set] of strings that is iterated: each once, in the order of insertion. *)
Definition set_add (k : string) (l : list string) : list string := if decide (k ∈ l) then l else l ++ [k].
Definition js_set (l : list string) : list string := foldl (λ acc k, set_add k acc) [] l.

(** [Map.prototype.delete]. *)
Definition map_delete {V} (k : string) (l : list (string * V)) : list (string * V) :=
  filter (λ e, e.1 ≠ k) l.

Section Market.
#[local] Remove Hints SampleKeys SampleSplToken SampleSerum SampleParsers SampleMultipleAccounts : typeclass_instances.
Context `{Keys} `{!SplToken} `{SplLayouts} `{!Serum} {W : Type} `{!MultipleAccounts W}.

(** ** The markets of the tokens *)

(** [MINT_TO_MARKET] of src/models/marketOverrides.ts. *)
Definition MINT_TO_MARKET : list (string * string) := [].

(** The name of a token of the exchange's list. *)
Definition serum_token_name (mintAddress : option string) : option string :=
  snd <$> List.find (λ a, bool_decide (Some (toBase58 a.1) = mintAddress)) TOKEN_MINTS.

Definition market_of_mint (mintAddress : string) : option (PublicKey * string * PublicKey) :=
  let marketAddress := map_get mintAddress MINT_TO_MARKET in
  let marketName := (default "undefined" (serum_token_name (Some mintAddress)) ++ "/USDC")%string in
  List.find (λ m, (m.1.2 =? marketName)%string || bool_decide (Some (toBase58 m.1.1) = marketAddress)) MARKETS.

(** The [Map] from mints to the addresses of their markets. *)
Definition marketByMint (marketMints : list string) : list (string * PublicKey) :=
  foldl (λ acc key, match market_of_mint key with
                    | Some marketInfo => map_set key marketInfo.1.1 acc
                    | None => acc
                    end) [] (js_set marketMints).

(** The new list of mints, if it is longer than the old one. *)
Definition precacheMarkets (marketMints mints : list string) : list string :=
  let newMints := js_set (marketMints ++ mints) in
  if (length marketMints =? length newMints)%nat then marketMints else newMints.

(** ** Loading accounts *)

Record MarketWorld := {
  mw_world : W;
  mw_cache : CacheState;
  (** The sets of mints given to [raiseMarketUpdated]. *)
  mw_raised : list (list string);
}.

Definition from_cluster {A} (m : M W A) : M MarketWorld A := λ s,
  let '(r, w) := m (mw_world s) in (r, {| mw_world := w; mw_cache := mw_cache s; mw_raised := mw_raised s |}).
Definition with_cache {A} (m : M CacheState A) : M MarketWorld A := λ s,
  let '(r, c) := m (mw_cache s) in (r, {| mw_world := mw_world s; mw_cache := c; mw_raised := mw_raised s |}).
Definition raiseMarketUpdated (ids : list string) : M MarketWorld unit := λ s,
  (Ok tt, {| mw_world := mw_world s; mw_cache := mw_cache s; mw_raised := mw_raised s ++ [ids] |}).
Definition cached (a : string) : M MarketWorld (option ParsedAccountBase) :=
  with_cache (λ s, (Ok (cache_get (IsString a) s), s)).

(** The accounts found are put under the keys at their positions, with the parsers
    registered there. *)
Definition refreshAccounts (keys : list string) : M MarketWorld (list (option ParsedAccountBase)) :=
  match keys with
  | [] => mret []
  | _ =>
      '(keys, array) ← from_cluster (getMultipleAccounts keys "single");
      map_async (λ e : string * AccountInfo,
        address ← lift (PublicKey_of_string e.1);
        with_cache (cache_add (IsPublicKey address) e.2 None)) (zip keys array)
  end.

(** The first part of [initalQuery]: the markets that are not cached. *)
Definition load_markets (markets : list (string * PublicKey)) : M MarketWorld unit :=
  let reverseSerumMarketCache := foldl (λ acc e, map_set (toBase58 e.2) e.1 acc) [] markets in
  let allMarkets := (λ e : string * PublicKey, toBase58 e.2) <$> markets in
  missing ← with_cache (λ s, (Ok (filter (λ a, genericCache s !! a = None) allMarkets), s));
  '(keys, array) ← from_cluster (getMultipleAccounts missing "single");
  for_each (zip keys array) (λ e : string * AccountInfo,
    match map_get e.1 reverseSerumMarketCache with
    | None | Some EmptyString => mret tt
    | Some mintAddress =>
        match map_get mintAddress markets with
        | None => mret tt
        | Some id => _ ← with_cache (cache_add (IsPublicKey id) e.2 (Some DexMarketParser)); mret tt
        end
    end).

(** [market.info] of a cached account, used as a market. *)
Definition market_info (a : ParsedAccountBase) : result MarketState :=
  match pa_info a with DexMarketInfo m => Ok m | _ => Err TypeError end.

(** The accounts of one market to ask for: both mints depend on the base mint. *)
Definition query_market (toQuery : list string) (m : string) : M MarketWorld (list string) :=
  market ← cached m;
  match market with
  | None => mret toQuery
  | Some decoded =>
      info ← lift (market_info decoded);
      base ← cached (toBase58 (baseMint info));
      let toQuery := match base with None => set_add (toBase58 (baseMint info)) toQuery | Some _ => toQuery end in
      let toQuery := match base with None => set_add (toBase58 (quoteMint info)) toQuery | Some _ => toQuery end in
      mret (set_add (toBase58 (asks info)) (set_add (toBase58 (bids info)) toQuery))
  end.

Definition to_query (allMarkets : list string) : M MarketWorld (list string) :=
  for_of allMarkets [] (λ toQuery m, q ← query_market toQuery m; mret (Continue q)).

(** One turn of the update loop; the timer then starts the next one. *)
Definition updateData (accountsToObserve : list (string * Z)) (markets : list (string * PublicKey))
  : M MarketWorld unit :=
  _ ← refreshAccounts (fst <$> accountsToObserve);
  raiseMarketUpdated (fst <$> markets).

Definition initalQuery (accountsToObserve : list (string * Z)) (markets : list (string * PublicKey))
  : M MarketWorld unit :=
  _ ← load_markets markets;
  toQuery ← to_query ((λ e : string * PublicKey, toBase58 e.2) <$> markets);
  _ ← refreshAccounts toQuery;
  _ ← raiseMarketUpdated (fst <$> markets);
  updateData accountsToObserve markets.

(** ** Subscriptions *)

Definition count_of (k : string) (accountsToObserve : list (string * Z)) : Z :=
  default 0 (map_get k accountsToObserve).

(** The accounts a subscription observes, if the market is loaded, and the new counts. *)
Definition subscribeToMarket (markets : list (string * PublicKey)) (s : CacheState) (mintAddress : string)
    (accountsToObserve : list (string * Z)) : result (option (string * string) * list (string * Z)) :=
  match cache_get (IsString (match map_get mintAddress markets with
                             | Some address => toBase58 address | None => EmptyString end)) s with
  | None => mret (None, accountsToObserve)
  | Some market =>
      info ← market_info market;
      let bid := toBase58 (bids info) in
      let ask := toBase58 (asks info) in
      let o := map_set bid (count_of bid accountsToObserve + 1) accountsToObserve in
      let o := map_set ask (count_of ask o + 1) o in
      mret (Some (bid, ask), o)
  end.

(** The function a subscription returns. *)
Definition unsubscribe (sub : string * string) (accountsToObserve : list (string * Z)) : list (string * Z) :=
  let o := map_set sub.1 (count_of sub.1 accountsToObserve - 1) accountsToObserve in
  let o := map_set sub.2 (count_of sub.2 o - 1) o in
  foldl (λ o key, if count_of key o <=? 0 then map_delete key o else o) o (fst <$> o).

(** ** Prices *)

Definition STABLE_COINS : list string := ["USDC"%string; "wUSDC"%string; "USDT"%string].

(** The best bid and the best ask, as prices. *)
Definition bbo (bestBid bestAsk : list (num * num)) : num :=
  match bestBid, bestAsk with
  | b :: _, a :: _ => num_div (num_add b.1 a.1) (num_of_Z 2)
  | _, _ => num_of_Z 0
  end.

(** [cache.get(key)?.info.decimals || 0]. *)
Definition decimals_of (key : PublicKey) (s : CacheState) : Z :=
  match cache_get (IsPublicKey key) s with
  | Some {| pa_info := MintData i |} => mi_decimals i
  | _ => 0
  end.

Definition orderbook (info : Info) : result OrderbookState :=
  match info with OrderBookInfo b => Ok b | _ => Err TypeError end.

Definition getMidPrice (s : CacheState) (marketAddress mintAddress : option string) : result num :=
  if bool_decide (default EmptyString (serum_token_name mintAddress) ∈ STABLE_COINS) then mret (num_of_Z 1)
  else
    match marketAddress with
    | None | Some EmptyString => mret (num_of_Z 0)
    | Some marketAddress =>
        match cache_get (IsString marketAddress) s with
        | None => mret (num_of_Z 0)
        | Some marketInfo =>
            decodedMarket ← market_info marketInfo;
            market ← new_Market decodedMarket (decimals_of (baseMint decodedMarket) s)
                       (decimals_of (quoteMint decodedMarket) s);
            match cache_get (IsPublicKey (bids decodedMarket)) s, cache_get (IsPublicKey (asks decodedMarket)) s with
            | Some b, Some a =>
                bidsBook ← orderbook (pa_info b);
                asksBook ← orderbook (pa_info a);
                bestBid ← getL2_1 market bidsBook;
                bestAsk ← getL2_1 market asksBook;
                mret (bbo bestBid bestAsk)
            | _, _ => mret (num_of_Z 0)
            end
        end
    end.

Definition midPriceInUSD (markets : list (string * PublicKey)) (s : CacheState) (mintAddress : string) : result num :=
  getMidPrice s (toBase58 <$> map_get mintAddress markets) (Some mintAddress).

(** What [useMidPriceInUSD] returns: the price and [isBase]. *)
Definition useMidPriceInUSD (markets : list (string * PublicKey)) (s : CacheState) (mint : string)
  : result (num * bool) :=
  price ← midPriceInUSD markets s mint; mret (price, num_eqb price (num_of_Z 1)).

End Market.

Arguments MarketWorld {_ _ _ _} W.

(** ** Counting subscriptions *)

Lemma count_set j k v o : count_of j (map_set k v o) = if decide (j = k) then v else count_of j o.
Proof.
  unfold count_of. case_decide as Hj; [subst j; by rewrite map_get_set|by rewrite map_get_set_ne].
Qed.

Lemma count_get k v o : map_get k o = Some v → count_of k o = v.
Proof. unfold count_of. by intros ->. Qed.

Lemma map_get_delete {V} j k (o : list (string * V)) :
  map_get j (map_delete k o) = if decide (j = k) then None else map_get j o.
Proof.
  unfold map_delete. induction o as [|[k' v] o IH]; [by destruct (decide (j = k))|].
  destruct (decide (k' = k)) as [->|Hk].
  - rewrite filter_cons_False by (cbn; tauto). rewrite IH. cbn. by destruct (decide (j = k)).
  - rewrite filter_cons_True by done. cbn. rewrite IH. destruct (decide (j = k')), (decide (j = k)); congruence.
Qed.

Lemma map_delete_NoDup {V} k (o : list (string * V)) : NoDup (fst <$> o) → NoDup (fst <$> map_delete k o).
Proof. intros Ho. eapply sublist_NoDup; [exact Ho|]. apply fmap_sublist, sublist_filter. Qed.

(** The cleanup removes the keys it visits whose count is not positive. *)
Lemma cleanup_get j ks o :
  map_get j (foldl (λ o key, if count_of key o <=? 0 then map_delete key o else o) o ks) =
  if decide (j ∈ ks ∧ count_of j o <= 0) then None else map_get j o.
Proof.
  revert o; induction ks as [|k ks IH]; intros o; cbn [foldl]; [by rewrite decide_False by set_solver|].
  rewrite IH. destruct (Z.leb_spec (count_of k o) 0) as [Hk|Hk].
  - assert (Hc : count_of j (map_delete k o) = if decide (j = k) then 0 else count_of j o).
    { unfold count_of. rewrite map_get_delete. by destruct (decide (j = k)). }
    rewrite Hc, map_get_delete. destruct (decide (j = k)) as [->|Hj].
    + rewrite (decide_True (P := k ∈ k :: ks ∧ _)) by set_solver. by case_decide.
    + apply decide_ext. set_solver.
  - apply decide_ext. split; [set_solver|]. intros [[->|Hj]%elem_of_cons Hle]; [lia|done].
Qed.

Lemma cleanup_NoDup ks o :
  NoDup (fst <$> o) →
  NoDup (fst <$> foldl (λ o key, if count_of key o <=? 0 then map_delete key o else o) o ks).
Proof.
  revert o; induction ks as [|k ks IH]; intros o Ho; cbn [foldl]; [done|]. apply IH.
  destruct (count_of k o <=? 0); [by apply map_delete_NoDup|done].
Qed.

(** The accounts the live subscriptions observe, each as often as it is observed. *)
Definition observing (live : list (string * string)) : gmultiset string :=
  foldr (λ sub acc, {[+ sub.1 +]} ⊎ {[+ sub.2 +]} ⊎ acc) ∅ live.

(** The map of counts implements the multiset: positive counts only, no key twice. *)
Record observes (o : list (string * Z)) (X : gmultiset string) : Prop := {
  ob_nodup : NoDup (fst <$> o);
  ob_count : ∀ k, count_of k o = Z.of_nat (multiplicity k X);
  ob_positive : ∀ k v, map_get k o = Some v → 0 < v;
}.

Lemma observing_app l1 l2 : observing (l1 ++ l2) = observing l1 ⊎ observing l2.
Proof.
  induction l1 as [|sub l1 IH]; cbn [app observing foldr]; [by rewrite (left_id_L ∅ (⊎))|].
  fold (observing (l1 ++ l2)) (observing l1). by rewrite IH, !(assoc_L (⊎)).
Qed.

Lemma observes_keys o X k : observes o X → k ∈ fst <$> o ↔ k ∈ X.
Proof.
  intros [Hn Hc Hp]. rewrite elem_of_multiplicity. specialize (Hc k). unfold count_of in Hc. split.
  - intros ([k' v] & -> & Hin)%list_elem_of_fmap. apply (map_get_elem k' v o Hn) in Hin as Hg.
    cbn in *. rewrite Hg in Hc. cbn in Hc. apply Hp in Hg. lia.
  - intros Hm. destruct (map_get k o) as [v|] eqn:Hg; cbn in Hc; [|lia].
    apply (map_get_elem k v o Hn) in Hg. apply list_elem_of_fmap. by exists (k, v).
Qed.

Lemma multiplicity_single (k x : string) : Z.of_nat (multiplicity k {[+ x +]}) = if decide (k = x) then 1 else 0.
Proof.
  rewrite multiplicity_singleton. destruct (decide (k = x)); done.
Qed.

Lemma subscribe_observes o X bid ask :
  observes o X →
  observes (map_set ask (count_of ask (map_set bid (count_of bid o + 1) o) + 1) (map_set bid (count_of bid o + 1) o))
    ({[+ bid +]} ⊎ {[+ ask +]} ⊎ X).
Proof.
  intros [Hn Hc Hp].
  assert (Hcount : ∀ k, count_of k (map_set ask (count_of ask (map_set bid (count_of bid o + 1) o) + 1)
                     (map_set bid (count_of bid o + 1) o)) =
                   Z.of_nat (multiplicity k ({[+ bid +]} ⊎ {[+ ask +]} ⊎ X))).
  { intros k. rewrite !multiplicity_disj_union, !Nat2Z.inj_add, !multiplicity_single, <- Hc, !count_set.
    repeat case_decide; subst; try done; lia. }
  split; [by repeat apply map_set_NoDup|exact Hcount|].
  intros k v Hk. specialize (Hcount k). rewrite (count_get k v) in Hcount by done.
  rewrite !multiplicity_disj_union, !Nat2Z.inj_add, !multiplicity_single in Hcount.
  destruct (decide (k = bid)), (decide (k = ask)); [lia..|].
  rewrite !map_get_set_ne in Hk by done. by eapply Hp.
Qed.

Lemma unsubscribe_observes o X sub :
  observes o ({[+ sub.1 +]} ⊎ {[+ sub.2 +]} ⊎ X) → observes (unsubscribe sub o) X.
Proof.
  intros [Hn Hc Hp]. destruct sub as [bid ask]. cbn [fst snd] in Hc. unfold unsubscribe. cbn [fst snd].
  set (o2 := map_set ask _ _).
  assert (Hn2 : NoDup (fst <$> o2)) by (by repeat apply map_set_NoDup).
  assert (Hcount : ∀ k, count_of k o2 = Z.of_nat (multiplicity k X)).
  { intros k. unfold o2. rewrite !count_set, !Hc, !multiplicity_disj_union, !Nat2Z.inj_add, !multiplicity_single.
    repeat case_decide; subst; try done; lia. }
  assert (Hget : ∀ k, map_get k (foldl (λ o key, if count_of key o <=? 0 then map_delete key o else o) o2 (fst <$> o2)) =
    if decide (count_of k o2 <= 0) then None else map_get k o2).
  { intros k. rewrite cleanup_get. destruct (decide (k ∈ fst <$> o2)) as [Hk|Hk]; [apply decide_ext; tauto|].
    rewrite decide_False by tauto. destruct (map_get k o2) as [v|] eqn:Hv; [|by case_decide].
    exfalso. apply Hk. apply (map_get_elem k v o2 Hn2) in Hv. apply list_elem_of_fmap. by exists (k, v). }
  split; [by apply cleanup_NoDup|..].
  - intros k. unfold count_of. rewrite Hget. specialize (Hcount k).
    case_decide; [cbn; lia|]. exact Hcount.
  - intros k v. rewrite Hget. case_decide as Hk; [done|]. intros Hv. rewrite (count_get k v) in Hk by done. lia.
Qed.

Section MarketFacts.
#[local] Remove Hints SampleKeys SampleSplToken SampleSerum SampleParsers SampleMultipleAccounts SampleKeysLaws SampleBase58Laws SampleReportsAccounts : typeclass_instances.
Context `{Keys} `{!Base58Laws} `{!SplToken} `{SplLayouts} `{!Serum}.

(** Subscribing, whatever the markets and the cache are by then, and ending one of the
    live subscriptions. *)
Inductive observe_step : list (string * Z) * list (string * string) →
                         list (string * Z) * list (string * string) → Prop :=
  | ob_subscribe markets s mint o o' live sub :
      subscribeToMarket markets s mint o = Ok (Some sub, o') →
      observe_step (o, live) (o', live ++ [sub])
  | ob_unsubscribe o l1 sub l2 :
      observe_step (o, l1 ++ sub :: l2) (unsubscribe sub o, l1 ++ l2).

Lemma observe_step_observes st st' :
  observe_step st st' → observes st.1 (observing st.2) → observes st'.1 (observing st'.2).
Proof.
  intros [markets s mint o o' live sub Hsub|o l1 sub l2] Hob; cbn [fst snd] in *.
  - unfold subscribeToMarket in Hsub. destruct (cache_get _ s) as [market|]; [|done].
    apply result_bind_Ok in Hsub as (info & _ & [= <- <-]).
    rewrite observing_app. cbn [observing foldr fst snd]. rewrite (right_id_L ∅ (⊎)), (comm_L (⊎) (observing live)).
    by apply subscribe_observes.
  - apply unsubscribe_observes. rewrite observing_app in *. cbn [observing foldr] in Hob.
    fold (observing l2) in Hob. by rewrite (assoc_L (⊎)), (comm_L (⊎) (observing l1)), <- (assoc_L (⊎)) in Hob.
Qed.

Lemma observing_elem k live : k ∈ observing live ↔ ∃ sub, sub ∈ live ∧ (k = sub.1 ∨ k = sub.2).
Proof.
  induction live as [|sub live IH]; cbn [observing foldr]; [split; [multiset_solver|set_solver]|].
  fold (observing live). rewrite !gmultiset_elem_of_disj_union, !gmultiset_elem_of_singleton, IH. set_solver.
Qed.

Lemma observing_Permutation l1 l2 : l1 ≡ₚ l2 → observing l1 = observing l2.
Proof.
  induction 1 as [|x l1 l2 _ IH|x y l|]; cbn [observing foldr]; [done|fold (observing l1) (observing l2); by rewrite IH| |congruence].
  multiset_solver.
Qed.

Lemma unsubscribe_all live o : observes o (observing live) → foldl (λ o sub, unsubscribe sub o) o live = [].
Proof.
  revert o; induction live as [|sub live IH]; intros o Hob; cbn [foldl].
  - destruct o as [|[k v] o]; [done|]. assert (Hk : k ∈ observing []); [|cbn in Hk; multiset_solver].
    apply (observes_keys _ _ k Hob). by left.
  - apply IH, unsubscribe_observes. exact Hob.
Qed.

(** C31: observed accounts.  Through any sequence of subscriptions and of ends of
    subscriptions, the map of counts is the multiset of the accounts of the live
    subscriptions: an account is refreshed exactly as long as a live subscription needs
    it, and ending all subscriptions, in whatever order, leaves nothing to refresh. *)
Theorem accountsToObserve_counts o live :
  rtc observe_step ([], []) (o, live) →
  NoDup (fst <$> o) ∧ (∀ k, count_of k o = Z.of_nat (multiplicity k (observing live))) ∧
  (∀ k, k ∈ fst <$> o ↔ ∃ sub, sub ∈ live ∧ (k = sub.1 ∨ k = sub.2)) ∧
  (∀ order, order ≡ₚ live → foldl (λ o sub, unsubscribe sub o) o order = []).
Proof.
  intros Hsteps.
  assert (Hinv : observes o (observing live)).
  { change (observes (o, live).1 (observing (o, live).2)). revert Hsteps. generalize (o, live) as st. intros st Hsteps.
    pattern st. revert st Hsteps. apply rtc_ind_r; [|intros; by eapply observe_step_observes].
    split; [constructor|done|done]. }
  split_and!; [apply Hinv|apply Hinv|..].
  - intros k. by rewrite (observes_keys _ _ k Hinv), observing_elem.
  - intros order Hp. apply unsubscribe_all. by rewrite (observing_Permutation order live).
Qed.

(** ** The list of mints *)

Lemma set_add_elem k x l : x ∈ set_add k l ↔ x ∈ l ∨ x = k.
Proof. unfold set_add. case_decide; set_solver. Qed.

Lemma set_add_NoDup k l : NoDup l → NoDup (set_add k l).
Proof.
  intros Hl. unfold set_add. case_decide; [done|]. apply NoDup_app.
  split_and!; [done| |apply NoDup_singleton]. set_solver.
Qed.

Lemma js_set_fold l acc :
  NoDup acc → let r := foldl (λ acc k, set_add k acc) acc l in
  NoDup r ∧ (∀ x, x ∈ r ↔ x ∈ acc ∨ x ∈ l) ∧ acc `prefix_of` r ∧ ((∀ x, x ∈ l → x ∈ acc) → r = acc).
Proof.
  revert acc; induction l as [|k l IH]; intros acc Ha; cbn [foldl].
  { split_and!; [done|set_solver|done|done]. }
  destruct (IH (set_add k acc) (set_add_NoDup k acc Ha)) as (Hn & Hx & Hp & He). split_and!.
  - done.
  - intros x. rewrite Hx, set_add_elem. set_solver.
  - etransitivity; [|exact Hp]. unfold set_add. case_decide; [done|by apply prefix_app_r].
  - intros Hall. assert (Hk : set_add k acc = acc) by (unfold set_add; rewrite decide_True by (apply Hall; by left); done).
    rewrite Hk in *. apply He. set_solver.
Qed.

Lemma js_set_id l : NoDup l → js_set l = l.
Proof.
  unfold js_set. intros Hl.
  assert (Hgen : ∀ acc, NoDup (acc ++ l) → foldl (λ acc k, set_add k acc) acc l = acc ++ l).
  { clear Hl. induction l as [|k l IH]; intros acc Hacc; cbn [foldl]; [by rewrite app_nil_r|].
    assert (Hk : k ∉ acc).
    { intros Hk. apply NoDup_app in Hacc as (_ & Hd & _). apply (Hd k Hk). by left. }
    unfold set_add at 2. rewrite decide_False by done. rewrite IH; [by rewrite <- app_assoc|].
    by rewrite <- app_assoc. }
  by apply (Hgen []).
Qed.

(** Telling the provider about mints.  The known mints, which are distinct, stay, in
    their order, and the new ones are appended, each once; if all are known already the
    state is left alone, so that nothing is loaded again. *)
Theorem precacheMarkets_union marketMints mints :
  NoDup marketMints →
  let r := precacheMarkets marketMints mints in
  NoDup r ∧ (∀ x, x ∈ r ↔ x ∈ marketMints ∨ x ∈ mints) ∧ marketMints `prefix_of` r ∧
  ((∀ x, x ∈ mints → x ∈ marketMints) → r = marketMints).
Proof.
  intros Hn r. unfold r, precacheMarkets.
  assert (Hset : js_set (marketMints ++ mints) = foldl (λ acc k, set_add k acc) marketMints mints).
  { unfold js_set. rewrite foldl_app. fold (js_set marketMints). by rewrite js_set_id. }
  rewrite Hset. destruct (js_set_fold mints marketMints Hn) as (H1' & H2' & H3' & H4').
  destruct (Nat.eqb_spec (length marketMints) (length (foldl (λ acc k, set_add k acc) marketMints mints))) as [Hl|Hl]; [|done].
  assert (He := prefix_length_eq _ _ H3' ltac:(lia)). rewrite <- He in H2'. by split_and!.
Qed.

(** ** Prices *)

(** The price of a token.  Stable coins cost 1 whatever is loaded; a token without a
    market, or whose market or order books are not loaded, costs 0; and with both books
    loaded the price is the mean of the best bid and the best ask, or 0 if a side is
    empty.  [isBase] says whether it is 1. *)
Theorem midPriceInUSD_spec markets s mint :
  (default EmptyString (serum_token_name (Some mint)) ∈ STABLE_COINS →
     useMidPriceInUSD markets s mint = Ok (num_of_Z 1, true)) ∧
  (default EmptyString (serum_token_name (Some mint)) ∉ STABLE_COINS →
   (map_get mint markets = None → useMidPriceInUSD markets s mint = Ok (num_of_Z 0, false)) ∧
   (∀ k, map_get mint markets = Some k →
      (cache_get (IsPublicKey k) s = None → useMidPriceInUSD markets s mint = Ok (num_of_Z 0, false)) ∧
      ∀ acc m o, cache_get (IsPublicKey k) s = Some acc → pa_info acc = DexMarketInfo m →
        new_Market m (decimals_of (baseMint m) s) (decimals_of (quoteMint m) s) = Ok o →
        (cache_get (IsPublicKey (bids m)) s = None ∨ cache_get (IsPublicKey (asks m)) s = None →
           useMidPriceInUSD markets s mint = Ok (num_of_Z 0, false)) ∧
        ∀ b a bb ab lb la, cache_get (IsPublicKey (bids m)) s = Some b → pa_info b = OrderBookInfo bb →
          cache_get (IsPublicKey (asks m)) s = Some a → pa_info a = OrderBookInfo ab →
          getL2_1 o bb = Ok lb → getL2_1 o ab = Ok la →
          midPriceInUSD markets s mint =
            Ok (match lb, la with
                | (bid, _) :: _, (ask, _) :: _ => num_div (num_add bid ask) (num_of_Z 2)
                | _, _ => num_of_Z 0
                end))).
Proof.
  unfold useMidPriceInUSD, midPriceInUSD, getMidPrice. split.
  { intros Hs. rewrite bool_decide_true by done. reflexivity. }
  intros Hs. rewrite bool_decide_false by done. split; [intros ->; reflexivity|]. intros k ->. cbn [fmap option_fmap option_map].
  change (cache_get (IsPublicKey k) s) with (cache_get (IsString (toBase58 k)) s).
  assert (Hne := base58_nonempty k). destruct (toBase58 k) as [|c str]; [done|]. clear Hne.
  split; [intros ->; reflexivity|].
  intros acc m o -> Hm Ho. unfold market_info. rewrite Hm. cbn [mbind result_bind]. rewrite Ho. cbn [mbind result_bind]. split.
  - intros [-> | ->]; [reflexivity|]. by destruct (cache_get (IsPublicKey (bids m)) s).
  - intros b a bb ab lb la -> Hb -> Ha Hlb Hla. rewrite Hb, Ha. cbn [orderbook mbind result_bind]. rewrite Hlb. cbn [mbind result_bind].
    rewrite Hla. cbn. by destruct lb as [|[? ?] ?], la as [|[? ?] ?].
Qed.

(** ** Loading accounts *)

Section Refresh.
Context {W : Type} `{!MultipleAccounts W} `{!ReportsAccounts}.
Variable kind : string → Parser.
Hypothesis Hmarkets : markets_typed kind.

(** The account [acc] is what the cluster has at [a], parsed by the parser of [a]. *)
Definition current (w : W) (s : CacheState) (a : string) (acc : ParsedAccountBase) : Prop :=
  ∃ k raw, toBase58 k = a ∧ account_at w a = Some raw ∧ (0 < length (account_data (account_of_raw raw)))%nat ∧
    is_Some (map_get a (keyToAccountParser s)) ∧ parse (kind a) k (account_of_raw raw) = Ok acc.

(** An account without lamports and data. *)
Definition owned_nothing : AccountInfo :=
  {| lamports := num_of_Z 0; account_owner := SystemProgram_programId; account_data := [] |}.

(** The loop of [refreshAccounts] over keys whose accounts all exist. *)
Lemma refresh_loop (obj : string → AccountInfo) (fresh : string → ParsedAccountBase) ks (st : MarketWorld W) :
  cache_typed kind (mw_cache st) → NoDup ks →
  (∀ a, a ∈ ks → ∃ k, toBase58 k = a ∧ (0 < length (account_data (obj a)))%nat ∧
     is_Some (map_get a (keyToAccountParser (mw_cache st))) ∧ parse (kind a) k (obj a) = Ok (fresh a)) →
  ∃ c', map_async (λ e : string * AccountInfo,
          address ← lift (PublicKey_of_string e.1);
          with_cache (cache_add (IsPublicKey address) e.2 None)) ((λ a, (a, obj a)) <$> ks) st =
      (Ok (Some ∘ fresh <$> ks), {| mw_world := mw_world st; mw_cache := c'; mw_raised := mw_raised st |}) ∧
    cache_typed kind c' ∧ (∀ a, a ∈ ks → cache_get (IsString a) c' = Some (fresh a)) ∧
    (∀ a, a ∉ ks → cache_get (IsString a) c' = cache_get (IsString a) (mw_cache st)).
Proof.
  revert st; induction ks as [|a ks IH]; intros st Ht Hnd Hall.
  { exists (mw_cache st). destruct st. split_and!; [done|done|set_solver|done]. }
  apply NoDup_cons in Hnd as [Ha Hnd].
  destruct (Hall a) as (k & Hk & Hlen & Hreg & Hparse); [by left|].
  destruct Hreg as [q Hq]. assert (q = kind a) as -> by (by eapply ct_parsers).
  destruct (cache_add_accepts k (obj a) None (kind a) (fresh a) (mw_cache st)) as (c1 & Hadd & Hg & _).
  { done. } { cbn. by rewrite Hk. } { cbn. unfold client_deserialize. by rewrite Hparse. }
  assert (Hc1 : c1 = snd (cache_add (IsPublicKey k) (obj a) None (mw_cache st))) by (by rewrite Hadd).
  assert (Ht1 : cache_typed kind c1) by (rewrite Hc1; by apply add_typed).
  destruct (IH {| mw_world := mw_world st; mw_cache := c1; mw_raised := mw_raised st |}) as (c' & Hrun & Ht' & Hin & Hout).
  { done. } { done. }
  { intros b Hb. destruct (Hall b) as (kb & ? & ? & Hregb & ?); [by right|]. exists kb. split_and!; try done.
    cbn. rewrite Hc1. by apply add_grows. }
  cbn [mw_cache mw_world mw_raised] in *. exists c'. split_and!.
  - cbn [fmap list_fmap map_async fst snd]. erewrite bind_run.
    { erewrite bind_run; [|exact Hrun]. done. }
    rewrite lift_bind, <- Hk, base58_round. unfold with_cache. by rewrite Hk, Hadd.
  - done.
  - intros b [->|Hb]%elem_of_cons; [|by apply Hin]. rewrite Hout by done. unfold cache_get. cbn [address_of].
    rewrite Hg, Hk. apply lookup_insert_eq.
  - intros b [Hb Hb']%not_elem_of_cons. rewrite Hout by done. unfold cache_get. cbn [address_of].
    rewrite Hg, Hk. by apply lookup_insert_ne.
Qed.

(** Refreshing accounts that all exist.  Each of the keys gets the account the cluster
    has there, parsed by the parser of its kind; the results are returned in the order of
    the keys, no other account changes, and the cache stays well typed. *)
Theorem refreshAccounts_refreshes keys (fresh : string → ParsedAccountBase) (st : MarketWorld W) :
  cache_typed kind (mw_cache st) → NoDup keys → Z.of_nat (length keys) < 2 ^ 32 →
  (∀ a, a ∈ keys → current (mw_world st) (mw_cache st) a (fresh a)) →
  ∃ c', refreshAccounts keys st =
      (Ok (Some ∘ fresh <$> keys), {| mw_world := mw_world st; mw_cache := c'; mw_raised := mw_raised st |}) ∧
    cache_typed kind c' ∧ (∀ a, a ∈ keys → cache_get (IsString a) c' = Some (fresh a)) ∧
    (∀ a, a ∉ keys → cache_get (IsString a) c' = cache_get (IsString a) (mw_cache st)).
Proof.
  intros Ht Hnd Hl Hcur. set (w := mw_world st) in *.
  set (obj := λ a, match account_at w a with Some raw => account_of_raw raw | None => owned_nothing end).
  destruct (refresh_loop obj fresh keys st Ht Hnd) as (c' & Hrun & Hrest).
  { intros a Ha. destruct (Hcur a Ha) as (k & raw & Hk & Hraw & Hlen & Hreg & Hparse). exists k.
    unfold obj. rewrite Hraw. by split_and!. }
  exists c'. split; [|done]. unfold refreshAccounts. destruct keys as [|a0 keys'] eqn:Hkeys.
  { exact Hrun. }
  rewrite <- Hkeys in *. clear Hkeys a0 keys'.
  assert (Hfound : omap (λ k, account_of_raw <$> account_at w k) keys = obj <$> keys).
  { clear - Hcur. induction keys as [|a keys IH]; [done|]. cbn. rewrite IH by (intros; apply Hcur; by right).
    destruct (Hcur a) as (k & raw & _ & Hraw & _); [by left|]. assert (Ho : obj a = account_of_raw raw) by (unfold obj; by rewrite Hraw).
    rewrite Ho, Hraw. done. }
  erewrite bind_run; [|unfold from_cluster; by rewrite getMultipleAccounts_reports].
  fold w. rewrite Hfound. destruct st as [w0 c0 r0]. cbn [mw_world mw_cache mw_raised] in *.
  replace (zip keys (obj <$> keys)) with ((λ a, (a, obj a)) <$> keys); [exact Hrun|].
  clear. induction keys as [|a keys IH]; [done|]. cbn. by f_equal.
Qed.

(** Refreshing when an account is missing.  Of two keys the first of which has no
    account, the account of the second is put under the first: it is parsed and cached
    as the account of a key that does not exist, and the second key keeps what it had. *)
Theorem refreshAccounts_misplaces ka kb raw acc (st : MarketWorld W) :
  cache_typed kind (mw_cache st) → ka ≠ kb →
  account_at (mw_world st) (toBase58 ka) = None → account_at (mw_world st) (toBase58 kb) = Some raw →
  (0 < length (account_data (account_of_raw raw)))%nat →
  is_Some (map_get (toBase58 ka) (keyToAccountParser (mw_cache st))) →
  parse (kind (toBase58 ka)) ka (account_of_raw raw) = Ok acc →
  ∃ c', refreshAccounts [toBase58 ka; toBase58 kb] st =
      (Ok [Some acc], {| mw_world := mw_world st; mw_cache := c'; mw_raised := mw_raised st |}) ∧
    cache_get (IsPublicKey ka) c' = Some acc ∧ pa_pubkey acc = ka ∧ pa_account acc = account_of_raw raw ∧
    cache_get (IsPublicKey kb) c' = cache_get (IsPublicKey kb) (mw_cache st).
Proof.
  intros Ht Hne Ha Hb Hlen [q Hq] Hparse. assert (q = kind (toBase58 ka)) as -> by (by eapply ct_parsers).
  destruct (cache_add_accepts ka (account_of_raw raw) None (kind (toBase58 ka)) acc (mw_cache st)) as (c' & Hadd & Hg & _).
  { done. } { done. } { cbn. unfold client_deserialize. by rewrite Hparse. }
  exists c'. split_and!.
  - unfold refreshAccounts. erewrite bind_run; [|unfold from_cluster; by rewrite getMultipleAccounts_reports by (cbn; lia)].
    cbn [omap list_omap]. rewrite Ha, Hb. cbn [zip zip_with fmap option_fmap option_map map_async fst snd].
    erewrite bind_run; [done|]. rewrite lift_bind, base58_round. unfold with_cache. cbn [mw_cache]. by rewrite Hadd.
  - unfold cache_get. rewrite Hg. apply lookup_insert_eq.
  - by eapply parse_kind.
  - destruct (kind (toBase58 ka)); cbn in Hparse;
      unfold parse_mint, parse_token_account, parse_generic, parse_order_book, parse_dex_market in Hparse;
      try (apply result_bind_Ok in Hparse as (d & _ & Hparse)); by injection Hparse as <-.
  - unfold cache_get. rewrite Hg. apply lookup_insert_ne. intros He%base58_inj. done.
Qed.

(** The quote mint of a market.  When the base mint of a loaded market is cached, the
    accounts asked for are its order books only: the quote mint is never asked for, cached
    or not, and until it is, its decimals count as 0. *)
Theorem quote_mint_not_queried m acc info toQuery (st : MarketWorld W) :
  cache_get (IsString m) (mw_cache st) = Some acc → pa_info acc = DexMarketInfo info →
  is_Some (cache_get (IsPublicKey (baseMint info)) (mw_cache st)) →
  query_market toQuery m st =
    (Ok (set_add (toBase58 (asks info)) (set_add (toBase58 (bids info)) toQuery)), st) ∧
  (cache_get (IsPublicKey (quoteMint info)) (mw_cache st) = None →
   decimals_of (quoteMint info) (mw_cache st) = 0).
Proof.
  intros Hm Hi [b Hb]. split; [|intros Hn; unfold decimals_of; by rewrite Hn].
  change (cache_get (IsString (toBase58 (baseMint info))) (mw_cache st) = Some b) in Hb.
  assert (Hc : ∀ a, cached a st = (Ok (cache_get (IsString a) (mw_cache st)), st)) by (intros; by destruct st).
  unfold query_market. erewrite bind_run by apply Hc. rewrite Hm. unfold market_info. rewrite Hi, lift_bind.
  erewrite bind_run by apply Hc. by rewrite Hb.
Qed.

End Refresh.

End MarketFacts.

(** ** Concrete inputs *)

#[local] Remove Hints SampleParsers : typeclass_instances.

(** Keys that are two letters; those of accounts that exist start with [a]. *)
Definition letters (x y : byte) : PublicKey := (x, y).
Definition key_a1 : PublicKey := letters Byte.x61 Byte.x31.
Definition key_a2 : PublicKey := letters Byte.x61 Byte.x32.
Definition key_b1 : PublicKey := letters Byte.x62 Byte.x31.

Definition generic_kind (a : string) : Parser := GenericAccountParser.

Lemma generic_markets_typed : markets_typed generic_kind.
Proof. intros k obj acc m Hk. discriminate. Qed.

(** A cache in which parsers are registered for the keys. *)
Definition generic_cache : CacheState :=
  registerAll [(key_a1, GenericAccountParser); (key_a2, GenericAccountParser); (key_b1, GenericAccountParser)] empty_cache.

Lemma generic_cache_typed : cache_typed generic_kind generic_cache.
Proof. apply registerAll_typed; [repeat constructor|apply empty_typed]. Qed.

Definition generic_world : MarketWorld unit := {| mw_world := tt; mw_cache := generic_cache; mw_raised := [] |}.

(** What the cluster has at a key, kept as it is. *)
Definition generic_fresh (a : string) : ParsedAccountBase :=
  match list_byte_of_string a with
  | [x; y] => {| pa_pubkey := letters x y; pa_account := owned_account [x; y] 1; pa_info := GenericInfo [x; y] |}
  | _ => {| pa_pubkey := key_a1; pa_account := owned_account [] 1; pa_info := GenericInfo [] |}
  end.

Lemma refreshAccounts_refreshes_witness :
  ∃ c', refreshAccounts [toBase58 key_a1; toBase58 key_a2] generic_world =
      (Ok (Some ∘ generic_fresh <$> [toBase58 key_a1; toBase58 key_a2]),
       {| mw_world := tt; mw_cache := c'; mw_raised := [] |}) ∧
    cache_typed generic_kind c' ∧
    (∀ a, a ∈ [toBase58 key_a1; toBase58 key_a2] → cache_get (IsString a) c' = Some (generic_fresh a)) ∧
    (∀ a, a ∉ [toBase58 key_a1; toBase58 key_a2] → cache_get (IsString a) c' = cache_get (IsString a) generic_cache).
Proof.
  apply (refreshAccounts_refreshes generic_kind generic_markets_typed [toBase58 key_a1; toBase58 key_a2]
    generic_fresh generic_world).
  - apply generic_cache_typed.
  - apply NoDup_cons. split; [by intros Hin%list_elem_of_singleton|apply NoDup_singleton].
  - cbn. lia.
  - intros a [->|[->|[]%not_elem_of_nil]%elem_of_cons]%elem_of_cons.
    + exists key_a1, [Byte.x61; Byte.x31]. split_and!; [reflexivity|reflexivity|cbn; lia|by eexists|reflexivity].
    + exists key_a2, [Byte.x61; Byte.x32]. split_and!; [reflexivity|reflexivity|cbn; lia|by eexists|reflexivity].
Defined.

Definition misplaced : ParsedAccountBase :=
  {| pa_pubkey := key_b1; pa_account := owned_account [Byte.x61; Byte.x31] 1; pa_info := GenericInfo [Byte.x61; Byte.x31] |}.

Lemma refreshAccounts_misplaces_witness :
  ∃ c', refreshAccounts [toBase58 key_b1; toBase58 key_a1] generic_world =
      (Ok [Some misplaced], {| mw_world := tt; mw_cache := c'; mw_raised := [] |}) ∧
    cache_get (IsPublicKey key_b1) c' = Some misplaced ∧ pa_pubkey misplaced = key_b1 ∧
    pa_account misplaced = account_of_raw [Byte.x61; Byte.x31] ∧
    cache_get (IsPublicKey key_a1) c' = cache_get (IsPublicKey key_a1) generic_cache.
Proof.
  apply (refreshAccounts_misplaces generic_kind key_b1 key_a1 _ misplaced generic_world);
    [apply generic_cache_typed|done|reflexivity|reflexivity|cbn; lia|by eexists|reflexivity].
Defined.

(** A loaded market whose base mint is cached and whose quote mint is not. *)
Definition market_keys : MarketState := (key_a1, key_a2, sample_key 5, sample_key 6).
Definition market_account : ParsedAccountBase :=
  {| pa_pubkey := key_b1; pa_account := owned_account [Byte.x00] 1; pa_info := DexMarketInfo market_keys |}.
Definition market_cache : CacheState :=
  set_generic (<[toBase58 key_b1 := market_account]> (<[toBase58 key_a1 := misplaced]> ∅)) generic_cache.
Definition market_world : MarketWorld unit := {| mw_world := tt; mw_cache := market_cache; mw_raised := [] |}.

Lemma quote_mint_not_queried_witness :
  query_market [] (toBase58 key_b1) market_world =
    (Ok (set_add (toBase58 (asks market_keys)) (set_add (toBase58 (bids market_keys)) [])), market_world) ∧
  (cache_get (IsPublicKey (quoteMint market_keys)) market_cache = None →
   decimals_of (quoteMint market_keys) market_cache = 0).
Proof.
  apply (quote_mint_not_queried (toBase58 key_b1) market_account market_keys [] market_world);
    [reflexivity|reflexivity|by eexists].
Defined.

(** Two subscriptions to the market, one of which ended. *)
Definition market_table : list (string * PublicKey) := [("TOK"%string, key_b1)].
Definition market_sub : string * string := (toBase58 (sample_key 5), toBase58 (sample_key 6)).
Definition two_counts : list (string * Z) := [(market_sub.1, 2); (market_sub.2, 2)].

Lemma two_subscriptions : rtc observe_step ([], []) (two_counts, [market_sub; market_sub]).
Proof.
  eapply rtc_l; [|eapply rtc_once].
  - apply (ob_subscribe market_table market_cache "TOK" [] [(market_sub.1, 1); (market_sub.2, 1)] [] market_sub). reflexivity.
  - apply (ob_subscribe market_table market_cache "TOK" _ two_counts [market_sub] market_sub). reflexivity.
Qed.

Lemma accountsToObserve_counts_witness :
  NoDup (fst <$> two_counts) ∧
  (∀ k, count_of k two_counts = Z.of_nat (multiplicity k (observing [market_sub; market_sub]))) ∧
  (∀ k, k ∈ fst <$> two_counts ↔ ∃ sub, sub ∈ [market_sub; market_sub] ∧ (k = sub.1 ∨ k = sub.2)) ∧
  (∀ order, order ≡ₚ [market_sub; market_sub] → foldl (λ o sub, unsubscribe sub o) two_counts order = []).
Proof. apply (accountsToObserve_counts two_counts [market_sub; market_sub]). apply two_subscriptions. Defined.

Lemma precacheMarkets_union_witness :
  let r := precacheMarkets ["a"%string; "b"%string] ["b"%string; "c"%string] in
  NoDup r ∧ (∀ x, x ∈ r ↔ x ∈ ["a"%string; "b"%string] ∨ x ∈ ["b"%string; "c"%string]) ∧
  ["a"%string; "b"%string] `prefix_of` r ∧
  ((∀ x, x ∈ ["b"%string; "c"%string] → x ∈ ["a"%string; "b"%string]) → r = ["a"%string; "b"%string]).
Proof.
  apply (precacheMarkets_union ["a"%string; "b"%string]). apply NoDup_cons.
  split; [by intros Hin%list_elem_of_singleton|apply NoDup_singleton].
Defined.

(** A market with both books: the best bid is 4 and the best ask 6. *)
Definition book (k : PublicKey) (price : Z) : ParsedAccountBase :=
  {| pa_pubkey := k; pa_account := owned_account [Byte.x00] 1; pa_info := OrderBookInfo (Some price) |}.
Definition priced_cache : CacheState :=
  set_generic (<[market_sub.1 := book (sample_key 5) 4]> (<[market_sub.2 := book (sample_key 6) 6]> (genericCache market_cache)))
    market_cache.

Lemma midPriceInUSD_spec_witness :
  midPriceInUSD market_table priced_cache "TOK" = Ok (num_div (num_add (num_of_Z 4) (num_of_Z 6)) (num_of_Z 2)).
Proof.
  destruct (midPriceInUSD_spec market_table priced_cache "TOK") as [_ Hother].
  destruct Hother as [_ Hmarket]; [by apply (bool_decide_eq_false_1 _)|].
  destruct (Hmarket key_b1 eq_refl) as [_ Hloaded].
  destruct (Hloaded market_account market_keys tt eq_refl eq_refl eq_refl) as [_ Hbooks].
  exact (Hbooks (book (sample_key 5) 4) (book (sample_key 6) 6) (Some 4) (Some 6) _ _ eq_refl eq_refl eq_refl eq_refl eq_refl eq_refl).
Defined.
