(* ===== verification/Utils.v ===== *)
(** * Amounts and names (src/utils/utils.ts, src/constants/math.ts)

    Conversions between lamports and units of a token, as doubles, and the texts the
    client shows for tokens and addresses; with the parts of JavaScript's conversions
    between numbers and texts that the forms use. *)

From Stdlib Require Import ZArith Lia SpecFloat.
From Stdlib Require Import String Ascii.
From stdpp Require Import base list strings sets gmap pretty.
From coqutil Require Import Byte.
From S2P Require Import Prelude JsNumber Buffers Web3 Sample Program Instructions SamplePool.
From S2P Require Import Wire Readers Layouts Lending Actions Cache Tokens UserAccounts.

Open Scope Z_scope.

(** ** Numbers and texts *)

(** [Math.pow(10, n)] for a natural [n]. *)
Definition Math_pow10 (n : Z) : num := num_of_Z (10 ^ n).

Definition is_digit (c : ascii) : bool := let n := nat_of_ascii c in (48 <=? n)%nat && (n <=? 57)%nat.
Definition decimal_digit (c : ascii) : Z := Z.of_nat (nat_of_ascii c) - 48.
Definition decimal_value (ds : list ascii) : Z := foldl (λ a c, a * 10 + decimal_digit c) 0 ds.

(** The digits a text starts with, and the rest. *)
Fixpoint span_digits (s : list ascii) : list ascii * list ascii :=
  match s with
  | c :: s' => if is_digit c then let '(ds, r) := span_digits s' in (c :: ds, r) else ([], s)
  | [] => ([], [])
  end.

(** The number nearest to [± n * 10^e]. *)
Definition decimal_num (neg : bool) (n e : Z) : num :=
  match n with
  | Zpos m =>
      if 0 <=? e then binary_normalize prec emax (signed neg (m * Z.to_pos (10 ^ e))) 0 neg
      else let '(q, e', l) := SFdiv_core_binary prec emax (Zpos m) 0 (10 ^ (- e)) 0 in
           binary_round_aux prec emax neg q e' l
  | _ => S754_zero neg
  end.

Definition is_space (c : ascii) : bool :=
  let n := nat_of_ascii c in (n =? 32)%nat || ((9 <=? n)%nat && (n <=? 13)%nat) || (n =? 160)%nat.

Fixpoint skip_spaces (s : list ascii) : list ascii :=
  match s with c :: s' => if is_space c then skip_spaces s' else s | [] => [] end.

Definition read_sign (s : list ascii) : bool * list ascii :=
  match s with
  | c :: s' => if (c =? "-")%char then (true, s') else if (c =? "+")%char then (false, s') else (false, s)
  | [] => (false, [])
  end.

(** The exponent a text starts with, if it does: [e], a sign and at least one digit. *)
Definition read_exponent (s : list ascii) : Z :=
  match s with
  | c :: s' =>
      if (c =? "e")%char || (c =? "E")%char then
        let '(neg, s'') := read_sign s' in
        let '(ds, _) := span_digits s'' in
        if neg then - decimal_value ds else decimal_value ds
      else 0
  | [] => 0
  end.

(** [parseFloat(s)]: the longest number the text starts with. *)
Definition parseFloat (s : string) : num :=
  let '(neg, s) := read_sign (skip_spaces (list_ascii_of_string s)) in
  match strip_prefix (list_ascii_of_string "Infinity") s with
  | Some _ => S754_infinity neg
  | None =>
      let '(whole, s) := span_digits s in
      let '(frac, s) := match s with
                        | c :: s' => if (c =? ".")%char then span_digits s' else ([], s)
                        | [] => ([], [])
                        end in
      match whole ++ frac with
      | [] => S754_nan
      | ds => decimal_num neg (decimal_value ds) (read_exponent s - Z.of_nat (length frac))
      end
  end.

(** [String(x)], which [toFixed] uses for numbers from [10^21] on. *)
Class NumberText := { num_toString : num → string }.

(** Two decimals of [n] hundredths. *)
Definition hundredths (n : Z) : string :=
  (pretty (Z.to_N (n / 100)) +:+ "." +:+ pretty (Z.to_N (n mod 100 / 10)) +:+ pretty (Z.to_N (n mod 10)))%string.

(** [x.toFixed(2)]: the nearest number of hundredths, the larger one if there are two. *)
Definition toFixed2 `{NumberText} (x : num) : string :=
  match x with
  | S754_nan => "NaN"
  | S754_infinity s => if s then "-Infinity" else "Infinity"
  | S754_zero _ => "0.00"
  | S754_finite s m e =>
      if num_leb (num_of_Z (10 ^ 21)) (Math_abs x) then num_toString x
      else ((if s then "-" else "") +:+ hundredths (round_Z false (100 * m) e))%string
  end.

(** ** Big numbers *)

(** [n.toNumber()] of bn.js: numbers of more than 53 bits are refused. *)
Class BigToNumber := { toNumber : Z → result num }.

Class BigToNumberLaws `{BigToNumber} : Prop := {
  toNumber_safe : ∀ z, safe z → toNumber z = Ok (num_of_Z z);
  toNumber_large : ∀ z, ¬ safe z → ∃ e, toNumber z = Err e;
}.

Definition TEN : Z := 10.
Definition HALF_WAD : Z := TEN ^ 18.
Definition WAD : Z := TEN ^ 18.
Definition RAY : Z := TEN ^ 27.
Definition ZERO : Z := 0.
Definition LAMPORTS_PER_SOL : num := num_of_Z 1000000000.

(** [amount?.div(WAD) || ZERO]: the quotient, rounded towards zero. *)
Definition wadToLamports (amount : option Z) : Z :=
  match amount with Some a => Z.quot a WAD | None => ZERO end.

Section Amounts.
#[local] Remove Hints SampleKeys : typeclass_instances.
Context `{Keys} `{BigToNumber}.

(** [TokenAccount | number | BN]. *)
Inductive Quantity :=
  | QAccount (a : UserAccount)
  | QNumber (x : num)
  | QBig (z : Z).

(** [!account] of something that may be missing or a falsy number. *)
Definition absent (account : option Quantity) : bool :=
  match account with
  | None => true
  | Some (QNumber x) => negb (truthy x)
  | Some _ => false
  end.

(** [Math.pow(10, mint?.decimals || 0)]. *)
Definition precision (mint : option MintInfo) : num :=
  Math_pow10 (match mint with Some m => mi_decimals m | None => 0 end).

(** The amount of an account or a number; other objects have no [info]. *)
Definition amount_of (q : Quantity) : result num :=
  match q with
  | QAccount a => toNumber (ti_amount (ua_info a))
  | QNumber x => Ok x
  | QBig _ => Err TypeError
  end.

Definition toLamports (account : option Quantity) (mint : option MintInfo) : result num :=
  match account with
  | Some q =>
      if absent account then mret (num_of_Z 0)
      else amount ← amount_of q; mret (Math_floor (num_mul amount (precision mint)))
  | None => mret (num_of_Z 0)
  end.

Definition fromLamports (account : option Quantity) (mint : option MintInfo) (rate : num) : result num :=
  match account with
  | Some q =>
      if absent account then mret (num_of_Z 0)
      else amount ← match q with QBig z => toNumber z | _ => amount_of q end;
           mret (num_mul (num_div (Math_floor amount) (precision mint)) rate)
  | None => mret (num_of_Z 0)
  end.

Definition convert (account : option Quantity) (mint : option MintInfo) (rate : num) : result num :=
  match account with
  | Some q =>
      if absent account then mret (num_of_Z 0)
      else amount ← amount_of q; mret (num_mul (num_div amount (precision mint)) rate)
  | None => mret (num_of_Z 0)
  end.

(** ** Names *)

Record KnownToken := { tokenSymbol : string; tokenName : string; icon : string; mintAddress : string }.

(** A [Map] from mints to tokens. *)
Definition KnownTokenMap : Type := list (string * KnownToken).

(** [typeof mint === "string" ? mint : mint?.toBase58()]. *)
Definition mint_text (mint : option Address) : option string := address_of <$> mint.

(** [s.slice(0, n)] and [s.slice(-n)]. *)
Definition slice_start (n : nat) (s : string) : string := String.substring 0 n s.
Definition slice_end (n : nat) (s : string) : string :=
  if (n =? 0)%nat then s else String.substring (String.length s - n) n s.

Definition shortenAddress (address : string) (chars : nat) : string :=
  (slice_start chars address +:+ "..." +:+ slice_end chars address)%string.

Definition getTokenName (map : KnownTokenMap) (mint : option Address) (shorten : bool) : string :=
  match mint_text mint with
  | None | Some EmptyString => "N/A"
  | Some mintAddress =>
      match tokenSymbol <$> map_get mintAddress map with
      | None | Some EmptyString =>
          if shorten then (slice_start 5 mintAddress +:+ "...")%string else mintAddress
      | Some knownSymbol => knownSymbol
      end
  end.

Definition getTokenByName (tokenMap : KnownTokenMap) (name : string) : option KnownToken :=
  List.find (λ val, (tokenSymbol val =? name)%string) (snd <$> tokenMap).

Definition getTokenIcon (map : KnownTokenMap) (mintAddress : option Address) : option string :=
  match mint_text mintAddress with
  | None | Some EmptyString => None
  | Some address => icon <$> map_get address map
  end.

Definition isKnownMint (map : KnownTokenMap) (mintAddress : string) : bool :=
  bool_decide (is_Some (map_get mintAddress map)).

(** 0.001, and [isSmallNumber]. *)
Definition one_thousandth : num := decimal_num false 1 (-3).
Definition isSmallNumber (val : num) : bool := num_ltb val one_thousandth && num_ltb (num_of_Z 0) val.

(** The texts [formatNumber.format] chooses from: a dash, 0.001, or the formatted number. *)
Inductive Formatted := Dashes | Small | Formatted_number (x : num).

Definition formatNumber (val : option num) (useSmall : bool) : Formatted :=
  match val with
  | Some x => if negb (truthy x) then Dashes else if useSmall && isSmallNumber x then Small else Formatted_number x
  | None => Dashes
  end.

End Amounts.

(** ** Properties *)

(** Multiplying a normal number by 1 changes nothing. *)
Lemma num_mul_1 m E :
  2 ^ 52 <= Zpos m < 2 ^ 53 → -1000 <= E <= 900 →
  num_mul (S754_finite false m E) (num_of_Z 1) = S754_finite false m E.
Proof.
  intros Hm HE. change (num_of_Z 1) with (S754_finite false (2 ^ 52)%positive (-52)).
  unfold num_mul. cbn [SFmul xorb]. rewrite (round_aux_shift false m 52).
  - f_equal. lia.
  - apply Z.log2_unique; simpl in *; lia.
  - lia.
  - rewrite Pos2Z.inj_mul. done.
  - lia.
Qed.

Section AmountFacts.
#[local] Remove Hints SampleKeys : typeclass_instances.
Context `{Keys} `{BigToNumber}.

Definition decimals_of_mint (mint : option MintInfo) : Z :=
  match mint with Some m => mi_decimals m | None => 0 end.

Lemma units_shown z mint :
  0 <= z < 2 ^ 52 → 0 <= decimals_of_mint mint <= 15 →
  ∃ x, fromLamports (Some (QNumber (num_of_Z z))) mint (num_of_Z 1) = Ok x ∧
    Math_floor x = num_of_Z (z / 10 ^ decimals_of_mint mint) ∧
    (∀ k, z = k * 10 ^ decimals_of_mint mint → x = num_of_Z k).
Proof.
  intros Hz Hd. set (p := 10 ^ decimals_of_mint mint).
  assert (Hp : 0 < p < 2 ^ 53).
  { split; [apply Z.pow_pos_nonneg; lia|]. apply Z.le_lt_trans with (10 ^ 15); [apply Z.pow_le_mono_r; lia|done]. }
  unfold fromLamports. cbn [absent]. rewrite truthy_num_of_Z by (unfold safe; lia). rewrite negb_involutive.
  destruct (Z.eqb_spec z 0) as [->|Hnz].
  { eexists. split; [done|]. split; [done|]. intros k Hk. assert (k = 0) as -> by nia. done. }
  cbn [amount_of mbind result_bind]. unfold precision, Math_pow10. fold (decimals_of_mint mint). fold p.
  assert (Hfl : Math_floor (num_of_Z z) = num_of_Z z).
  { pose proof (floor_div_exact z 1 ltac:(lia) ltac:(lia)) as Hf. pose proof (num_div_exact z 1 ltac:(lia) ltac:(lia) ltac:(lia)) as Hx.
    rewrite Z.mul_1_r in Hx. by rewrite Hx, Z.div_1_r in Hf. }
  rewrite Hfl. eexists. split; [done|].
  assert (H1' : num_mul (num_div (num_of_Z z) (num_of_Z p)) (num_of_Z 1) = num_div (num_of_Z z) (num_of_Z p)).
  { destruct (div_faithful z p ltac:(lia) Hp) as (m & E & -> & HE & Hn & Hbits & _).
    pose proof (log2_safe p Hp). pose proof (Z.log2_nonneg z).
    apply num_mul_1; [done|lia]. }
  rewrite H1'. split; [by apply floor_div_exact|]. intros k ->. apply num_div_exact; nia.
Qed.

(** Units of a token.  For a number of lamports below [2^52] and a mint of at most 15
    decimals, [fromLamports] does not fail, the whole units it shows are exactly those
    there are, and an amount of whole units is shown exactly. *)
Theorem fromLamports_whole z mint :
  0 <= z < 2 ^ 52 → 0 <= decimals_of_mint mint <= 15 →
  ∃ x, fromLamports (Some (QNumber (num_of_Z z))) mint (num_of_Z 1) = Ok x ∧
    Math_floor x = num_of_Z (z / 10 ^ decimals_of_mint mint) ∧
    (∀ k, z = k * 10 ^ decimals_of_mint mint → x = num_of_Z k).
Proof. apply units_shown. Qed.

(** Back to lamports.  [toLamports] rounds down a product of doubles: 15 lamports of a
    token of 9 decimals, converted to units and back, are 14. *)
Theorem toLamports_loses_a_lamport mint :
  decimals_of_mint mint = 9 →
  ∃ x, fromLamports (Some (QNumber (num_of_Z 15))) mint (num_of_Z 1) = Ok x ∧
    toLamports (Some (QNumber x)) mint = Ok (num_of_Z 14).
Proof.
  intros Hd. unfold fromLamports, toLamports, precision. fold (decimals_of_mint mint). rewrite Hd.
  eexists. split; [reflexivity|]. vm_compute. reflexivity.
Qed.

End AmountFacts.

(** ** Concrete inputs *)

#[global] Instance SampleNumberText : NumberText := {| num_toString := λ _, "1e+21"%string |}.

#[global] Instance SampleBigToNumber : BigToNumber := {|
  toNumber := λ z, if decide (safe z) then Ok (num_of_Z z) else Err (JsError "Number can only safely store up to 53 bits" []);
|}.

#[global] Instance SampleBigToNumberLaws : BigToNumberLaws.
Proof.
  split; intros z Hz; cbn; [by rewrite decide_True|]. rewrite decide_False by done. by eexists.
Qed.

Definition nine_decimals : MintInfo :=
  {| mi_mintAuthority := None; mi_supply := 0; mi_decimals := 9; mi_isInitialized := true; mi_freezeAuthority := None |}.

Lemma fromLamports_whole_witness :
  ∃ x, fromLamports (Some (QNumber (num_of_Z 2500000000))) (Some nine_decimals) (num_of_Z 1) = Ok x ∧
    Math_floor x = num_of_Z (2500000000 / 10 ^ decimals_of_mint (Some nine_decimals)) ∧
    (∀ k, 2500000000 = k * 10 ^ decimals_of_mint (Some nine_decimals) → x = num_of_Z k).
Proof. apply (fromLamports_whole 2500000000 (Some nine_decimals)); cbn; lia. Defined.

Lemma toLamports_loses_a_lamport_witness :
  ∃ x, fromLamports (Some (QNumber (num_of_Z 15))) (Some nine_decimals) (num_of_Z 1) = Ok x ∧
    toLamports (Some (QNumber x)) (Some nine_decimals) = Ok (num_of_Z 14).
Proof. apply (toLamports_loses_a_lamport (Some nine_decimals)). reflexivity. Defined.
