(* ===== verification/Forms.v ===== *)
(** * The forms (src/components/DepositInput, WithdrawInput, Input and ConnectButton, src/hooks)

    What happens between the user's input and the actions: the text fields and sliders,
    the balance they refer to, the amounts computed from them as doubles, and the
    buttons that start a deposit, a withdrawal or a credit. *)

From Stdlib Require Import ZArith Lia SpecFloat.
From Stdlib Require Import String Ascii Permutation.
From stdpp Require Import base list strings sets gmap sorting.
From coqutil Require Import Byte.
From S2P Require Import Prelude JsNumber Buffers Web3 Sample Program Instructions SamplePool.
From S2P Require Import Wire Readers Layouts Lending Actions Cache Tokens UserAccounts Utils.

Open Scope Z_scope.

(** ** src/components/Input/numeric.tsx *)

(** The texts the pattern [reg] matches: a sign, digits, and a point with digits, all
    optional. *)
Definition numeric_text (value : string) : bool :=
  let s := list_ascii_of_string value in
  let s := match s with c :: s' => if (c =? "-")%char then s' else s | [] => [] end in
  let '(_, s) := span_digits s in
  match s with
  | [] => true
  | c :: s' => (c =? ".")%char && match span_digits s' with (_, []) => true | _ => false end
  end.

(** The text [onChange] passes on, if it does. *)
Definition numeric_onChange (value : string) : option string :=
  if numeric_text value || (value =? "")%string || (value =? "-")%string then Some value else None.

(** [s.replace(".", "0.")]: the first occurrence. *)
Fixpoint replace_dot (s : list ascii) : list ascii :=
  match s with
  | [] => []
  | c :: s' => if (c =? ".")%char then "0"%char :: "."%char :: s' else c :: replace_dot s'
  end.

(** The group of the pattern of [onBlur] for a run of digits: without leading zeros, but
    at least the last digit. *)
Definition trim_zeros (ds : list ascii) : list ascii :=
  let fix go (ds : list ascii) := match ds with
    | [d] => [d]
    | d :: ds' => if (d =? "0")%char then go ds' else d :: ds'
    | [] => []
    end in go ds.

(** The last replacement of [onBlur]: in the first run of digits. *)
Fixpoint replace_zeros (s : list ascii) : list ascii :=
  match s with
  | [] => []
  | c :: s' => if is_digit c then let '(ds, r) := span_digits s in trim_zeros ds ++ r else c :: replace_zeros s'
  end.

(** The text [onBlur] passes to [onChange]. *)
Definition numeric_onBlur (value : string) : string :=
  let s := list_ascii_of_string value in
  let valueTemp :=
    if match last s with Some c => (c =? ".")%char | None => false end || (value =? "-")%string
    then take (length s - 1) s else s in
  let valueTemp :=
    if match s with
       | c :: s' => (c =? ".")%char || ((c =? "-")%char && match s' with d :: _ => (d =? ".")%char | [] => false end)
       | [] => false
       end
    then replace_dot valueTemp else valueTemp in
  string_of_list_ascii (replace_zeros valueTemp).

(** ** src/hooks/useSliderInput.ts *)

Inductive InputType := AbsoluteValue | Percent.

Record Slider := { value : string; pct : num; slider_type : InputType }.

Definition new_slider : Slider := {| value := ""; pct := num_of_Z 0; slider_type := Percent |}.

Section Forms.
#[local] Remove Hints SampleKeys SampleSplToken SampleSerum SampleParsers SampleConnection SampleWebApi SampleBigNumbers SampleBigToNumber SampleNumberText : typeclass_instances.
Context `{Keys} `{BufferLayout} `{BigNumbers} `{BigToNumber} `{NumberText} `{!SplToken} `{SplLayouts} `{!Serum}.

(** The function [convert] of both forms, on a text and on a number. *)
Definition convert_text (balance : num) (val : string) : num :=
  num_mul (num_div (parseFloat val) balance) (num_of_Z 100).
Definition convert_number (balance : num) (val : num) : string :=
  toFixed2 (num_div (num_mul val balance) (num_of_Z 100)).

Definition setValue (balance : num) (val : string) (s : Slider) : Slider :=
  {| value := val; pct := convert_text balance val; slider_type := AbsoluteValue |}.
Definition setPct (balance : num) (val : num) (s : Slider) : Slider :=
  {| value := convert_number balance val; pct := val; slider_type := Percent |}.

(** ** src/hooks/useUserBalance.ts *)

(** [b.info.amount.sub(a.info.amount).toNumber()]. *)
Definition compare_amounts (a b : UserAccount) : result num :=
  toNumber (ti_amount (ua_info b) - ti_amount (ua_info a)).

(** [Array.prototype.sort] is stable: an account goes before the first one it is not
    after. *)
Fixpoint insert_account (a : UserAccount) (l : list UserAccount) : result (list UserAccount) :=
  match l with
  | [] => mret [a]
  | b :: l' =>
      c ← compare_amounts a b;
      if num_leb c (num_of_Z 0) then mret (a :: b :: l')
      else r ← insert_account a l'; mret (b :: r)
  end.

Fixpoint sort_accounts (l : list UserAccount) : result (list UserAccount) :=
  match l with
  | [] => mret []
  | a :: l' => r ← sort_accounts l'; insert_account a r
  end.

Record Balance := {
  balance : num;
  balanceLamports : num;
  balance_accounts : list UserAccount;
  hasBalance : bool;
}.

(** The accounts of the mint, or the one of them that is asked for. *)
Definition of_mint (mint : option string) (account : option PublicKey) (acc : UserAccount) : bool :=
  bool_decide (mint = Some (toBase58 (ti_mint (ua_info acc)))) &&
  match account with None => true | Some k => bool_decide (k = ua_pubkey acc) end.

Definition useUserBalance (mintAddress : option Address) (account : option PublicKey)
    (userAccounts : list UserAccount) (mintInfo : option MintInfo) : result Balance :=
  accounts ← sort_accounts (filter (λ acc, of_mint (mint_text mintAddress) account acc = true) userAccounts);
  lamports ← for_result accounts (num_of_Z 0) (λ res item,
    n ← toNumber (ti_amount (ua_info item)); mret (num_add res n));
  bal ← fromLamports (Some (QNumber lamports)) mintInfo (num_of_Z 1);
  mret {| balance := bal; balanceLamports := lamports; balance_accounts := accounts;
          hasBalance := negb (length accounts =? 0)%nat && num_ltb (num_of_Z 0) bal |}.

(** [balance * midPriceInUSD(mint)]. *)
Definition balanceInUSD (bal price : num) : num := num_mul bal price.

(** ** src/components/ConnectButton/index.tsx *)

Inductive ButtonClick := Connect | Disabled | Pressed.

(** What a click does: unconnected users connect. *)
Definition connect_button (connected disabled : bool) : ButtonClick :=
  if connected then if disabled then Disabled else Pressed else Connect.

(** ** The forms *)

Section Actions.
Context {W : Type} `{!Connection W} `{!WebApi W}.

(** The part of a token account the actions use. *)
Definition action_account (u : UserAccount) : TokenAccount :=
  {| ta_pubkey := ua_pubkey u; ta_mint := ti_mint (ua_info u); ta_owner := ti_owner (ua_info u);
     ta_isNative := ti_isNative (ua_info u) |}.

(** The state of a form: [reserve] is used for withdrawals only. *)
Record Form := {
  pendingTx : bool;
  reserve : option AccountInfo;
  minimumBalance : num;
  showConfirmation : bool;
  slider : Slider;
}.

Definition new_form : Form :=
  {| pendingTx := false; reserve := None; minimumBalance := num_of_Z 0; showConfirmation := false;
     slider := new_slider |}.

(** The effects: the reserve as the cluster reports it, and the rent of a token account
    and one lamport. *)
Definition setReserve (r : option AccountInfo) (f : Form) : Form :=
  {| pendingTx := pendingTx f; reserve := r; minimumBalance := minimumBalance f;
     showConfirmation := showConfirmation f; slider := slider f |}.
Definition setMinimumBalance (rent : num) (f : Form) : Form :=
  {| pendingTx := pendingTx f; reserve := reserve f; minimumBalance := num_add rent (num_of_Z 1);
     showConfirmation := showConfirmation f; slider := slider f |}.

(** The form while an action runs, and after it: a success empties the field and shows
    the confirmation. *)
Definition start_action (f : Form) : Form :=
  {| pendingTx := true; reserve := reserve f; minimumBalance := minimumBalance f;
     showConfirmation := showConfirmation f; slider := slider f |}.
Definition end_action (bal : num) (succeeded : bool) (f : Form) : Form :=
  {| pendingTx := false; reserve := reserve f; minimumBalance := minimumBalance f;
     showConfirmation := if succeeded then true else showConfirmation f;
     slider := if succeeded then setValue bal "" (slider f) else slider f |}.

(** [try { await action } catch { log } finally { ... }]. *)
Definition run_form (bal : num) (f : Form) (action : M (Browser W) unit) : M (Browser W) Form := λ b,
  let '(r, b) := action b in (Ok (end_action bal (is_ok r) (start_action f)), b).

(** *** src/components/WithdrawInput/index.tsx *)

Definition isReserveDepleted (f : Form) (amount : num) : bool :=
  match reserve f with
  | None => true
  | Some r => num_ltb (lamports r) (num_add (minimumBalance f) amount)
  end.

Definition withdraw_amount (f : Form) (bal : Balance) : num :=
  match slider_type (slider f) with
  | Percent => num_div (num_mul (pct (slider f)) (balanceLamports bal)) (num_of_Z 100)
  | AbsoluteValue =>
      Math_ceil (num_mul (balanceLamports bal) (num_div (parseFloat (value (slider f))) (balance bal)))
  end.

Definition onWithdraw (f : Form) (bal : Balance) (from : UserAccount) (tenderize : option ParsedTenderize)
  : M (Browser W) Form :=
  let amount := withdraw_amount f bal in
  run_form (balance bal) f
    (match tenderize with
     | None => throw TypeError
     | Some t =>
         if negb (isReserveDepleted f amount)
         then web_withdraw (action_account from) amount (parsed_info t)
         else web_credit (action_account from) amount (parsed_info t)
     end).

(** A click on the button; a button that shows [loading] takes none. *)
Definition withdraw_click (connected : bool) (f : Form) (bal : Balance) (tenderize : option ParsedTenderize)
  : M (Browser W) Form :=
  match connect_button connected (length (balance_accounts bal) =? 0)%nat, balance_accounts bal with
  | Pressed, from :: _ => if pendingTx f then mret f else onWithdraw f bal from tenderize
  | _, _ => mret f
  end.

(** *** src/components/DepositInput/index.tsx *)

Definition deposit_amount (f : Form) (bal : Balance) : num :=
  match slider_type (slider f) with
  | Percent =>
      num_div (num_mul (pct (slider f)) (num_sub (balanceLamports bal) (num_mul (minimumBalance f) (num_of_Z 2))))
        (num_of_Z 100)
  | AbsoluteValue =>
      Math_ceil (num_mul (num_sub (balanceLamports bal) (minimumBalance f))
                   (num_div (parseFloat (value (slider f))) (balance bal)))
  end.

(** The action looks for the pool's tokens in the cache [s]. *)
Definition onDeposit (s : CacheState) (f : Form) (bal : Balance) (from : UserAccount) : M (Browser W) Form :=
  run_form (balance bal) f
    (web_deposit (cached_token_accounts s) (action_account from) (deposit_amount f bal)).

Definition deposit_click (s : CacheState) (connected : bool) (f : Form) (bal : Balance) : M (Browser W) Form :=
  match connect_button connected (length (balance_accounts bal) =? 0)%nat, balance_accounts bal with
  | Pressed, from :: _ => if pendingTx f then mret f else onDeposit s f bal from
  | _, _ => mret f
  end.

End Actions.
End Forms.

(** ** The balance *)

Section BalanceFacts.
#[local] Remove Hints SampleKeys SampleBigToNumber SampleBigToNumberLaws : typeclass_instances.
Context `{Keys} `{BigToNumber} `{!BigToNumberLaws}.

Definition amount (u : UserAccount) : Z := ti_amount (ua_info u).
Definition larger (a b : UserAccount) : Prop := amount b <= amount a.
Definition total (l : list UserAccount) : Z := sum_list_Z (amount <$> l).

Lemma compare_exact a b :
  0 <= amount a < 2 ^ 53 → 0 <= amount b < 2 ^ 53 →
  ∃ c, compare_amounts a b = Ok c ∧ num_leb c (num_of_Z 0) = (amount b <=? amount a).
Proof.
  intros Ha Hb. assert (Hs : safe (amount b - amount a)) by (unfold safe; lia).
  exists (num_of_Z (amount b - amount a)). split; [by apply toNumber_safe|].
  rewrite num_leb_exact by (done || (unfold safe; lia)).
  destruct (Z.leb_spec (amount b - amount a) 0), (Z.leb_spec (amount b) (amount a)); done || lia.
Qed.

Lemma insert_account_sorts a l :
  0 <= amount a < 2 ^ 53 → Forall (λ u, 0 <= amount u < 2 ^ 53) l → StronglySorted larger l →
  ∃ l', insert_account a l = Ok l' ∧ l' ≡ₚ a :: l ∧ StronglySorted larger l'.
Proof.
  intros Ha Hl Hs. induction Hs as [|b l Hs IH Hb]; [by exists [a]; repeat constructor|].
  apply Forall_cons in Hl as [Hb0 Hl]. cbn [insert_account].
  destruct (compare_exact a b Ha Hb0) as (c & -> & Hc). cbn [mbind result_bind]. rewrite Hc.
  destruct (Z.leb_spec (amount b) (amount a)) as [Hle|Hgt].
  - exists (a :: b :: l). split_and!; [done|done|]. constructor; [by constructor|]. constructor; [done|].
    eapply Forall_impl; [exact Hb|]. unfold larger. intros u Hu. cbn in *. lia.
  - destruct (IH Hl) as (l' & -> & Hp & Hs'). exists (b :: l'). split_and!; [done| |].
    { transitivity (b :: a :: l); [by apply perm_skip|apply perm_swap]. }
    constructor; [done|]. apply (Permutation_Forall (symmetry Hp)). constructor; [unfold larger; lia|done].
Qed.

Lemma sort_accounts_sorts l :
  Forall (λ u, 0 <= amount u < 2 ^ 53) l →
  ∃ l', sort_accounts l = Ok l' ∧ l' ≡ₚ l ∧ StronglySorted larger l'.
Proof.
  induction 1 as [|a l Ha Hl (l' & Hl' & Hp & Hs)]; [by exists []; repeat constructor|]. cbn [sort_accounts].
  rewrite Hl'. cbn [mbind result_bind].
  destruct (insert_account_sorts a l') as (l2 & -> & Hp2 & Hs2); [done|by apply (Permutation_Forall (symmetry Hp))|done|].
  exists l2. split_and!; [done|by transitivity (a :: l'); [|apply perm_skip]|done].
Qed.

Lemma total_cons a l : total (a :: l) = amount a + total l.
Proof. done. Qed.

Lemma total_Permutation l k : l ≡ₚ k → total l = total k.
Proof. induction 1; rewrite ?total_cons; lia. Qed.

Lemma total_bounds l : Forall (λ u, 0 <= amount u) l → 0 <= total l ∧ Forall (λ u, amount u <= total l) l.
Proof.
  induction 1 as [|a l Ha _ [IH1 IH2]]; [by split|]. rewrite total_cons. split; [lia|]. constructor; [lia|].
  eapply Forall_impl; [exact IH2|]. intros u Hu. cbn beta in *. lia.
Qed.

Lemma sum_exact l z :
  Forall (λ u, 0 <= amount u) l → 0 <= z → z + total l < 2 ^ 53 →
  for_result l (num_of_Z z) (λ res item, n ← toNumber (ti_amount (ua_info item)); mret (num_add res n)) =
    Ok (num_of_Z (z + total l)).
Proof.
  intros Hl. revert z; induction Hl as [|a l Ha Hl IH]; intros z Hz Hsum.
  { change (total []) with 0. by rewrite Z.add_0_r. }
  rewrite total_cons in *. pose proof (total_bounds l Hl) as [Ht _]. cbn [for_result].
  change (ti_amount (ua_info a)) with (amount a). rewrite toNumber_safe by (unfold safe; lia). cbn [mbind result_bind].
  unfold mret, result_ret. cbn [mbind result_bind]. rewrite num_add_exact by (unfold safe; lia).
  rewrite IH by lia. do 2 f_equal. lia.
Qed.

(** The hook's accounts and balance. *)
Lemma useUserBalance_run mint account us mintInfo :
  let l := filter (λ acc, of_mint (mint_text mint) account acc = true) us in
  Forall (λ u, 0 <= amount u) us → total l < 2 ^ 52 → 0 <= decimals_of_mint mintInfo <= 15 →
  ∃ b, useUserBalance mint account us mintInfo = Ok b ∧ balance_accounts b ≡ₚ l ∧
    StronglySorted larger (balance_accounts b) ∧ balanceLamports b = num_of_Z (total l) ∧
    Math_floor (balance b) = num_of_Z (total l / 10 ^ decimals_of_mint mintInfo).
Proof.
  intros l Hus Ht Hd. assert (Hl : Forall (λ u, 0 <= amount u) l).
  { apply Forall_forall. intros u [_ Hu]%list_elem_of_filter. rewrite Forall_forall in Hus. by apply Hus. }
  destruct (total_bounds l Hl) as [Ht0 Hle].
  destruct (sort_accounts_sorts l) as (l' & Hsort & Hp & Hs).
  { apply Forall_forall. intros u Hu. rewrite Forall_forall in Hl, Hle. specialize (Hl u Hu). specialize (Hle u Hu). lia. }
  assert (Hl' : Forall (λ u, 0 <= amount u) l') by (by apply (Permutation_Forall (symmetry Hp))).
  destruct (units_shown (total l) mintInfo ltac:(lia) Hd) as (x & Hx & Hfl & _).
  eexists. unfold useUserBalance. fold l. rewrite Hsort. cbn [mbind result_bind].
  pose proof (sum_exact l' 0 Hl' ltac:(lia)) as Hsum. rewrite (total_Permutation l' l Hp), Z.add_0_l in Hsum.
  rewrite Hsum by lia. cbn [mbind result_bind]. rewrite Hx. cbn [mbind result_bind].
  split; [done|]. cbn. done.
Qed.

(** The user's balance.  For amounts that add up to less than [2^52] lamports the hook
    does not fail: the accounts are those of the mint, each once, the largest first, the
    balance in lamports is their exact sum, and its whole units are exact. *)
Theorem useUserBalance_exact mint account us mintInfo :
  let l := filter (λ acc, of_mint (mint_text mint) account acc = true) us in
  Forall (λ u, 0 <= amount u) us → total l < 2 ^ 52 → 0 <= decimals_of_mint mintInfo <= 15 →
  ∃ b, useUserBalance mint account us mintInfo = Ok b ∧ balance_accounts b ≡ₚ l ∧
    StronglySorted larger (balance_accounts b) ∧ balanceLamports b = num_of_Z (total l) ∧
    Math_floor (balance b) = num_of_Z (total l / 10 ^ decimals_of_mint mintInfo).
Proof. apply useUserBalance_run. Qed.

End BalanceFacts.

(** ** The amounts of the sliders *)

Section SliderFacts.
#[local] Remove Hints SampleKeys SampleBigToNumber SampleBigToNumberLaws : typeclass_instances.
Context `{Keys} `{BigToNumber} `{!BigToNumberLaws}.

Lemma ceil_whole z : 0 <= z < 2 ^ 52 → Math_ceil (num_of_Z z) = num_of_Z z.
Proof.
  intros Hz. rewrite <- (num_div_exact z 1) at 1 by lia. rewrite ceil_div_exact by lia.
  unfold cdiv. f_equal. rewrite Z.mul_1_r, Z.div_1_r. lia.
Qed.

Lemma percent_exact p a :
  0 <= p <= 100 → 0 <= a → 100 * a < 2 ^ 52 →
  let x := num_div (num_mul (num_of_Z p) (num_of_Z a)) (num_of_Z 100) in
  Math_floor x = num_of_Z (p * a / 100) ∧ (p = 100 → x = num_of_Z a).
Proof.
  intros Hp Ha H100. cbv zeta. rewrite num_mul_exact by nia. split; [by apply floor_div_exact; nia|].
  intros ->. rewrite Z.mul_comm. apply num_div_exact; lia.
Qed.

Lemma withdraw_percent f bal p total :
  slider_type (slider f) = Percent → pct (slider f) = num_of_Z p → balanceLamports bal = num_of_Z total →
  0 <= p <= 100 → 0 <= total → 100 * total < 2 ^ 52 →
  Math_floor (withdraw_amount f bal) = num_of_Z (p * total / 100) ∧
  (p = 100 → withdraw_amount f bal = num_of_Z total).
Proof. intros Hs Hpct Hbal Hp Ht H100. unfold withdraw_amount. rewrite Hs, Hpct, Hbal. by apply percent_exact. Qed.

Lemma slider_shares f bal p total m :
  slider_type (slider f) = Percent → pct (slider f) = num_of_Z p → 0 <= p <= 100 →
  balanceLamports bal = num_of_Z total → minimumBalance f = num_of_Z m →
  0 <= 2 * m <= total → 100 * total < 2 ^ 52 →
  Math_floor (withdraw_amount f bal) = num_of_Z (p * total / 100) ∧
  Math_floor (deposit_amount f bal) = num_of_Z (p * (total - 2 * m) / 100) ∧
  (p = 100 → withdraw_amount f bal = num_of_Z total ∧ deposit_amount f bal = num_of_Z (total - 2 * m)).
Proof.
  intros Hs Hpct Hp Hbal Hm Hmt H100.
  destruct (withdraw_percent f bal p total) as [Hw Hw100]; [done..|lia|lia|].
  unfold deposit_amount. rewrite Hs, Hpct, Hbal, Hm, num_mul_exact by lia.
  rewrite num_sub_exact by (unfold safe; lia). replace (total - m * 2) with (total - 2 * m) by lia.
  destruct (percent_exact p (total - 2 * m)) as [Hd Hd100]; [lia..|]. split_and!; [done|done|]. intros Hp100. auto.
Qed.

(** The sliders.  For balances below [2^52 / 100] lamports, [p] percent of the pool's
    tokens is that share of the balance, rounded down to whole lamports, and 100 percent
    is all of it; of a SOL balance that covers it, twice the minimum balance is set aside
    first, exactly. *)
Theorem slider_amounts f bal p total m :
  slider_type (slider f) = Percent → pct (slider f) = num_of_Z p → 0 <= p <= 100 →
  balanceLamports bal = num_of_Z total → minimumBalance f = num_of_Z m →
  0 <= 2 * m <= total → 100 * total < 2 ^ 52 →
  Math_floor (withdraw_amount f bal) = num_of_Z (p * total / 100) ∧
  Math_floor (deposit_amount f bal) = num_of_Z (p * (total - 2 * m) / 100) ∧
  (p = 100 → withdraw_amount f bal = num_of_Z total ∧ deposit_amount f bal = num_of_Z (total - 2 * m)).
Proof. apply slider_shares. Qed.

(** Typed amounts.  Typing the whole balance, in units, withdraws exactly the balance;
    as a deposit it leaves one minimum balance behind, where the slider leaves two. *)
Theorem typed_whole_balance f bal k total m :
  slider_type (slider f) = AbsoluteValue → parseFloat (value (slider f)) = num_of_Z k →
  balance bal = num_of_Z k → balanceLamports bal = num_of_Z total → minimumBalance f = num_of_Z m →
  0 < k < 2 ^ 52 → 0 <= m <= total → total < 2 ^ 52 →
  withdraw_amount f bal = num_of_Z total ∧ deposit_amount f bal = num_of_Z (total - m).
Proof.
  intros Hs Hv Hk Ht Hm Hk0 Hmt Ht52. unfold withdraw_amount, deposit_amount. rewrite Hs, Hv, Hk, Ht, Hm.
  assert (Hone : num_div (num_of_Z k) (num_of_Z k) = num_of_Z 1).
  { rewrite <- (Z.mul_1_l k) at 1. apply num_div_exact; lia. }
  rewrite Hone, num_sub_exact, !num_mul_exact, !Z.mul_1_r by (unfold safe; lia).
  by rewrite !ceil_whole by lia.
Qed.

(** A user with the pool's tokens in several accounts cannot withdraw them with the
    slider at 100 percent: the amount is the sum of the accounts, and the account the
    form debits, the largest, holds less. *)
Theorem full_withdrawal_overdraws f us mint mintInfo :
  let l := filter (λ acc, of_mint (mint_text mint) None acc = true) us in
  Forall (λ u, 0 < amount u) us → 100 * total l < 2 ^ 52 → 0 <= decimals_of_mint mintInfo <= 15 →
  slider_type (slider f) = Percent → pct (slider f) = num_of_Z 100 → (2 <= length l)%nat →
  ∃ bal from rest, useUserBalance mint None us mintInfo = Ok bal ∧ balance_accounts bal = from :: rest ∧
    withdraw_amount f bal = num_of_Z (total l) ∧ amount from < total l.
Proof.
  intros l Hus Ht Hd Hs Hpct Hlen.
  assert (Hus0 : Forall (λ u, 0 <= amount u) us) by (eapply Forall_impl; [exact Hus|]; intros u Hu; cbn in *; lia).
  assert (Hl : Forall (λ u, 0 < amount u) l).
  { apply Forall_forall. intros u [_ Hu]%list_elem_of_filter. rewrite Forall_forall in Hus. by apply Hus. }
  assert (Ht0 : 0 <= total l) by (apply total_bounds; eapply Forall_impl; [exact Hl|]; intros u Hu; cbn in *; lia).
  destruct (useUserBalance_run mint None us mintInfo) as (bal & Hbal & Hp & _ & Hlam & _); [done|fold l; lia|done|].
  fold l in Hp, Hlam. destruct (withdraw_percent f bal 100 (total l)) as [_ Hw]; [done..|lia|lia|lia|].
  pose proof (total_Permutation _ _ Hp) as Htot. pose proof (Permutation_length Hp) as Hlen'.
  apply (Permutation_Forall (symmetry Hp)) in Hl.
  destruct (balance_accounts bal) as [|from [|next rest]] eqn:Hacc; cbn [length] in *; [lia|lia|].
  exists bal, from, (next :: rest). split_and!; [done|done|by apply Hw|].
  apply Forall_cons in Hl as [_ [Hnext Hrest]%Forall_cons]. rewrite !total_cons in Htot.
  assert (0 <= total rest) by (apply total_bounds; eapply Forall_impl; [exact Hrest|]; intros u Hu; cbn in *; lia). lia.
Qed.

End SliderFacts.

(** ** The buttons *)

Section ButtonFacts.
#[local] Remove Hints SampleKeys SampleSplToken SampleSerum SampleParsers SampleConnection SampleWebApi SampleWalletKept SampleBigNumbers SampleBigToNumber SampleNumberText : typeclass_instances.
Context `{Keys} `{BufferLayout} `{BigNumbers} `{!SplToken} `{SplLayouts} `{!Serum}.
Context {W : Type} `{!Connection W} `{!WebApi W} `{!WalletKept}.

Lemma run_form_offers Q bal f (action : M (Browser W) unit) b :
  offers_at (λ _, Q) action b → offers_at (λ _, Q) (run_form bal f action) b.
Proof. intros (l & Hl & HQ). unfold offers_at, run_form. exists l. by destruct (action b). Qed.

(** The action of a pressed button and the form it leaves. *)
Lemma onWithdraw_offers f bal from tenderize b :
  offers_at (λ _ l, l = [] ∨ ∃ t u key, tenderize = Some t ∧ l = [u] ∧
      wallet_publicKey (browser_world b) = Some key ∧
      (if isReserveDepleted f (withdraw_amount f bal)
       then crediting key (action_account from) (withdraw_amount f bal) (parsed_info t) u
       else withdrawal key (action_account from) (withdraw_amount f bal) (parsed_info t) u))
    (onWithdraw f bal from tenderize) b.
Proof.
  unfold onWithdraw. apply run_form_offers. destruct tenderize as [t|]; [|by apply nothing_offered; [|left]].
  destruct (isReserveDepleted f (withdraw_amount f bal)); cbn [negb].
  - destruct (credit_offers (action_account from) (withdraw_amount f bal) (parsed_info t) b)
      as (l & Hl & [->|(u & key & -> & Hkey & Hu)]); eexists; (split; [exact Hl|]); [by left|right; eauto 10].
  - destruct (withdraw_offers (action_account from) (withdraw_amount f bal) (parsed_info t) b)
      as (l & Hl & [->|(u & key & -> & Hkey & Hu)]); eexists; (split; [exact Hl|]); [by left|right; eauto 10].
Qed.


(** The form of withdrawals confirms whatever happens: once the wallet was asked for a
    signature, the confirmation is shown and the field emptied, also if the user declined,
    the transaction could not be sent or it failed on the chain. *)
Theorem withdraw_always_confirmed connected f bal tenderize b :
  offered (snd (withdraw_click connected f bal tenderize b)) ≠ offered b →
  ∃ f', fst (withdraw_click connected f bal tenderize b) = Ok f' ∧
    showConfirmation f' = true ∧ value (slider f') = ""%string ∧ pendingTx f' = false.
Proof.
  unfold withdraw_click. destruct connected; [|done].
  destruct (balance_accounts bal) as [|from rest]; cbn [length Nat.eqb connect_button]; [done|].
  destruct (pendingTx f); [done|]. unfold onWithdraw, run_form. destruct tenderize as [t|]; [|done].
  destruct (isReserveDepleted f (withdraw_amount f bal)); cbn [negb].
  - destruct (credit_swallows (action_account from) (withdraw_amount f bal) (parsed_info t) b) as (l & Hl & Hok).
    destruct (web_credit _ _ _ b) as [r b']. cbn [fst snd] in *. intros Hne. eexists. split; [done|].
    destruct Hok as [->| ->]; [by rewrite app_nil_r in Hl|done].
  - destruct (withdraw_swallows (action_account from) (withdraw_amount f bal) (parsed_info t) b) as (l & Hl & Hok).
    destruct (web_withdraw _ _ _ b) as [r b']. cbn [fst snd] in *. intros Hne. eexists. split; [done|].
    destruct Hok as [->| ->]; [by rewrite app_nil_r in Hl|done].
Qed.

(** The form of deposits confirms only what was done: if a click leads to the
    confirmation, the wallet was asked to sign exactly the transaction that deposits the
    form's amount from the largest account into the pool's token account of the cache, or
    a new one. *)
Theorem deposit_confirmed s connected f bal b :
  toBase58 TENDERIZED_SOL_MINT_ID ≠ toBase58 WRAPPED_SOL_MINT → showConfirmation f = false →
  ∃ f', fst (deposit_click s connected f bal b) = Ok f' ∧
    (showConfirmation f' = true → ∃ from rest u, connected = true ∧ balance_accounts bal = from :: rest ∧
       offered (snd (deposit_click s connected f bal b)) = offered b ++ [u] ∧
       deposit_tx (cached_token_accounts s) (action_account from) (deposit_amount f bal) b u).
Proof.
  intros Hne Hf. unfold deposit_click. destruct connected; [|eexists; split; [done|congruence]].
  destruct (balance_accounts bal) as [|from rest]; cbn [length Nat.eqb connect_button];
    [eexists; split; [done|congruence]|].
  destruct (pendingTx f); [eexists; split; [done|congruence]|].
  destruct (deposit_shape (cached_token_accounts s) (action_account from) (deposit_amount f bal) b Hne) as (l & Hl & Hs).
  unfold onDeposit, run_form.
  destruct (web_deposit _ _ _ b) as [r b']. cbn [fst snd] in *. eexists. split; [done|]. cbn. intros Hshow.
  destruct Hs as [[Hr ->]|(u & -> & Hu)]; [rewrite Hr in Hshow; congruence|].
  by exists from, rest, u.
Qed.

End ButtonFacts.

(** ** The field *)

Section FieldFacts.

(** The texts of the field: a sign, digits, and a point with digits. *)
Definition digits (ds : list ascii) : Prop := Forall (λ c, is_digit c = true) ds.
Definition field_sign (neg : bool) : list ascii := if neg then ["-"%char] else [].
Definition field_tail (frac : option (list ascii)) : list ascii := from_option (cons "."%char) [] frac.
Definition field_text (neg : bool) (whole : list ascii) (frac : option (list ascii)) : list ascii :=
  field_sign neg ++ whole ++ field_tail frac.

(** The number of such a text. *)
Definition field_number (neg : bool) (whole frac : list ascii) : num :=
  match whole ++ frac with
  | [] => S754_nan
  | ds => decimal_num neg (decimal_value ds) (0 - Z.of_nat (length frac))
  end.

Lemma digit_not c d : is_digit c = true → is_digit d = false → (c =? d)%char = false.
Proof. intros Hc Hd. apply Ascii.eqb_neq. congruence. Qed.

Lemma digit_not_space c : is_digit c = true → is_space c = false.
Proof. by destruct c as [[] [] [] [] [] [] [] []]. Qed.

Lemma span_digits_spec s :
  let '(ds, r) := span_digits s in s = ds ++ r ∧ digits ds ∧ (∀ c r', r = c :: r' → is_digit c = false).
Proof.
  induction s as [|c s IH]; [by split_and!; [|constructor|]|]. cbn [span_digits].
  destruct (is_digit c) eqn:Hc.
  - destruct (span_digits s) as [ds r]. destruct IH as (-> & Hds & Hr). split_and!; [done|by constructor|done].
  - split_and!; [done|constructor|]. intros d r' [= <- _]. done.
Qed.

Lemma span_digits_app ds r :
  digits ds → (∀ c r', r = c :: r' → is_digit c = false) → span_digits (ds ++ r) = (ds, r).
Proof.
  intros Hds Hr. induction Hds as [|c ds Hc Hds IH]; cbn [app span_digits].
  - destruct r as [|c r]; [done|]. cbn [span_digits]. by rewrite (Hr c r eq_refl).
  - by rewrite Hc, IH.
Qed.

Lemma field_tail_stops frac c r : field_tail frac = c :: r → is_digit c = false.
Proof. destruct frac; [|done]. by intros [= <- _]. Qed.

Lemma numeric_text_shape v :
  numeric_text v = true →
  ∃ neg whole frac, list_ascii_of_string v = field_text neg whole frac ∧ digits whole ∧ digits (default [] frac).
Proof.
  unfold numeric_text. set (s := list_ascii_of_string v).
  set (body := match s with c :: s' => if (c =? "-")%char then s' else s | [] => [] end).
  assert (Hs : ∃ neg, s = field_sign neg ++ body).
  { subst body. destruct s as [|c s']; [by exists false|].
    destruct (Ascii.eqb_spec c "-") as [->|_]; [by exists true|by exists false]. }
  clearbody body. destruct Hs as [neg ->].
  pose proof (span_digits_spec body) as Hb. destruct (span_digits body) as [whole r]. destruct Hb as (-> & Hw & _).
  destruct r as [|c r]; [intros _; exists neg, whole, None; split_and!; [done|done|constructor]|].
  destruct (Ascii.eqb_spec c ".") as [->|]; [|done]. cbn [andb].
  pose proof (span_digits_spec r) as Hr. destruct (span_digits r) as [frac [|]]; [|done]. destruct Hr as (-> & Hf & _).
  intros _. exists neg, whole, (Some frac). split_and!; [|done|done]. by rewrite app_nil_r.
Qed.

Lemma field_accepted neg whole frac :
  digits whole → digits (default [] frac) → numeric_text (string_of_list_ascii (field_text neg whole frac)) = true.
Proof.
  intros Hw Hf. unfold numeric_text. rewrite list_ascii_of_string_of_list_ascii. cbv zeta.
  assert (Hbody : match field_text neg whole frac with
    | c :: s' => if (c =? "-")%char then s' else field_text neg whole frac | [] => [] end = whole ++ field_tail frac).
  { unfold field_text. destruct neg; [done|]. cbn [field_sign app]. destruct Hw as [|c whole Hc _]; [by destruct frac|].
    cbn [app]. by rewrite digit_not. }
  rewrite Hbody, span_digits_app by (done || apply field_tail_stops). destruct frac as [frac|]; [|done].
  cbn [field_tail from_option default id] in *. rewrite <- (app_nil_r frac), span_digits_app by done. done.
Qed.

(** [parseFloat] reads such a text to its end. *)
Lemma parseFloat_field neg whole frac :
  digits whole → digits (default [] frac) →
  parseFloat (string_of_list_ascii (field_text neg whole frac)) = field_number neg whole (default [] frac).
Proof.
  intros Hw Hf. unfold parseFloat. rewrite list_ascii_of_string_of_list_ascii.
  assert (Hsign : read_sign (skip_spaces (field_text neg whole frac)) = (neg, whole ++ field_tail frac)).
  { unfold field_text. destruct neg; [done|]. cbn [field_sign app]. destruct Hw as [|c whole Hc _]; [by destruct frac|].
    cbn [app skip_spaces]. rewrite digit_not_space by done. cbn [read_sign]. by rewrite !digit_not. }
  rewrite Hsign.
  assert (Hinf : strip_prefix (list_ascii_of_string "Infinity") (whole ++ field_tail frac) = None).
  { destruct Hw as [|c whole Hc _]; [by destruct frac|]. cbn [app list_ascii_of_string strip_prefix].
    by rewrite Ascii.eqb_sym, digit_not. }
  rewrite Hinf, span_digits_app by (done || apply field_tail_stops).
  destruct frac as [frac|]; cbn [field_tail from_option default id] in *.
  - change (("." =? ".")%char) with true. cbn [id]. cbn iota. rewrite <- (app_nil_r frac) at 1.
    by rewrite span_digits_app.
  - done.
Qed.

Lemma decimal_value_snoc ds c : decimal_value (ds ++ [c]) = decimal_value ds * 10 + decimal_digit c.
Proof. unfold decimal_value. by rewrite foldl_app. Qed.

Lemma trim_zeros_value ds r : decimal_value (trim_zeros ds ++ r) = decimal_value (ds ++ r).
Proof.
  unfold trim_zeros. induction ds as [|d [|d' ds] IH]; [done|done|].
  destruct (Ascii.eqb_spec d "0") as [->|]; [|done]. rewrite IH. done.
Qed.

Lemma trim_zeros_digits ds : digits ds → digits (trim_zeros ds).
Proof.
  unfold trim_zeros. induction 1 as [|d ds Hd Hds IH]; [constructor|]. destruct ds as [|d' ds]; [by constructor|].
  destruct (d =? "0")%char; [done|by constructor].
Qed.

Lemma trim_zeros_nonempty ds : ds ≠ [] → trim_zeros ds ≠ [].
Proof.
  unfold trim_zeros. induction ds as [|d [|d' ds] IH]; [done|done|]. intros _.
  destruct (d =? "0")%char; [by apply IH|done].
Qed.

Lemma trim_zeros_number neg whole frac : field_number neg (trim_zeros whole) frac = field_number neg whole frac.
Proof.
  unfold field_number. destruct whole as [|d whole]; [done|].
  pose proof (trim_zeros_nonempty (d :: whole) ltac:(done)) as Hne. pose proof (trim_zeros_value (d :: whole) frac) as Hv.
  destruct (trim_zeros (d :: whole)) as [|d' ds]; [done|]. cbn [app] in *. by rewrite Hv.
Qed.

(** The last replacement trims the digits before the point, if there are any. *)
Lemma replace_zeros_field neg whole frac :
  digits whole → whole ≠ [] → replace_zeros (field_text neg whole frac) = field_text neg (trim_zeros whole) frac.
Proof.
  intros Hw Hne. unfold field_text.
  assert (Hbody : replace_zeros (whole ++ field_tail frac) = trim_zeros whole ++ field_tail frac).
  { pose proof (span_digits_app whole (field_tail frac) Hw (field_tail_stops frac)) as Hsp.
    destruct Hw as [|c whole Hc _]; [done|]. cbn [app replace_zeros]. rewrite Hc. cbn [app] in Hsp. by rewrite Hsp. }
  destruct neg; [|done]. cbn [field_sign app replace_zeros]. change (is_digit "-") with false. cbn iota. by rewrite Hbody.
Qed.

Lemma last_digit l ds : digits ds → ds ≠ [] → ∃ c, last (l ++ ds) = Some c ∧ is_digit c = true.
Proof.
  intros Hds Hne. destruct (exists_last Hne) as (ds' & c & ->). exists c. apply Forall_app in Hds as [_ Hc].
  split; [by rewrite app_assoc, last_snoc|]. exact (Forall_inv Hc).
Qed.

(** The two tests of [onBlur] for a text with digits before the point. *)
Lemma starts_with_digit neg d ds :
  is_digit d = true →
  (string_of_list_ascii (field_sign neg ++ d :: ds) =? "-")%string = false ∧
  match field_sign neg ++ d :: ds with
  | c :: s' => (c =? ".")%char || ((c =? "-")%char && match s' with c' :: _ => (c' =? ".")%char | [] => false end)
  | [] => false
  end = false.
Proof.
  intros Hd. pose proof (digit_not d "." Hd eq_refl) as Hdot. pose proof (digit_not d "-" Hd eq_refl) as Hdash.
  destruct neg; cbn [field_sign app string_of_list_ascii String.eqb]; rewrite ?Hdot, ?Hdash; done.
Qed.

Lemma blurred_field neg whole frac :
  digits whole → digits (default [] frac) →
  ∃ neg' whole' frac',
    numeric_onBlur (string_of_list_ascii (field_text neg whole frac)) =
      string_of_list_ascii (field_text neg' whole' frac') ∧
    digits whole' ∧ digits (default [] frac') ∧
    field_number neg' whole' (default [] frac') = field_number neg whole (default [] frac).
Proof.
  intros Hw Hf. unfold numeric_onBlur. rewrite list_ascii_of_string_of_list_ascii.
  destruct Hw as [|d ds Hd Hds].
  - destruct frac as [[|f fs]|].
    + exists neg, [], None. by destruct neg.
    + cbn [default id] in Hf. destruct (last_digit (field_sign neg ++ ["."%char]) (f :: fs) Hf ltac:(done)) as (c & Hc & Hcd).
      exists neg, ["0"%char], (Some (f :: fs)). unfold field_text. cbn [app field_tail from_option].
      rewrite <- app_assoc in Hc. cbn [app] in Hc. rewrite Hc, (digit_not c) by done.
      split_and!; [by destruct neg|by repeat constructor|done|done].
    + exists false, [], None. by destruct neg.
  - destruct (starts_with_digit neg d (ds ++ field_tail frac) Hd) as [Hdash Hdot].
    exists neg, (trim_zeros (d :: ds)), (match frac with Some [] => None | _ => frac end).
    change (field_sign neg ++ d :: ds ++ field_tail frac) with (field_text neg (d :: ds) frac) in Hdash, Hdot.
    rewrite Hdash, Hdot, orb_false_r, trim_zeros_number.
    assert (Hw : digits (d :: ds)) by (by constructor). pose proof (trim_zeros_digits _ Hw) as Htrim.
    assert (Hblur : ∀ frac' c, last (field_text neg (d :: ds) frac') = Some c → is_digit c = true →
      replace_zeros (if match last (field_text neg (d :: ds) frac') with Some c => (c =? ".")%char | None => false end
                     then take (length (field_text neg (d :: ds) frac') - 1) (field_text neg (d :: ds) frac')
                     else field_text neg (d :: ds) frac') = field_text neg (trim_zeros (d :: ds)) frac').
    { intros frac' c -> Hc. rewrite (digit_not c) by done. by apply replace_zeros_field. }
    destruct frac as [[|f fs]|]; cbn [default id] in *.
    + replace (field_text neg (d :: ds) (Some [])) with (field_text neg (d :: ds) None ++ ["."%char])
        by (unfold field_text; by rewrite <- !app_assoc).
      rewrite last_snoc, Ascii.eqb_refl. cbn iota. rewrite length_app, Nat.add_sub, take_app_length.
      rewrite replace_zeros_field by done.
      split_and!; [done|done|constructor|done].
    + destruct (last_digit (field_sign neg ++ (d :: ds) ++ ["."%char]) (f :: fs) Hf ltac:(done)) as (c & Hc & Hcd).
      rewrite (Hblur _ c); [done| |done]. rewrite <- Hc. unfold field_text. by rewrite <- !app_assoc.
    + destruct (last_digit (field_sign neg) (d :: ds)) as (c & Hc & Hcd); [done|done|].
      rewrite (Hblur _ c); [|unfold field_text; by rewrite app_nil_r|done]. split_and!; [done|done|constructor|done].
Qed.

(** Leaving the field does not change the number: the text [onBlur] puts in place of a
    text the field accepted parses to the same double, and the field accepts it. *)
Theorem onBlur_keeps_number v :
  numeric_text v = true →
  parseFloat (numeric_onBlur v) = parseFloat v ∧ numeric_onChange (numeric_onBlur v) = Some (numeric_onBlur v).
Proof.
  intros (neg & whole & frac & Hv & Hw & Hf)%numeric_text_shape.
  rewrite <- (string_of_list_ascii_of_string v), Hv.
  destruct (blurred_field neg whole frac Hw Hf) as (neg' & whole' & frac' & -> & Hw' & Hf' & Hn).
  split; [by rewrite !parseFloat_field|]. unfold numeric_onChange. by rewrite field_accepted.
Qed.

End FieldFacts.

(** ** Concrete inputs *)

#[local] Remove Hints SampleParsers : typeclass_instances.

Definition sample_mint_address : option Address := Some (IsPublicKey TENDERIZED_SOL_MINT_ID).
Definition sample_second_account : UserAccount :=
  {| ua_pubkey := sample_key 161; ua_account := sample_token_data 300; ua_info := sample_token 300 |}.
Definition sample_accounts : list UserAccount := [sample_second_account; sample_user_account].

Lemma useUserBalance_exact_witness :
  ∃ b, useUserBalance sample_mint_address None sample_accounts (Some nine_decimals) = Ok b ∧
    balance_accounts b ≡ₚ sample_accounts ∧ StronglySorted larger (balance_accounts b) ∧
    balanceLamports b = num_of_Z 1300 ∧ Math_floor (balance b) = num_of_Z 0.
Proof.
  apply (useUserBalance_exact sample_mint_address None sample_accounts (Some nine_decimals));
    [by repeat constructor|reflexivity|cbn; lia].
Defined.

(** The form with the slider at [p] percent, and with a text in the field. *)
Definition sample_form (p : Z) : Form :=
  setReserve (Some (owned_account [] 10000000000)) (setMinimumBalance (num_of_Z 2039280)
    {| pendingTx := false; reserve := None; minimumBalance := num_of_Z 0; showConfirmation := false;
       slider := setPct (num_of_Z 10) (num_of_Z p) new_slider |}).
Definition sample_typed (v : string) : Form :=
  setMinimumBalance (num_of_Z 2039280)
    {| pendingTx := false; reserve := None; minimumBalance := num_of_Z 0; showConfirmation := false;
       slider := setValue (num_of_Z 10) v new_slider |}.
(** Ten SOL in one account. *)
Definition sample_balance : Balance :=
  {| balance := num_of_Z 10; balanceLamports := num_of_Z 10000000000;
     balance_accounts := [sample_user_account]; hasBalance := true |}.

Lemma slider_amounts_witness :
  Math_floor (withdraw_amount (sample_form 33) sample_balance) = num_of_Z 3300000000 ∧
  Math_floor (deposit_amount (sample_form 33) sample_balance) = num_of_Z 3298654074 ∧
  (33 = 100 → withdraw_amount (sample_form 33) sample_balance = num_of_Z 10000000000 ∧
              deposit_amount (sample_form 33) sample_balance = num_of_Z (10000000000 - 2 * 2039281)).
Proof.
  apply (slider_amounts (sample_form 33) sample_balance 33 10000000000 2039281); first [reflexivity|lia|done].
Defined.

Lemma typed_whole_balance_witness :
  withdraw_amount (sample_typed "10") sample_balance = num_of_Z 10000000000 ∧
  deposit_amount (sample_typed "10") sample_balance = num_of_Z (10000000000 - 2039281).
Proof.
  apply (typed_whole_balance (sample_typed "10") sample_balance 10 10000000000 2039281); first [reflexivity|lia].
Defined.

(** A smaller typed amount is scaled the same way: of ten SOL, typing five deposits about
    a million lamports less. *)
Example typed_deposit_scaled : deposit_amount (sample_typed "5") sample_balance = num_of_Z 4998980360.
Proof. vm_compute. reflexivity. Qed.

Lemma full_withdrawal_overdraws_witness :
  ∃ bal from rest, useUserBalance sample_mint_address None sample_accounts (Some nine_decimals) = Ok bal ∧
    balance_accounts bal = from :: rest ∧ withdraw_amount (sample_form 100) bal = num_of_Z 1300 ∧ amount from < 1300.
Proof.
  assert (Hpos : Forall (λ u, 0 < amount u) sample_accounts) by (repeat constructor).
  apply (full_withdrawal_overdraws (sample_form 100) sample_accounts sample_mint_address (Some nine_decimals) Hpos);
    [reflexivity|cbn; lia|reflexivity|reflexivity|apply Nat.leb_le; vm_compute; reflexivity].
Defined.

Definition sample_pool : ParsedTenderize :=
  {| parsed_pubkey := sample_key 1; parsed_account := owned_account [] 1; parsed_info := sample_tenderize |}.


(** A wallet whose user declines. *)
Definition DecliningWallet : WebApi SampleCluster := {|
  WebTx := UnsignedTx;
  web_tx := λ u, u;
  partialSign := λ _ u, Ok u;
  serialize := λ u, Ok (concat (ix_data <$> tx_instructions u));
  wallet_publicKey := λ _, Some (sample_key 50);
  wallet_signTransaction := λ u w, (Err (JsError "User rejected the request." []), w);
  rpc_getRecentBlockhash := λ _ w, (Ok "hash"%string, w);
  rpc_sendRawTransaction := λ _ w, (Ok "txid"%string, w);
  rpc_confirmTransaction := λ _ _ w, (Ok None, w);
  rpc_getLogs := λ _ w, (Ok None, w);
  generate_key := λ w, (sample_account 51, w);
|}.

Lemma declining_kept : WalletKept (H0 := DecliningWallet).
Proof. by split. Qed.

Lemma withdraw_always_confirmed_witness :
  let r := withdraw_click (WebApi0 := DecliningWallet) true (sample_form 50) sample_balance (Some sample_pool)
             Actions.sample_browser in
  (∃ f', fst r = Ok f' ∧ showConfirmation f' = true ∧ value (slider f') = ""%string ∧ pendingTx f' = false) ∧
  raw_sent (snd r) = [].
Proof.
  split; [|vm_compute; reflexivity].
  apply (withdraw_always_confirmed (WebApi0 := DecliningWallet) (H5 := declining_kept) true (sample_form 50)
    sample_balance (Some sample_pool) Actions.sample_browser).
  intros Hno%(f_equal length). vm_compute in Hno. discriminate Hno.
Defined.

Lemma deposit_confirmed_witness :
  ∃ f', fst (deposit_click empty_cache true (sample_form 50) sample_balance Actions.sample_browser) = Ok f' ∧
    (showConfirmation f' = true → ∃ from rest u, true = true ∧ balance_accounts sample_balance = from :: rest ∧
       offered (snd (deposit_click empty_cache true (sample_form 50) sample_balance Actions.sample_browser)) =
         offered Actions.sample_browser ++ [u] ∧
       deposit_tx (cached_token_accounts empty_cache) (action_account from)
         (deposit_amount (sample_form 50) sample_balance) Actions.sample_browser u).
Proof.
  apply (deposit_confirmed empty_cache true (sample_form 50) sample_balance Actions.sample_browser);
    [apply sample_mints_differ|reflexivity].
Defined.

Lemma onBlur_keeps_number_witness :
  parseFloat (numeric_onBlur "-.50") = parseFloat "-.50" ∧
  numeric_onChange (numeric_onBlur "-.50") = Some (numeric_onBlur "-.50").
Proof. apply (onBlur_keeps_number "-.50"). reflexivity. Defined.
