(* ===== verification/Formats.v ===== *)
(** * Texts of amounts (src/utils/utils.ts), icons of tokens (src/components)

    [toFixed] for any number of decimals, abbreviated amounts, the texts of token
    accounts; which icon a token gets, and the seed of a generated one. *)

From Stdlib Require Import ZArith Lia SpecFloat.
From Stdlib Require Import String Ascii.
From stdpp Require Import base list strings sets gmap pretty.
From coqutil Require Import Byte.
From S2P Require Import Prelude JsNumber Buffers Web3 Sample Program Instructions SamplePool.
From S2P Require Import Wire Readers Layouts Lending Actions Cache Tokens UserAccounts Utils Forms.

Open Scope Z_scope.

(** ** Numbers as texts *)

(** The digits of [n] with the last [f] of them after a point, as many zeros in front as
    it takes. *)
Definition fixed_text (f : nat) (n : Z) : list ascii :=
  let m := list_ascii_of_string (pretty (Z.to_N n)) in
  let m := if (length m <=? f)%nat then replicate (f + 1 - length m) "0"%char ++ m else m in
  let k := (length m - f)%nat in
  take k m ++ (if (f =? 0)%nat then [] else "."%char :: drop k m).

(** [x.toFixed(f)]: the whole number of [10^-f] nearest to [x], the larger if there are two;
    texts of numbers from [10^21] on are those of [String(x)]. *)
Definition toFixed `{NumberText} (x : num) (f : nat) : result string :=
  if (100 <? f)%nat then Err RangeError else
  mret match x with
  | S754_nan => "NaN"%string
  | S754_infinity s => if s then "-Infinity"%string else "Infinity"%string
  | S754_zero _ => string_of_list_ascii (fixed_text f 0)
  | S754_finite s m e =>
      if num_leb (num_of_Z (10 ^ 21)) (Math_abs x) then num_toString x
      else string_of_list_ascii (field_sign s ++ fixed_text f (round_Z false (m * Z.to_pos (10 ^ Z.of_nat f)) e))
  end.

(** [Math.log10], which JavaScript leaves to the implementation. *)
Class MathLog := { Math_log10 : num → num }.

(** [bs58.decode], which throws for a text that is not in base 58. *)
Class Bs58 := { bs58_decode : string → result buffer }.

(** [x | 0]: the whole part, modulo [2^32], between [-2^31] and [2^31]. *)
Definition num_to_int32 (x : num) : Z :=
  match x with
  | S754_finite s m e =>
      let a := floor_Z false m e in
      ((if s then - a else a) + 2 ^ 31) mod 2 ^ 32 - 2 ^ 31
  | _ => 0
  end.

Definition SI_SYMBOL : list string := [""; "k"; "M"; "G"; "T"; "P"; "E"].

(** An entry of the list in a text: an index out of range gives [undefined]. *)
Definition symbol_text (tier : Z) : string :=
  match (if tier <? 0 then None else SI_SYMBOL !! Z.to_nat tier) with
  | Some suffix => suffix
  | None => "undefined"
  end.

Section Formats.
#[local] Remove Hints SampleKeys SampleBigToNumber SampleNumberText : typeclass_instances.
Context `{Keys} `{BigToNumber} `{NumberText} `{MathLog}.

Definition abbreviateNumber (number : num) (precision : nat) : result string :=
  let tier := num_to_int32 (num_div (Math_log10 number) (num_of_Z 3)) in
  let scaled := if tier =? 0 then number else num_div number (decimal_num false 1 (tier * 3)) in
  text ← toFixed scaled precision;
  mret (text +:+ symbol_text tier)%string.

Definition formatAmount (val : num) (precision : nat) (abbr : bool) : result string :=
  if abbr then abbreviateNumber val precision else toFixed val precision.

Definition formatTokenAmount (account : option UserAccount) (mint : option MintInfo) (rate : num)
    (prefix suffix : string) (precision : nat) (abbr : bool) : result string :=
  match account with
  | None => mret ""%string
  | Some a =>
      x ← fromLamports (Some (QAccount a)) mint rate;
      text ← formatAmount x precision abbr;
      mret (prefix +:+ text +:+ suffix)%string
  end.

(** ** Icons *)

(** What [TokenIcon] shows: the picture of a known token, or one made from the address. *)
Inductive Icon := Picture (src : string) | Identicon (address : option string).

Definition TokenIcon (tokenMap : KnownTokenMap) (mintAddress : option Address) : Icon :=
  match getTokenIcon tokenMap mintAddress with
  | None | Some EmptyString => Identicon (mint_text mintAddress)
  | Some icon => Picture icon
  end.

(** The digits of [buffer.toString("hex")], two per byte in order. *)
Definition hex_text (b : buffer) : list ascii := concat (hex_byte <$> b).

(** [parseInt(bs58.decode(address).toString("hex").slice(5, 15), 16)], the seed of a picture. *)
Definition identicon_seed `{Bs58} (address : string) : result num :=
  b ← bs58_decode address;
  mret match take 10 (drop 5 (hex_text b)) with
       | [] => S754_nan
       | s => num_of_Z (Layouts.hex_value s)
       end.

End Formats.

(** ** Properties *)

Lemma decimal_value_app ds es :
  decimal_value (ds ++ es) = decimal_value ds * 10 ^ Z.of_nat (length es) + decimal_value es.
Proof.
  revert ds. induction es as [|c es IH] using rev_ind; intros ds; [rewrite app_nil_r; cbn; lia|].
  rewrite (assoc_L (++)), !decimal_value_snoc, IH, length_app, Nat2Z.inj_add. cbn [length].
  change (Z.of_nat 1) with 1. rewrite Z.pow_add_r by lia. lia.
Qed.

Lemma decimal_value_zeros n ds : decimal_value (replicate n "0"%char ++ ds) = decimal_value ds.
Proof.
  induction n as [|n IH]; [done|]. pose proof (decimal_value_app ["0"%char] (replicate n "0"%char ++ ds)) as Happ.
  rewrite IH in Happ. exact Happ.
Qed.

Lemma append_append (s t u : string) : ((s +:+ t) +:+ u = s +:+ t +:+ u)%string.
Proof. induction s as [|c s IH]; [done|]. change (String c ((s +:+ t) +:+ u) = String c (s +:+ t +:+ u)). by rewrite IH. Qed.

(** The text of a natural number is its digits. *)
Lemma pretty_N_go_app n s : pretty_N_go n s = (pretty_N_go n "" +:+ s)%string.
Proof.
  revert s. induction (N.lt_wf_0 n) as [n _ IH]. intros s. destruct (decide (n = 0)%N) as [->|Hn]; [by rewrite !pretty_N_go_0|].
  rewrite !(pretty_N_go_step n) by lia. assert (n `div` 10 < n)%N by (apply N.div_lt; lia).
  rewrite (IH (n `div` 10)%N), (IH (n `div` 10)%N ltac:(done) (String _ "")) by done. by rewrite append_append.
Qed.

Lemma pretty_char n :
  (n < 10)%N → is_digit (pretty_N_char n) = true ∧ decimal_digit (pretty_N_char n) = Z.of_N n.
Proof.
  intros Hn. assert (n ∈ [0; 1; 2; 3; 4; 5; 6; 7; 8; 9]%N) as Hin by (rewrite !elem_of_cons; lia).
  rewrite !elem_of_cons in Hin. destruct_or? Hin; [subst; by split..|by apply elem_of_nil in Hin].
Qed.

Lemma chars_app s t : list_ascii_of_string (s +:+ t)%string = list_ascii_of_string s ++ list_ascii_of_string t.
Proof.
  induction s as [|c s IH]; [done|]. change (c :: list_ascii_of_string (s +:+ t) = c :: list_ascii_of_string s ++ list_ascii_of_string t).
  by rewrite IH.
Qed.

Lemma pretty_go_digits n :
  digits (list_ascii_of_string (pretty_N_go n "")) ∧ decimal_value (list_ascii_of_string (pretty_N_go n "")) = Z.of_N n ∧
  (n ≠ 0%N → list_ascii_of_string (pretty_N_go n "") ≠ []).
Proof.
  induction (N.lt_wf_0 n) as [n _ IH]. destruct (decide (n = 0)%N) as [->|Hn]; [rewrite pretty_N_go_0; by split_and!; [constructor| |]|].
  rewrite pretty_N_go_step, pretty_N_go_app, chars_app by lia.
  assert (Hlt : (n `div` 10 < n)%N) by (apply N.div_lt; lia). destruct (IH _ Hlt) as (Hd & Hv & _).
  destruct (pretty_char (n `mod` 10)) as [Hc Hcv]; [by apply N.mod_lt|]. split_and!.
  - apply Forall_app. split; [done|]. by repeat constructor.
  - cbn [list_ascii_of_string]. rewrite decimal_value_snoc, Hv, Hcv. pose proof (N.div_mod n 10 ltac:(done)). lia.
  - intros _ Heq. by apply app_eq_nil in Heq as [_ ?].
Qed.

Lemma pretty_digits n :
  digits (list_ascii_of_string (pretty n)) ∧ decimal_value (list_ascii_of_string (pretty n)) = Z.of_N n ∧
  list_ascii_of_string (pretty n) ≠ [].
Proof.
  unfold pretty, pretty_N. destruct (decide (n = 0)%N) as [->|Hn].
  - split_and!; [by repeat constructor|done|done].
  - destruct (pretty_go_digits n) as (? & ? & ?). auto.
Qed.

(** A fixed number of decimals. *)
Lemma fixed_text_digits f n :
  0 <= n → ∃ whole frac, fixed_text f n = whole ++ field_tail (if (f =? 0)%nat then None else Some frac) ∧
    digits whole ∧ digits frac ∧ whole ≠ [] ∧ length frac = f ∧ decimal_value (whole ++ frac) = n.
Proof.
  intros Hn. unfold fixed_text. destruct (pretty_digits (Z.to_N n)) as (Hd & Hv & Hne).
  set (m := list_ascii_of_string (pretty (Z.to_N n))) in *.
  set (p := if (length m <=? f)%nat then replicate (f + 1 - length m) "0"%char ++ m else m).
  assert (Hp : digits p ∧ decimal_value p = n ∧ (f < length p)%nat).
  { unfold p. destruct (Nat.leb_spec (length m) f).
    - split_and!; [apply Forall_app; split; [|done]|rewrite decimal_value_zeros; lia|rewrite length_app, length_replicate; lia].
      by apply Forall_replicate.
    - split_and!; [done|lia|done]. }
  destruct Hp as (Hpd & Hpv & Hpl). exists (take (length p - f) p), (drop (length p - f) p). split_and!.
  - by destruct (f =? 0)%nat.
  - by apply Forall_take.
  - by apply Forall_drop.
  - intros Heq. apply (f_equal length) in Heq. rewrite length_take in Heq. cbn in Heq. lia.
  - rewrite length_drop. lia.
  - by rewrite take_drop.
Qed.

(** *** Two decimals *)

Lemma pretty_last n :
  (10 <= n)%N → list_ascii_of_string (pretty n) = list_ascii_of_string (pretty (n `div` 10)%N) ++ [pretty_N_char (n `mod` 10)].
Proof.
  intros Hn. assert (1 <= n `div` 10)%N by (apply N.div_le_lower_bound; lia). unfold pretty, pretty_N.
  rewrite !decide_False by lia. rewrite (pretty_N_go_step n) by lia. by rewrite pretty_N_go_app, chars_app.
Qed.

Lemma pretty_digit n : (n < 10)%N → list_ascii_of_string (pretty n) = [pretty_N_char n].
Proof.
  intros Hn. assert (n ∈ [0; 1; 2; 3; 4; 5; 6; 7; 8; 9]%N) as Hin by (rewrite !elem_of_cons; lia).
  rewrite !elem_of_cons in Hin. destruct_or? Hin; [subst; reflexivity..|by apply elem_of_nil in Hin].
Qed.

Ltac to_Z_div :=
  apply N2Z.inj; rewrite ?N2Z.inj_div, ?N2Z.inj_mod, ?N2Z.inj_div, !Z2N.id by (Z.div_mod_to_equations; lia);
  Z.div_mod_to_equations; lia.

(** The whole part is the text of the quotient, whatever its length. *)
Lemma fixed_text_2 n :
  0 <= n → fixed_text 2 n = list_ascii_of_string (pretty (Z.to_N (n / 100))) ++
    ["."%char; pretty_N_char (Z.to_N (n mod 100 / 10)); pretty_N_char (Z.to_N (n mod 10))].
Proof.
  intros Hn. destruct (decide (n < 100)) as [Hlt|Hge].
  - assert (Hin : n ∈ seqZ 0 100) by (apply elem_of_seqZ; lia). revert Hin. clear.
    assert (Hall : forallb (λ n, bool_decide (fixed_text 2 n = list_ascii_of_string (pretty (Z.to_N (n / 100))) ++
      ["."%char; pretty_N_char (Z.to_N (n mod 100 / 10)); pretty_N_char (Z.to_N (n mod 10))])) (seqZ 0 100) = true)
      by (vm_compute; reflexivity).
    rewrite forallb_forall in Hall. intros Hin. apply list_elem_of_In, Hall, bool_decide_eq_true in Hin. exact Hin.
  - unfold fixed_text.
    assert (Hp : list_ascii_of_string (pretty (Z.to_N n)) = list_ascii_of_string (pretty (Z.to_N (n / 100))) ++
      [pretty_N_char (Z.to_N (n mod 100 / 10)); pretty_N_char (Z.to_N (n mod 10))]).
    { rewrite pretty_last by lia. rewrite pretty_last by (apply N.div_le_lower_bound; lia).
      rewrite <- app_assoc. cbn [app].
      assert (Hq : ((Z.to_N n `div` 10) `div` 10)%N = Z.to_N (n / 100)) by to_Z_div.
      assert (Ht : ((Z.to_N n `div` 10) `mod` 10)%N = Z.to_N (n mod 100 / 10)) by to_Z_div.
      assert (Hu : (Z.to_N n `mod` 10)%N = Z.to_N (n mod 10)) by to_Z_div.
      by rewrite Hq, Ht, Hu. }
    rewrite Hp. set (w := list_ascii_of_string (pretty (Z.to_N (n / 100)))). cbv zeta.
    assert (Hne : w ≠ []) by apply pretty_digits. assert (0 < length w)%nat by (destruct w; [done|cbn; lia]).
    rewrite length_app. cbn [length]. rewrite (proj2 (Nat.leb_gt _ _)) by lia.
    rewrite length_app. cbn [length Nat.eqb]. replace (length w + 2 - 2)%nat with (length w) by lia.
    by rewrite take_app_length, drop_app_length.
Qed.

(** The rounding of [toFixed]: no whole number is nearer, and of two the larger is taken. *)
Definition nearest (n : Z) (m : Z) (e : Z) : Prop :=
  if 0 <=? e then n = m * 2 ^ e else - 2 ^ (- e) < 2 * (m - n * 2 ^ (- e)) < 2 ^ (- e) ∨ 2 * (n * 2 ^ (- e) - m) = 2 ^ (- e).

Lemma round_nearest m e : nearest (round_Z false m e) (Zpos m) e ∧ 0 <= round_Z false m e.
Proof.
  unfold nearest, round_Z. cbn [signed]. destruct (Z.leb_spec 0 e).
  - split; [done|]. assert (0 <= 2 ^ e) by (apply Z.pow_nonneg; lia). nia.
  - set (d := 2 ^ (- e)). assert (0 < d) by (apply Z.pow_pos_nonneg; lia).
    pose proof (Z.div_mod (2 * Zpos m + d) (2 * d) ltac:(lia)).
    pose proof (Z.mod_pos_bound (2 * Zpos m + d) (2 * d) ltac:(lia)).
    split; [|apply Z.div_pos; lia]. nia.
Qed.

Section FormatFacts.
#[local] Remove Hints SampleKeys SampleBigToNumber SampleNumberText : typeclass_instances.
Context `{Keys} `{BigToNumber} `{NumberText} `{MathLog}.

(** A fixed number of decimals.  For a number below [10^21] and at most 100 decimals, the
    text of [toFixed] is one the numeric field accepts, and it reads as the decimal number
    with these decimals that is nearest to the number, the one farther from zero if there
    are two. *)
Theorem toFixed_nearest s m e f :
  (f ≤ 100)%nat → num_leb (num_of_Z (10 ^ 21)) (Math_abs (S754_finite s m e)) = false →
  ∃ t n, toFixed (S754_finite s m e) f = Ok t ∧ nearest n (Zpos m * 10 ^ Z.of_nat f) e ∧
    numeric_text t = true ∧ parseFloat t = decimal_num s n (0 - Z.of_nat f).
Proof.
  intros Hf Hx. set (p := (m * Z.to_pos (10 ^ Z.of_nat f))%positive).
  assert (Hp : Zpos p = Zpos m * 10 ^ Z.of_nat f).
  { unfold p. rewrite Pos2Z.inj_mul, Z2Pos.id; [done|]. apply Z.pow_pos_nonneg; lia. }
  destruct (round_nearest p e) as [Hnear Hpos]. rewrite Hp in Hnear.
  destruct (fixed_text_digits f _ Hpos) as (whole & frac & Htext & Hw & Hfr & Hne & Hlen & Hval).
  set (tail := if (f =? 0)%nat then None else Some frac) in Htext.
  assert (Htail : default [] tail = frac).
  { unfold tail. destruct (Nat.eqb_spec f 0); [|done]. by destruct frac; [|cbn in *; lia]. }
  exists (string_of_list_ascii (field_text s whole tail)), (round_Z false p e). split_and!.
  - unfold toFixed. rewrite (proj2 (Nat.ltb_ge _ _)) by lia. rewrite Hx. fold p. by rewrite Htext.
  - done.
  - apply field_accepted; [done|]. by rewrite Htail.
  - rewrite (parseFloat_field s whole tail Hw) by (rewrite Htail; exact Hfr). rewrite Htail. unfold field_number.
    destruct (whole ++ frac) as [|c ds] eqn:Hds.
    { exfalso. apply Hne. apply app_eq_nil in Hds as [Hw0 _]. exact Hw0. }
    rewrite Hval, Hlen. reflexivity.
Qed.

(** What the sliders show is [toFixed(2)]. *)
Theorem toFixed_two x : toFixed x 2 = Ok (toFixed2 x).
Proof.
  unfold toFixed, toFixed2. change (100 <? 2)%nat with false. cbn iota. destruct x as [s|s| |s m e]; [done..|].
  f_equal. destruct (num_leb _ _); [done|]. destruct (round_nearest (100 * m) e) as [_ Hpos].
  change (m * Z.to_pos (10 ^ Z.of_nat 2))%positive with (m * 100)%positive. rewrite Pos.mul_comm.
  rewrite fixed_text_2 by done. unfold hundredths. set (n := round_Z false (100 * m) e) in *.
  rewrite <- (string_of_list_ascii_of_string (_ +:+ _ +:+ _)), !chars_app. f_equal. f_equal; [by destruct s|]. f_equal.
  assert (Z.to_N (n mod 100 / 10) < 10)%N by (Z.div_mod_to_equations; lia).
  assert (Z.to_N (n mod 10) < 10)%N by (Z.div_mod_to_equations; lia). by rewrite !pretty_digit.
Qed.

(** *** Abbreviated amounts *)

Lemma round_aux_sign s q e l : binary_round_aux prec emax s q e l = match binary_round_aux prec emax false q e l with
  | S754_zero _ => S754_zero s | S754_infinity _ => S754_infinity s | S754_nan => S754_nan
  | S754_finite _ m e => S754_finite s m e end.
Proof.
  unfold binary_round_aux. destruct (shr_fexp _ _ _ _ _) as [mrs e']. destruct (shr_fexp _ _ _ _ _) as [mrs' e''].
  destruct (shr_m mrs') as [|p|p]; [done| |done]. by destruct (_ <=? _).
Qed.

(** The tier of a number whose logarithm is a negative whole number. *)
Lemma negative_tier k : 0 < k < 2 ^ 31 → num_to_int32 (num_div (num_of_Z (- k)) (num_of_Z 3)) = - (k / 3).
Proof.
  intros Hk. destruct (div_faithful k 3 ltac:(lia) ltac:(lia)) as (m & E & Hdiv & HE & Hn & _ & [Hlo Hhi] & Hstrict).
  assert (Hneg : num_div (num_of_Z (- k)) (num_of_Z 3) = S754_finite true m E).
  { rewrite num_of_Z_neg by lia. rewrite num_of_Z_pos in Hdiv by lia. unfold canon in *.
    change (num_of_Z 3) with (S754_finite false 6755399441055744 (-51)) in *. unfold num_div, SFdiv in *.
    destruct (SFdiv_core_binary _ _ _ _ _ _) as [[q e'] l]. cbn [xorb] in *. by rewrite round_aux_sign, Hdiv. }
  rewrite Hneg. cbn [num_to_int32].
  assert (Hfl : floor_Z false m E = k / 3).
  { set (n := 53 + Z.log2 3 - Z.log2 k) in *.
    assert (Hsp : 2 ^ n = 2 ^ (- E) * 2 ^ (E + n)) by (rewrite <- Z.pow_add_r by lia; f_equal; lia).
    assert (0 < 2 ^ (E + n)) by (apply Z.pow_pos_nonneg; lia). assert (0 < 2 ^ (- E)) by (apply Z.pow_pos_nonneg; lia).
    pose proof (Z.div_mod k 3 ltac:(lia)). pose proof (Z.mod_pos_bound k 3 ltac:(lia)). destruct (cdiv_bounds k 3) as [Hk1 Hk2]; [lia|].
    apply floor_between; [lia|]. split; [apply Z.mul_le_mono_pos_r with (2 ^ (E + n)); [done|]; nia|].
    apply Z.mul_lt_mono_pos_r with (2 ^ (E + n)); [done|]. destruct (decide (k mod 3 = 0)) as [Hz|Hz].
    - assert (cdiv k 3 = k / 3) by nia. nia.
    - assert (cdiv k 3 = k / 3 + 1) by nia. specialize (Hstrict Hz). nia. }
  rewrite Hfl. assert (0 <= k / 3 < 2 ^ 31) by (split; [apply Z.div_pos|apply Z.div_lt_upper_bound]; lia).
  rewrite Z.mod_small by lia. lia.
Qed.

(** Small amounts.  The abbreviation of a number whose decimal logarithm is -3 or a smaller
    whole number, one thousandth for instance, ends with [undefined]. *)
Theorem abbreviateNumber_small x k precision :
  Math_log10 x = num_of_Z (- k) → 3 <= k < 2 ^ 31 → (precision ≤ 100)%nat →
  ∃ t, abbreviateNumber x precision = Ok (t +:+ "undefined")%string.
Proof.
  intros Hlog Hk Hp. unfold abbreviateNumber. rewrite Hlog, negative_tier by lia. cbv zeta.
  assert (1 <= k / 3) by (apply Z.div_le_lower_bound; lia). unfold symbol_text.
  rewrite (proj2 (Z.eqb_neq _ _)), (proj2 (Z.ltb_lt _ _)) by lia. unfold toFixed.
  rewrite (proj2 (Nat.ltb_ge _ _)) by lia. by eexists.
Qed.

End FormatFacts.

(** ** Concrete inputs *)

(** A logarithm that is right for one ten-thousandth. *)
#[global] Instance SampleMathLog : MathLog :=
  {| Math_log10 := λ x, if num_eqb x (decimal_num false 1 (-4)) then num_of_Z (-4) else S754_nan |}.

(** Three halves with one decimal. *)
Lemma toFixed_nearest_witness :
  ∃ t n, toFixed (S754_finite false 3 (-1)) 1 = Ok t ∧ nearest n (3 * 10 ^ Z.of_nat 1) (-1) ∧
    numeric_text t = true ∧ parseFloat t = decimal_num false n (0 - Z.of_nat 1).
Proof. apply (toFixed_nearest false 3 (-1) 1); [lia|reflexivity]. Defined.

Lemma abbreviateNumber_small_witness :
  abbreviateNumber (decimal_num false 1 (-4)) 6 = Ok "0.100000undefined"%string ∧
  ∃ t, abbreviateNumber (decimal_num false 1 (-4)) 6 = Ok (t +:+ "undefined")%string.
Proof. split; [vm_compute; reflexivity|]. apply (abbreviateNumber_small _ 4 6); [reflexivity|lia|lia]. Defined.
