(* ===== verification/Storage.v ===== *)
(** * The browser's storage (useLocalStorageState of src/utils/utils.ts)

    A hook whose state survives reloads as a JSON text in [localStorage]; the endpoint
    and the chosen wallet are kept this way.  Strings are lists of 8-bit code units. *)

From Stdlib Require Import ZArith Lia.
From Stdlib Require Import String Ascii.
From stdpp Require Import base list strings sets gmap.
From S2P Require Import Prelude.

(** ** JSON texts of strings *)

Definition code (n : nat) : ascii := ascii_of_nat n.
Definition quote : ascii := code 34.
Definition backslash : ascii := code 92.

Definition hex_char (n : nat) : ascii := code (if (n <? 10)%nat then 48 + n else 87 + n).
Definition hex_value (c : ascii) : option nat :=
  let n := nat_of_ascii c in
  if (48 <=? n)%nat && (n <=? 57)%nat then Some (n - 48)%nat
  else if (97 <=? n)%nat && (n <=? 102)%nat then Some (n - 87)%nat
  else if (65 <=? n)%nat && (n <=? 70)%nat then Some (n - 55)%nat
  else None.

(** [JSON.stringify] on one code unit of a string. *)
Definition json_escape (c : ascii) : list ascii :=
  let n := nat_of_ascii c in
  if (n =? 34)%nat || (n =? 92)%nat then [backslash; c]
  else if (n =? 8)%nat then [backslash; "b"%char]
  else if (n =? 9)%nat then [backslash; "t"%char]
  else if (n =? 10)%nat then [backslash; "n"%char]
  else if (n =? 12)%nat then [backslash; "f"%char]
  else if (n =? 13)%nat then [backslash; "r"%char]
  else if (n <? 32)%nat then
    [backslash; "u"%char; "0"%char; "0"%char; hex_char (n / 16); hex_char (n mod 16)]
  else [c].

Definition JSON_stringify (s : string) : string :=
  string_of_list_ascii (quote :: concat (json_escape <$> list_ascii_of_string s) ++ [quote]).

(** The code unit of an escape other than [\u]. *)
Definition json_unescape (c : ascii) : option ascii :=
  let n := nat_of_ascii c in
  if (n =? 34)%nat || (n =? 92)%nat || (n =? 47)%nat then Some c
  else if (c =? "b")%char then Some (code 8)
  else if (c =? "t")%char then Some (code 9)
  else if (c =? "n")%char then Some (code 10)
  else if (c =? "f")%char then Some (code 12)
  else if (c =? "r")%char then Some (code 13)
  else None.

(** The rest of a string after its opening quote, up to the quote that closes it, which
    has to be the end of the text. *)
Fixpoint json_read (s : list ascii) : option (list ascii) :=
  match s with
  | [] => None
  | c :: s' =>
      if (c =? quote)%char then match s' with [] => Some [] | _ => None end
      else if (c =? backslash)%char then
        match s' with
        | e :: s'' =>
            if (e =? "u")%char then
              match s'' with
              | z1 :: z2 :: h :: l :: rest =>
                  if (z1 =? "0")%char && (z2 =? "0")%char then
                    h ← hex_value h; l ← hex_value l; r ← json_read rest; Some (code (16 * h + l) :: r)
                  else None
              | _ => None
              end
            else c ← json_unescape e; r ← json_read s''; Some (c :: r)
        | [] => None
        end
      else if (nat_of_ascii c <? 32)%nat then None
      else r ← json_read s'; Some (c :: r)
  end.

(** [JSON.parse] on the texts of strings. *)
Definition JSON_parse (s : string) : result string :=
  match list_ascii_of_string s with
  | c :: s' =>
      if (c =? quote)%char then
        match json_read s' with
        | Some r => Ok (string_of_list_ascii r)
        | None => Err (JsError "Unexpected token in JSON" [])
        end
      else Err (JsError "Unexpected token in JSON" [])
  | [] => Err (JsError "Unexpected end of JSON input" [])
  end.

(** ** The hook *)

(** The states: not set, [null], or a string. *)
Inductive Stored := Undefined | Null | Text (s : string).

#[global] Instance Stored_eq_dec : EqDecision Stored.
Proof. solve_decision. Defined.

(** The first state: an item that is missing or empty gives the default. *)
Definition stored_state (storage : gmap string string) (key : string) (defaultState : Stored) : result Stored :=
  match storage !! key with
  | Some storedState =>
      if (storedState =? "")%string then Ok defaultState
      else s ← JSON_parse storedState; mret (Text s)
  | None => Ok defaultState
  end.

(** [setLocalStorageState]; [JSON.stringify(undefined)] is [undefined], which [setItem]
    stores as the text of it. *)
Definition setLocalStorageState (key : string) (newState : Stored) (h : Stored * gmap string string) : Stored * gmap string string :=
  let '(state, storage) := h in
  if decide (state = newState) then h
  else (newState,
        match newState with
        | Null => delete key storage
        | Text s => <[key := JSON_stringify s]> storage
        | Undefined => <[key := "undefined"%string]> storage
        end).

(** ** Properties *)

Lemma json_read_escape c s :
  json_read (json_escape c ++ s) = (r ← json_read s; Some (c :: r)).
Proof. destruct c as [[] [] [] [] [] [] [] []]; reflexivity. Qed.

Lemma json_read_quoted cs : json_read (concat (json_escape <$> cs) ++ [quote]) = Some cs.
Proof.
  induction cs as [|c cs IH]; [done|]. cbn [fmap list_fmap concat]. by rewrite <- app_assoc, json_read_escape, IH.
Qed.

Lemma JSON_parse_stringify s : JSON_parse (JSON_stringify s) = Ok s.
Proof.
  unfold JSON_parse, JSON_stringify. rewrite list_ascii_of_string_of_list_ascii.
  change ((quote =? quote)%char) with true. cbn iota. rewrite json_read_quoted.
  by rewrite string_of_list_ascii_of_string.
Qed.

Lemma stored_text storage key d s :
  storage !! key = Some (JSON_stringify s) → stored_state storage key d = Ok (Text s).
Proof.
  intros Hs. unfold stored_state. rewrite Hs. change (JSON_stringify s =? "")%string with false.
  by rewrite JSON_parse_stringify.
Qed.

(** Storing a text, from a state the storage agrees with. *)
Lemma set_text_stored key d s st storage st' storage' :
  stored_state storage key d = Ok st → setLocalStorageState key (Text s) (st, storage) = (st', storage') →
  st' = Text s ∧ stored_state storage' key d = Ok st' ∧
  ∀ key' d', key' ≠ key → stored_state storage' key' d' = stored_state storage key' d'.
Proof.
  intros Hst. unfold setLocalStorageState. destruct (decide (st = Text s)) as [->|_]; intros [= <- <-]; [done|].
  split_and!; [done|apply stored_text, lookup_insert_eq|]. intros key' d' Hne. unfold stored_state.
  by rewrite lookup_insert_ne.
Qed.

(** Stored states survive a reload.  The JSON text of a string parses back to it,
    whatever characters it holds, so that the hook of a reloaded page starts in the
    state that was set last, and the other keys are as they were; [null] gives the
    default back. *)
Theorem stored_state_reloads key d storage st :
  stored_state storage key d = Ok st →
  (∀ s, let '(st', storage') := setLocalStorageState key (Text s) (st, storage) in
     st' = Text s ∧ stored_state storage' key d = Ok st' ∧
     ∀ key' d', key' ≠ key → stored_state storage' key' d' = stored_state storage key' d') ∧
  (st ≠ Null → stored_state (snd (setLocalStorageState key Null (st, storage))) key d = Ok d).
Proof.
  intros Hst. split.
  - intros s. destruct (setLocalStorageState _ _ _) as [st' storage'] eqn:Hs. by eapply set_text_stored.
  - intros Hne. unfold setLocalStorageState. rewrite decide_False by done. cbn [snd]. unfold stored_state.
    by rewrite lookup_delete_eq.
Qed.

Lemma stored_state_reloads_witness :
  (∀ s, let '(st', storage') := setLocalStorageState "walletProvider" (Text s) (Undefined, ∅) in
     st' = Text s ∧ stored_state storage' "walletProvider" Undefined = Ok st' ∧
     ∀ key' d', key' ≠ "walletProvider"%string → stored_state storage' key' d' = stored_state ∅ key' d') ∧
  (Undefined ≠ Null →
   stored_state (snd (setLocalStorageState "walletProvider" Null (Undefined, ∅))) "walletProvider" Undefined = Ok Undefined).
Proof. apply (stored_state_reloads "walletProvider" Undefined ∅ Undefined). reflexivity. Defined.
