(* ===== verification/Wallets.v ===== *)
(** * Wallets (src/contexts/wallet.tsx, src/wallet-adapters/solong_adapter)

    The page keeps the wallet the user chose as an adapter object that announces when it
    is connected and disconnected.  An adapter is an interface here, with the Solong
    adapter, the Ledger adapter (Ledger.v) and the wallets of the library behind it; the
    provider is a state machine over the adapter objects made so far, since the
    listeners of an object stay when another one takes its place. *)

From Stdlib Require Import ZArith Lia.
From Stdlib Require Import String Ascii.
From stdpp Require Import base list strings sets gmap.
From coqutil Require Import Byte.
From S2P Require Import Prelude JsNumber Buffers Web3 Sample Program Instructions SamplePool.
From S2P Require Import Ledger Storage.

Open Scope Z_scope.

(** ** Adapters *)

Definition Events `{Keys} : Type := list (AdapterEvent PublicKey).

(** [WalletAdapter]: its key, its calls, and what may happen to it without a call; each
    with the events emitted, a connection with the key the adapter has then. *)
Class WalletAdapter `{Keys} (A : Type) := {
  adapter_publicKey : A → option PublicKey;
  adapter_connect : A → A * Events;
  adapter_disconnect : A → A * Events;
  Progress : Type;
  adapter_progress : Progress → A → A * Events;
}.

Definition has_key `{WalletAdapter A} (a : A) : bool := bool_decide (is_Some (adapter_publicKey a)).

(** Whether a listener that heard [e] takes the adapter to be connected. *)
Definition announce {K} (connected : bool) (e : AdapterEvent K) : bool :=
  match e with ConnectEvent _ => true | DisconnectEvent => false | NotifyError => connected end.

(** An adapter's events tell the truth about its key; disconnecting announces no
    connection; and an adapter that is not connecting when it is disconnected does nothing
    from then on. *)
Class AdapterLaws `{WalletAdapter A} := {
  adapter_valid : A → Prop;
  settled : A → Prop;
  quiet : A → Prop;
  truthful_connect : ∀ a, adapter_valid a →
    adapter_valid (fst (adapter_connect a)) ∧
    has_key (fst (adapter_connect a)) = foldl announce (has_key a) (snd (adapter_connect a));
  truthful_disconnect : ∀ a, adapter_valid a →
    adapter_valid (fst (adapter_disconnect a)) ∧
    has_key (fst (adapter_disconnect a)) = foldl announce (has_key a) (snd (adapter_disconnect a));
  truthful_progress : ∀ p a, adapter_valid a →
    adapter_valid (fst (adapter_progress p a)) ∧
    has_key (fst (adapter_progress p a)) = foldl announce (has_key a) (snd (adapter_progress p a));
  disconnect_says : ∀ a, adapter_valid a → foldl announce false (snd (adapter_disconnect a)) = false;
  settled_disconnect : ∀ a, settled a → quiet (fst (adapter_disconnect a));
  quiet_progress : ∀ p a, quiet a → adapter_progress p a = (a, []);
}.

(** *** src/wallet-adapters/solong_adapter/index.tsx *)

Section Solong.
Context `{Keys}.

(** [SolongWalletAdapter]: its fields, and whether [window.solong] is there. *)
Record SolongWalletAdapter := {
  solong_publicKey : option PublicKey;
  _onProcess : bool;
  installed : bool;
}.

Definition new_SolongWalletAdapter (inst : bool) : SolongWalletAdapter :=
  {| solong_publicKey := None; _onProcess := false; installed := inst |}.

Definition solong_disconnect (a : SolongWalletAdapter) : SolongWalletAdapter * Events :=
  match solong_publicKey a with
  | Some _ => ({| solong_publicKey := None; _onProcess := _onProcess a; installed := installed a |}, [DisconnectEvent])
  | None => (a, [])
  end.

Definition solong_connect (a : SolongWalletAdapter) : SolongWalletAdapter * Events :=
  if _onProcess a then (a, [])
  else if negb (installed a) then (a, [NotifyError])
  else ({| solong_publicKey := solong_publicKey a; _onProcess := true; installed := installed a |}, []).

(** The promise of [selectAccount], if there is one, is settled. *)
Definition solong_selected (account : result string) (a : SolongWalletAdapter) : SolongWalletAdapter * Events :=
  if negb (_onProcess a) then (a, [])
  else
    let '(a, evs) :=
      match (s ← account; PublicKey_of_string s) with
      | Ok k => ({| solong_publicKey := Some k; _onProcess := _onProcess a; installed := installed a |}, [ConnectEvent k])
      | Err _ => solong_disconnect a
      end in
    ({| solong_publicKey := solong_publicKey a; _onProcess := false; installed := installed a |}, evs).

#[global] Instance SolongAdapter : WalletAdapter SolongWalletAdapter := {|
  adapter_publicKey := solong_publicKey;
  adapter_connect := solong_connect;
  adapter_disconnect := solong_disconnect;
  Progress := result string;
  adapter_progress := solong_selected;
|}.

(** The Solong adapter keeps its promise to the page. *)
#[global, program] Instance SolongAdapterLaws : AdapterLaws (A := SolongWalletAdapter) := {|
  adapter_valid := λ _, True;
  settled := λ a, _onProcess a = false;
  quiet := λ a, _onProcess a = false;
|}.
Next Obligation. intros a _. cbn. unfold solong_connect. by destruct (_onProcess a), (installed a). Qed.
Next Obligation. intros a _. cbn. unfold solong_disconnect, has_key. cbn. by destruct (solong_publicKey a) eqn:Hk; cbn; rewrite ?Hk. Qed.
Next Obligation.
  intros r a _. cbn. unfold solong_selected, solong_disconnect, has_key. cbn.
  destruct (_onProcess a); cbn; [|done].
  destruct (s ← r; PublicKey_of_string s) as [k|e]; cbn; [done|]. by destruct (solong_publicKey a) eqn:Hk; cbn; rewrite ?Hk.
Qed.
Next Obligation. intros a _. cbn. unfold solong_disconnect. by destruct (solong_publicKey a). Qed.
Next Obligation. intros a Ha. cbn in *. unfold solong_disconnect. by destruct (solong_publicKey a). Qed.
Next Obligation. intros r a Ha. cbn in *. unfold solong_selected. by rewrite Ha. Qed.

End Solong.

(** *** src/wallet-adapters/ledger/index.tsx *)

Section LedgerObject.
Context `{Keys} {D : Type} `{!Transport D}.

(** A call of the Ledger adapter and the events of it. *)
Definition ledger_call (o : adapter_op) (w : Wallet (D := D)) : Wallet * Events :=
  let w' := run_op o w in (w', drop (length (emitted w)) (emitted w')).

#[global] Instance LedgerAdapter : WalletAdapter (Wallet (D := D)) := {|
  adapter_publicKey := wallet_key;
  adapter_connect := ledger_call OpConnect;
  adapter_disconnect := ledger_call OpDisconnect;
  Progress := Empty_set;
  adapter_progress := λ p, match p with end;
|}.

Lemma ledger_call_events o w l : emitted (run_op o w) = emitted w ++ l → snd (ledger_call o w) = l.
Proof. intros Hl. cbn. by rewrite Hl, drop_app_length. Qed.

(** So does the Ledger adapter. *)
#[global, program] Instance LedgerAdapterLaws : AdapterLaws (A := Wallet (D := D)) := {|
  adapter_valid := wallet_ok;
  settled := λ _, True;
  quiet := λ _, True;
|}.
Next Obligation.
  intros w Hw. split; [by apply run_op_ok|]. destruct Hw as [Hc Hk]. cbn [adapter_connect LedgerAdapter].
  destruct (connect w) as [r w'] eqn:Hr. assert (Hrun : run_op OpConnect w = w') by (cbn; by rewrite Hr).
  destruct (connect_cases w r w' Hc Hr) as [_ Hm]. unfold has_key. cbn [adapter_publicKey LedgerAdapter].
  change (fst (ledger_call OpConnect w)) with (run_op OpConnect w). destruct r as [[]|e].
  - destruct Hm as [(k & Hk' & _ & He)|(Hk' & _ & l & He & Hl)].
    + rewrite (ledger_call_events _ _ [ConnectEvent k]) by (by rewrite Hrun). by rewrite Hrun, Hk'.
    + rewrite (ledger_call_events _ _ (NotifyError :: l)) by (by rewrite Hrun). rewrite Hrun, Hk'.
      destruct Hl as [[-> Ht]| ->]; [|done]. cbn. destruct (wallet_key w) as [k|]; [|done].
      rewrite Hk in Ht; done.
  - destruct Hm as (_ & Hk' & He). rewrite (ledger_call_events _ _ [NotifyError]) by (by rewrite Hrun).
    by rewrite Hrun, Hk'.
Qed.
Next Obligation.
  intros w Hw. split; [by apply run_op_ok|]. destruct Hw as [_ Hk]. cbn [adapter_disconnect LedgerAdapter].
  pose proof (disconnect_run w) as Hd. destruct (disconnect w) as [r w'] eqn:Hr.
  assert (Hrun : run_op OpDisconnect w = w') by (cbn; by rewrite Hr). unfold has_key. cbn [adapter_publicKey LedgerAdapter].
  change (fst (ledger_call OpDisconnect w)) with (run_op OpDisconnect w). destruct r as [[]|e].
  - destruct Hd as (_ & Hk' & _ & He). rewrite (ledger_call_events _ _ _ ltac:(rewrite Hrun; exact He)), Hrun, Hk'.
    destruct (transport w) eqn:Ht; [done|]. cbn. destruct (wallet_key w) as [k|]; [|done]. specialize (Hk ltac:(done)). done.
  - destruct Hd as (_ & _ & Hk' & _ & He).
    rewrite (ledger_call_events _ _ []) by (by rewrite Hrun, app_nil_r). by rewrite Hrun, Hk'.
Qed.
Next Obligation. by intros []. Qed.
Next Obligation.
  intros w Hw. cbn [adapter_disconnect LedgerAdapter]. pose proof (disconnect_run w) as Hd.
  destruct (disconnect w) as [r w'] eqn:Hr. assert (Hrun : run_op OpDisconnect w = w') by (cbn; by rewrite Hr).
  destruct r as [[]|e].
  - destruct Hd as (_ & _ & _ & He). rewrite (ledger_call_events _ _ _ ltac:(rewrite Hrun; exact He)).
    by destruct (transport w).
  - destruct Hd as (_ & _ & _ & _ & He). by rewrite (ledger_call_events _ _ []) by (by rewrite Hrun, app_nil_r).
Qed.
Next Obligation. done. Qed.
Next Obligation. by intros []. Qed.

End LedgerObject.

(** *** The adapters of the page *)

Section Objects.
Context `{Keys} {D L : Type} `{!Transport D} `{!WalletAdapter L}.

(** An object of one of the adapters; [Wallet] of @project-serum/sol-wallet-adapter is
    the third. *)
Inductive WalletObject :=
  | SolongObject (a : SolongWalletAdapter)
  | LedgerObject (w : Wallet (D := D))
  | LibraryObject (l : L).

Definition on_object (o : WalletObject) (f : ∀ A, WalletAdapter A → A → A * Events) : WalletObject * Events :=
  match o with
  | SolongObject a => let '(a, e) := f _ _ a in (SolongObject a, e)
  | LedgerObject w => let '(w, e) := f _ _ w in (LedgerObject w, e)
  | LibraryObject l => let '(l, e) := f _ _ l in (LibraryObject l, e)
  end.

#[global] Instance ObjectAdapter : WalletAdapter WalletObject := {|
  adapter_publicKey := λ o,
    match o with
    | SolongObject a => adapter_publicKey a
    | LedgerObject w => adapter_publicKey w
    | LibraryObject l => adapter_publicKey l
    end;
  adapter_connect := λ o, on_object o (λ A WA, adapter_connect);
  adapter_disconnect := λ o, on_object o (λ A WA, adapter_disconnect);
  Progress := result string + Progress (A := L);
  adapter_progress := λ p o,
    match p, o with
    | inl r, SolongObject a => let '(a, e) := solong_selected r a in (SolongObject a, e)
    | inr q, LibraryObject l => let '(l, e) := adapter_progress q l in (LibraryObject l, e)
    | _, _ => (o, [])
    end;
|}.

Context `{!AdapterLaws (A := L)}.

(** A property of each kind of object. *)
Definition object_is (P : ∀ A (WA : WalletAdapter A), AdapterLaws (A := A) → A → Prop) (o : WalletObject) : Prop :=
  match o with
  | SolongObject a => P _ _ _ a
  | LedgerObject w => P _ _ _ w
  | LibraryObject l => P _ _ _ l
  end.

#[global, program] Instance ObjectAdapterLaws : AdapterLaws (A := WalletObject) := {|
  adapter_valid := object_is (λ A WA LA, adapter_valid);
  settled := object_is (λ A WA LA, settled);
  quiet := object_is (λ A WA LA, quiet);
|}.
Next Obligation.
  intros [a|w|l] Ho; unfold adapter_connect at 1 2 3, ObjectAdapter, on_object; cbn beta iota;
    pose proof (truthful_connect _ Ho) as Ht; by destruct (adapter_connect _).
Qed.
Next Obligation.
  intros [a|w|l] Ho; unfold adapter_disconnect at 1 2 3, ObjectAdapter, on_object; cbn beta iota;
    pose proof (truthful_disconnect _ Ho) as Ht; by destruct (adapter_disconnect _).
Qed.
Next Obligation.
  intros [r|q] [a|w|l] Ho; try done; unfold adapter_progress at 1 2 3, ObjectAdapter; cbn beta iota.
  - pose proof (truthful_progress (A := SolongWalletAdapter) r a Ho) as Ht.
    cbn [adapter_progress SolongAdapter] in Ht. by destruct (solong_selected r a).
  - pose proof (truthful_progress q _ Ho) as Ht. by destruct (adapter_progress q l).
Qed.
Next Obligation.
  intros [a|w|l] Ho; unfold adapter_disconnect at 1, ObjectAdapter, on_object; cbn beta iota;
    pose proof (disconnect_says _ Ho) as Ht; by destruct (adapter_disconnect _).
Qed.
Next Obligation.
  intros [a|w|l] Ho; unfold adapter_disconnect at 1, ObjectAdapter, on_object; cbn beta iota;
    pose proof (settled_disconnect _ Ho) as Ht; by destruct (adapter_disconnect _).
Qed.
Next Obligation.
  intros [r|q] [a|w|l] Ho; try done; unfold adapter_progress at 1, ObjectAdapter; cbn beta iota.
  - pose proof (quiet_progress (A := SolongWalletAdapter) r a Ho) as Hq.
    cbn [adapter_progress SolongAdapter] in Hq. by rewrite Hq.
  - by rewrite (quiet_progress q l Ho).
Qed.

End Objects.

(** ** src/contexts/wallet.tsx *)

(** The classes [provider.adapter] may be; without one the library's is used. *)
Inductive AdapterClass := SolongClass | LedgerClass.

Record Provider := { provider_name : string; provider_url : string; provider_adapter : option AdapterClass }.

Definition WALLET_PROVIDERS : list Provider := [
  {| provider_name := "Sollet"; provider_url := "https://www.sollet.io"; provider_adapter := None |};
  {| provider_name := "Solong"; provider_url := "https://solongwallet.com"; provider_adapter := Some SolongClass |};
  {| provider_name := "Solflare"; provider_url := "https://solflare.com/access-wallet"; provider_adapter := None |};
  {| provider_name := "MathWallet"; provider_url := "https://mathwallet.org"; provider_adapter := None |};
  {| provider_name := "Ledger"; provider_url := "https://www.ledger.com"; provider_adapter := Some LedgerClass |}
].

Definition find_provider (providerUrl : Stored) : option Provider :=
  List.find (λ pr, bool_decide (providerUrl = Text (provider_url pr))) WALLET_PROVIDERS.

(** The key as the notification shows it. *)
Definition keyToDisplay (walletPublicKey : string) : string :=
  let n := String.length walletPublicKey in
  if (20 <? n)%nat
  then (substring 0 7 walletPublicKey ++ "....." ++ substring (n - 7) 7 walletPublicKey)%string
  else walletPublicKey.

Section Page.
Context `{Keys} {D L : Type} `{!Transport D} `{!WalletAdapter L}.

(** What the page finds in the browser: the constructor of the library, the Solong
    extension, and the Ledger. *)
Record Environment := {
  new_Wallet : string → string → L;
  window_solong : bool;
  usb : Ledger D;
}.

Context (env : Environment).

(** The adapter objects made so far and the state of the provider: [current] is the
    object that [wallet] is. *)
Record Page := {
  objects : list (WalletObject (D := D) (L := L));
  current : option nat;
  connected : bool;
  autoConnect : bool;
  providerUrl : Stored;
  storage : gmap string string;
  endpoint : string;
  isModalVisible : bool;
  messages : list string;
}.

Definition setConnected (b : bool) (p : Page) : Page :=
  {| objects := objects p; current := current p; connected := b; autoConnect := autoConnect p;
     providerUrl := providerUrl p; storage := storage p; endpoint := endpoint p;
     isModalVisible := isModalVisible p; messages := messages p |}.
Definition setAutoConnect (b : bool) (p : Page) : Page :=
  {| objects := objects p; current := current p; connected := connected p; autoConnect := b;
     providerUrl := providerUrl p; storage := storage p; endpoint := endpoint p;
     isModalVisible := isModalVisible p; messages := messages p |}.
Definition setIsModalVisible (b : bool) (p : Page) : Page :=
  {| objects := objects p; current := current p; connected := connected p; autoConnect := autoConnect p;
     providerUrl := providerUrl p; storage := storage p; endpoint := endpoint p;
     isModalVisible := b; messages := messages p |}.
Definition setProviderUrl (url : string) (p : Page) : Page :=
  let '(st, storage) := setLocalStorageState "walletProvider" (Text url) (providerUrl p, storage p) in
  {| objects := objects p; current := current p; connected := connected p; autoConnect := autoConnect p;
     providerUrl := st; storage := storage; endpoint := endpoint p;
     isModalVisible := isModalVisible p; messages := messages p |}.
Definition with_endpoint (e : string) (p : Page) : Page :=
  {| objects := objects p; current := current p; connected := connected p; autoConnect := autoConnect p;
     providerUrl := providerUrl p; storage := storage p; endpoint := e;
     isModalVisible := isModalVisible p; messages := messages p |}.
Definition with_objects (os : list WalletObject) (cur : option nat) (p : Page) : Page :=
  {| objects := os; current := cur; connected := connected p; autoConnect := autoConnect p;
     providerUrl := providerUrl p; storage := storage p; endpoint := endpoint p;
     isModalVisible := isModalVisible p; messages := messages p |}.
Definition say (m : string) (p : Page) : Page :=
  {| objects := objects p; current := current p; connected := connected p; autoConnect := autoConnect p;
     providerUrl := providerUrl p; storage := storage p; endpoint := endpoint p;
     isModalVisible := isModalVisible p; messages := messages p ++ [m] |}.

(** The listeners the effect gives every adapter object, and never takes away; the
    adapters' own notifications are not listened to. *)
Definition listen (p : Page) (e : AdapterEvent PublicKey) : Page :=
  match e with
  | ConnectEvent k => say ("Connected to wallet " ++ keyToDisplay (toBase58 k)) (setConnected true p)
  | DisconnectEvent => say "Disconnected from wallet" (setConnected false p)
  | NotifyError => p
  end.

(** A call of, or an event at, an object. *)
Definition on_wallet (f : WalletObject → WalletObject * Events) (i : nat) (p : Page) : Page :=
  match objects p !! i with
  | Some o => let '(o, evs) := f o in foldl listen (with_objects (<[i := o]> (objects p)) (current p) p) evs
  | None => p
  end.

(** [new (provider.adapter || Wallet)(providerUrl, endpoint)]. *)
Definition new_object (pr : Provider) (e : string) : WalletObject :=
  match provider_adapter pr with
  | Some SolongClass => SolongObject (new_SolongWalletAdapter (window_solong env))
  | Some LedgerClass => LedgerObject (new_wallet (usb env))
  | None => LibraryObject (new_Wallet env (provider_url pr) e)
  end.

(** The wallet of the provider, if there is one. *)
Definition make_wallet (p : Page) : Page :=
  match find_provider (providerUrl p) with
  | Some pr => with_objects (objects p ++ [new_object pr (endpoint p)]) (Some (length (objects p))) p
  | None => with_objects (objects p) None p
  end.

(** The cleanup of the effect on the old wallet. *)
Definition leave_wallet (p : Page) : Page :=
  let p := setConnected false p in
  match current p with Some i => on_wallet adapter_disconnect i p | None => p end.

(** The effect that connects. *)
Definition auto_connect (p : Page) : Page :=
  match current p with
  | Some i => if autoConnect p then setAutoConnect false (on_wallet adapter_connect i p) else p
  | None => p
  end.

(** Rendering after the state became [p]: a new wallet is made when the provider's URL or
    the endpoint is not that of the last rendering. *)
Definition render (old p : Page) : Page :=
  auto_connect (if decide (providerUrl p = providerUrl old ∧ endpoint p = endpoint old) then p
                else make_wallet (leave_wallet p)).

(** The page after loading. *)
Definition load_page (st : gmap string string) (e : string) : result Page :=
  url ← stored_state st "walletProvider" Undefined;
  mret (auto_connect (make_wallet
    {| objects := []; current := None; connected := false; autoConnect := false; providerUrl := url; storage := st;
       endpoint := e; isModalVisible := false; messages := [] |})).

Definition select (p : Page) : Page := setIsModalVisible true p.
Definition close (p : Page) : Page := setIsModalVisible false p.

(** A click on the button of a provider. *)
Definition pick (url : string) (p : Page) : Page :=
  render p (close (setAutoConnect true (setProviderUrl url p))).

(** The connection's endpoint changes. *)
Definition change_endpoint (e : string) (p : Page) : Page := render p (with_endpoint e p).

(** [useWallet]. *)
Definition wallet_of (p : Page) : option WalletObject := i ← current p; objects p !! i.
Definition publicKey_of (p : Page) : option PublicKey := o ← wallet_of p; adapter_publicKey o.
Definition use_connect (p : Page) : Page :=
  match current p with Some i => on_wallet adapter_connect i p | None => select p end.
Definition use_disconnect (p : Page) : Page :=
  match current p with Some i => on_wallet adapter_disconnect i p | None => p end.

(** Something happens to an object. *)
Definition object_event (i : nat) (q : Progress (A := WalletObject)) (p : Page) : Page :=
  on_wallet (adapter_progress q) i p.

End Page.

(** ** Properties *)

Section PageFacts.
Context `{Keys} {D L : Type} `{!Transport D} `{!WalletAdapter L} `{!AdapterLaws (A := L)}.
Context (env : Environment (D := D) (L := L)).
(** A new object of the library is in order and has no key. *)
Context (library_new : ∀ url e, adapter_valid (new_Wallet env url e) ∧ has_key (new_Wallet env url e) = false).

(** What listening changes: only [connected] and the messages. *)
Lemma listen_all evs (p : Page (D := D) (L := L)) :
  let p' := foldl listen p evs in
  objects p' = objects p ∧ current p' = current p ∧ autoConnect p' = autoConnect p ∧ providerUrl p' = providerUrl p ∧
  storage p' = storage p ∧ endpoint p' = endpoint p ∧ isModalVisible p' = isModalVisible p ∧
  connected p' = foldl announce (connected p) evs.
Proof.
  revert p. induction evs as [|e evs IH]; intros p; [done|]. cbn [foldl]. cbv zeta in *.
  destruct (IH (listen p e)) as (-> & -> & -> & -> & -> & -> & -> & ->). by destruct e.
Qed.

(** The state the provider should be in: the current object speaks for [connected], and
    the others are silent. *)
Record page_ok (p : Page (D := D) (L := L)) : Prop := {
  ok_valid : Forall adapter_valid (objects p);
  ok_quiet : ∀ i o, objects p !! i = Some o → current p ≠ Some i → quiet o;
  ok_range : ∀ i, current p = Some i → (i < length (objects p))%nat;
  ok_truth : connected p = match wallet_of p with Some o => has_key o | None => false end;
}.

Lemma ok_same p p' :
  objects p' = objects p → current p' = current p → connected p' = connected p → page_ok p → page_ok p'.
Proof. intros Ho Hc Hk [Hv Hq Hr Ht]. unfold wallet_of in *. by split; unfold wallet_of; rewrite ?Ho, ?Hc, ?Hk. Qed.

(** A truthful call of the current object. *)
Lemma call_current f i p :
  (∀ o, adapter_valid o → adapter_valid (fst (f o)) ∧ has_key (fst (f o)) = foldl announce (has_key o) (snd (f o))) →
  page_ok p → current p = Some i → page_ok (on_wallet f i p).
Proof.
  intros Hf [Hv Hq Hr Ht] Hi. unfold on_wallet. destruct (objects p !! i) as [o|] eqn:Ho; [|done].
  unfold wallet_of in Ht. rewrite Hi in Ht. cbn [mbind option_bind] in Ht. rewrite Ho in Ht.
  destruct (Hf o) as [Hv' Hk]; [by apply (Forall_lookup_1 _ _ _ _ Hv Ho)|].
  destruct (f o) as [o' evs]. cbn [fst snd] in *.
  destruct (listen_all evs (with_objects (<[i:=o']> (objects p)) (current p) p)) as (Hos & Hc & _ & _ & _ & _ & _ & Hcon).
  cbn [objects current connected with_objects] in *. split; unfold wallet_of; rewrite ?Hos, ?Hc, ?Hcon, ?Hi.
  - by apply Forall_insert.
  - intros j oj Hj Hne. rewrite list_lookup_insert_ne in Hj by congruence. apply (Hq j oj Hj). congruence.
  - intros j [= <-]. rewrite length_insert. by apply Hr.
  - cbn [mbind option_bind]. rewrite list_lookup_insert_eq by (by apply Hr). by rewrite Ht.
Qed.

Lemma on_wallet_fields f i (p : Page (D := D) (L := L)) :
  let p' := on_wallet f i p in
  current p' = current p ∧ autoConnect p' = autoConnect p ∧ providerUrl p' = providerUrl p ∧
  storage p' = storage p ∧ endpoint p' = endpoint p ∧ isModalVisible p' = isModalVisible p ∧
  length (objects p') = length (objects p).
Proof.
  unfold on_wallet. destruct (objects p !! i) as [o|]; [|done]. destruct (f o) as [o' evs].
  destruct (listen_all evs (with_objects (<[i:=o']> (objects p)) (current p) p)) as (Hos & -> & -> & -> & -> & -> & -> & _).
  cbv zeta. rewrite Hos. cbn. by rewrite length_insert.
Qed.

(** Leaving a wallet that is not connecting: every object is silent and the page is not
    connected. *)
Lemma leave_ok p :
  page_ok p → (∀ o, wallet_of p = Some o → settled o) →
  Forall adapter_valid (objects (leave_wallet p)) ∧ Forall quiet (objects (leave_wallet p)) ∧
  connected (leave_wallet p) = false.
Proof.
  intros [Hv Hq Hr Ht] Hs. unfold leave_wallet. cbn [current setConnected].
  destruct (current p) as [i|] eqn:Hi.
  - destruct (lookup_lt_is_Some_2 (objects p) i) as [o Ho]; [by apply Hr|].
    unfold wallet_of in Hs. rewrite Hi in Hs. specialize (Hs o Ho).
    assert (Hvo : adapter_valid o) by apply (Forall_lookup_1 _ _ _ _ Hv Ho).
    destruct (truthful_disconnect o Hvo) as [Hv' _]. pose proof (disconnect_says o Hvo) as Hsay.
    pose proof (settled_disconnect o Hs) as Hqo. unfold on_wallet. cbn [objects current setConnected]. rewrite Ho.
    destruct (adapter_disconnect o) as [o' evs]. cbn [fst snd] in *.
    destruct (listen_all evs (with_objects (<[i:=o']> (objects p)) (current p) (setConnected false p)))
      as (Hos & _ & _ & _ & _ & _ & _ & Hcon). cbn [objects current connected with_objects setConnected] in *.
    rewrite Hos, Hcon. split_and!; [by apply Forall_insert| |done].
    apply Forall_lookup_2. intros j oj Hj. destruct (decide (j = i)) as [->|Hne].
    + rewrite list_lookup_insert_eq in Hj by (by apply Hr). by injection Hj as <-.
    + rewrite list_lookup_insert_ne in Hj by done. apply (Hq j oj Hj). congruence.
  - split_and!; [done| |done]. apply Forall_lookup_2. intros j oj Hj. by apply (Hq j oj Hj).
Qed.

Lemma new_object_ok pr e : adapter_valid (new_object env pr e) ∧ has_key (new_object env pr e) = false.
Proof.
  unfold new_object. destruct (provider_adapter pr) as [[]|]; [done|done|].
  destruct (library_new (provider_url pr) e) as [Hv Hk]. by split.
Qed.

Lemma make_ok p :
  Forall adapter_valid (objects p) → Forall quiet (objects p) → connected p = false → page_ok (make_wallet env p).
Proof.
  intros Hv Hq Hc. unfold make_wallet. destruct (find_provider (providerUrl p)) as [pr|].
  - destruct (new_object_ok pr (endpoint p)) as [Hvn Hkn]. split; unfold wallet_of; cbn.
    + by apply Forall_app_2; [|constructor].
    + intros i o Ho Hne. destruct (decide (i < length (objects p))%nat) as [Hlt|Hge].
      * rewrite lookup_app_l in Ho by done. by apply (Forall_lookup_1 _ _ _ _ Hq Ho).
      * pose proof (lookup_lt_Some _ _ _ Ho) as Hlt. rewrite length_app in Hlt. cbn in Hlt.
        destruct Hne. f_equal. lia.
    + intros i [= <-]. rewrite length_app. cbn. lia.
    + by rewrite Hc, (list_lookup_middle _ []).
  - split; unfold wallet_of; cbn; [done| |done|done]. intros i o Ho _. by apply (Forall_lookup_1 _ _ _ _ Hq Ho).
Qed.

Lemma auto_ok p : page_ok p → page_ok (auto_connect p).
Proof.
  intros Hp. unfold auto_connect. destruct (current p) as [i|] eqn:Hi; [|done]. destruct (autoConnect p); [|done].
  eapply ok_same; [| | |apply (call_current adapter_connect i p); [apply truthful_connect|done|done]]; done.
Qed.

(** The same for a rendering. *)
Lemma render_ok old p :
  page_ok p →
  (providerUrl p ≠ providerUrl old ∨ endpoint p ≠ endpoint old → ∀ o, wallet_of p = Some o → settled o) →
  page_ok (render env old p).
Proof.
  intros Hp Hs. unfold render. apply auto_ok.
  destruct (decide (providerUrl p = providerUrl old ∧ endpoint p = endpoint old)) as [_|Hne]; [done|].
  destruct (leave_ok p Hp) as (Hv & Hq & Hc); [|by apply make_ok]. apply Hs.
  destruct (decide (providerUrl p = providerUrl old)); [right|by left]. intros He. by apply Hne.
Qed.

(** What the user and the wallets do, except that the user does not change the provider or
    the endpoint while the wallet is connecting. *)
Inductive page_step (p : Page (D := D) (L := L)) : Page (D := D) (L := L) → Prop :=
  | step_select : page_step p (select p)
  | step_close : page_step p (close p)
  | step_connect : page_step p (use_connect p)
  | step_disconnect : page_step p (use_disconnect p)
  | step_event i q : page_step p (object_event i q p)
  | step_pick pr : pr ∈ WALLET_PROVIDERS →
      (providerUrl p ≠ Text (provider_url pr) → ∀ o, wallet_of p = Some o → settled o) →
      page_step p (pick env (provider_url pr) p)
  | step_endpoint e : (e ≠ endpoint p → ∀ o, wallet_of p = Some o → settled o) →
      page_step p (change_endpoint env e p).

(** An event at an object that was left behind changes nothing. *)
Lemma event_elsewhere i q p : page_ok p → current p ≠ Some i → page_ok (object_event i q p).
Proof.
  intros Hp Hne. unfold object_event, on_wallet. destruct (objects p !! i) as [o|] eqn:Ho; [|done].
  rewrite (quiet_progress q o) by (by apply (ok_quiet p Hp i o)). cbn [foldl]. rewrite list_insert_id by done.
  by eapply ok_same; [..|exact Hp].
Qed.

Lemma setProviderUrl_fields url (p : Page (D := D) (L := L)) :
  let p' := setProviderUrl url p in
  objects p' = objects p ∧ current p' = current p ∧ connected p' = connected p ∧ endpoint p' = endpoint p ∧
  providerUrl p' = Text url.
Proof.
  unfold setProviderUrl, setLocalStorageState. by destruct (decide (providerUrl p = Text url)).
Qed.

Lemma step_ok p p' : page_step p p' → page_ok p → page_ok p'.
Proof.
  intros Hstep Hp. destruct Hstep as [| | | |i q|pr Hpr Hs|e Hs].
  - by eapply ok_same; [..|exact Hp].
  - by eapply ok_same; [..|exact Hp].
  - unfold use_connect. destruct (current p) as [i|] eqn:Hi; [|by eapply ok_same; [..|exact Hp]].
    by apply call_current; [apply truthful_connect|..].
  - unfold use_disconnect. destruct (current p) as [i|] eqn:Hi; [|done].
    by apply call_current; [apply truthful_disconnect|..].
  - destruct (decide (current p = Some i)); [|by apply event_elsewhere].
    by apply call_current; [apply truthful_progress|..].
  - destruct (setProviderUrl_fields (provider_url pr) p) as (Ho & Hc & Hk & He & Hu).
    apply render_ok; cbn; [by eapply ok_same; [..|exact Hp]|]. unfold wallet_of. cbn. rewrite Ho, Hc, He, Hu.
    intros [Hne|Hne]; [|done]. apply Hs. congruence.
  - apply render_ok; cbn; [by eapply ok_same; [..|exact Hp]|]. intros [Hne|Hne]; [done|]. by apply Hs.
Qed.

Lemma load_ok st e p : load_page env st e = Ok p → page_ok p.
Proof.
  unfold load_page. destruct (stored_state st "walletProvider" Undefined) as [url|]; [|done]. intros [= <-].
  by apply auto_ok, make_ok.
Qed.


Lemma on_wallet_object f i o (p : Page (D := D) (L := L)) :
  objects p !! i = Some o → objects (on_wallet f i p) !! i = Some (fst (f o)).
Proof.
  intros Ho. unfold on_wallet. rewrite Ho. destruct (f o) as [o' evs].
  destruct (listen_all evs (with_objects (<[i:=o']> (objects p)) (current p) p)) as (-> & _). cbn.
  by rewrite list_lookup_insert_eq by (by eapply lookup_lt_Some).
Qed.

Lemma find_provider_listed pr : pr ∈ WALLET_PROVIDERS → find_provider (Text (provider_url pr)) = Some pr.
Proof. unfold WALLET_PROVIDERS. intros Hpr. repeat (apply elem_of_cons in Hpr as [->|Hpr]; [reflexivity|]). by apply elem_of_nil in Hpr. Qed.

Lemma leave_fields (p : Page (D := D) (L := L)) :
  let p' := leave_wallet p in
  autoConnect p' = autoConnect p ∧ providerUrl p' = providerUrl p ∧ storage p' = storage p ∧
  endpoint p' = endpoint p ∧ isModalVisible p' = isModalVisible p.
Proof.
  unfold leave_wallet. cbn [current setConnected]. destruct (current p) as [i|]; [|done].
  destruct (on_wallet_fields adapter_disconnect i (setConnected false p)) as (_ & -> & -> & -> & -> & -> & _). done.
Qed.

(** Making the wallet of a listed provider, and connecting it if that was asked for. *)
Lemma make_connect (p : Page (D := D) (L := L)) pr :
  providerUrl p = Text (provider_url pr) → pr ∈ WALLET_PROVIDERS →
  let p' := auto_connect (make_wallet env p) in
  let o := new_object env pr (endpoint p) in
  autoConnect p' = false ∧ providerUrl p' = providerUrl p ∧ storage p' = storage p ∧ endpoint p' = endpoint p ∧
  isModalVisible p' = isModalVisible p ∧
  wallet_of p' = Some (if autoConnect p then fst (adapter_connect o) else o) ∧
  (autoConnect p = false → connected p' = connected p).
Proof.
  intros Hu Hpr. cbv zeta. unfold make_wallet. rewrite Hu, find_provider_listed by done.
  set (o := new_object env pr (endpoint p)). set (p1 := with_objects _ _ _).
  assert (Ho : objects p1 !! length (objects p) = Some o) by (cbn; by rewrite (list_lookup_middle _ [])).
  unfold auto_connect. change (current p1) with (Some (length (objects p))).
  change (autoConnect p1) with (autoConnect p). destruct (autoConnect p) eqn:Ha.
  - destruct (on_wallet_fields adapter_connect (length (objects p)) p1) as (Hc & _ & Hu' & Hs & He & Hm & _).
    pose proof (on_wallet_object adapter_connect _ _ _ Ho) as Hobj. cbn [autoConnect providerUrl storage endpoint isModalVisible setAutoConnect].
    rewrite Hu', Hs, He, Hm. split_and!; try done. unfold wallet_of. cbn [current objects setAutoConnect].
    rewrite Hc. exact Hobj.
  - done.
Qed.

(** Choosing a wallet.  A click on another provider closes the dialog and makes a new
    wallet of that provider, for the endpoint, which is asked to connect; and a page that
    is reloaded later starts with a wallet of the same provider, not connected. *)
Theorem pick_wallet p pr :
  pr ∈ WALLET_PROVIDERS → providerUrl p ≠ Text (provider_url pr) →
  stored_state (storage p) "walletProvider" Undefined = Ok (providerUrl p) →
  let p' := pick env (provider_url pr) p in
  isModalVisible p' = false ∧ autoConnect p' = false ∧ find_provider (providerUrl p') = Some pr ∧
  wallet_of p' = Some (fst (adapter_connect (new_object env pr (endpoint p)))) ∧
  ∀ e, ∃ p2, load_page env (storage p') e = Ok p2 ∧ find_provider (providerUrl p2) = Some pr ∧
    wallet_of p2 = Some (new_object env pr e) ∧ connected p2 = false.
Proof.
  intros Hpr Hne Hst. cbv zeta. unfold pick, render.
  unfold setProviderUrl. destruct (setLocalStorageState _ _ _) as [url st'] eqn:Hset.
  destruct (set_text_stored _ _ _ _ _ _ _ Hst Hset) as (-> & Hst' & _).
  set (p1 := close _). rewrite decide_False by (cbn; intros [? _]; congruence).
  destruct (leave_fields p1) as (Ha & Hu & Hs & He & Hm).
  destruct (make_connect (leave_wallet p1) pr) as (Ha' & Hu' & Hs' & He' & Hm' & Hw & _); [by rewrite Hu|done|].
  rewrite Ha', Hu', Hs', Hm', Hu, Hs, Hm, Hw, Ha, He. cbn [p1 close setIsModalVisible isModalVisible providerUrl autoConnect setAutoConnect endpoint storage].
  split_and!; [done|done|by apply find_provider_listed|done|].
  intros e. unfold load_page. rewrite Hst'. cbn [mbind result_bind]. eexists. split; [done|].
  set (p2 := {| objects := [] |}).
  destruct (make_connect p2 pr) as (_ & Hu2 & _ & _ & _ & Hw2 & Hc2); [done|done|].
  rewrite Hu2, Hw2, Hc2 by done. split_and!; [by apply find_provider_listed|done|done].
Qed.

(** The Solong provider. *)
Definition solong_url : string := "https://solongwallet.com".

(** A wallet that was left behind still speaks for the page.  The user chooses Solong
    and, before selecting an account there, another endpoint; the answer of the old
    object then shows the page connected, while the wallet has no public key. *)
Theorem stale_wallet_connects e e' s k p0 :
  window_solong env = true → e' ≠ e → PublicKey_of_string s = Ok k → load_page env ∅ e = Ok p0 →
  let p := object_event 0 (inl (Ok s)) (change_endpoint env e' (pick env solong_url p0)) in
  connected p = true ∧ publicKey_of p = None ∧ is_Some (wallet_of p).
Proof.
  clear library_new. intros Hin He Hs Hload. injection Hload as <-. cbv zeta.
  destruct env as [nw ws u]. cbn in Hin. subst ws. set (q := pick _ _ _). vm_compute in q. subst q.
  unfold change_endpoint, render. rewrite decide_False by (cbn; intros [_ ?]; done).
  unfold object_event, on_wallet. cbn. unfold solong_selected. cbn. rewrite Hs. cbn. by eauto.
Qed.

End PageFacts.

(** ** Concrete inputs *)

(** A wallet of the library that connects at once. *)
Definition SampleLibrary : Type := option (PublicKey (Keys := SampleKeys)).

#[global] Instance SampleLibraryAdapter : WalletAdapter SampleLibrary := {|
  adapter_publicKey := λ k, k;
  adapter_connect := λ _, (Some (sample_key 50), [ConnectEvent (sample_key 50)]);
  adapter_disconnect := λ k, (None, match k with Some _ => [DisconnectEvent] | None => [] end);
  Progress := Empty_set;
  adapter_progress := λ p, match p with end;
|}.

#[global, program] Instance SampleLibraryLaws : AdapterLaws (A := SampleLibrary) := {|
  adapter_valid := λ _, True;
  settled := λ _, True;
  quiet := λ _, True;
|}.
Next Obligation. done. Qed.
Next Obligation. by intros [k|]. Qed.
Next Obligation. by intros []. Qed.
Next Obligation. by intros [k|]. Qed.
Next Obligation. done. Qed.
Next Obligation. by intros []. Qed.

Definition sample_environment : Environment (D := unit) (L := SampleLibrary) :=
  {| new_Wallet := λ _ _, None; window_solong := true; usb := fresh_ledger |}.
Definition sample_page : Page (D := unit) (L := SampleLibrary) :=
  match load_page sample_environment ∅ "http://127.0.0.1:8899" with
  | Ok p => p
  | Err _ => {| objects := []; current := None; connected := false; autoConnect := false; providerUrl := Undefined;
                storage := ∅; endpoint := ""; isModalVisible := false; messages := [] |}
  end.
Definition sample_provider : Provider :=
  {| provider_name := "Sollet"; provider_url := "https://www.sollet.io"; provider_adapter := None |}.

Lemma sample_provider_listed : sample_provider ∈ WALLET_PROVIDERS.
Proof. unfold WALLET_PROVIDERS. apply elem_of_cons. by left. Qed.


Lemma pick_wallet_witness :
  let p' := pick sample_environment (provider_url sample_provider) sample_page in
  isModalVisible p' = false ∧ autoConnect p' = false ∧ find_provider (providerUrl p') = Some sample_provider ∧
  wallet_of p' = Some (fst (adapter_connect (new_object sample_environment sample_provider (endpoint sample_page)))) ∧
  ∀ e, ∃ p2, load_page sample_environment (storage p') e = Ok p2 ∧ find_provider (providerUrl p2) = Some sample_provider ∧
    wallet_of p2 = Some (new_object sample_environment sample_provider e) ∧ connected p2 = false.
Proof.
  apply (pick_wallet sample_environment sample_page sample_provider);
    [apply sample_provider_listed|intros Hu; discriminate Hu|reflexivity].
Defined.

Lemma stale_wallet_connects_witness :
  let p := object_event 0 (inl (Ok (toBase58 (sample_key 50))))
    (change_endpoint sample_environment "https://solana-api.projectserum.com/" (pick sample_environment solong_url sample_page)) in
  connected p = true ∧ publicKey_of p = None ∧ is_Some (wallet_of p).
Proof.
  apply (stale_wallet_connects (H := SampleKeys) sample_environment "http://127.0.0.1:8899" "https://solana-api.projectserum.com/"
    (@toBase58 SampleKeys (sample_key 50)) (sample_key 50)); [reflexivity|done|reflexivity|reflexivity].
Defined.
