(* ===== verification/Contexts.v ===== *)
(** * The connection and the pool's state (src/contexts/connection.tsx and tenderize.tsx), and
      small views

    The network the page is on, with the tokens known there; what happens to the account
    cache when the network changes; the pool's state as the cluster reports it; and the
    parts of the views that compute something: the price and balances shown, the faucet,
    links to the explorer. *)

From Stdlib Require Import ZArith Lia SpecFloat.
From Stdlib Require Import String Ascii.
From stdpp Require Import base list strings sets gmap.
From coqutil Require Import Byte.
From S2P Require Import Prelude JsNumber Buffers Web3 Sample Program Instructions SamplePool.
From S2P Require Import Wire Readers Layouts Lending Actions Cache Tokens UserAccounts Utils Storage.

Open Scope Z_scope.

(** ** Networks *)

(** [clusterApiUrl] of @solana/web3.js. *)
Class ClusterUrls := { clusterApiUrl : string → string }.

Section Networks.
Context `{ClusterUrls}.

Record Endpoint := { endpoint_name : string; endpoint_url : string }.

Definition LOCALNET : Endpoint := {| endpoint_name := "localnet"; endpoint_url := "http://127.0.0.1:8899" |}.

Definition ENDPOINTS : list Endpoint := [
  LOCALNET;
  {| endpoint_name := "mainnet-beta"; endpoint_url := "https://solana-api.projectserum.com/" |};
  {| endpoint_name := "testnet"; endpoint_url := clusterApiUrl "testnet" |};
  {| endpoint_name := "devnet"; endpoint_url := clusterApiUrl "devnet" |}
].

(** [ENDPOINTS.find((end) => end.endpoint === endpoint)?.name || ENDPOINTS[0].name]. *)
Definition env_of (endpoint : Stored) : string :=
  match List.find (λ e, bool_decide (endpoint = Text (endpoint_url e))) ENDPOINTS with
  | Some e => endpoint_name e
  | None => endpoint_name LOCALNET
  end.

(** src/config/tokens.json. *)
Definition LocalTokens : list KnownToken := [
  {| tokenSymbol := "SOL"; tokenName := "Solana";
     icon := "https://raw.githubusercontent.com/trustwallet/assets/master/blockchains/solana/info/logo.png";
     mintAddress := "So11111111111111111111111111111111111111112" |};
  {| tokenSymbol := "tSOL"; tokenName := "Tender Solana";
     icon := "https://raw.githubusercontent.com/trustwallet/assets/master/blockchains/solana/info/logo.png";
     mintAddress := "5es37KhF5VKHtSPXNDzwPNMSndizyNFvHzeFwzEKW3vg" |}
].

(** [[...LocalTokens, ...list].reduce(...)]. *)
Definition knownMints (l : list KnownToken) : KnownTokenMap :=
  foldl (λ map item, map_set (mintAddress item) item map) [] (LocalTokens ++ l).

#[local] Remove Hints SampleKeys SampleSplToken SampleSerum SampleParsers SampleConnection SampleWebApi SampleBigNumbers SampleBigToNumber SampleNumberText : typeclass_instances.
Context `{Keys} `{BufferLayout} `{BigNumbers} `{!SplToken} `{SplLayouts} `{!Serum} {LocalTx : Type}.

(** The state of [ConnectionProvider], the storage, the networks whose token lists were
    asked for, and the accounts module. *)
Record ConnectionState := {
  connectionEndpts : Stored;
  slippage : Stored;
  conn_storage : gmap string string;
  tokens : list KnownToken;
  tokenMap : KnownTokenMap;
  token_requests : list string;
  accounts_module : AccountsModule (LocalTx := LocalTx);
}.

(** The effect of a new network. *)
Definition enter_network (s : ConnectionState) : ConnectionState :=
  {| connectionEndpts := connectionEndpts s; slippage := slippage s; conn_storage := conn_storage s;
     tokens := tokens s; tokenMap := tokenMap s;
     token_requests := token_requests s ++ [env_of (connectionEndpts s)];
     accounts_module := accounts_clear (accounts_module s) |}.

Definition load_connection (st : gmap string string) (m : AccountsModule (LocalTx := LocalTx))
  : result ConnectionState :=
  e ← stored_state st "connectionEndpts" (Text (endpoint_url LOCALNET));
  sl ← stored_state st "slippage" (Text "0.25");
  mret (enter_network
    {| connectionEndpts := e; slippage := sl; conn_storage := st; tokens := []; tokenMap := [];
       token_requests := []; accounts_module := m |}).

(** A choice in the settings; the effect runs if the network is another one. *)
Definition setEndpoint (url : string) (s : ConnectionState) : ConnectionState :=
  let '(e, st) := setLocalStorageState "connectionEndpts" (Text url) (connectionEndpts s, conn_storage s) in
  let s' := {| connectionEndpts := e; slippage := slippage s; conn_storage := st; tokens := tokens s;
               tokenMap := tokenMap s; token_requests := token_requests s;
               accounts_module := accounts_module s |} in
  if decide (env_of e = env_of (connectionEndpts s)) then s' else enter_network s'.

(** A token list arrives, or the request for it failed. *)
Definition token_list (reply : result (list KnownToken)) (s : ConnectionState) : ConnectionState :=
  let list := match reply with Ok list => list | Err _ => [] end in
  {| connectionEndpts := connectionEndpts s; slippage := slippage s; conn_storage := conn_storage s;
     tokens := list; tokenMap := knownMints list; token_requests := token_requests s;
     accounts_module := accounts_module s |}.

(** src/hooks/useTokenName.ts. *)
Definition useTokenName (s : ConnectionState) (mintAddress : option Address) : string :=
  getTokenName (tokenMap s) mintAddress true.

(** A reply to a request of the account cache. *)
Definition account_reply (n : nat) (reply : result (option AccountInfo)) (s : ConnectionState) : ConnectionState :=
  {| connectionEndpts := connectionEndpts s; slippage := slippage s; conn_storage := conn_storage s;
     tokens := tokens s; tokenMap := tokenMap s; token_requests := token_requests s;
     accounts_module := {| am_cache := reply_to n reply (am_cache (accounts_module s));
                           am_mints := am_mints (accounts_module s);
                           am_transactions := am_transactions (accounts_module s) |} |}.

(** ** src/contexts/tenderize.tsx *)

(** What the cluster reports of the pool's account: the first request, or a change. *)
Inductive PoolReport :=
  | Fetched (acc : result (option AccountInfo))
  | Changed (acc : AccountInfo).

(** A failed request is logged; a parser that throws leaves the state as it is. *)
Definition pool_report (st : option ParsedTenderize) (r : PoolReport) : option ParsedTenderize :=
  match r with
  | Fetched (Err _) => st
  | Fetched (Ok acc) => match TenderizeParser STAKE_POOL_ID acc with Ok p => p | Err _ => st end
  | Changed acc => match TenderizeParser STAKE_POOL_ID (Some acc) with Ok p => p | Err _ => st end
  end.

Definition useTenderize (reports : list PoolReport) : option ParsedTenderize := foldl pool_report None reports.

(** ** Views *)

(** src/components/AppBar: [Number] of a [BN] is the nearest double. *)
Definition tSOL_price (tenderize : option ParsedTenderize) : num :=
  match tenderize with
  | Some t => num_div (num_of_Z (stakeTotal (parsed_info t))) (num_of_Z (poolTotal (parsed_info t)))
  | None => num_of_Z 1
  end.

(** src/components/CurrentUserBadge: the SOL shown. *)
Definition sol_shown (account : option AccountInfo) : num :=
  num_div (match account with Some a => if truthy (lamports a) then lamports a else num_of_Z 0 | None => num_of_Z 0 end)
    (num_of_Z 1000000000).

(** src/components/TokenDisplay: the balance and whether there is one. *)
Definition display_balance `{BigToNumber} (showBalance : bool) (tokenAccount : option UserAccount)
    (tokenMint : option MintInfo) : result (num * bool) :=
  if showBalance then
    match tokenAccount, tokenMint with
    | Some acc, Some mint =>
        n ← toNumber (ti_amount (ua_info acc));
        let balance := num_div n (Math_pow10 (mi_decimals mint)) in
        mret (balance, num_ltb (num_of_Z 0) balance)
    | _, _ => mret (num_of_Z 0, false)
    end
  else mret (num_of_Z 0, false).

(** src/components/ExplorerLink: the link and its text. *)
Definition ExplorerLink (type : string) (address : option Address) (len : option nat) : option (string * string) :=
  match mint_text address with
  | None | Some EmptyString => None
  | Some a => Some (("https://explorer.solana.com/" ++ type ++ "/" ++ a)%string, shortenAddress a (default 9%nat len))
  end.

(** src/views/faucet and src/components/CurrentUserBadge: the request for two SOL and the
    notification of its success. *)
Definition airdrop {W} (requestAirdrop : PublicKey → num → W → result unit * W) (publicKey : option PublicKey)
  : M (Browser W) unit :=
  match publicKey with
  | None => mret tt
  | Some k =>
      _ ← ask (requestAirdrop k (num_mul (num_of_Z 2) (num_of_Z 1000000000)));
      notify "success" "Account funded." []
  end.

(** ** src/models/lending/market.ts *)

Definition LendingMarketLayout :
    Layout (Z * (Z * (PublicKey * (PublicKey * (PublicKey * buffer))))) :=
  struct u8 (struct u8 (struct publicKeyLayout (struct publicKeyLayout (struct publicKeyLayout (blob 62))))).

Definition isLendingMarket (info : AccountInfo) : bool :=
  (length (account_data info) =? span LendingMarketLayout)%nat.

Record ParsedLendingMarket := {
  market_pubkey : PublicKey;
  market_account : AccountInfo;
  market_version : Z;
  market_bumpSeed : Z;
  market_owner : PublicKey;
  market_quoteMint : PublicKey;
  market_tokenProgramId : PublicKey;
}.

Definition LendingMarketParser (pubKey : PublicKey) (info : AccountInfo) : result ParsedLendingMarket :=
  '(v, (b, (o, (q, (t, _))))) ← decode LendingMarketLayout (account_data info) 0;
  mret {| market_pubkey := pubKey; market_account := info; market_version := v; market_bumpSeed := b;
          market_owner := o; market_quoteMint := q; market_tokenProgramId := t |}.

End Networks.

(** ** Known tokens *)

Lemma known_from l m (acc : KnownTokenMap) :
  map_get m (foldl (λ map item, map_set (mintAddress item) item map) acc l) =
  match last (filter (λ t, mintAddress t = m) l) with Some t => Some t | None => map_get m acc end.
Proof.
  revert acc. induction l as [|t l IH]; intros acc; [done|]. cbn [foldl]. rewrite IH, filter_cons.
  destruct (decide (mintAddress t = m)) as [<-|Hne].
  - rewrite last_cons. destruct (last _) as [t'|]; [done|]. by rewrite map_get_set.
  - by rewrite map_get_set_ne by congruence.
Qed.

(** The tokens known on a network.  The map that is built from a token list holds, for
    every mint, the last entry of the list for it, or else the entry of the client's own
    list; and a list that could not be fetched leaves the client's own. *)
Theorem knownMints_lookup `{Keys} `{BufferLayout} `{BigNumbers} `{!SplToken} `{SplLayouts} `{!Serum} {LocalTx : Type}
    reply (s : ConnectionState (LocalTx := LocalTx)) m :
  map_get m (tokenMap (token_list reply s)) =
  match last (filter (λ t, mintAddress t = m) (match reply with Ok l => l | Err _ => [] end)) with
  | Some t => Some t
  | None => List.find (λ t, bool_decide (mintAddress t = m)) LocalTokens
  end.
Proof.
  unfold token_list. cbn [tokenMap]. unfold knownMints. rewrite known_from, filter_app, last_app.
  destruct (last _) as [t|]; [done|]. unfold LocalTokens. rewrite !filter_cons. cbn [List.find mintAddress].
  by repeat case_decide; repeat case_bool_decide; simplify_eq.
Qed.

(** ** Changing the network *)

Section NetworkFacts.
#[local] Remove Hints SampleKeys SampleSplToken SampleSerum SampleParsers SampleConnection SampleWebApi SampleBigNumbers SampleBigToNumber SampleNumberText SampleBase58Laws : typeclass_instances.
Context `{ClusterUrls} `{Keys} `{BufferLayout} `{BigNumbers} `{!SplToken} `{SplLayouts} `{!Serum} {LocalTx : Type}.
Implicit Types s : ConnectionState (LocalTx := LocalTx).

(** Changing the network.  A chosen endpoint is the one a reloaded page starts with.  If
    it is on another network the token list of that network is asked for and no account
    and no mint is left in the cache; on the same network nothing is dropped. *)
Theorem setEndpoint_effect url d s :
  stored_state (conn_storage s) "connectionEndpts" d = Ok (connectionEndpts s) →
  let s' := setEndpoint url s in
  connectionEndpts s' = Text url ∧ stored_state (conn_storage s') "connectionEndpts" d = Ok (Text url) ∧
  if decide (env_of (Text url) = env_of (connectionEndpts s))
  then token_requests s' = token_requests s ∧ accounts_module s' = accounts_module s
  else token_requests s' = token_requests s ++ [env_of (Text url)] ∧
       ∀ id, cache_get id (am_cache (accounts_module s')) = None ∧ getMint id (am_mints (accounts_module s')) = None.
Proof.
  intros Hst. cbv zeta. unfold setEndpoint.
  destruct (setLocalStorageState _ _ _) as [e st] eqn:Hset.
  destruct (set_text_stored _ _ _ _ _ _ _ Hst Hset) as (-> & Hst' & _). by destruct (decide _).
Qed.

(** Replies from the old network.  A request for an account that is under way when the
    network changes stays recorded: a query on the new network gets the promise of the
    old request, and its reply puts the account of the old network in the cache. *)
Theorem old_network_account `{!Base58Laws} url k p q acc obj s n c1 :
  cache_query (IsPublicKey k) p (am_cache (accounts_module s)) = (Ok (Promised n), c1) →
  calls c1 !! n = Some {| call_id := k; call_parser := Some q; call_state := Waiting |} →
  env_of (Text url) ≠ env_of (connectionEndpts s) →
  (0 < length (account_data obj))%nat → deserialize q k obj = Ok (Some acc) →
  let s1 := {| connectionEndpts := connectionEndpts s; slippage := slippage s; conn_storage := conn_storage s;
               tokens := tokens s; tokenMap := tokenMap s; token_requests := token_requests s;
               accounts_module := {| am_cache := c1; am_mints := am_mints (accounts_module s);
                                     am_transactions := am_transactions (accounts_module s) |} |} in
  let s2 := setEndpoint url s1 in
  let s3 := account_reply n (Ok (Some obj)) s2 in
  (∀ p', cache_query (IsPublicKey k) p' (am_cache (accounts_module s2)) =
           (Ok (Promised n), am_cache (accounts_module s2))) ∧
  cache_get (IsPublicKey k) (am_cache (accounts_module s3)) = Some acc.
Proof.
  intros Hq Hc Henv Hlen Hacc s1 s2 s3.
  assert (Hpend : pendingCalls c1 !! toBase58 k = Some n).
  { unfold cache_query in Hq. cbv zeta in Hq. destruct (genericCache _ !! _) as [a|]; [done|].
    destruct (pendingCalls (am_cache (accounts_module s)) !! toBase58 k) as [m|] eqn:Hm; injection Hq as <- <-; [done|].
    apply lookup_insert_eq. }
  assert (Hs2 : am_cache (accounts_module s2) = cache_clear c1).
  { unfold s2, setEndpoint. destruct (setLocalStorageState _ _ _) as [e st] eqn:Hset.
    assert (e = Text url) as -> by (unfold setLocalStorageState in Hset; destruct (decide _); by simplify_eq).
    by rewrite decide_False. }
  split.
  - intros p'. rewrite Hs2. unfold cache_query. cbv zeta. cbn [genericCache pendingCalls cache_clear raise set_generic].
    by rewrite lookup_empty, Hpend.
  - unfold s3, account_reply. cbn [accounts_module am_cache]. rewrite Hs2. unfold reply_to.
    change (calls (cache_clear c1)) with (calls c1). rewrite Hc. cbn [call_state call_id call_parser].
    destruct (cache_add_accepts k obj (Some q) q acc (cache_clear c1) Hlen eq_refl Hacc) as (c2 & -> & Hgen & _).
    unfold cache_get. cbn [genericCache settle set_calls address_of]. rewrite Hgen. apply lookup_insert_eq.
Qed.

End NetworkFacts.

(** ** The pool's state *)

Section PoolFacts.
#[local] Remove Hints SampleKeys SampleBufferLayout SampleBigNumbers SampleKeysLaws SampleBufferLayoutLaws SampleBigNumbersLaws : typeclass_instances.
Context `{KeysLaws} `{!AddressesDerive} `{BufferLayoutLaws} `{BigNumbersLaws}.

(** The pool's state and price.  The last report counts, whatever was reported before,
    be it a change or the answer to the first request, even if that comes late: for an
    account as the program serialises the state [st], the page's state is [st], and the
    whole part of the price it shows is that of the total stake by the tokens of the
    pool. *)
Theorem pool_state_shown reports r st dep wd padding output acc :
  state_in_range st → length padding = 5%nat → (STAKE_POOL_LEN ≤ length output)%nat →
  serialize_stake_pool padding (pool_of dep wd st) output = inr (account_data acc) →
  r = Changed acc ∨ r = Fetched (Ok (Some acc)) →
  useTenderize (reports ++ [r]) =
    Some {| parsed_pubkey := STAKE_POOL_ID; parsed_account := acc; parsed_info := st |} ∧
  (stakeTotal st < 2 ^ 52 → 0 < poolTotal st < 2 ^ 53 →
   Math_floor (tSOL_price (useTenderize (reports ++ [r]))) = num_of_Z (stakeTotal st / poolTotal st)).
Proof.
  intros Hst Hpad Hout Hser Hr.
  destruct (serialized_state_parses st dep wd padding output Hst Hpad Hout) as (data & Hdata & Hlen & Hparse).
  assert (data = account_data acc) as -> by congruence.
  assert (Hp : TenderizeParser STAKE_POOL_ID (Some acc) =
    Ok (Some {| parsed_pubkey := STAKE_POOL_ID; parsed_account := acc; parsed_info := st |})).
  { rewrite TenderizeParser_parses by lia. by rewrite Hparse. }
  assert (Hu : useTenderize (reports ++ [r]) =
    Some {| parsed_pubkey := STAKE_POOL_ID; parsed_account := acc; parsed_info := st |}).
  { unfold useTenderize. rewrite foldl_app. cbn [foldl]. unfold pool_report.
    destruct Hr as [-> | ->]; by rewrite Hp. }
  rewrite Hu. split; [done|]. intros Hs Hpt. cbn [tSOL_price parsed_info]. apply floor_div_exact; [|done].
  destruct Hst as (_ & Hs0 & _). unfold u64_of in Hs0. lia.
Qed.

(** A lending market's account of the full size is parsed from its bytes. *)
Lemma LendingMarketParser_reads k info o q t pre rest :
  account_data info = pre ++ toBuffer o ++ toBuffer q ++ toBuffer t ++ rest →
  length pre = 2%nat → length rest = 62%nat →
  isLendingMarket info = true ∧
  ∃ m, LendingMarketParser k info = Ok m ∧ market_owner m = o ∧ market_quoteMint m = q ∧ market_tokenProgramId m = t.
Proof.
  intros Hd Hpre Hrest.
  assert (Hlen : length (account_data info) = 160%nat) by (rewrite Hd, !length_app, !length_toBuffer, Hpre, Hrest; done).
  assert (Hspan : span LendingMarketLayout = 160%nat)
    by (unfold LendingMarketLayout; by rewrite !span_struct, !span_u8, !span_key, !span_blob).
  split; [unfold isLendingMarket; by rewrite Hspan, Hlen|].
  unfold LendingMarketParser, LendingMarketLayout.
  rewrite !decode_struct, !span_u8, !span_key, !decode_u8 by (rewrite Hlen; lia). cbn [Nat.add].
  rewrite !decode_key, decode_blob by (rewrite Hlen; lia). rewrite Hd.
  assert (Ho : slice (pre ++ toBuffer o ++ toBuffer q ++ toBuffer t ++ rest) 2 34 = toBuffer o)
    by (by rewrite slice_app by (rewrite ?Hpre, ?length_toBuffer; done)).
  assert (Hq : slice (pre ++ toBuffer o ++ toBuffer q ++ toBuffer t ++ rest) 34 66 = toBuffer q).
  { rewrite (app_assoc pre). by rewrite slice_app by (rewrite ?length_app, ?Hpre, ?length_toBuffer; done). }
  assert (Ht : slice (pre ++ toBuffer o ++ toBuffer q ++ toBuffer t ++ rest) 66 98 = toBuffer t).
  { rewrite (app_assoc pre), (app_assoc (pre ++ _)). by rewrite slice_app by (rewrite ?length_app, ?Hpre, ?length_toBuffer; done). }
  cbn [Nat.add]. rewrite Ho, Hq, Ht, !new_PublicKey_toBuffer.
  destruct pre as [|b1 [|b2 [|]]]; [done..| |done]. cbn. eauto 10.
Qed.

End PoolFacts.

(** ** Concrete inputs *)

#[local] Remove Hints SampleParsers : typeclass_instances.

#[global] Instance SampleClusterUrls : ClusterUrls :=
  {| clusterApiUrl := λ name, ("https://api." ++ name ++ ".solana.com")%string |}.

(** The client's own list has the pool's token under the address of the pool's withdraw
    authority, not of its mint. *)
Example pool_token_unnamed :
  getTokenName (knownMints []) (Some (IsString "Do41x7Uza6cQeJ2VhVyJU6QhuRMLxTrLJhpL8MSNFpZm")) true = "Do41x..."%string ∧
  getTokenName (knownMints []) (Some (IsString "5es37KhF5VKHtSPXNDzwPNMSndizyNFvHzeFwzEKW3vg")) true = "tSOL"%string.
Proof. vm_compute. by split. Qed.

Definition sample_network : ConnectionState (LocalTx := unit) :=
  enter_network {| connectionEndpts := Text (endpoint_url LOCALNET); slippage := Text "0.25"; conn_storage := ∅;
    tokens := []; tokenMap := []; token_requests := [];
    accounts_module := {| am_cache := empty_cache; am_mints := empty_mints; am_transactions := [] |} |}.

Lemma sample_network_loaded :
  load_connection ∅ {| am_cache := empty_cache; am_mints := empty_mints; am_transactions := [] |} = Ok sample_network.
Proof. reflexivity. Qed.

Lemma setEndpoint_effect_witness :
  let s' := setEndpoint "https://solana-api.projectserum.com/" sample_network in
  connectionEndpts s' = Text "https://solana-api.projectserum.com/" ∧
  stored_state (conn_storage s') "connectionEndpts" (Text (endpoint_url LOCALNET)) =
    Ok (Text "https://solana-api.projectserum.com/") ∧
  token_requests s' = ["localnet"; "mainnet-beta"]%string ∧
  ∀ id, cache_get id (am_cache (accounts_module s')) = None ∧ getMint id (am_mints (accounts_module s')) = None.
Proof.
  exact (setEndpoint_effect "https://solana-api.projectserum.com/" (Text (endpoint_url LOCALNET)) sample_network eq_refl).
Defined.

(** The token account of the sample user, asked for on the local network. *)
Definition sample_asked : CacheState :=
  snd (cache_query (IsPublicKey sample_wallet_account) (Some TokenAccountParser) (am_cache (accounts_module sample_network))).
Definition sample_asking : ConnectionState (LocalTx := unit) :=
  {| connectionEndpts := connectionEndpts sample_network; slippage := slippage sample_network;
     conn_storage := conn_storage sample_network; tokens := tokens sample_network; tokenMap := tokenMap sample_network;
     token_requests := token_requests sample_network;
     accounts_module := {| am_cache := sample_asked; am_mints := am_mints (accounts_module sample_network);
                           am_transactions := am_transactions (accounts_module sample_network) |} |}.

Lemma old_network_account_witness :
  let s2 := setEndpoint "https://solana-api.projectserum.com/" sample_asking in
  let s3 := account_reply 0 (Ok (Some (sample_token_data 1000))) s2 in
  (∀ p', cache_query (IsPublicKey sample_wallet_account) p' (am_cache (accounts_module s2)) =
           (Ok (Promised 0), am_cache (accounts_module s2))) ∧
  cache_get (IsPublicKey sample_wallet_account) (am_cache (accounts_module s3)) = Some sample_parsed.
Proof.
  apply (old_network_account "https://solana-api.projectserum.com/" sample_wallet_account (Some TokenAccountParser)
    TokenAccountParser sample_parsed (sample_token_data 1000) sample_network 0 sample_asked);
    [reflexivity|reflexivity|by vm_compute| |].
  - rewrite sample_data_length. lia.
  - reflexivity.
Defined.

Definition sample_stake_pool : AccountInfo :=
  owned_account (match serialize_stake_pool (alloc 5) (pool_of 254 255 (sample_state_of 1)) (alloc 300) with
                 | inr data => data | inl _ => [] end) 1.

Lemma pool_state_shown_witness :
  useTenderize ([Fetched (Ok None)] ++ [Changed sample_stake_pool]) =
    Some {| parsed_pubkey := STAKE_POOL_ID; parsed_account := sample_stake_pool; parsed_info := sample_state_of 1 |} ∧
  (stakeTotal (sample_state_of 1) < 2 ^ 52 → 0 < poolTotal (sample_state_of 1) < 2 ^ 53 →
   Math_floor (tSOL_price (useTenderize ([Fetched (Ok None)] ++ [Changed sample_stake_pool]))) = num_of_Z 1).
Proof.
  apply (pool_state_shown [Fetched (Ok None)] (Changed sample_stake_pool) (sample_state_of 1) 254 255 (alloc 5) (alloc 300)
    sample_stake_pool).
  - unfold state_in_range, u64_of. simpl. lia.
  - reflexivity.
  - unfold STAKE_POOL_LEN. simpl. lia.
  - reflexivity.
  - by left.
Defined.
