(* ===== verification/Subscriptions.v ===== *)
(** * The subscriptions of the page (src/contexts/connection.tsx, accounts.tsx, tenderize.tsx)

    The providers of the page, nested as in src/routes.tsx, open subscriptions on the
    websockets of the connection objects: [ConnectionProvider] four that only keep the
    sockets from being closed, [TenderizeProvider] one on the pool, [AccountsProvider] one
    on the token program, one on the user's account and one on every account that is new
    in the cache.  This file follows them through changes of the network, of the wallet
    and of the cache: what the effects open, what their cleanups close, and what stays open. *)

From Stdlib Require Import ZArith Lia SpecFloat.
From Stdlib Require Import String Ascii Permutation.
From stdpp Require Import base list strings sets gmap relations.
From coqutil Require Import Byte.
From S2P Require Import Prelude JsNumber Buffers Web3 Sample Program Instructions SamplePool.
From S2P Require Import Wire Readers Layouts Lending Actions Cache Tokens UserAccounts Utils Storage Contexts.

(** ** Sockets *)

Section Subscriptions.
#[local] Remove Hints SampleKeys SampleSplToken SampleSerum SampleParsers SampleConnection SampleWebApi SampleBigNumbers SampleBigToNumber SampleNumberText SampleBase58Laws SampleClusterUrls : typeclass_instances.
Context `{ClusterUrls} `{Keys} `{BufferLayout} `{BigNumbers} `{!SplToken} `{SplLayouts} `{!Serum}.

(** What is subscribed to: the account of a key made up to keep the socket open, slots,
    the pool, the token program, the user's account, or an account of the cache. *)
Inductive Topic :=
  | MadeUpKey
  | Slots
  | PoolAccount
  | TokenProgram
  | Native (k : PublicKey)
  | Followed (id : string) (parser : Parser).

(** Connection objects are numbered in the order they are made; subscriptions have the
    numbers the connection gives them. *)
Record Subscription := { sub_conn : nat; sub_topic : Topic; sub_id : nat }.

Record Socket := { next_id : nat; opened : list Subscription }.

(** [connection.onAccountChange], [onSlotChange] and [onProgramAccountChange]. *)
Definition subscribe (c : nat) (t : Topic) (w : Socket) : Subscription * Socket :=
  let σ := {| sub_conn := c; sub_topic := t; sub_id := next_id w |} in
  (σ, {| next_id := S (next_id w); opened := opened w ++ [σ] |}).

(** [connection.removeAccountChangeListener] and the like. *)
Definition close_sub (σ : Subscription) (w : Socket) : Socket :=
  {| next_id := next_id w;
     opened := filter (λ τ, ¬ (sub_conn τ = sub_conn σ ∧ sub_id τ = sub_id σ)) (opened w) |}.

Definition close_subs (l : list Subscription) (w : Socket) : Socket := foldl (λ w σ, close_sub σ w) w l.

(** ** The page *)

(** The endpoint, the connection objects made from it and how many there were, what the
    cleanups of the effects have to close, the key of the wallet, for each listener of
    the cache's emitter the connection it subscribes on, the sockets, and the cache. *)
Record Mounted := {
  endpoint_used : Stored;
  made : nat;
  connection : nat;
  sendConnection : nat;
  keepalive : list Subscription;
  pool_sub : Subscription;
  publicKey : option PublicKey;
  token_sub : option Subscription;
  listeners : list nat;
  socket : Socket;
  accounts : CacheState;
}.

(** The four effects of [ConnectionProvider] that keep the sockets open. *)
Definition keep_open (c sc : nat) (w : Socket) : list Subscription * Socket :=
  let '(a, w) := subscribe c MadeUpKey w in
  let '(b, w) := subscribe c Slots w in
  let '(d, w) := subscribe sc MadeUpKey w in
  let '(e, w) := subscribe sc Slots w in
  ([a; b; d; e], w).

(** The effect of [UseNativeAccount]; it has no cleanup. *)
Definition follow_native (c : nat) (key : option PublicKey) (w : Socket) : Socket :=
  match key with Some k => snd (subscribe c (Native k) w) | None => w end.

(** The effect of [AccountsProvider] on the token program. *)
Definition follow_tokens (c : nat) (key : option PublicKey) (w : Socket) : option Subscription * Socket :=
  match key with
  | Some _ => let '(σ, w) := subscribe c TokenProgram w in (Some σ, w)
  | None => (None, w)
  end.

Definition leave_tokens (σ : option Subscription) (w : Socket) : Socket :=
  match σ with Some σ => close_sub σ w | None => w end.

(** The first rendering: the effects of the inner providers run first. *)
Definition mount (e : Stored) (key : option PublicKey) (cache : CacheState) : Mounted :=
  let '(pool, w) := subscribe 0 PoolAccount {| next_id := 0; opened := [] |} in
  let w := follow_native 0 key w in
  let '(tokens, w) := follow_tokens 0 key w in
  let '(keep, w) := keep_open 0 1 w in
  {| endpoint_used := e; made := 2; connection := 0; sendConnection := 1; keepalive := keep; pool_sub := pool;
     publicKey := key; token_sub := tokens; listeners := [0%nat]; socket := w; accounts := cache_clear cache |}.

(** Another endpoint: two connections are made from it, and every effect that depends on
    one of them runs its cleanup and then again.  The cleanup of the listener of the
    cache's events goes through an array that is always empty.  The wallet is made anew
    too, so that the key may change. *)
Definition switch_endpoint (url : string) (key : option PublicKey) (s : Mounted) : Mounted :=
  if decide (endpoint_used s = Text url) then s else
  let c := made s in
  let sc := S (made s) in
  let w := close_sub (pool_sub s) (socket s) in
  let '(pool, w) := subscribe c PoolAccount w in
  let w := leave_tokens (token_sub s) w in
  let w := follow_native c key w in
  let '(tokens, w) := follow_tokens c key w in
  let w := close_subs (keepalive s) w in
  let '(keep, w) := keep_open c sc w in
  {| endpoint_used := Text url; made := S (S (made s)); connection := c; sendConnection := sc; keepalive := keep;
     pool_sub := pool; publicKey := key; token_sub := tokens; listeners := listeners s ++ [c]; socket := w;
     accounts := if decide (env_of (Text url) = env_of (endpoint_used s)) then accounts s
                 else cache_clear (accounts s) |}.

Definition with_tokens (key : option PublicKey) (σ : option Subscription) (w : Socket) (s : Mounted) : Mounted :=
  {| endpoint_used := endpoint_used s; made := made s; connection := connection s; sendConnection := sendConnection s;
     keepalive := keepalive s; pool_sub := pool_sub s; publicKey := key; token_sub := σ; listeners := listeners s;
     socket := w; accounts := accounts s |}.

(** The wallet has another key, or none. *)
Definition change_key (key : option PublicKey) (s : Mounted) : Mounted :=
  let w := leave_tokens (token_sub s) (socket s) in
  let w := follow_native (connection s) key w in
  let '(tokens, w) := follow_tokens (connection s) key w in
  with_tokens key tokens w s.

(** The wallet reports that it is connected, or not, with the same key: only the effect on
    the token program runs again. *)
Definition change_connected (s : Mounted) : Mounted :=
  let w := leave_tokens (token_sub s) (socket s) in
  let '(tokens, w) := follow_tokens (connection s) (publicKey s) w in
  with_tokens (publicKey s) tokens w s.

(** An event of the cache is given to every listener there is. *)
Definition deliver (ls : list nat) (w : Socket) (e : Event) : Socket :=
  match on_cache_event e with
  | Some (id, p) => foldl (λ w c, snd (subscribe c (Followed id p) w)) w ls
  | None => w
  end.

(** An operation of the cache left it as [c']. *)
Definition change_cache (c' : CacheState) (s : Mounted) : Mounted :=
  {| endpoint_used := endpoint_used s; made := made s; connection := connection s; sendConnection := sendConnection s;
     keepalive := keepalive s; pool_sub := pool_sub s; publicKey := publicKey s; token_sub := token_sub s;
     listeners := listeners s;
     socket := foldl (deliver (listeners s)) (socket s) (drop (length (events (accounts s))) (events c'));
     accounts := c' |}.

(** A change of an account of the cache, reported through a subscription. *)
Definition report (σ : Subscription) (info : AccountInfo) (s : Mounted) : Mounted :=
  match sub_topic σ with
  | Followed id p => change_cache (snd (account_changed (id, p) info (accounts s))) s
  | _ => s
  end.

(** ** The slippage setting *)

Definition setSlippage `{NumberText} {LocalTx} (val : num) (s : ConnectionState (LocalTx := LocalTx))
  : ConnectionState (LocalTx := LocalTx) :=
  let '(st, storage) := setLocalStorageState "slippage" (Text (num_toString val)) (slippage s, conn_storage s) in
  {| connectionEndpts := connectionEndpts s; slippage := st; conn_storage := storage; tokens := tokens s;
     tokenMap := tokenMap s; token_requests := token_requests s; accounts_module := accounts_module s |}.

(** [parseFloat(slippage)]; what is not a text is read as its text, which is no number. *)
Definition useSlippage {LocalTx} (s : ConnectionState (LocalTx := LocalTx)) : num :=
  match slippage s with Text t => parseFloat t | _ => S754_nan end.

End Subscriptions.

(** ** Properties *)

Lemma filter_keeps_all {A} (P : A → Prop) `{!∀ x, Decision (P x)} l : Forall P l → filter P l = l.
Proof. induction 1 as [|x l Hx _ IH]; [done|]. by rewrite filter_cons_True, IH. Qed.

Lemma filter_drops_all {A} (P : A → Prop) `{!∀ x, Decision (P x)} l : Forall (λ x, ¬ P x) l → filter P l = [].
Proof. induction 1 as [|x l Hx _ IH]; [done|]. by rewrite filter_cons_False. Qed.

(** Rewriting the front of a list with a permutation of it. *)
Ltac perm_front H := etransitivity; [apply Permutation_app_tail; exact H|].

Section SocketFacts.
#[local] Remove Hints SampleKeys SampleSplToken SampleSerum SampleParsers SampleConnection SampleWebApi SampleBigNumbers SampleBigToNumber SampleNumberText SampleBase58Laws SampleClusterUrls : typeclass_instances.
Context `{ClusterUrls} `{Keys} `{!Base58Laws} `{BufferLayout} `{BigNumbers} `{!SplToken} `{SplLayouts} `{!Serum}.

(** Open subscriptions have numbers that were given out, each once. *)
Definition socket_ok (w : Socket) : Prop :=
  NoDup (sub_id <$> opened w) ∧ Forall (λ σ, (sub_id σ < next_id w)%nat) (opened w).

Lemma subscribe_opens c t w :
  socket_ok w → socket_ok (snd (subscribe c t w)) ∧
  opened (snd (subscribe c t w)) = opened w ++ [fst (subscribe c t w)].
Proof.
  intros [Hn Hf]. split; [|done]. split; cbn.
  - rewrite fmap_app. apply NoDup_app. split_and!; [done| |apply NoDup_singleton].
    intros i Hi Hn'. apply list_elem_of_singleton in Hn'. subst i. apply list_elem_of_fmap in Hi as (σ & Hσ & Hin).
    rewrite Forall_forall in Hf. specialize (Hf σ Hin). cbn in *. lia.
  - apply Forall_app. split; [|by constructor; cbn; [lia|]]. eapply Forall_impl; [done|]. cbn. lia.
Qed.

Lemma close_sub_closes σ w l :
  socket_ok w → opened w ≡ₚ σ :: l → socket_ok (close_sub σ w) ∧ opened (close_sub σ w) ≡ₚ l.
Proof.
  intros [Hn Hf] Hl. assert (Hn' : NoDup (sub_id <$> σ :: l)) by by rewrite <- Hl.
  cbn in Hn'. apply NoDup_cons in Hn' as [Hσ Hn'].
  assert (Hcl : opened (close_sub σ w) ≡ₚ l).
  { unfold close_sub. cbn [opened]. rewrite Hl, filter_cons_False by tauto.
    rewrite filter_keeps_all; [done|]. apply Forall_forall.
    intros τ Hτ [_ Hid]. apply Hσ. rewrite <- Hid. by apply list_elem_of_fmap_2. }
  split; [|done]. split; rewrite Hcl; [done|]. rewrite Hl in Hf. by apply Forall_cons in Hf as [_ ?].
Qed.

Lemma close_subs_closes ss w l :
  socket_ok w → opened w ≡ₚ ss ++ l → socket_ok (close_subs ss w) ∧ opened (close_subs ss w) ≡ₚ l.
Proof.
  revert w. induction ss as [|σ ss IH]; intros w Hw Hl; [done|]. cbn.
  destruct (close_sub_closes σ w (ss ++ l) Hw Hl) as [Hw' Hl']. by apply IH.
Qed.

(** What the cleanups never close. *)
Definition never_closed (σ : Subscription) : bool :=
  match sub_topic σ with Native _ | Followed _ _ => true | _ => false end.

Definition conn_topic (σ : Subscription) : nat * Topic := (sub_conn σ, sub_topic σ).

Definition tokens_intended (c : nat) (key : option PublicKey) : list (nat * Topic) :=
  match key with Some _ => [(c, TokenProgram)] | None => [] end.

(** The subscriptions the page means to have. *)
Definition always_intended (c sc : nat) : list (nat * Topic) :=
  [(c, MadeUpKey); (c, Slots); (sc, MadeUpKey); (sc, Slots); (c, PoolAccount)].

Definition intended (s : Mounted) : list (nat * Topic) :=
  always_intended (connection s) (sendConnection s) ++ tokens_intended (connection s) (publicKey s).

(** What the cleanups of the effects will close. *)
Definition owned (s : Mounted) : list Subscription := keepalive s ++ [pool_sub s] ++ option_list (token_sub s).

(** The effects hold what they opened, that is what is intended, and everything else that
    is open is never closed. *)
Record page_sockets (s : Mounted) : Prop := {
  ps_socket : socket_ok (socket s);
  ps_always : conn_topic <$> keepalive s ++ [pool_sub s] = always_intended (connection s) (sendConnection s);
  ps_tokens : conn_topic <$> option_list (token_sub s) = tokens_intended (connection s) (publicKey s);
  ps_opened : ∃ l, opened (socket s) ≡ₚ owned s ++ l ∧ Forall (λ σ, never_closed σ = true) l ∧
                Forall (λ σ, (sub_conn σ < made s)%nat) l;
  ps_made : (connection s < made s)%nat ∧ (sendConnection s < made s)%nat;
  ps_listeners : last (listeners s) = Some (connection s) ∧ NoDup (listeners s) ∧
                 Forall (λ c, (c < made s)%nat) (listeners s);
}.

Lemma keep_open_opens c sc w keep w' :
  socket_ok w → keep_open c sc w = (keep, w') →
  socket_ok w' ∧ opened w' = opened w ++ keep ∧
  conn_topic <$> keep = [(c, MadeUpKey); (c, Slots); (sc, MadeUpKey); (sc, Slots)].
Proof.
  intros Hw Heq. assert (Hok : socket_ok w').
  { unfold keep_open in Heq.
    repeat match type of Heq with context [subscribe ?x ?t ?v] =>
      let Hs := fresh "Hs" in
      pose proof (proj1 (subscribe_opens x t v ltac:(assumption))) as Hs;
      destruct (subscribe x t v) as [? ?]; cbn [snd] in Hs end. by injection Heq as _ <-. }
  split; [done|]. cbn in Heq. injection Heq as <- <-. cbn. by rewrite <- !app_assoc.
Qed.

Lemma follow_tokens_opens c key w σ w' :
  socket_ok w → follow_tokens c key w = (σ, w') →
  socket_ok w' ∧ opened w' = opened w ++ option_list σ ∧
  conn_topic <$> option_list σ = tokens_intended c key.
Proof.
  intros Hw Heq. destruct key as [k|]; cbn [follow_tokens] in Heq.
  - destruct (subscribe_opens c TokenProgram w Hw) as [Hok _]. cbn in Hok, Heq. by injection Heq as <- <-.
  - injection Heq as <- <-. cbn. by rewrite app_nil_r.
Qed.

Lemma follow_native_opens c key w :
  socket_ok w → socket_ok (follow_native c key w) ∧
  ∃ l, opened (follow_native c key w) = opened w ++ l ∧ Forall (λ σ, never_closed σ = true ∧ sub_conn σ = c) l.
Proof.
  intros Hw. destruct key as [k|]; cbn [follow_native].
  - destruct (subscribe_opens c (Native k) w Hw) as [Hok _]. split; [done|]. eexists. split; [done|]. by repeat constructor.
  - split; [done|]. exists []. by rewrite app_nil_r.
Qed.

Lemma leave_tokens_closes σ w l :
  socket_ok w → opened w ≡ₚ option_list σ ++ l → socket_ok (leave_tokens σ w) ∧ opened (leave_tokens σ w) ≡ₚ l.
Proof. destruct σ as [σ|]; [apply close_sub_closes|done]. Qed.

(** The first rendering. *)
Lemma mount_sockets e key cache : page_sockets (mount e key cache).
Proof.
  unfold mount. destruct (subscribe_opens 0 PoolAccount {| next_id := 0; opened := [] |}) as [Hw0 Ho0]; [by repeat constructor|].
  destruct (subscribe 0 PoolAccount _) as [pool w0] eqn:Hpool. cbn [fst snd] in Hw0, Ho0.
  destruct (follow_native_opens 0 key w0 Hw0) as [Hw1 (l & Ho1 & Hl)].
  destruct (follow_tokens 0 key _) as [tk w2] eqn:Htk. destruct (follow_tokens_opens _ _ _ _ _ Hw1 Htk) as (Hw2 & Ho2 & Ht2).
  destruct (keep_open 0 1 w2) as [keep w3] eqn:Hk. destruct (keep_open_opens _ _ _ _ _ Hw2 Hk) as (Hw3 & Ho3 & Ht3).
  split; cbn [socket made connection sendConnection listeners owned intended keepalive pool_sub token_sub publicKey].
  - done.
  - rewrite fmap_app, Ht3. cbn in Hpool. by injection Hpool as <- <-.
  - done.
  - exists l. rewrite Ho3, Ho2, Ho1, Ho0. unfold owned. cbn [keepalive pool_sub token_sub]. split_and!.
    + cbn [app]. solve_Permutation.
    + eapply Forall_impl; [done|]. by intros σ [? _].
    + eapply Forall_impl; [done|]. cbn. intros σ [_ ->]. lia.
  - lia.
  - split_and!; [done|apply NoDup_singleton|repeat constructor].
Qed.

(** The effects of the wallet, run again on a socket from which the subscription on the
    token program is gone. *)
Lemma tokens_sockets key w tk w' s l :
  page_sockets s → socket_ok w → opened w ≡ₚ keepalive s ++ [pool_sub s] ++ l →
  Forall (λ σ, never_closed σ = true) l → Forall (λ σ, (sub_conn σ < made s)%nat) l →
  follow_tokens (connection s) key w = (tk, w') → page_sockets (with_tokens key tk w' s).
Proof.
  intros [_ Hk _ _ Hmade Hls] Hw Ho Hl Hc Htk. destruct (follow_tokens_opens _ _ _ _ _ Hw Htk) as (Hw' & Ho' & Ht).
  split; [done|done|done| |done|done].
  - exists l. split_and!; [|done|done]. unfold owned. cbn [socket with_tokens keepalive pool_sub token_sub].
    rewrite Ho'. perm_front Ho. solve_Permutation.
Qed.

Lemma without_tokens s :
  page_sockets s → ∃ l, socket_ok (leave_tokens (token_sub s) (socket s)) ∧
    opened (leave_tokens (token_sub s) (socket s)) ≡ₚ keepalive s ++ [pool_sub s] ++ l ∧
    Forall (λ σ, never_closed σ = true) l ∧ Forall (λ σ, (sub_conn σ < made s)%nat) l.
Proof.
  intros [Hw _ _ (l & Ho & Hl & Hc) _ _]. exists l.
  destruct (leave_tokens_closes (token_sub s) (socket s) (keepalive s ++ [pool_sub s] ++ l)) as [? ?]; [done| |done].
  rewrite Ho. unfold owned. solve_Permutation.
Qed.

Lemma change_connected_sockets s : page_sockets s → page_sockets (change_connected s).
Proof.
  intros Hs. destruct (without_tokens s Hs) as (l & Hw & Ho & Hl & Hc). unfold change_connected.
  destruct (follow_tokens _ _ _) as [tk w'] eqn:Htk. by eapply tokens_sockets.
Qed.

Lemma change_key_sockets key s : page_sockets s → page_sockets (change_key key s).
Proof.
  intros Hs. destruct (without_tokens s Hs) as (l & Hw & Ho & Hl & Hc). unfold change_key.
  destruct (follow_native_opens (connection s) key _ Hw) as [Hw1 (l1 & Ho1 & Hl1)].
  destruct (follow_tokens _ _ _) as [tk w'] eqn:Htk. eapply (tokens_sockets _ _ _ _ _ (l ++ l1)); [done|done| | | |done].
  - rewrite Ho1. perm_front Ho. solve_Permutation.
  - apply Forall_app. split; [done|]. eapply Forall_impl; [done|]. by intros σ [? _].
  - apply Forall_app. split; [done|]. eapply Forall_impl; [done|]. cbn. intros σ [_ ->]. apply Hs.
Qed.

Lemma always_held s σ : page_sockets s → σ ∈ owned s → never_closed σ = false.
Proof.
  intros [_ Ha Ht _ _ _] Hσ. unfold owned in Hσ. rewrite (assoc_L (++)) in Hσ.
  assert (Hin : conn_topic σ ∈ intended s).
  { unfold intended. rewrite <- Ha, <- Ht, <- fmap_app. by apply list_elem_of_fmap_2. }
  unfold intended, always_intended, tokens_intended in Hin. unfold never_closed. destruct σ as [c t i]. cbn in *.
  destruct (publicKey s); cbn in Hin; rewrite !elem_of_cons, elem_of_nil in Hin; destruct_or? Hin; (done || by injection Hin as _ ->).
Qed.

Lemma never_closed_apart s σ l :
  page_sockets s → opened (socket s) ≡ₚ owned s ++ l → σ ∈ opened (socket s) → never_closed σ = true → σ ∈ l.
Proof.
  intros Hs Ho Hσ Hst. rewrite Ho in Hσ. apply elem_of_app in Hσ as [Hσ|Hσ]; [|done].
  by rewrite (always_held s σ Hs Hσ) in Hst.
Qed.

Lemma switch_endpoint_sockets url key s :
  page_sockets s → page_sockets (switch_endpoint url key s) ∧
  ∀ σ, σ ∈ opened (socket s) → never_closed σ = true → σ ∈ opened (socket (switch_endpoint url key s)).
Proof.
  intros Hs. unfold switch_endpoint. destruct (decide _) as [|_]; [done|]. cbv zeta.
  destruct (ps_opened s Hs) as (l & Ho & Hl & Hc). assert (Hap := λ σ, never_closed_apart s σ l Hs Ho).
  destruct Hs as [Hw _ _ _ Hmade (Hlast & Hnd & Hls)].
  destruct (close_sub_closes (pool_sub s) (socket s) (keepalive s ++ option_list (token_sub s) ++ l)) as [Hw0 Ho0]; [done| |].
  { rewrite Ho. unfold owned. solve_Permutation. }
  destruct (subscribe_opens (made s) PoolAccount _ Hw0) as [Hw1 Ho1].
  destruct (subscribe (made s) PoolAccount _) as [pool w1] eqn:Hpool. cbn [fst snd] in Hw1, Ho1.
  destruct (leave_tokens_closes (token_sub s) w1 (keepalive s ++ l ++ [pool])) as [Hw2 Ho2]; [done| |].
  { rewrite Ho1. perm_front Ho0. solve_Permutation. }
  destruct (follow_native_opens (made s) key _ Hw2) as [Hw3 (l3 & Ho3 & Hl3)].
  destruct (follow_tokens _ _ _) as [tk w4] eqn:Htk. destruct (follow_tokens_opens _ _ _ _ _ Hw3 Htk) as (Hw4 & Ho4 & Ht4).
  destruct (close_subs_closes (keepalive s) w4 ((l ++ [pool]) ++ l3 ++ option_list tk)) as [Hw5 Ho5]; [done| |].
  { rewrite Ho4, Ho3, <- app_assoc. perm_front Ho2. solve_Permutation. }
  destruct (keep_open _ _ _) as [keep w6] eqn:Hk. destruct (keep_open_opens _ _ _ _ _ Hw5 Hk) as (Hw6 & Ho6 & Ht6).
  split; [split; cbn [socket made connection sendConnection listeners keepalive pool_sub token_sub publicKey]|].
  - done.
  - rewrite fmap_app, Ht6. cbn in Hpool. by injection Hpool as <- <-.
  - done.
  - exists (l ++ l3). unfold owned. cbn [keepalive pool_sub token_sub]. split_and!.
    + rewrite Ho6. perm_front Ho5. solve_Permutation.
    + apply Forall_app. split; [done|]. eapply Forall_impl; [done|]. by intros σ [? _].
    + apply Forall_app. split; (eapply Forall_impl; [done|]); cbn; [lia|]. intros σ [_ ->]. lia.
  - lia.
  - rewrite last_snoc. split_and!; [done| |].
    + apply NoDup_app. split_and!; [done| |apply NoDup_singleton]. intros c Hin ->%list_elem_of_singleton.
      rewrite Forall_forall in Hls. specialize (Hls _ Hin). lia.
    + apply Forall_app. split; [|repeat constructor; lia]. eapply Forall_impl; [done|]. cbn. lia.
  - intros σ Hσ Hst. cbn [socket]. rewrite Ho6. apply elem_of_app. left. rewrite Ho5. rewrite !elem_of_app.
    left; left. by apply Hap.
Qed.

(** ** Events of the cache *)

Lemma deliver_opens ls w e :
  socket_ok w → socket_ok (deliver ls w e) ∧
  ∃ l, opened (deliver ls w e) = opened w ++ l ∧ Forall (λ σ, never_closed σ = true ∧ sub_conn σ ∈ ls) l ∧
    conn_topic <$> l = match on_cache_event e with
                       | Some (id, p) => (λ c, (c, Followed id p)) <$> ls
                       | None => []
                       end.
Proof.
  intros Hw. unfold deliver. destruct (on_cache_event e) as [[id p]|].
  2: { split; [done|]. exists []. by rewrite app_nil_r. }
  revert w Hw. induction ls as [|c ls IH]; intros w Hw; [split; [done|]; exists []; by rewrite app_nil_r|].
  cbn [foldl fmap list_fmap]. destruct (subscribe_opens c (Followed id p) w Hw) as [Hw1 Ho1].
  destruct (IH _ Hw1) as [Hw2 (l & Ho2 & Hl & Ht)]. split; [done|].
  exists (fst (subscribe c (Followed id p) w) :: l). split_and!.
  - rewrite Ho2, Ho1. by rewrite <- app_assoc.
  - constructor; [split; [done|apply list_elem_of_here]|]. eapply Forall_impl; [done|]. cbn. intros σ [? ?].
    split; [done|]. by apply list_elem_of_further.
  - cbn [fmap list_fmap]. by rewrite Ht.
Qed.

Lemma deliver_all_opens ls es w :
  socket_ok w → socket_ok (foldl (deliver ls) w es) ∧
  ∃ l, opened (foldl (deliver ls) w es) = opened w ++ l ∧ Forall (λ σ, never_closed σ = true ∧ sub_conn σ ∈ ls) l ∧
    conn_topic <$> l = e ← omap on_cache_event es; (λ c, (c, Followed e.1 e.2)) <$> ls.
Proof.
  revert w. induction es as [|e es IH]; intros w Hw; [split; [done|]; exists []; by rewrite app_nil_r|]. cbn [foldl].
  destruct (deliver_opens ls w e Hw) as [Hw1 (l1 & Ho1 & Hl1 & Ht1)].
  destruct (IH _ Hw1) as [Hw2 (l2 & Ho2 & Hl2 & Ht2)]. split; [done|]. exists (l1 ++ l2). split_and!.
  - by rewrite Ho2, Ho1, <- app_assoc.
  - by apply Forall_app.
  - rewrite fmap_app, Ht1, Ht2. cbn [omap list_omap]. by destruct (on_cache_event e) as [[id p]|].
Qed.

Lemma change_cache_sockets c' s : page_sockets s → page_sockets (change_cache c' s).
Proof.
  intros [Hw Hk Ht (l & Ho & Hl & Hc) Hmade (Hlast & Hnd & Hls)].
  destruct (deliver_all_opens (listeners s) (drop (length (events (accounts s))) (events c')) _ Hw)
    as [Hw' (l' & Ho' & Hl' & _)].
  split; [done|done|done| |done|done]. exists (l ++ l'). split_and!.
  - cbn [socket change_cache]. rewrite Ho'. perm_front Ho. unfold owned. cbn. by rewrite <- !app_assoc.
  - apply Forall_app. split; [done|]. eapply Forall_impl; [done|]. by intros σ [? _].
  - apply Forall_app. split; [done|]. eapply Forall_impl; [done|]. cbn. intros σ [_ Hin].
    by apply (proj1 (Forall_forall _ _) Hls).
Qed.

(** ** Every reachable state *)

Variable kind : string → Parser.
Variable user : PublicKey → Prop.

Inductive socket_step : Mounted → Mounted → Prop :=
  | step_endpoint url key s : socket_step s (switch_endpoint url key s)
  | step_key key s : socket_step s (change_key key s)
  | step_connected s : socket_step s (change_connected s)
  | step_cache c' s : typed_step kind user (accounts s) c' → socket_step s (change_cache c' s).

Lemma reachable_sockets e key cache s : rtc socket_step (mount e key cache) s → page_sockets s.
Proof.
  intros Hsteps. pattern s. revert s Hsteps. apply rtc_ind_r; [apply mount_sockets|]. intros s s' _ Hstep IH.
  destruct Hstep.
  - by apply switch_endpoint_sockets.
  - by apply change_key_sockets.
  - by apply change_connected_sockets.
  - by apply change_cache_sockets.
Qed.

(** C27: the subscriptions that are open.  Through any changes of the network, the wallet and the
    cache, what is open apart from the user's and the cached accounts is exactly what the
    page means to have: a made-up key and the slots on both connections in use, the pool,
    and the token program if there is a key; so neither socket is ever without a
    subscription, and of the connections left behind only subscriptions to the user's and
    the cached accounts are open. *)
Theorem subscriptions_exact e key cache s :
  rtc socket_step (mount e key cache) s →
  conn_topic <$> filter (λ σ, never_closed σ = false) (opened (socket s)) ≡ₚ intended s ∧
  (∀ c, c = connection s ∨ c = sendConnection s → ∃ σ, σ ∈ opened (socket s) ∧ sub_conn σ = c) ∧
  (∀ σ, σ ∈ opened (socket s) → sub_conn σ ≠ connection s → sub_conn σ ≠ sendConnection s → never_closed σ = true).
Proof.
  intros Hs%reachable_sockets. destruct (ps_opened s Hs) as (l & Ho & Hl & _).
  assert (Hown : conn_topic <$> filter (λ σ, never_closed σ = false) (opened (socket s)) ≡ₚ intended s).
  { rewrite Ho, filter_app, (filter_keeps_all _ (owned s)), (filter_drops_all _ l), app_nil_r.
    - unfold intended. rewrite <- (ps_always s Hs), <- (ps_tokens s Hs), <- fmap_app. unfold owned. by rewrite (assoc_L (++)).
    - eapply Forall_impl; [done|]. cbn. by intros σ ->.
    - apply Forall_forall. intros σ. by apply always_held. }
  assert (Hin : ∀ ct, ct ∈ intended s ↔ ∃ σ, ct = conn_topic σ ∧ never_closed σ = false ∧ σ ∈ opened (socket s)).
  { intros ct. rewrite <- Hown, list_elem_of_fmap. by setoid_rewrite list_elem_of_filter. }
  split_and!; [done| |].
  - intros c Hc. destruct (proj1 (Hin (c, Slots))) as (σ & [= Hcs _] & _ & Hσ); [|by exists σ].
    unfold intended, always_intended. rewrite elem_of_app. left. destruct Hc as [->| ->]; set_solver.
  - intros σ Hσ Hc Hsc. destruct (never_closed σ) eqn:Hst; [done|].
    assert (Hi : conn_topic σ ∈ intended s) by (apply Hin; eauto).
    unfold intended, always_intended, tokens_intended, conn_topic in Hi. destruct (publicKey s); set_solver.
Qed.

(** C35: reports from a network that was left.  The subscription to a cached account is still
    open after the endpoint changed.  If that is another network the cache is emptied, and
    the next change the old network reports for the account is put in the cache and
    announced as new; every connection the page ever used is then subscribed to it once
    more, the old ones too. *)
Theorem stale_subscription_reports e key cache s url key' σ k p info acc :
  rtc socket_step (mount e key cache) s →
  σ ∈ opened (socket s) → sub_topic σ = Followed (toBase58 k) p →
  env_of (Text url) ≠ env_of (endpoint_used s) →
  (0 < length (account_data info))%nat → parse p k info = Ok acc →
  let s1 := switch_endpoint url key' s in
  let s2 := report σ info s1 in
  σ ∈ opened (socket s1) ∧ sub_conn σ ≠ connection s1 ∧ genericCache (accounts s1) = ∅ ∧
  genericCache (accounts s2) = {[toBase58 k := acc]} ∧
  ∃ l, opened (socket s2) = opened (socket s1) ++ l ∧
    conn_topic <$> l = (λ c, (c, Followed (toBase58 k) p)) <$> listeners s ++ [connection s1].
Proof.
  intros Hs%reachable_sockets Hσ Htop Henv Hlen Hparse s1 s2.
  assert (Hst : never_closed σ = true) by (unfold never_closed; by rewrite Htop).
  destruct (switch_endpoint_sockets url key' s Hs) as [Hs1 Hkeeps]. fold s1 in Hs1, Hkeeps.
  destruct (ps_opened s Hs) as (l & Ho & _ & Hc).
  assert (Hlt : (sub_conn σ < made s)%nat).
  { apply (proj1 (Forall_forall _ _) Hc). by apply (never_closed_apart s σ l). }
  assert (Hfacts : connection s1 = made s ∧ listeners s1 = listeners s ++ [made s] ∧ accounts s1 = cache_clear (accounts s)).
  { unfold s1, switch_endpoint. rewrite decide_False by congruence.
    destruct (subscribe _ _ _), (follow_tokens _ _ _), (keep_open _ _ _). cbn. by rewrite decide_False. }
  destruct Hfacts as (Hconn & Hlis & Hacc).
  destruct (cache_add_accepts k info (Some p) p acc (accounts s1)) as (c2 & Hadd & Hg & _ & _ & _ & He); [done|done| |].
  { cbn. unfold client_deserialize. by rewrite Hparse. }
  assert (Hs2 : s2 = change_cache c2 s1).
  { unfold s2, report, account_changed. rewrite Htop. cbn [fst snd]. by rewrite cache_add_string, Hadd. }
  assert (Hempty : genericCache (accounts s1) = ∅) by (rewrite Hacc; done).
  split_and!; [by apply Hkeeps|lia|done|by rewrite Hs2; cbn; rewrite Hg, Hempty|].
  destruct (deliver_all_opens (listeners s1) (drop (length (events (accounts s1))) (events c2)) _ (ps_socket s1 Hs1))
    as [_ (l2 & Ho2 & _ & Ht2)].
  exists l2. rewrite Hs2. split; [done|]. rewrite Ht2, He, drop_app_length, Hempty, lookup_empty, Hlis, Hconn.
  rewrite bool_decide_false by by intros [? ?]. cbn. by rewrite app_nil_r.
Qed.

End SocketFacts.

(** The slippage setting.  What is set is what is shown, also by a page that is loaded
    again; the endpoint is not touched. *)
Lemma slippage_reloads `{ClusterUrls} `{NumberText} `{Keys} `{BufferLayout} `{BigNumbers} `{!SplToken} `{SplLayouts} `{!Serum}
    {LocalTx} (s : ConnectionState (LocalTx := LocalTx)) val (m : AccountsModule (LocalTx := LocalTx)) d :
  parseFloat (num_toString val) = val →
  stored_state (conn_storage s) "slippage" (Text "0.25") = Ok (slippage s) →
  stored_state (conn_storage s) "connectionEndpts" (Text (endpoint_url LOCALNET)) = Ok d →
  useSlippage (setSlippage val s) = val ∧
  ∃ s' : ConnectionState (LocalTx := LocalTx), load_connection (conn_storage (setSlippage val s)) m = Ok s' ∧ useSlippage s' = val ∧ connectionEndpts s' = d.
Proof.
  intros Hval Hst Hd. unfold setSlippage. destruct (setLocalStorageState _ _ _) as [st storage] eqn:Hset.
  destruct (set_text_stored _ _ _ _ _ _ _ Hst Hset) as (-> & Hst' & Hother). split; [exact Hval|]. cbn [conn_storage].
  unfold load_connection. rewrite (Hother "connectionEndpts"%string) by discriminate. rewrite Hd. cbn [mbind result_bind]. rewrite Hst'. by eexists.
Qed.

(** ** Concrete inputs *)

(** A user's page with one cached account. *)
Definition sample_mounted : Mounted := mount (Text (endpoint_url LOCALNET)) (Some sample_user) empty_cache.
Definition sample_followed : Mounted :=
  change_cache (snd (cache_add (IsString (toBase58 sample_wallet_account)) (sample_token_data 1000)
                       (Some TokenAccountParser) (accounts sample_mounted))) sample_mounted.
Definition sample_subscription : Subscription :=
  {| sub_conn := 0; sub_topic := Followed (toBase58 sample_wallet_account) TokenAccountParser; sub_id := 7 |}.

Lemma sample_followed_reachable : rtc (socket_step sample_kind is_sample_user) sample_mounted sample_followed.
Proof. apply rtc_once, step_cache, typed_add. by intros q [= <-]. Qed.

Lemma sample_sockets :
  opened (socket sample_followed) =
    [{| sub_conn := 0; sub_topic := PoolAccount; sub_id := 0 |}; {| sub_conn := 0; sub_topic := Native sample_user; sub_id := 1 |};
     {| sub_conn := 0; sub_topic := TokenProgram; sub_id := 2 |}; {| sub_conn := 0; sub_topic := MadeUpKey; sub_id := 3 |};
     {| sub_conn := 0; sub_topic := Slots; sub_id := 4 |}; {| sub_conn := 1; sub_topic := MadeUpKey; sub_id := 5 |};
     {| sub_conn := 1; sub_topic := Slots; sub_id := 6 |}; sample_subscription].
Proof. reflexivity. Qed.

Lemma subscriptions_exact_witness :
  let s := switch_endpoint "https://solana-api.projectserum.com/" None sample_followed in
  conn_topic <$> filter (λ σ, never_closed σ = false) (opened (socket s)) ≡ₚ
    [(2%nat, MadeUpKey); (2%nat, Slots); (3%nat, MadeUpKey); (3%nat, Slots); (2%nat, PoolAccount)] ∧
  (∀ c, c = 2%nat ∨ c = 3%nat → ∃ σ, σ ∈ opened (socket s) ∧ sub_conn σ = c) ∧
  (∀ σ, σ ∈ opened (socket s) → sub_conn σ ≠ 2%nat → sub_conn σ ≠ 3%nat → never_closed σ = true).
Proof.
  apply (subscriptions_exact sample_kind is_sample_user (Text (endpoint_url LOCALNET)) (Some sample_user) empty_cache).
  eapply rtc_r; [exact sample_followed_reachable|apply step_endpoint].
Defined.

Lemma stale_subscription_reports_witness :
  let s1 := switch_endpoint "https://solana-api.projectserum.com/" None sample_followed in
  let s2 := report sample_subscription (sample_token_data 2000) s1 in
  sample_subscription ∈ opened (socket s1) ∧ sub_conn sample_subscription ≠ connection s1 ∧
  genericCache (accounts s1) = ∅ ∧
  genericCache (accounts s2) = {[toBase58 sample_wallet_account :=
    {| pa_pubkey := sample_wallet_account; pa_account := sample_token_data 2000; pa_info := TokenInfo (sample_token 2000) |}]} ∧
  ∃ l, opened (socket s2) = opened (socket s1) ++ l ∧
    conn_topic <$> l = (λ c, (c, Followed (toBase58 sample_wallet_account) TokenAccountParser)) <$> [0%nat; 2%nat].
Proof.
  apply (stale_subscription_reports sample_kind is_sample_user (Text (endpoint_url LOCALNET)) (Some sample_user) empty_cache
    sample_followed "https://solana-api.projectserum.com/" None sample_subscription sample_wallet_account TokenAccountParser
    (sample_token_data 2000)).
  - exact sample_followed_reachable.
  - rewrite sample_sockets. do 7 apply list_elem_of_further. apply list_elem_of_here.
  - reflexivity.
  - by vm_compute.
  - rewrite sample_data_length. lia.
  - unfold parse, parse_token_account. rewrite sample_deserialized by lia. reflexivity.
Defined.
