(* ===== verification/ServiceWorker.v ===== *)
(** * The service worker (src/serviceWorker.ts, src/index.tsx)

    Registration of a worker that serves the page from a cache: which pages may register
    one, the check on a local host that the script exists, and what the promises and
    events of the browser lead to.  The page itself only calls [unregister]. *)

From Stdlib Require Import ZArith Lia.
From Stdlib Require Import String Ascii.
From stdpp Require Import base list strings sets relations.
From S2P Require Import Prelude.

Open Scope Z_scope.

(** ** Regular expressions *)

(** A range of characters, sequences, alternatives, [?] and [{n}]. *)
Inductive regex :=
  | Range (lo hi : ascii)
  | Then (r1 r2 : regex)
  | Either (r1 r2 : regex)
  | Maybe (r : regex)
  | Times (n : nat) (r : regex).

Definition within (lo hi c : ascii) : bool :=
  (nat_of_ascii lo <=? nat_of_ascii c)%nat && (nat_of_ascii c <=? nat_of_ascii hi)%nat.

(** What may follow a match at the start of a text, in the order in which a backtracking
    matcher tries the ways to match. *)
Fixpoint rests (r : regex) (s : list ascii) : list (list ascii) :=
  match r with
  | Range lo hi => match s with c :: s' => if within lo hi c then [s'] else [] | [] => [] end
  | Then r1 r2 => s' ← rests r1 s; rests r2 s'
  | Either r1 r2 => rests r1 s ++ rests r2 s
  | Maybe r => rests r s ++ [s]
  | Times n r => Nat.iter n (λ ss, s' ← ss; rests r s') [s]
  end.

(** [text.match(/^r$/)]. *)
Definition match_whole (r : regex) (s : string) : bool :=
  existsb (λ rest, match rest with [] => true | _ => false end) (rests r (list_ascii_of_string s)).

Definition is_char (c : ascii) : regex := Range c c.
Definition digit : regex := Range "0" "9".

(** [25[0-5]|2[0-4][0-9]|[01]?[0-9][0-9]?]. *)
Definition octet_regex : regex :=
  Either (Then (is_char "2") (Then (is_char "5") (Range "0" "5")))
 (Either (Then (is_char "2") (Then (Range "0" "4") digit))
         (Then (Maybe (Range "0" "1")) (Then digit (Maybe digit)))).

(** [127(?:\.(?:25[0-5]|2[0-4][0-9]|[01]?[0-9][0-9]?)){3}]. *)
Definition loopback_regex : regex :=
  Then (is_char "1") (Then (is_char "2") (Then (is_char "7") (Times 3 (Then (is_char ".") octet_regex)))).

Definition isLocalhost (hostname : string) : bool :=
  (hostname =? "localhost")%string || (hostname =? "[::1]")%string || match_whole loopback_regex hostname.

(** ** The page and the browser *)

(** [new URL(url, base).origin], which throws for what is no URL. *)
Class UrlApi := { url_origin : string → string → result string }.

(** What the build and the browser say of the page. *)
Record PageInfo := {
  NODE_ENV : string;
  PUBLIC_URL : string;
  has_serviceWorker : bool;
  hostname : string;
  href : string;
  page_origin : string;
}.

(** Which callbacks [config] has. *)
Record Config := { has_onSuccess : bool; has_onUpdate : bool }.

(** What the code asks of the browser. *)
Inductive Act :=
  | FetchScript (swUrl : string)
  | RegisterWorker (swUrl : string)
  | UnregisterWorker
  | ReloadPage
  | CallOnUpdate
  | CallOnSuccess.

(** What waits for the browser: listeners, which stay, and callbacks of promises.  A page
    is loaded once, so that the listener of that has done its work then. *)
Inductive Reaction :=
  | OnLoad
  | ThenFetched (swUrl : string)
  | ThenReadyLog
  | ThenRegistered
  | ThenReadyLeave
  | ThenLeft
  | ThenReadyUnregister
  | OnUpdateFound
  | OnStateChange.

(** What the browser reports: a promise that is rejected is an [Err]. *)
Inductive BrowserEvent :=
  | Load
  | Response (reply : result (Z * option string))
  | Registered (reply : result unit)
  | Ready (reply : result unit)
  | Unregistered (reply : result unit)
  | UpdateFound (installing : bool)
  | StateChanged (state : string) (controller : bool).

Record Worker := { waiting : list Reaction; acts : list Act }.

Section ServiceWorker.
Context `{UrlApi} (page : PageInfo) (config : option Config).

Definition swUrl : string := PUBLIC_URL page ++ "/service-worker.js".

(** [register]: the listener it adds, if it does. *)
Definition register : result (list Reaction) :=
  if (NODE_ENV page =? "production")%string && has_serviceWorker page then
    origin ← url_origin (PUBLIC_URL page) (href page);
    mret (if (origin =? page_origin page)%string then [OnLoad] else [])
  else mret [].

Definition registerValidSW (url : string) : list Reaction * list Act := ([ThenRegistered], [RegisterWorker url]).
Definition checkValidServiceWorker (url : string) : list Reaction * list Act := ([ThenFetched url], [FetchScript url]).

Definition unregister : list Reaction := if has_serviceWorker page then [ThenReadyUnregister] else [].

(** [response.status === 404 || (contentType != null && contentType.indexOf("javascript") === -1)]. *)
Definition no_script (response : Z * option string) : bool :=
  (response.1 =? 404) ||
  match response.2 with
  | Some contentType => match String.index 0 "javascript" contentType with Some _ => false | None => true end
  | None => false
  end.

(** What a reaction does with an event it waits for: what waits then, and what is asked of
    the browser. *)
Definition react (r : Reaction) (e : BrowserEvent) : option (list Reaction * list Act) :=
  match r, e with
  | OnLoad, Load =>
      if isLocalhost (hostname page) then
        let '(rs, a) := checkValidServiceWorker swUrl in Some (rs ++ [ThenReadyLog], a)
      else Some (registerValidSW swUrl)
  | ThenFetched url, Response (Ok response) =>
      if no_script response then Some ([ThenReadyLeave], []) else Some (registerValidSW url)
  | ThenFetched _, Response (Err _) => Some ([], [])
  | ThenReadyLog, Ready _ => Some ([], [])
  | ThenRegistered, Registered (Ok _) => Some ([OnUpdateFound], [])
  | ThenRegistered, Registered (Err _) => Some ([], [])
  | ThenReadyLeave, Ready (Ok _) => Some ([ThenLeft], [UnregisterWorker])
  | ThenReadyLeave, Ready (Err _) => Some ([], [])
  | ThenLeft, Unregistered (Ok _) => Some ([], [ReloadPage])
  | ThenLeft, Unregistered (Err _) => Some ([], [])
  | ThenReadyUnregister, Ready (Ok _) => Some ([], [UnregisterWorker])
  | ThenReadyUnregister, Ready (Err _) => Some ([], [])
  | OnUpdateFound, UpdateFound installing => Some (OnUpdateFound :: if installing then [OnStateChange] else [], [])
  | OnStateChange, StateChanged state controller =>
      Some ([OnStateChange],
        if (state =? "installed")%string then
          match config with
          | Some c => if controller then (if has_onUpdate c then [CallOnUpdate] else [])
                      else (if has_onSuccess c then [CallOnSuccess] else [])
          | None => []
          end
        else [])
  | _, _ => None
  end.

Inductive worker_step : Worker → Worker → Prop :=
  | step_react pre r post a e rs a' :
      react r e = Some (rs, a') →
      worker_step {| waiting := pre ++ r :: post; acts := a |} {| waiting := pre ++ rs ++ post; acts := a ++ a' |}.

Definition start (rs : list Reaction) : Worker := {| waiting := rs; acts := [] |}.

End ServiceWorker.

(** ** Properties *)

(** The texts an expression matches. *)
Fixpoint language (r : regex) (t : list ascii) : Prop :=
  match r with
  | Range lo hi => ∃ c, t = [c] ∧ within lo hi c = true
  | Then r1 r2 => ∃ t1 t2, t = t1 ++ t2 ∧ language r1 t1 ∧ language r2 t2
  | Either r1 r2 => language r1 t ∨ language r2 t
  | Maybe r => language r t ∨ t = []
  | Times n r => Nat.iter n (λ P t, ∃ t1 t2, t = t1 ++ t2 ∧ P t1 ∧ language r t2) (λ t, t = []) t
  end.

(** The matcher finds every way to split a text into a match and a rest, and no other. *)
Lemma rests_language r s rest : rest ∈ rests r s ↔ ∃ t, s = t ++ rest ∧ language r t.
Proof.
  revert s rest. induction r as [lo hi|r1 IH1 r2 IH2|r1 IH1 r2 IH2|r IH|n r IH]; intros s rest; cbn [rests language].
  - split.
    + destruct s as [|c s]; [by intros ?%elem_of_nil|]. destruct (within lo hi c) eqn:Hc; [|by intros ?%elem_of_nil].
      intros ->%list_elem_of_singleton. by exists [c]; eauto.
    + intros (t & -> & c & -> & Hc). cbn. rewrite Hc. by apply list_elem_of_singleton.
  - rewrite list_elem_of_bind. setoid_rewrite IH1. setoid_rewrite IH2. split.
    + intros (s' & (t2 & -> & H2) & t1 & -> & H1). exists (t1 ++ t2). rewrite <- app_assoc. eauto 10.
    + intros (t & -> & t1 & t2 & -> & H1 & H2). exists (t2 ++ rest). rewrite <- app_assoc. eauto 10.
  - rewrite elem_of_app, IH1, IH2. naive_solver.
  - rewrite elem_of_app, IH, list_elem_of_singleton. split.
    + intros [(t & -> & Ht)| ->]; [eauto|]. exists []. auto.
    + intros (t & -> & [Ht| ->]); [eauto|]. by right.
  - revert rest. induction n as [|n IHn]; intros rest; simpl Nat.iter.
    + rewrite list_elem_of_singleton. split; [intros ->; by exists []|]. by intros (t & -> & ->).
    + rewrite list_elem_of_bind. setoid_rewrite IH. setoid_rewrite IHn. split.
      * intros (s' & (t2 & -> & H2) & t1 & Hs & H1). exists (t1 ++ t2). rewrite <- app_assoc. eauto 10.
      * intros (t & -> & t1 & t2 & -> & H1 & H2). exists (t2 ++ rest). rewrite <- app_assoc. eauto 10.
Qed.

Lemma match_whole_language r s : match_whole r s = true ↔ language r (list_ascii_of_string s).
Proof.
  unfold match_whole. rewrite existsb_exists. split.
  - intros (rest & Hin & Hrest). destruct rest; [|done].
    apply list_elem_of_In, rests_language in Hin as (t & Ht & Hl). by rewrite app_nil_r in Ht; subst.
  - intros Hl. exists []. split; [|done]. apply list_elem_of_In, rests_language. exists (list_ascii_of_string s).
    by rewrite app_nil_r.
Qed.

(** A number from 0 to 255 in one to three digits. *)
Definition digit_of (c : ascii) : Z := Z.of_nat (nat_of_ascii c) - 48.
Definition is_octet (t : list ascii) : Prop :=
  (1 ≤ length t ≤ 3)%nat ∧ Forall (λ c, 0 <= digit_of c <= 9) t ∧ foldl (λ a c, a * 10 + digit_of c) 0 t <= 255.

Lemma within_digits lo hi c :
  within lo hi c = true ↔ digit_of lo <= digit_of c <= digit_of hi.
Proof. unfold within, digit_of. rewrite andb_true_iff, !Nat.leb_le. lia. Qed.

Lemma language_range lo hi t : language (Range lo hi) t ↔ ∃ c, t = [c] ∧ digit_of lo <= digit_of c <= digit_of hi.
Proof. cbn. by setoid_rewrite within_digits. Qed.

Lemma octet_language t : language octet_regex t ↔ is_octet t.
Proof.
  unfold octet_regex, is_char, digit. cbn [language]. setoid_rewrite within_digits.
  change (digit_of "0") with 0. change (digit_of "1") with 1. change (digit_of "2") with 2.
  change (digit_of "4") with 4. change (digit_of "5") with 5. change (digit_of "9") with 9. split.
  - intros Hl. unfold is_octet.
    destruct Hl as [(? & ? & -> & (c1 & -> & H1) & ? & ? & -> & (c2 & -> & H2) & (c3 & -> & H3))
      |[(? & ? & -> & (c1 & -> & H1) & ? & ? & -> & (c2 & -> & H2) & (c3 & -> & H3))
       |(? & ? & -> & [(c1 & -> & H1)| ->] & ? & ? & -> & (c2 & -> & H2) & [(c3 & -> & H3)| ->])]];
      cbn [app foldl length]; (split_and!; [lia|lia|repeat constructor; lia|lia]).
  - intros (Hlen & Hd & Hv). destruct t as [|c1 [|c2 [|c3 [|? ?]]]]; cbn in Hlen; try lia;
      rewrite ?Forall_cons in Hd; cbn [foldl] in Hv.
    + right; right. exists [], [c1]. split_and!; [done|by right|]. exists [c1], []. split_and!; [done| |by right].
      exists c1. split; [done|lia].
    + right; right. exists [], [c1; c2]. split_and!; [done|by right|]. exists [c1], [c2].
      split_and!; [done| |left]; eexists; (split; [done|lia]).
    + destruct (decide (digit_of c1 <= 1)) as [H1|H1]; [|destruct (decide (digit_of c2 <= 4)) as [H2|H2]].
      * right; right. exists [c1], [c2; c3]. split_and!; [done|left; eexists; (split; [done|lia])|].
        exists [c2], [c3]. split_and!; [done| |left]; eexists; (split; [done|lia]).
      * right; left. exists [c1], [c2; c3]. split_and!; [done|eexists; (split; [done|lia])|].
        exists [c2], [c3]. split_and!; [done| |]; eexists; (split; [done|lia]).
      * left. exists [c1], [c2; c3]. split_and!; [done|eexists; (split; [done|lia])|].
        exists [c2], [c3]. split_and!; [done| |]; eexists; (split; [done|lia]).
Qed.

Lemma dotted_octet t :
  language (Then (is_char ".") octet_regex) t ↔ ∃ o, t = "."%char :: o ∧ is_octet o.
Proof.
  cbn [language is_char]. setoid_rewrite octet_language. split.
  - intros (? & o & -> & (c & -> & Hc) & Ho). exists o. split; [|done]. cbn. f_equal.
    unfold within in Hc. rewrite andb_true_iff, !Nat.leb_le in Hc.
    rewrite <- (ascii_nat_embedding c), <- (ascii_nat_embedding "."). f_equal. lia.
  - intros (o & -> & Ho). exists ["."%char], o. split_and!; [done| |done]. by eexists.
Qed.

Lemma char_then c r t : language (Then (is_char c) r) t ↔ ∃ t', t = c :: t' ∧ language r t'.
Proof.
  cbn [language is_char]. split.
  - intros (? & t' & -> & (d & -> & Hd) & Hr). exists t'. split; [|done]. cbn. f_equal.
    unfold within in Hd. rewrite andb_true_iff, !Nat.leb_le in Hd.
    rewrite <- (ascii_nat_embedding c), <- (ascii_nat_embedding d). f_equal. lia.
  - intros (t' & -> & Hr). exists [c], t'. split_and!; [done| |done]. exists c. split; [done|].
    unfold within. by rewrite !Nat.leb_refl.
Qed.

Lemma three_times r t :
  language (Times 3 r) t ↔ ∃ a b c, t = a ++ b ++ c ∧ language r a ∧ language r b ∧ language r c.
Proof.
  cbn [language]. simpl Nat.iter. split.
  - intros (? & c & -> & (? & b & -> & (? & a & -> & -> & Ha) & Hb) & Hc). exists a, b, c.
    split_and!; [|done..]. cbn. by rewrite <- app_assoc.
  - intros (a & b & c & -> & Ha & Hb & Hc). exists (a ++ b), c. split_and!; [by rewrite <- app_assoc| |done].
    exists a, b. split_and!; [done| |done]. by exists [], a.
Qed.

Lemma loopback_language s :
  language loopback_regex s ↔
  ∃ a b c, is_octet a ∧ is_octet b ∧ is_octet c ∧ s = ["1"; "2"; "7"; "."]%char ++ a ++ ["."%char] ++ b ++ ["."%char] ++ c.
Proof.
  unfold loopback_regex. do 3 setoid_rewrite char_then. setoid_rewrite three_times. setoid_rewrite dotted_octet. split.
  - intros (? & -> & ? & -> & ? & -> & ? & ? & ? & -> & (a & -> & Ha) & (b & -> & Hb) & (c & -> & Hc)). by exists a, b, c.
  - intros (a & b & c & Ha & Hb & Hc & ->). eexists. split; [done|]. eexists. split; [done|]. eexists. split; [done|].
    exists ("."%char :: a), ("."%char :: b), ("."%char :: c). eauto 10.
Qed.

(** The local hosts.  A page counts as local exactly if its host is [localhost], the
    loopback address of IPv6, or one of 127.0.0.0/8: 127 and three numbers from 0 to 255,
    each written with one to three digits. *)
Theorem isLocalhost_exact host :
  isLocalhost host = true ↔
  host = "localhost"%string ∨ host = "[::1]"%string ∨
  ∃ a b c, is_octet a ∧ is_octet b ∧ is_octet c ∧
    list_ascii_of_string host = ["1"; "2"; "7"; "."]%char ++ a ++ ["."%char] ++ b ++ ["."%char] ++ c.
Proof.
  unfold isLocalhost. rewrite !orb_true_iff, !String.eqb_eq, match_whole_language, loopback_language. tauto.
Qed.

(** *** What may happen after [register] *)

Section WorkerFacts.
Context `{UrlApi} (page : PageInfo) (config : option Config).

(** What can still lead to a registration or to a reload, and what is one. *)
Definition chance (r : Reaction) : nat :=
  match r with OnLoad | ThenFetched _ | ThenReadyLeave | ThenLeft => 1 | _ => 0 end.
Definition decisive (a : Act) : nat := match a with RegisterWorker _ | ReloadPage => 1 | _ => 0 end.

(** What happens only on a local host. *)
Definition local_reaction (r : Reaction) : bool :=
  match r with ThenFetched _ | ThenReadyLog | ThenReadyLeave | ThenLeft => true | _ => false end.
Definition local_act (a : Act) : bool :=
  match a with FetchScript _ | UnregisterWorker | ReloadPage => true | _ => false end.

Record worker_ok (w : Worker) : Prop := {
  wo_once : (sum_list (chance <$> waiting w) + sum_list (decisive <$> acts w) ≤ 1)%nat;
  wo_url : (∀ u, RegisterWorker u ∈ acts w ∨ ThenFetched u ∈ waiting w → u = swUrl page);
  wo_local : isLocalhost (hostname page) = false →
    Forall (λ r, local_reaction r = false) (waiting w) ∧ Forall (λ a, local_act a = false) (acts w);
  wo_left : ThenLeft ∈ waiting w → UnregisterWorker ∈ acts w;
  wo_reload : ∀ pre post, acts w = pre ++ ReloadPage :: post → UnregisterWorker ∈ pre;
  wo_register : ThenReadyUnregister ∉ waiting w;
}.

(** One reaction. *)
Lemma react_ok r e rs a :
  react page config r e = Some (rs, a) →
  (sum_list (chance <$> rs) + sum_list (decisive <$> a) ≤ chance r)%nat ∧
  (∀ u, RegisterWorker u ∈ a ∨ ThenFetched u ∈ rs → u = swUrl page ∨ r = ThenFetched u) ∧
  (isLocalhost (hostname page) = false → local_reaction r = false → r ≠ ThenReadyUnregister →
   Forall (λ r, local_reaction r = false) rs ∧ Forall (λ a, local_act a = false) a) ∧
  (ThenLeft ∈ rs → UnregisterWorker ∈ a) ∧ (ReloadPage ∈ a → r = ThenLeft ∧ a = [ReloadPage]) ∧ ThenReadyUnregister ∉ rs.
Proof.
  intros Hr. unfold react, checkValidServiceWorker, registerValidSW in Hr.
  destruct r, e as [|[[st ct]|]|[]|[]|[]|[]|st []]; try done; cbn in Hr;
    repeat match type of Hr with context [match ?x with _ => _ end] => destruct x eqn:? end; injection Hr as <- <-;
    cbn; (split_and!; [lia|set_solver|by intros; repeat constructor|set_solver|set_solver|set_solver]).
Qed.

Lemma sum_list_fmap_app {A} (f : A → nat) (l k : list A) :
  sum_list (f <$> l ++ k) = (sum_list (f <$> l) + sum_list (f <$> k))%nat.
Proof. induction l as [|x l IH]; [done|]. cbn in *. rewrite IH. lia. Qed.

Lemma sum_list_fmap_cons {A} (f : A → nat) x (l : list A) : sum_list (f <$> x :: l) = (f x + sum_list (f <$> l))%nat.
Proof. done. Qed.

(** Where a reload is, when acts were added. *)
Lemma reload_position l a pre post :
  l ++ a = pre ++ ReloadPage :: post →
  (∃ post', l = pre ++ ReloadPage :: post') ∨ (∃ k, pre = l ++ k ∧ a = k ++ ReloadPage :: post).
Proof.
  revert l. induction pre as [|x pre IH]; intros [|y l] Heq; cbn in *.
  - right. by exists [].
  - left. injection Heq as -> _. by exists l.
  - right. exists (x :: pre). by rewrite Heq.
  - injection Heq as <- Heq. destruct (IH l Heq) as [(post' & ->)|(k & -> & ->)]; [left; by exists post'|right; by exists k].
Qed.

Lemma worker_step_ok w w' : worker_step page config w w' → worker_ok w → worker_ok w'.
Proof.
  intros [pre r post a e rs a' Hr] [Honce Hurl Hlocal Hleft Hreload Hreg]. cbn [waiting acts] in *.
  destruct (react_ok r e rs a' Hr) as (R1 & R2 & R3 & R4 & R5 & R6).
  assert (Hrr : r ≠ ThenReadyUnregister) by set_solver.
  split; cbn [waiting acts].
  - rewrite !sum_list_fmap_app in *. rewrite sum_list_fmap_cons in Honce. lia.
  - intros u Hu. rewrite !elem_of_app in Hu.
    assert (Hcases : (RegisterWorker u ∈ a ∨ ThenFetched u ∈ pre ++ r :: post) ∨ (RegisterWorker u ∈ a' ∨ ThenFetched u ∈ rs))
      by set_solver.
    destruct Hcases as [Hold|Hnew]; [by apply Hurl|]. destruct (R2 u Hnew) as [?| ->]; [done|]. apply Hurl. set_solver.
  - intros Hh. destruct (Hlocal Hh) as [Hw Ha]. apply Forall_app in Hw as [Hpre Hpost]. apply Forall_cons in Hpost as [Hlr Hpost].
    destruct (R3 Hh Hlr Hrr) as [Hrs Ha']. rewrite !Forall_app. done.
  - intros Hin. rewrite !elem_of_app in Hin. rewrite elem_of_app. set_solver.
  - intros pre' post' Heq. destruct (reload_position _ _ _ _ Heq) as [(q & Hq)|(k & -> & Hk)]; [by eapply Hreload|].
    destruct R5 as [-> _]; [rewrite Hk; set_solver|]. apply elem_of_app. left. apply Hleft. set_solver.
  - set_solver.
Qed.

(** Registering a worker.  After [register], whatever the browser reports and in whatever
    order, nothing is asked of it unless the page is a production build, the browser has
    service workers and the worker has the page's origin; the script is
    [PUBLIC_URL/service-worker.js]; at most one worker is registered or the page is
    reloaded once, never both; it is reloaded only after the old worker was unregistered;
    and a page that is not on a local host is never reloaded and never unregisters a
    worker. *)
Theorem register_safe rs w :
  register page = Ok rs → rtc (worker_step page config) (start rs) w →
  (acts w ≠ [] → NODE_ENV page = "production"%string ∧ has_serviceWorker page = true ∧
    url_origin (PUBLIC_URL page) (href page) = Ok (page_origin page)) ∧
  (∀ u, RegisterWorker u ∈ acts w → u = swUrl page) ∧
  (length (filter (λ a, decisive a = 1%nat) (acts w)) ≤ 1)%nat ∧
  (∀ pre post, acts w = pre ++ ReloadPage :: post → UnregisterWorker ∈ pre) ∧
  (isLocalhost (hostname page) = false → (ReloadPage ∉ acts w) ∧ (UnregisterWorker ∉ acts w)).
Proof.
  intros Hrs Hsteps.
  assert (Hstart : rs = [] ∨ (rs = [OnLoad] ∧ NODE_ENV page = "production"%string ∧ has_serviceWorker page = true ∧
    url_origin (PUBLIC_URL page) (href page) = Ok (page_origin page))).
  { unfold register in Hrs. destruct (_ && _) eqn:Hand in Hrs; [|injection Hrs as <-; by left].
    apply andb_true_iff in Hand as [Henv Hsw]. apply String.eqb_eq in Henv.
    destruct (url_origin _ _) as [o|?] eqn:Ho; [|done]. cbn in Hrs. injection Hrs as <-.
    destruct (String.eqb_spec o (page_origin page)) as [Heq|_]; [right; by rewrite Heq|by left]. }
  assert (Hok : worker_ok w).
  { assert (Hok0 : worker_ok (start rs)).
    { split; cbn [waiting acts start]; destruct Hstart as [->|[-> _]];
        first [cbn; lia | set_solver | (intros _; by repeat constructor) | idtac].
      all: by intros [] ? [=]. }
    revert Hok0. induction Hsteps as [|w0 w1 w2 Hstep _ IH]; [done|]. intros H0. by eapply IH, worker_step_ok. }
  split_and!.
  - intros Hacts. destruct Hstart as [->|[_ ?]]; [|done]. exfalso. apply Hacts.
    inversion Hsteps as [|w0 w1 w2 Hstep]; [done|]. inversion Hstep as [pre]. by destruct pre.
  - intros u Hu. apply (wo_url w Hok). by left.
  - assert (Hcount : ∀ l, length (filter (λ a, decisive a = 1%nat) l) = sum_list (decisive <$> l)).
    { induction l as [|a l IH]; [done|]. rewrite filter_cons, sum_list_fmap_cons, <- IH. by destruct a. }
    rewrite Hcount. pose proof (wo_once w Hok). lia.
  - apply (wo_reload w Hok).
  - intros Hh. destruct (wo_local w Hok Hh) as [_ Ha]. rewrite Forall_forall in Ha. split; intros Hin; by apply Ha in Hin.
Qed.

(** The page's own call.  After [unregister] at most the worker is unregistered, once. *)
Theorem unregister_safe w :
  rtc (worker_step page config) (start (unregister page)) w → acts w = [] ∨ (acts w = [UnregisterWorker] ∧ waiting w = []).
Proof.
  intros Hsteps.
  assert (Hinv : (acts w = [] ∧ (waiting w = [] ∨ waiting w = [ThenReadyUnregister])) ∨ (acts w = [UnregisterWorker] ∧ waiting w = [])).
  { pattern w. revert w Hsteps. apply rtc_ind_r.
    - left. split; [done|]. cbn. unfold unregister. destruct (has_serviceWorker page); auto.
    - intros w w' _ [pre r post a e rs a' Hr] IH. cbn [acts waiting] in *.
      destruct IH as [[-> [Hw|Hw]]|[_ Hw]]; [by destruct pre| |by destruct pre].
      destruct pre as [|x pre]; [|destruct pre; by injection Hw]. injection Hw as -> ->.
      destruct e as [|?|?|[]|?|?|?]; try done; injection Hr as <- <-; auto. }
  destruct Hinv as [[? _]|?]; auto.
Qed.

End WorkerFacts.

(** ** Concrete inputs *)

#[global] Instance SampleUrlApi : UrlApi := {| url_origin := λ _ _, Ok "http://127.0.0.1"%string |}.

(** A production build served on the local host, where the script is gone. *)
Definition local_page : PageInfo :=
  {| NODE_ENV := "production"; PUBLIC_URL := "/app"; has_serviceWorker := true; hostname := "127.0.0.1";
     href := "http://127.0.0.1/app/"; page_origin := "http://127.0.0.1" |}.
Definition reloaded : Worker :=
  {| waiting := [ThenReadyLog]; acts := [FetchScript "/app/service-worker.js"; UnregisterWorker; ReloadPage] |}.

Lemma reloaded_reachable : rtc (worker_step local_page None) (start [OnLoad]) reloaded.
Proof.
  eapply rtc_l; [apply (step_react _ _ [] OnLoad [] [] Load); reflexivity|].
  eapply rtc_l; [apply (step_react _ _ [] (ThenFetched "/app/service-worker.js") [ThenReadyLog] _ (Response (Ok (404, None)))); reflexivity|].
  eapply rtc_l; [apply (step_react _ _ [] ThenReadyLeave [ThenReadyLog] _ (Ready (Ok tt))); reflexivity|].
  apply rtc_once. exact (step_react local_page None [] ThenLeft [ThenReadyLog]
    [FetchScript (swUrl local_page); UnregisterWorker] (Unregistered (Ok tt)) [] [ReloadPage] eq_refl).
Qed.

Lemma register_safe_witness :
  register local_page = Ok [OnLoad] ∧ UnregisterWorker ∈ [FetchScript "/app/service-worker.js"; UnregisterWorker].
Proof.
  split; [reflexivity|].
  assert (Hr : register local_page = Ok [OnLoad]) by reflexivity.
  apply (register_safe local_page None [OnLoad] reloaded Hr reloaded_reachable) with (post := []). reflexivity.
Defined.

Lemma unregister_safe_witness :
  acts (start (unregister local_page)) = [] ∨
  (acts (start (unregister local_page)) = [UnregisterWorker] ∧ waiting (start (unregister local_page)) = []).
Proof. apply (unregister_safe local_page None). apply rtc_refl. Defined.
