(* ===== verification/Session.v ===== *)
(** * A user's session

    The components together: the cache as it can be reached, the accounts selected from it
    for the user, the balance computed from them, the slider, the button and the
    transaction the wallet is asked to sign. *)

From Stdlib Require Import ZArith Lia SpecFloat.
From Stdlib Require Import String Ascii Permutation.
From stdpp Require Import base list strings sets gmap sorting.
From coqutil Require Import Byte.
From S2P Require Import Prelude JsNumber Buffers Web3 Sample Program Instructions SamplePool.
From S2P Require Import Wire Readers Layouts Lending Actions Cache Tokens UserAccounts Utils Forms.

Open Scope Z_scope.

Section Session.
#[local] Remove Hints SampleKeys SampleSplToken SampleSerum SampleParsers SampleConnection SampleWebApi SampleWalletKept SampleBigNumbers SampleBigToNumber SampleBigToNumberLaws SampleNumberText SampleBase58Laws SampleSplLayouts SampleSplLayoutLaws SampleBufferLayout : typeclass_instances.
Context `{Keys} `{!Base58Laws} `{BufferLayout} `{BigNumbers} `{!SplToken} `{SplLayouts} `{!Serum}.
Context `{BigToNumber} `{!BigToNumberLaws}.
Context {W : Type} `{!Connection W} `{!WebApi W} `{!WalletKept}.
Context (kind : string → Parser) (user : PublicKey → Prop).

(** The accounts of a mint among the user's. *)
Definition mint_accounts (mint : PublicKey) (us : list UserAccount) : list UserAccount :=
  filter (λ acc, of_mint (mint_text (Some (IsPublicKey mint))) None acc = true) us.

(** The slider at 100 percent. *)
Definition slider_full (f : Form) : Prop := slider_type (slider f) = Percent ∧ pct (slider f) = num_of_Z 100.

Lemma selected_owned s own us u :
  markets_typed kind → rtc (typed_step kind user) empty_cache s → selectUserAccounts (Some own) s = Ok us → u ∈ us →
  ti_owner (ua_info u) = own ∧
  genericCache s !! toBase58 (ua_pubkey u) =
    Some {| pa_pubkey := ua_pubkey u; pa_account := ua_account u; pa_info := TokenInfo (ua_info u) |}.
Proof.
  intros Hm Hs Hus Hu.
  destruct (selection_typed kind s own) as (us' & Hus' & _ & Hin);
    [apply (steps_typed kind user Hm empty_cache); [done|apply empty_typed]|].
  rewrite Hus in Hus'. injection Hus' as <-. by apply Hin.
Qed.

(** The account a form debits is one of the user's, of the mint. *)
Lemma debited_account mint us mintInfo bal from rest :
  Forall (λ u, 0 <= amount u) us →
  total (filter (λ acc, of_mint (mint_text mint) None acc = true) us) < 2 ^ 52 →
  0 <= decimals_of_mint mintInfo <= 15 →
  useUserBalance mint None us mintInfo = Ok bal → balance_accounts bal = from :: rest →
  from ∈ us ∧ mint_text mint = Some (toBase58 (ti_mint (ua_info from))) ∧
  Forall (λ u, amount u <= amount from) rest.
Proof.
  intros Hus Ht Hd Hbal Hacc. destruct (useUserBalance_run mint None us mintInfo Hus Ht Hd) as (b & Hb & Hp & Hs & _).
  assert (b = bal) as -> by congruence. rewrite Hacc in Hp, Hs. apply StronglySorted_inv in Hs as [_ Hs].
  assert (Hin : from ∈ filter (λ acc, of_mint (mint_text mint) None acc = true) us).
  { apply (elem_of_Permutation_proper from _ _ Hp). by left. }
  apply list_elem_of_filter in Hin as [Hm Hin]. split_and!; [done| |done].
  unfold of_mint in Hm. apply andb_prop in Hm as [Hm _]. by apply bool_decide_eq_true in Hm.
Qed.

(** C22: a whole deposit.  In every state the cache can reach, for the accounts selected for
    the user and the balance of wrapped SOL computed from them, with the slider at 100
    percent: a click that ends in the confirmation asked the wallet to sign exactly one
    transaction, which deposits the exact sum of the accounts less twice the minimum
    balance from the user's largest account of wrapped SOL, which the cache holds. *)
Theorem deposit_everything s own us mintInfo f m (b : Browser W) :
  let mint := Some (IsPublicKey WRAPPED_SOL_MINT) in
  let l := mint_accounts WRAPPED_SOL_MINT us in
  markets_typed kind → rtc (typed_step kind user) empty_cache s → selectUserAccounts (Some own) s = Ok us →
  toBase58 TENDERIZED_SOL_MINT_ID ≠ toBase58 WRAPPED_SOL_MINT →
  Forall (λ u, 0 <= amount u) us → 100 * total l < 2 ^ 52 → 0 <= decimals_of_mint mintInfo <= 15 →
  slider_full f →
  minimumBalance f = num_of_Z m → 0 <= 2 * m <= total l → showConfirmation f = false →
  ∃ bal f', useUserBalance mint None us mintInfo = Ok bal ∧ fst (deposit_click s true f bal b) = Ok f' ∧
    (showConfirmation f' = true → ∃ from rest u,
       balance_accounts bal = from :: rest ∧ ti_owner (ua_info from) = own ∧ ti_mint (ua_info from) = WRAPPED_SOL_MINT ∧
       genericCache s !! toBase58 (ua_pubkey from) =
         Some {| pa_pubkey := ua_pubkey from; pa_account := ua_account from; pa_info := TokenInfo (ua_info from) |} ∧
       Forall (λ u, amount u <= amount from) rest ∧
       offered (snd (deposit_click s true f bal b)) = offered b ++ [u] ∧
       deposit_tx (cached_token_accounts s) (action_account from) (num_of_Z (total l - 2 * m)) b u).
Proof.
  intros mint l Hm Hs Hus Hmints Hpos Ht Hd [Hsl Hpct] Hmin Hm0 Hshow.
  assert (Ht0 : 0 <= total l) by lia. assert (Ht52 : total l < 2 ^ 52) by lia.
  destruct (useUserBalance_run mint None us mintInfo Hpos Ht52 Hd) as (bal & Hbal & _ & _ & Hlam & _).
  destruct (slider_shares f bal 100 (total l) m) as (_ & _ & Hall); [done..|lia|done|done|done|done|].
  destruct (Hall eq_refl) as [_ Hamount].
  destruct (deposit_confirmed s true f bal b Hmints Hshow) as (f' & Hf' & Hconf).
  exists bal, f'. split_and!; [done|done|]. intros Hc. destruct (Hconf Hc) as (from & rest & u & _ & Hacc & Hoff & Htx).
  destruct (debited_account mint us mintInfo bal from rest Hpos Ht52 Hd Hbal Hacc) as (Hin & Hmint & Hlarge).
  destruct (selected_owned s own us from Hm Hs Hus Hin) as [Hown Hcached].
  exists from, rest, u. rewrite Hamount in Htx. split_and!; try done.
  injection Hmint as Hmint. by apply base58_inj.
Qed.

(** C23: a whole withdrawal.  In the same setting, for a user whose tokens of the pool are in
    one account and the slider at 100 percent: a click asks the wallet to sign at most
    one transaction, for exactly the amount of that account, out of the account: a
    withdrawal if the reserve the form knows of holds the amount beside the minimum
    balance, and a request to be paid later otherwise. *)
Theorem withdraw_everything s own us acc mintInfo f m pool r z (b : Browser W) :
  let mint := Some (IsPublicKey TENDERIZED_SOL_MINT_ID) in
  markets_typed kind → rtc (typed_step kind user) empty_cache s → selectUserAccounts (Some own) s = Ok us →
  mint_accounts TENDERIZED_SOL_MINT_ID us = [acc] →
  Forall (λ u, 0 <= amount u) us → 100 * amount acc < 2 ^ 52 → 0 <= decimals_of_mint mintInfo <= 15 →
  slider_full f →
  minimumBalance f = num_of_Z m → 0 <= m < 2 ^ 52 →
  reserve f = Some r → lamports r = num_of_Z z → 0 <= z < 2 ^ 53 →
  ti_owner (ua_info acc) = own ∧
  ∃ bal, useUserBalance mint None us mintInfo = Ok bal ∧
    offers_at (λ _ l, l = [] ∨ ∃ u key, l = [u] ∧ wallet_publicKey (browser_world b) = Some key ∧
        (if decide (m + amount acc <= z)
         then withdrawal key (action_account acc) (num_of_Z (amount acc)) (parsed_info pool) u
         else crediting key (action_account acc) (num_of_Z (amount acc)) (parsed_info pool) u))
      (withdraw_click true f bal (Some pool)) b.
Proof.
  intros mint Hm Hs Hus Hl Hpos Ha Hd [Hsl Hpct] Hmin Hm0 Hr Hz Hz0. unfold mint_accounts in Hl. fold mint in Hl.
  assert (Hin : acc ∈ filter (λ acc, of_mint (mint_text mint) None acc = true) us) by (rewrite Hl; by left).
  apply list_elem_of_filter in Hin as [_ Hin].
  assert (Ha0 : 0 <= amount acc) by (rewrite Forall_forall in Hpos; by apply Hpos).
  assert (Htot : total (filter (λ acc, of_mint (mint_text mint) None acc = true) us) = amount acc)
    by (rewrite Hl, total_cons; cbn; lia).
  split; [by apply (selected_owned s own us acc Hm Hs Hus Hin)|].
  destruct (useUserBalance_run mint None us mintInfo Hpos ltac:(lia) Hd) as (bal & Hbal & Hp & _ & Hlam & _).
  rewrite Htot in Hlam. rewrite Hl in Hp. symmetry in Hp. apply Permutation_singleton_l in Hp.
  exists bal. split; [done|].
  assert (Hamount : withdraw_amount f bal = num_of_Z (amount acc)).
  { apply (withdraw_percent f bal 100 (amount acc)); done || lia. }
  unfold withdraw_click. rewrite <- Hp. cbn [length Nat.eqb connect_button].
  destruct (pendingTx f); [by apply nothing_offered; [|left]|].
  destruct (onWithdraw_offers f bal acc (Some pool) b) as (l & Hoff & [->|(t & u & key & Ht & -> & Hkey & Hu)]).
  { exists []. split; [done|by left]. }
  injection Ht as <-. exists [u]. split; [done|]. right. exists u, key. split_and!; [done|done|].
  rewrite Hamount in Hu. unfold isReserveDepleted in Hu. rewrite Hr, Hz, Hmin in Hu.
  rewrite num_add_exact, num_ltb_exact in Hu by (unfold safe; lia).
  destruct (Z.ltb_spec z (m + amount acc)); [rewrite decide_False by lia|rewrite decide_True by lia]; exact Hu.
Qed.

End Session.

(** ** Concrete inputs *)

#[local] Remove Hints SampleParsers : typeclass_instances.

(** The user's ten SOL, in the cache as the user's native account. *)
Definition sample_native : AccountInfo := owned_account [Byte.x00] 10000000000.
Definition sample_rich : CacheState := snd (updateCache (Some sample_user) (Some sample_native) empty_cache).
Definition sample_rich_account : UserAccount :=
  {| ua_pubkey := sample_user; ua_account := sample_native;
     ua_info := {| ti_mint := WRAPPED_SOL_MINT; ti_owner := sample_user; ti_amount := 10000000000; ti_delegate := None;
                   ti_delegatedAmount := 0; ti_isInitialized := true; ti_isFrozen := false; ti_isNative := true;
                   ti_rentExemptReserve := None; ti_closeAuthority := None |} |}.

Lemma sample_rich_reachable : rtc (typed_step sample_kind is_sample_user) empty_cache sample_rich.
Proof. apply rtc_once, (typed_native sample_kind is_sample_user); done. Qed.

Lemma sample_rich_selected : selectUserAccounts (Some sample_user) sample_rich = Ok [sample_rich_account].
Proof. reflexivity. Qed.

Lemma deposit_everything_witness :
  ∃ bal f', useUserBalance (Some (IsPublicKey WRAPPED_SOL_MINT)) None [sample_rich_account] (Some nine_decimals) = Ok bal ∧
    fst (deposit_click sample_rich true (sample_form 100) bal Actions.sample_browser) = Ok f' ∧
    (showConfirmation f' = true → ∃ from rest u,
       balance_accounts bal = from :: rest ∧ ti_owner (ua_info from) = sample_user ∧
       ti_mint (ua_info from) = WRAPPED_SOL_MINT ∧
       genericCache sample_rich !! toBase58 (ua_pubkey from) =
         Some {| pa_pubkey := ua_pubkey from; pa_account := ua_account from; pa_info := TokenInfo (ua_info from) |} ∧
       Forall (λ u, amount u <= amount from) rest ∧
       offered (snd (deposit_click sample_rich true (sample_form 100) bal Actions.sample_browser)) =
         offered Actions.sample_browser ++ [u] ∧
       deposit_tx (cached_token_accounts sample_rich) (action_account from)
         (num_of_Z (total (mint_accounts WRAPPED_SOL_MINT [sample_rich_account]) - 2 * 2039281)) Actions.sample_browser u).
Proof.
  assert (Htot : total (mint_accounts WRAPPED_SOL_MINT [sample_rich_account]) = 10000000000) by (vm_compute; reflexivity).
  apply (deposit_everything sample_kind is_sample_user sample_rich sample_user [sample_rich_account] (Some nine_decimals)
    (sample_form 100) 2039281 Actions.sample_browser).
  - apply sample_markets_typed.
  - apply sample_rich_reachable.
  - apply sample_rich_selected.
  - apply sample_mints_differ.
  - constructor; [cbn; lia|constructor].
  - rewrite Htot. lia.
  - cbn. lia.
  - by split.
  - reflexivity.
  - rewrite Htot. lia.
  - reflexivity.
Defined.

(** The user's tokens of the pool, of which the cache holds one account. *)
Lemma withdraw_everything_witness :
  ti_owner (ua_info sample_user_account) = sample_user ∧
  ∃ bal, useUserBalance sample_mint_address None [sample_user_account] (Some nine_decimals) = Ok bal ∧
    offers_at (λ _ l, l = [] ∨ ∃ u key, l = [u] ∧ wallet_publicKey (browser_world Actions.sample_browser) = Some key ∧
        (if decide (2039281 + amount sample_user_account <= 10000000000)
         then withdrawal key (action_account sample_user_account) (num_of_Z (amount sample_user_account))
                (parsed_info sample_pool) u
         else crediting key (action_account sample_user_account) (num_of_Z (amount sample_user_account))
                (parsed_info sample_pool) u))
      (withdraw_click true (sample_form 100) bal (Some sample_pool)) Actions.sample_browser.
Proof.
  apply (withdraw_everything sample_kind is_sample_user sample_loaded sample_user [sample_user_account] sample_user_account
    (Some nine_decimals) (sample_form 100) 2039281 sample_pool (owned_account [] 10000000000) 10000000000 Actions.sample_browser).
  - apply sample_markets_typed.
  - apply sample_loaded_reachable.
  - apply sample_selected.
  - unfold mint_accounts. rewrite filter_cons_True by reflexivity. reflexivity.
  - constructor; [cbn; lia|constructor].
  - vm_compute. reflexivity.
  - cbn. lia.
  - by split.
  - reflexivity.
  - lia.
  - reflexivity.
  - reflexivity.
  - lia.
Defined.
